(* ===== verification/_CoqProject ===== *)
-Q . S2P
Prelude.v
PyString.v
Csv.v
Frame.v
Numeric.v
ValueCounts.v
Series.v
Cut.v
Tables.v
Pivot.v
Describe.v
Format.v
ReadCsv.v
Binary64.v
Charts.v
Page.v
Dashboard.v
