(* ===== verification/Prelude.v ===== *)
(** * A verification development for the telecom churn dashboard

    The repository is one Streamlit script, [src/streamlit_dash/teleco_app.py].
    It reads a customer table (one row per customer), adds derived columns,
    and renders aggregate tables and charts computed with pandas.  This
    development models the aggregation layer of the script as executable
    Rocq functions.  It models the pandas operations the script calls as
    the script uses them, and it proves what the dashboard's tables mean.

    ** The program and how its parts interact

    - Loading ([load_data], lines 11-17): [pd.read_csv] tokenizes the CSV
      text, names the columns and infers a dtype for each from its
      fields.  A numeric column with one blank field becomes an [object]
      column.  The script then adds [ChurnBinary] through the map
      [{'No': 0, 'Yes': 1}] and [ChargeRange] through [pd.cut], which
      raises [TypeError] on an [object] column.
    - Derivation (lines 14-16 and 152-155): [pd.cut] puts a number into a
      right-closed interval [(lo, hi]] of a list of edges and gives that
      interval's label.  [TotalChargeRange] is added to the shared frame
      in place, inside the heatmap panel.
    - Aggregation (lines 24-92 and 124-129): [value_counts] counts the
      values of a column.  Series division aligns two Series on their
      indexes, and [.round(2)] rounds.  Tables are built from a dict of
      Series.
    - Cross-tabulation (lines 152-166): [pivot_table] with [count] and
      with the churn mean, one grid each.  The two grids are joined,
      rounded, and the churn columns are picked out by name for the
      heatmap.
    - Descriptive statistics (lines 40, 176-179): [describe], [min] and
      [max].
    - Charts (lines 94-117, 131-138, 141-148): seaborn's countplots, the
      boxplot and the regression line.  Their data (bar heights, box
      statistics, the fitted line) is modelled; the drawing is not.
    - Presentation (Streamlit layout and widgets): not modelled.

    ** Files, in dependency order

    - [Prelude] (this file): the [churn_scope] notations, the [churn]
      hint database, the tactics, and the generic lemmas on counting in
      lists that every component uses.
    - [PyString]: Python's [str.startswith], [in] and [str.replace] on
      byte strings.  [replace] is a scan with fuel, and also a
      definition by well-founded recursion on the subject (Equations).
    - [Frame]: the customer row as a [Record] with the CSV columns, each
      an [option] ([None] is pandas' NaN).  It also holds the interface
      [IndexKey]: the equality and total order that pandas needs of an
      index label.  Its instances are [string] and [Z].
    - [Numeric]: the Python float values the tables hold ([Fin q],
      [NaN], [Inf]), with division, scaling and [numpy.round] (half to
      even on [q * 10^d]).  Rationals stand for doubles here: this is the
      value the spec asks for, and [Binary64] says when the doubles of
      the code give the same.
    - [ValueCounts]: [Series.value_counts], sorted and unsorted.  Counts
      are kept in first-appearance order, then stable-sorted by
      descending count.  A categorical column counts in its category
      order.  Its abstract specification is the per-key count, and the
      refinement theorems relate the ordered list to that count.
    - [Series]: labelled Series as association lists.  It models index
      alignment in the arithmetic operators (the union index is sorted
      when the two indexes differ), element-wise division, scaling and
      rounding, and the [pd.DataFrame] constructor from a dict of Series.
    - [Cut]: [pd.cut] with its validation errors, the bins and labels of
      [ChargeRange] and [TotalChargeRange], and the [ChurnBinary] map.
    - [Tables]: the dashboard's tables: the churn distribution, the
      gender table, the five churn-by-category tables and the
      [ChargeRange] summary.
    - [Pivot]: [DataFrame.pivot_table] with [observed=True] over
      [TotalChargeRange] and [Contract], the count grid and the churn
      grid, the concat with [.round(1)], and the column selection by
      name.  The selection uses [PyString]'s [in] and [str.replace].
    - [Describe]: the column reductions with [skipna]: [mean], [min],
      [max], the [ddof=1] variance and numpy's linear [quantile].  Also
      [describe()] of line 40, the metric values of lines 24-26, and the
      [TotalCharges] summary of lines 176-179.  [describe] prints [std],
      the square root of the variance.  The root leaves Q, so the model
      keeps the variance.
    - [Format]: Python's [f"{n:,}"] and [f"{x:.2f}"] formatting of the
      metrics, and the labels [f"{lo}-{hi}"], each with a parser.
    - [Csv]: the C tokenizer of [pd.read_csv] ([tokenizer.c]) as a state
      machine over the characters: [tok_state] has its states, [tok_step]
      is one iteration of [tokenize_bytes], [tok_finish] its end of file.
      It also holds a writer in the style of [csv.writer] ([render_csv]), the
      writer the round-trip theorem reads back.
    - [ReadCsv]: the rest of [pd.read_csv] on the tokenized lines: the
      header ([Unnamed: i], the dedup loop of [_get_header]), the
      implicit index and the field-count errors, the NA strings, the
      syntax of [str_to_int64] and [precise_xstrtod], and the dtype
      inference int64, uint64, float64, bool, object ([infer_column]).
      [customers_of] turns the columns into the [customer] records and
      lists the numeric columns read as [object] ([csv_file]);
      [load_text] is [pd.read_csv] from the text.
    - [Binary64]: the percentage cells and the "Churn Rate" metric as
      the code computes them, in IEEE binary64 with Stdlib's [SpecFloat]
      ([SFdiv], [SFmul], [binary_normalize]): int64 counts converted to
      float64, [churned / total * 100], numpy's [rint] and [around]
      ([rint(x * 10^d) / 10^d] in float64), the heatmap's
      [(x == 'Yes').mean() * 100] and the mean of [ChurnBinary].
    - [Charts]: the data of the seaborn calls.  [countplot] gives one
      bar per level of [x] and of [hue='Churn'], with seaborn's
      [categorical_order] for the levels.  [boxplot_stats] follows
      matplotlib ([whis=1.5], linear quartiles, fliers), and [ols] is
      the least-squares line of [regplot].
    - [Page]: the page elements (one constructor per kind of Streamlit
      call) and the panels of the script, each a list of items: the
      columns of [df] the statements read and the element they build,
      [None] when the call raises on its data ([sns.heatmap] on an empty
      grid, [heatmap_drawable]); [snapshot_page] is the page of a frame
      when nothing raises.  [describe_numeric] is [describe()] dropping
      the [object] columns.
    - [Dashboard]: the render pass.  A rerun is the list [script] of
      statements in source order: [LoadData] (line 19, through the
      [st.cache_data] entry of line 11), one [Emit] per panel, and
      [AssignTotalChargeRange] (line 155).  [exec_step] threads a
      [global] state (the cache, a serialized value, and the number of
      reads of the file) and a [local] state (the run's [df] with its
      column names and [object] columns, and the page elements).  A read
      failure ends the run with [LoadError], a missing column with
      [MissingColumn] (the [KeyError] of [df['X']] or seaborn's
      [ValueError]), [pd.cut] on an [object] column with
      [TypeMismatch] (its [TypeError]), and [sns.heatmap] on an empty
      grid (line 166) with [PlotValueError].
      [rerun] relates the global states of successive reruns, and
      [interleave] runs two sessions that share the cache, step by step.

    ** What the theorems show

    The claims are listed in [PROJECT.json], in order of importance.
    - The counting core: a value count counts exactly the rows with that
      value.  Keys are distinct, the counts sum to the number of non-missing
      values, and the sorted result is a permutation of the unsorted one,
      sorted by descending count and stable on ties.
    - Binning: [pd.cut] agrees with the right-closed interval reference,
      rejects invalid edges and labels with pandas' errors, and is
      monotone.  It places the values of the spec's worked example.
    - Tables: churned <= total for every group.  The percentage is
      between 0 and 100, and it is NaN exactly when the group has no
      churner (or, for the categorical [ChargeRange], no row).  The
      theorems that give its value do so for groups of at most 100 rows,
      where the code's float64 value is the exact one (see Doubles).  The row
      order is the count order only when the churned counts rank the
      groups the same way; otherwise it is the sorted label order.
    - Heatmap: the two grids share rows (the observed buckets, in bucket
      order) and columns (the observed contracts, sorted).  The count
      cells add up to the rows with an id, a bucket and a contract.  A
      heatmap cell is NaN exactly for an empty cell; otherwise it is the
      rounded churn percentage, in [0, 100] (for cells of at most 79
      rows).  The renaming round-trips when no contract label contains
      "Churn"; when one does, line 162 selects its count column as a
      churn column, for every frame.
    - Statistics: in [describe()], min <= 25% <= 50% <= 75% <= max.
      The 0% and 100% quantiles are the min and the max, the mean lies
      between them, and the variance is NaN below two values and >= 0
      otherwise.  An example shows the "Churn Rate" metric disagreeing
      with the distribution table when [Churn] holds another value.
    - Strings: the thousands separator, the two-decimal format and the
      range labels round-trip through their parsers.  The two-decimal
      string reads back as numpy's [round(x, 2)] for either sign, which
      needs [rint(-x) = -rint(x)].  The three metrics show the row count,
      the rounded churn rate and the rounded mean ("nan" when undefined).
      Python's [p in s] holds exactly when [s] splits as [u + p + v], and
      [s.startswith(p)] exactly when [s] is [p + t].
    - Charts: a countplot has one group per level and one bar per [Churn]
      level, each the count of its rows, and its bars add up to the rows
      where both values are present.  The plot of [Churn] against itself
      only has diagonal bars.  A box is ordered from low whisker to high
      whisker, the whiskers stay within 1.5 IQR, and the fliers are the
      values beyond them.  The regression line, fitted with [pinv] as
      seaborn does, satisfies the normal equations for every data set.
      An example shows the line leaving [0, 1] although the axis says
      "Churn Probability".
    - Render pass: a rerun renders the page in which every panel reads
      its own snapshot of the frame and only the heatmap reads the
      bucketed one, so the in-place assignment has no other effect.
      This holds for two sessions interleaved in any order too.  A read
      failure aborts the pass before anything is rendered and is not
      cached.  Once the frame is cached, every later rerun shows it,
      whatever the file holds then.  Two sessions given enough turns
      both finish (liveness).  Every table of a finished rerun has
      distinct row labels and one cell per column.  A file that lacks a
      column the panels read (but has the two [load_data] reads) is
      cached, and this and every later rerun raise after a prefix of
      the page.  A [TotalCharges] column read as [object] is left out of
      the describe table without an error, and line 155 then ends the
      rerun with [TypeMismatch] after the heatmap heading; an [object]
      [MonthlyCharges] ends it at line 15 before anything is shown.  A
      frame whose heatmap grid is empty (every total above 9000, say)
      ends every rerun with [sns.heatmap]'s [ValueError] after the
      heading; the theorems about finished reruns assume a frame with a
      non-empty grid ([frame_ready]).
    - Reading the file: the tokenizer reads back every table
      [render_csv] writes, and [pd.read_csv] of such a table returns its
      columns under their names, each typed by [infer_column].  A field
      that is neither an integer, a number, NA nor a boolean makes its
      column [object].  A column of integer literals is [int64] when
      they fit, else [uint64] when they fit and none is negative, else
      [object], never [float64].  A file of blank lines is
      [EmptyDataError].  Examples show the implicit index and the
      field-count error.
    - Rounding: [numpy.round] is within half a unit of the last place,
      monotone, and keeps [0, 100] inside [0, 100].
    - Doubles: counts below [2^53] convert to float64 exactly.  For a
      group of at most 100 rows the percentage cell the code computes in
      float64 is the exact model's cell read as a double, and the metric
      string is the exact one (a refinement of the code's floats by the
      exact model on that range); a heatmap cell of at most 79 rows
      likewise.  The "Churn Rate" metric computed in float64 is
      100 * #Yes / (#Yes + #No) printed with two decimals, rows with
      another [Churn] value left out.  At 23 churned rows of 160 they part: the exact 14.375
      rounds to 14.38, the double [23 / 160 * 100] lies just below it
      and the page shows 14.37; a heatmap cell with 23 churned rows of
      80 shows 28.7 for the exact 28.75, which rounds to 28.8.

    ** Bounds and fuel

    Every function here is structurally recursive except [str.replace].
    [PyString.py_replace_fuel] runs on fuel, the length of the subject
    string: each step consumes at least one character.
    [py_replace_fuel_adequate] proves that this fuel is enough: with a
    non-empty pattern and at least that much fuel, the scan equals
    [py_replace_wf], defined by well-founded recursion on the length.
    The interleaving of two sessions runs on a finite schedule;
    [interleave_finishes] says how many turns each session needs.
    Counts are [nat] (pandas' int64 cannot overflow on a table that fits
    in memory) and rates are exact rationals.  Their conversion to
    float64 is exact below [2^53] ([Binary64.b64_of_Z_exact]).  The
    agreement of the float64 percentages with the exact ones is proved
    by exhaustive checks, decided by [vm_compute], over the 5050 pairs
    (churned, total) with [total <= 100] for [.round(2)] and the 3240
    with [total <= 79] for the heatmap's [.round(1)].  The doubles and the
    exact values differ at totals 80 (heatmap) and 160 (tables); the
    totals 101-159, where the tables still agree, are left out of the
    check to keep the kernel re-check short.

    The header loop of [_get_header] ([ReadCsv.mangle_loop]) runs on
    fuel, the length of the header plus one.  Each pass of pandas'
    [while] loop moves to a new candidate name.  That this fuel is always
    enough is not proved; on a header of distinct names the loop is not
    entered ([header_names_distinct]), and that is the case the theorems
    use.

    ** Not modelled

    The Streamlit layout ([st.columns]) and the matplotlib/seaborn
    drawing (the data drawn is modelled in [Charts]); of [pd.read_csv],
    the options the script does not pass, the rounding to binary of
    [precise_xstrtod] (a field is read as the decimal its first 17
    digits write)
    and files whose values the [customer] record cannot hold (a
    [CitizensStatus] of strings, say), which [load_text] reports as
    [OutsideModel]; describe's
    [std], kept as its square because the square root leaves Q; and the
    floating-point rounding error of the means, the quantiles, the
    variance and the regression line, which stay exact rationals (only
    the percentages and the churn rate are also modelled in binary64). *)

From stdpp Require Export base list decidable sorting list_numbers sets.
From Stdlib Require Export QArith Qround Lqa ZArith Lia.
Open Scope nat_scope.

Declare Scope churn_scope.
Delimit Scope churn_scope with churn.

(** ** Counting in lists *)

(** [count_if p l] is the number of elements of [l] satisfying [p]: the
    shape of every [len(df[mask])] and [sum(mask)] of the script. *)
Definition count_if {A} (p : A -> bool) (l : list A) : nat :=
  length (List.filter p l).

Notation "#[ x 'in' l | P ]" := (count_if (fun x => P) l)
  (at level 0, x binder, l at level 200, P at level 200) : churn_scope.

Open Scope churn_scope.

Create HintDb churn discriminated.
Create Rewrite HintDb churn_rw.

Section count_if.
Context {A : Type}.
Implicit Types (p q : A -> bool) (l : list A).

Lemma count_if_nil p : count_if p [] = 0.
Proof. reflexivity. Qed.

Lemma count_if_cons p x l :
  count_if p (x :: l) = (if p x then 1 else 0) + count_if p l.
Proof. unfold count_if. simpl. by destruct (p x). Qed.

Lemma count_if_app p l1 l2 :
  count_if p (l1 ++ l2) = count_if p l1 + count_if p l2.
Proof.
  induction l1 as [|x l1 IH]; [done|]. simpl app. rewrite !count_if_cons, IH. lia.
Qed.

Lemma count_if_le_length p l : count_if p l <= length l.
Proof.
  induction l as [|x l IH]; [done|]. rewrite count_if_cons. simpl. destruct (p x); lia.
Qed.

Lemma count_if_impl p q l :
  (forall x, p x = true -> q x = true) -> count_if p l <= count_if q l.
Proof.
  intros H. induction l as [|x l IH]; [done|].
  rewrite !count_if_cons. specialize (H x). destruct (p x), (q x); naive_solver lia.
Qed.

Lemma count_if_ext p q l :
  (forall x, x ∈ l -> p x = q x) -> count_if p l = count_if q l.
Proof.
  intros H. induction l as [|x l IH]; [done|].
  rewrite !count_if_cons, H, IH; set_solver.
Qed.

Lemma count_if_false p l :
  (forall x, x ∈ l -> p x = false) -> count_if p l = 0.
Proof.
  intros H. induction l as [|x l IH]; [done|].
  rewrite count_if_cons, H, IH; set_solver.
Qed.

Lemma count_if_pos p l x : x ∈ l -> p x = true -> 0 < count_if p l.
Proof.
  induction l as [|y l IH]; [set_solver|]. rewrite count_if_cons.
  intros [->|Hin]%elem_of_cons Hp; [rewrite Hp; lia|].
  specialize (IH Hin Hp). lia.
Qed.

Lemma count_if_split p q l :
  count_if p l = count_if (fun x => p x && q x) l + count_if (fun x => p x && negb (q x)) l.
Proof.
  induction l as [|x l IH]; [done|]. rewrite !count_if_cons, IH.
  destruct (p x), (q x); simpl; lia.
Qed.

Lemma count_if_filter p q l :
  count_if p (List.filter q l) = count_if (fun x => q x && p x) l.
Proof.
  induction l as [|x l IH]; [done|]. simpl List.filter.
  destruct (q x) eqn:E; rewrite !count_if_cons, ?IH, ?E; simpl; done.
Qed.

Lemma count_if_orb_disjoint p q l :
  (forall x, p x = true -> q x = false) ->
  count_if (fun x => p x || q x) l = count_if p l + count_if q l.
Proof.
  intros Hd. induction l as [|x l IH]; [done|]. rewrite !count_if_cons, IH.
  specialize (Hd x). destruct (p x), (q x); simpl; naive_solver lia.
Qed.
End count_if.

(** [List.filter] (the boolean filter of the Standard Library) in stdpp's
    membership vocabulary. *)
Lemma elem_of_List_filter {A} (f : A -> bool) (l : list A) x :
  x ∈ List.filter f l <-> x ∈ l /\ f x = true.
Proof. rewrite !list_elem_of_In. apply filter_In. Qed.

Lemma NoDup_List_filter {A} (f : A -> bool) (l : list A) : NoDup l -> NoDup (List.filter f l).
Proof.
  induction l as [|x l IH]; simpl; [done|]. rewrite NoDup_cons. intros [Hx Hl].
  destruct (f x); [|by apply IH]. apply NoDup_cons. split; [|by apply IH].
  rewrite elem_of_List_filter. naive_solver.
Qed.

Lemma List_filter_nil {A} (f : A -> bool) (l : list A) :
  (forall x, x ∈ l -> f x = false) -> List.filter f l = [].
Proof.
  induction l as [|x l IH]; simpl; intros Hf; [done|].
  rewrite Hf by set_solver. apply IH. set_solver.
Qed.

Lemma sum_list_with_ext {A} (f g : A -> nat) (l : list A) :
  (forall x, x ∈ l -> f x = g x) -> sum_list_with f l = sum_list_with g l.
Proof.
  induction l as [|x l IH]; simpl; intros Hfg; [done|].
  rewrite Hfg, IH by set_solver. done.
Qed.

Lemma zip_with_map_same {A B C D} (f : A -> B) (g : A -> C) (h : B -> C -> D) (l : list A) :
  zip_with h (map f l) (map g l) = map (fun x => h (f x) (g x)) l.
Proof. induction l as [|x l IH]; simpl; [done|]. by rewrite IH. Qed.

Lemma Forall_zip_r {A B} (Q : B -> Prop) (l1 : list A) (l2 : list B) :
  Forall Q l2 -> Forall (fun p => Q p.2) (zip l1 l2).
Proof.
  revert l2. induction l1 as [|x l1 IH]; intros [|y l2] Hl; simpl; try constructor.
  - by inversion Hl.
  - apply IH. by inversion Hl.
Qed.

(** A property of every right argument carries over to [zip_with]. *)
Lemma Forall_zip_with_r {A B C} (P : C -> Prop) (Q : B -> Prop) (f : A -> B -> C)
      (l1 : list A) (l2 : list B) :
  (forall x y, Q y -> P (f x y)) -> Forall Q l2 -> Forall P (zip_with f l1 l2).
Proof.
  intros Hf. revert l2. induction l1 as [|x l1 IH]; intros [|y l2] Hl; simpl; try constructor.
  - apply Hf. by inversion Hl.
  - apply IH. by inversion Hl.
Qed.

(** Reading the positions [length l1, ..., length l1 + length l2 - 1] of
    [l1 ++ l2] gives back [l2]. *)
Lemma omap_lookup_seq_app {A} (l1 l2 : list A) :
  omap (fun m => (l1 ++ l2) !! m) (seq (length l1) (length l2)) = l2.
Proof.
  revert l1. induction l2 as [|x l2 IH]; intros l1; [done|]. simpl.
  rewrite lookup_app_r, Nat.sub_diag by lia. simpl. f_equal.
  replace (l1 ++ x :: l2) with ((l1 ++ [x]) ++ l2) by by rewrite <- app_assoc.
  replace (S (length l1)) with (length (l1 ++ [x])) by (rewrite length_app; simpl; lia).
  apply IH.
Qed.

(** Filtering [0 .. len - 1] by a test that only [n] passes. *)
Lemma List_filter_seq_unique (f : nat -> bool) (len n : nat) :
  n < len -> (forall m, f m = true <-> m = n) -> List.filter f (seq 0 len) = [n].
Proof.
  intros Hn Hf. replace len with (n + (1 + (len - S n))) by lia.
  rewrite !seq_app, !List.filter_app. simpl.
  rewrite !List_filter_nil; [rewrite (proj2 (Hf n)) by done; done| |];
    intros m Hm%elem_of_seq; apply not_true_iff_false; rewrite Hf; lia.
Qed.

Lemma List_filter_all {A} (f : A -> bool) (l : list A) :
  (forall x, x ∈ l -> f x = true) -> List.filter f l = l.
Proof.
  induction l as [|x l IH]; simpl; intros Hf; [done|].
  rewrite Hf by set_solver. f_equal. apply IH. set_solver.
Qed.

Lemma lookup_map_Some {A B} (f : A -> B) (l : list A) (k : nat) (y : B) :
  map f l !! k = Some y <-> exists x, l !! k = Some x /\ y = f x.
Proof.
  change (map f l) with (f <$> l). rewrite list_lookup_fmap.
  destruct (l !! k); simpl; naive_solver.
Qed.

Lemma sum_list_with_map {A B} (f : B -> nat) (g : A -> B) (l : list A) :
  sum_list_with f (map g l) = sum_list_with (fun x => f (g x)) l.
Proof. induction l as [|x l IH]; simpl; [done|]. by rewrite IH. Qed.

Lemma sum_list_with_join {A} (f : A -> nat) (ls : list (list A)) :
  sum_list_with f (mjoin ls) = sum_list_with (sum_list_with f) ls.
Proof. induction ls as [|l ls IH]; simpl; [done|]. by rewrite sum_list_with_app, IH. Qed.

Lemma List_filter_sublist {A} (f : A -> bool) (l : list A) : List.filter f l `sublist_of` l.
Proof.
  induction l as [|x l IH]; simpl; [done|].
  destruct (f x); [by apply sublist_skip|by apply sublist_cons].
Qed.

Lemma existsb_elem_of {A} (f : A -> bool) (l : list A) :
  existsb f l = true <-> exists x, x ∈ l /\ f x = true.
Proof. rewrite existsb_exists. by setoid_rewrite list_elem_of_In. Qed.

Lemma elem_of_List_map {A B} (f : A -> B) (l : list A) y :
  y ∈ map f l <-> exists x, y = f x /\ x ∈ l.
Proof. rewrite list_elem_of_In, in_map_iff. setoid_rewrite list_elem_of_In. naive_solver. Qed.

#[export] Hint Rewrite @count_if_nil @count_if_cons @count_if_app : churn_rw.
#[export] Hint Resolve count_if_le_length count_if_impl : churn.

(** [sum_list_with] over an appended or filtered list. *)
Lemma sum_list_with_filter_le {A} (f : A -> nat) (p : A -> bool) l :
  sum_list_with f (List.filter p l) <= sum_list_with f l.
Proof.
  induction l as [|x l IH]; [done|]. simpl.
  destruct (p x); simpl; lia.
Qed.

(** ** Booleans of the rationals *)

Lemma Qle_bool_true (x y : Q) : Qle_bool x y = true <-> (x <= y)%Q.
Proof. apply Qle_bool_iff. Qed.

Lemma Qle_bool_false (x y : Q) : Qle_bool x y = false <-> (y < x)%Q.
Proof.
  split; intros H.
  - apply Qnot_le_lt. intros Hle. apply Qle_bool_iff in Hle. congruence.
  - destruct (Qle_bool x y) eqn:E; [|done]. apply Qle_bool_iff in E. lra.
Qed.

(** [Qlt_bool x y] is [x < y] as a boolean, the comparison pandas makes. *)
Definition Qlt_bool (x y : Q) : bool := negb (Qle_bool y x).

Lemma Qlt_bool_true (x y : Q) : Qlt_bool x y = true <-> (x < y)%Q.
Proof.
  unfold Qlt_bool. rewrite negb_true_iff, Qle_bool_false. done.
Qed.

Lemma Qlt_bool_false (x y : Q) : Qlt_bool x y = false <-> (y <= x)%Q.
Proof.
  unfold Qlt_bool. rewrite negb_false_iff, Qle_bool_true. done.
Qed.

(** [qbool] turns every comparison boolean of the rationals in the
    hypotheses and the goal into its proposition. *)
Ltac qbool :=
  repeat match goal with
  | H : Qle_bool _ _ = true |- _ => apply Qle_bool_true in H
  | H : Qle_bool _ _ = false |- _ => apply Qle_bool_false in H
  | H : Qlt_bool _ _ = true |- _ => apply Qlt_bool_true in H
  | H : Qlt_bool _ _ = false |- _ => apply Qlt_bool_false in H
  | |- Qle_bool _ _ = true => apply Qle_bool_true
  | |- Qle_bool _ _ = false => apply Qle_bool_false
  | |- Qlt_bool _ _ = true => apply Qlt_bool_true
  | |- Qlt_bool _ _ = false => apply Qlt_bool_false
  end.

(** [case_q] splits on every comparison boolean that appears in the goal. *)
Ltac case_q :=
  repeat match goal with
  | |- context [Qle_bool ?x ?y] => destruct (Qle_bool x y) eqn:?
  | |- context [Qlt_bool ?x ?y] => destruct (Qlt_bool x y) eqn:?
  end; qbool.

Lemma Q_of_nat_nonneg (n : nat) : (0 <= inject_Z (Z.of_nat n))%Q.
Proof. change 0%Q with (inject_Z 0). rewrite <- Zle_Qle. lia. Qed.

Lemma Q_of_nat_le (m n : nat) : (m <= n)%nat -> (inject_Z (Z.of_nat m) <= inject_Z (Z.of_nat n))%Q.
Proof. intros H. rewrite <- Zle_Qle. lia. Qed.

#[export] Hint Resolve Q_of_nat_nonneg Q_of_nat_le : churn.

(** [zq] pushes [inject_Z] through sums and products and names the
    constants 0 and 1, so that [lra] sees linear rational arithmetic. *)
Ltac zq :=
  repeat progress (rewrite ?inject_Z_plus, ?inject_Z_mult, ?inject_Z_opp in * );
  try change (inject_Z 1) with 1%Q in *;
  try change (inject_Z 0) with 0%Q in *.

(** ** Association lists

    A pandas Series with a unique index is an association list from its
    labels to its values, in index order.  [lookup_key k s] is [s[k]] when [k]
    is in the index. *)
Fixpoint lookup_key {K V} `{EqDecision K} (k : K) (s : list (K * V)) : option V :=
  match s with
  | [] => None
  | (k', v) :: t => if decide (k = k') then Some v else lookup_key k t
  end.

Section lookup_key.
Context {K V : Type} `{EqDecision K}.
Implicit Types (s : list (K * V)).

Lemma lookup_key_None k s : k ∉ s.*1 -> lookup_key k s = None.
Proof.
  induction s as [|[k' v] s IH]; [done|]. simpl. intros Hn.
  case_decide; [subst; set_solver|]. apply IH. set_solver.
Qed.

Lemma lookup_key_Some_in k v s : lookup_key k s = Some v -> (k, v) ∈ s.
Proof.
  induction s as [|[k' v'] s IH]; [done|]. simpl.
  case_decide; [intros [= ->]; subst; set_solver|]. set_solver.
Qed.

Lemma lookup_key_in k v s : NoDup s.*1 -> (k, v) ∈ s -> lookup_key k s = Some v.
Proof.
  induction s as [|[k' v'] s IH]; [set_solver|]. simpl.
  rewrite NoDup_cons. intros [Hn Hnd] [[= -> ->]|Hin]%elem_of_cons.
  - by rewrite decide_True.
  - rewrite decide_False; [by apply IH|].
    intros Hk. apply Hn. rewrite <- Hk. apply list_elem_of_fmap. by exists (k, v).
Qed.

Lemma lookup_key_is_Some k s : is_Some (lookup_key k s) <-> k ∈ s.*1.
Proof.
  induction s as [|[k' v] s IH]; simpl.
  - split; [by intros []|set_solver].
  - case_decide as Hk.
    + rewrite Hk. split; [set_solver|eauto].
    + rewrite IH. set_solver.
Qed.

Lemma lookup_key_Permutation k s1 s2 :
  NoDup s1.*1 -> s1 ≡ₚ s2 -> lookup_key k s1 = lookup_key k s2.
Proof.
  intros Hnd Hp.
  assert (Hnd2 : NoDup s2.*1) by (by rewrite <- Hp).
  destruct (lookup_key k s1) as [v|] eqn:E.
  - symmetry. apply lookup_key_in; [done|]. rewrite <- Hp. by apply lookup_key_Some_in.
  - symmetry. apply lookup_key_None. rewrite <- Hp.
    intros Hin. apply lookup_key_is_Some in Hin. rewrite E in Hin. by destruct Hin.
Qed.

Lemma lookup_key_map_fn (f : K -> V) (l : list K) k :
  lookup_key k (map (fun j => (j, f j)) l) = if decide (k ∈ l) then Some (f k) else None.
Proof.
  induction l as [|j l IH]; cbn [map lookup_key].
  - rewrite decide_False; [done|]. set_solver.
  - destruct (decide (k = j)) as [->|Hk]; cbv iota.
    + rewrite decide_True; [done|]. set_solver.
    + rewrite IH. destruct (decide (k ∈ l)).
      * rewrite decide_True; [done|]. set_solver.
      * rewrite decide_False; [done|]. set_solver.
Qed.

Lemma lookup_key_map_snd {W} (g : V -> W) s k :
  lookup_key k (map (fun p => (p.1, g p.2)) s) = g <$> lookup_key k s.
Proof.
  induction s as [|[j v] s IH]; simpl; [done|]. by destruct (decide (k = j)).
Qed.

Lemma fmap_fst_map_snd {W} (g : V -> W) s : (map (fun p => (p.1, g p.2)) s).*1 = s.*1.
Proof. induction s as [|[j v] s IH]; simpl; [done|]. by f_equal. Qed.

Lemma elem_of_map_pair (f : K -> V) (l : list K) k v :
  (k, v) ∈ map (fun j => (j, f j)) l <-> k ∈ l /\ v = f k.
Proof.
  rewrite !list_elem_of_In, in_map_iff. split.
  - intros (j & [= -> ->] & Hj). done.
  - intros [Hk ->]. by exists k.
Qed.

Lemma fmap_fst_map_fn (f : K -> V) (l : list K) : (map (fun j => (j, f j)) l).*1 = l.
Proof. induction l as [|j l IH]; simpl; [done|]. by f_equal. Qed.
End lookup_key.
