(* ===== verification/PyString.v ===== *)
(** * Python's string operations on column names

    Lines 159-163 of [teleco_app.py] build and select column names with
    three [str] operations: [s.startswith(p)] (inside [in] and
    [replace]), [p in s] (line 162) and [s.replace(old, new)] (line 163).
    They are modelled on Rocq's byte strings.
    - [py_replace_fuel] is the scan of CPython's [replace]: at each
      position, an occurrence of [old] is replaced and skipped, otherwise
      one character is copied.  Its fuel is the length of the subject.
    - [py_replace_wf] is the same scan by well-founded recursion on the
      length of the subject (Equations), with CPython's rule for an empty
      [old] too: [new] is inserted before every character and at the end.
    The theorems show that the fuel is enough: for a non-empty [old],
    the fuel-bounded scan equals the well-founded one.  [py_contains] and
    [py_startswith] are proved equal to their reference definitions by
    decomposition of the subject. *)

From S2P Require Import Prelude.
From stdpp Require Import strings.
From Equations Require Import Equations.

(** ** Operations *)

(** [s.startswith(p)] *)
Fixpoint py_startswith (p s : string) : bool :=
  match p, s with
  | EmptyString, _ => true
  | String a p', String b s' => bool_decide (a = b) && py_startswith p' s'
  | String _ _, EmptyString => false
  end.

(** [p in s] *)
Fixpoint py_contains (p s : string) : bool :=
  py_startswith p s ||
  match s with EmptyString => false | String _ s' => py_contains p s' end.

(** [s.replace(old, new)] for a non-empty [old]: left to right, without
    overlaps.  The fuel is the length of [s], which bounds the steps. *)
Fixpoint py_replace_fuel (fuel : nat) (old new s : string) : string :=
  match fuel with
  | O => s
  | S f =>
      match s with
      | EmptyString => EmptyString
      | String c s' =>
          if py_startswith old s
          then new +:+ py_replace_fuel f old new (String.substring (String.length old)
                                                    (String.length s - String.length old) s)
          else String c (py_replace_fuel f old new s')
      end
  end.

Definition py_replace (old new s : string) : string :=
  py_replace_fuel (String.length s) old new s.

(** [s[n:n+m]] has at most [m] characters. *)
Lemma substring_length_le (n m : nat) (t : string) : String.length (String.substring n m t) <= m.
Proof.
  revert t. induction n as [|n IHn]; intros t.
  - revert m; induction t as [|b t IHt]; intros [|m]; simpl; try lia. specialize (IHt m). lia.
  - destruct t as [|b t]; simpl; [lia|]. apply IHn.
Qed.

(** [s.replace(old, new)] by well-founded recursion on the length of the
    subject.  A matched occurrence is skipped whole ([old] is not empty
    there), so the rest is shorter.  With an empty [old], CPython puts
    [new] before each character and at the end. *)
Equations? py_replace_wf (old new s : string) : string by wf (String.length s) lt :=
  py_replace_wf EmptyString new EmptyString := new;
  py_replace_wf EmptyString new (String c s') := new +:+ String c (py_replace_wf EmptyString new s');
  py_replace_wf (String a o) new EmptyString := EmptyString;
  py_replace_wf (String a o) new (String c s') with py_startswith (String a o) (String c s') := {
    | true := new +:+ py_replace_wf (String a o) new
                (String.substring (String.length (String a o))
                   (String.length (String c s') - String.length (String a o)) (String c s'));
    | false := String c (py_replace_wf (String a o) new s') }.
Proof.
  all: cbn [String.length String.substring]; try lia.
  pose proof (substring_length_le (String.length o) (String.length s' - String.length o) s'). lia.
Qed.

(** ** Lemmas *)

Lemma list_ascii_of_string_app (s1 s2 : string) :
  String.list_ascii_of_string (s1 +:+ s2) =
  String.list_ascii_of_string s1 ++ String.list_ascii_of_string s2.
Proof. induction s1 as [|a s1 IH]; simpl; [done|]. by f_equal. Qed.

Lemma string_app_inj_r (s c1 c2 : string) : c1 +:+ s = c2 +:+ s -> c1 = c2.
Proof.
  intros E. apply (f_equal String.list_ascii_of_string) in E.
  rewrite !list_ascii_of_string_app in E. apply app_inv_tail in E.
  rewrite <- (String.string_of_list_ascii_of_string c1), <- (String.string_of_list_ascii_of_string c2).
  by rewrite E.
Qed.

Lemma py_contains_app_r (p s t : string) : py_contains p s = true -> py_contains p (t +:+ s) = true.
Proof. induction t as [|a t IH]; simpl; [done|]. intros Hs. rewrite IH by done. apply orb_true_r. Qed.

Lemma py_startswith_cons a p b s :
  py_startswith (String a p) (String b s) = bool_decide (a = b) && py_startswith p s.
Proof. reflexivity. Qed.

Lemma py_contains_cons p b s :
  py_contains p (String b s) = py_startswith p (String b s) || py_contains p s.
Proof. reflexivity. Qed.

Lemma string_app_cons a s t : String a s +:+ t = String a (s +:+ t).
Proof. reflexivity. Qed.

Lemma py_replace_fuel_cons f old new c s :
  py_replace_fuel (S f) old new (String c s) =
  if py_startswith old (String c s)
  then new +:+ py_replace_fuel f old new (String.substring (String.length old)
                                           (String.length (String c s) - String.length old) (String c s))
  else String c (py_replace_fuel f old new s).
Proof. reflexivity. Qed.

(** One character of the pattern against one of the subject. *)
Ltac split_char :=
  match goal with
  | |- bool_decide (?c = ?b) && _ = false =>
      let E := fresh "E" in
      destruct (bool_decide (c = b)) eqn:E; [apply bool_decide_eq_true in E; subst b|reflexivity]
  end; rewrite andb_true_l.


(** ** Reference definitions *)

(** [s.startswith(p)] holds exactly when [s] is [p] followed by
    something. *)
Theorem py_startswith_spec (p s : string) :
  py_startswith p s = true <-> exists t, s = p +:+ t.
Proof.
  revert s. induction p as [|a p IH]; intros s; [split; eauto|].
  destruct s as [|b s]; simpl.
  - split; [discriminate|]. by intros [t ?].
  - rewrite andb_true_iff, bool_decide_eq_true, IH. split.
    + intros [-> [t ->]]. eauto.
    + intros [t [=-> ->]]. eauto.
Qed.

(** Python's [p in s] (line 162) holds exactly when [p] occurs in
    [s]: [s] splits as [u + p + v]. *)
Theorem py_contains_spec (p s : string) :
  py_contains p s = true <-> exists u v, s = u +:+ p +:+ v.
Proof.
  induction s as [|b s IH].
  - unfold py_contains. rewrite orb_false_r, py_startswith_spec. split.
    + intros [t E]. exists "", t. done.
    + intros ([|c u] & v & E); [eauto|discriminate].
  - rewrite py_contains_cons, orb_true_iff, py_startswith_spec, IH. split.
    + intros [[t E]|(u & v & ->)]; [exists "", t; done|]. exists (String b u), v. done.
    + intros ([|c u] & v & E); [left; eauto|]. injection E as -> ->. right; eauto.
Qed.

(** ** The fuel of [str.replace] *)

(** The fuel of [py_replace] is enough: for a non-empty [old] and
    any fuel at least the length of the subject, the fuel-bounded scan
    returns what the well-founded [str.replace] returns.  In particular
    line 163 ([py_replace]) never runs out of fuel. *)
Theorem py_replace_fuel_adequate (fuel : nat) (old new s : string) :
  old <> "" -> String.length s <= fuel ->
  py_replace_fuel fuel old new s = py_replace_wf old new s.
Proof.
  destruct old as [|a o]; [congruence|]. intros _. revert s.
  induction fuel as [|f IH]; intros s Hl.
  - destruct s; simpl in Hl; [|lia]. by simp py_replace_wf.
  - destruct s as [|c s]; [by simp py_replace_wf|].
    rewrite py_replace_fuel_cons. simp py_replace_wf.
    destruct (py_startswith (String a o) (String c s)); simpl; f_equal; [|f_equal]; apply IH.
    + pose proof (substring_length_le (String.length o) (String.length s - String.length o) s).
      simpl in *. lia.
    + simpl in Hl. lia.
Qed.

Lemma py_replace_fuel_adequate_witness :
  " Churn %" <> "" /\ String.length "One year Churn %" <= 16 /\
  py_replace_fuel 16 " Churn %" "" "One year Churn %" = py_replace_wf " Churn %" "" "One year Churn %".
Proof.
  split; [discriminate|]. split; [simpl; lia|].
  apply py_replace_fuel_adequate; [discriminate|simpl; lia].
Defined.
