(* ===== verification/Csv.v ===== *)
(** * The CSV tokenizer of [pd.read_csv] (line 13)

    [pd.read_csv("telecom_churned_data.csv")] splits the file into lines
    and fields with pandas' C tokenizer ([tokenizer.c], [tokenize_bytes])
    under the default dialect: [,] separates fields, the double quote [quote] quotes a field
    (a doubled quote inside stands for one quote), [\n], [\r\n] and [\r]
    end a line, blank lines and lines of spaces and tabs only are
    skipped, and no comment, escape or [skipinitialspace] is set.

    The tokenizer is a state machine over the characters of the file:
    [tok_state] has its states ([START_RECORD], [WHITESPACE_LINE],
    [START_FIELD], [IN_FIELD], [IN_QUOTED_FIELD],
    [QUOTE_IN_QUOTED_FIELD], [EAT_CRNL], [EAT_CRNL_NOP]) and [tok_step]
    is one iteration of its loop.  [WHITESPACE_LINE] keeps the spaces
    it has read: where [tokenize_bytes] moves its buffer back to the
    start of the line and reads it again from [START_FIELD], [tok_step]
    replays them.  [tok_finish] is [parser_handle_eof]: end of input
    inside a quoted field is pandas' [ParserError] "EOF inside string".

    [render_csv] is a writer in the style of Python's [csv.writer] with
    minimal quoting, used to state what the tokenizer reads back.  It is
    not code of the repository and differs from [csv.writer] in two
    places: lines end with [\n] (not [\r\n]), and a row of a single
    field of spaces only is quoted ([csv.writer] quotes only a single
    empty field, and pandas would skip the unquoted line as blank).
    [tokenize_render] shows the tokenizer reads back every list of
    non-empty rows it writes. *)

From S2P Require Import Prelude.
From stdpp Require Import strings.
From Stdlib Require Import Ascii.

(** ** Characters *)

Definition lf : ascii := "010".
Definition cr : ascii := "013".
Definition tab : ascii := "009".
Definition quote : ascii := "034".
Definition comma : ascii := ",".

(** [IS_WHITESPACE]: a space or a tab. *)
Definition is_ws (c : ascii) : bool := (c =? " ")%char || (c =? tab)%char.

(** ** The tokenizer *)

Inductive tok_state :=
| StartRecord
| WhitespaceLine (pending : list ascii)
| StartField
| InField
| InQuotedField
| QuoteInQuotedField
| EatCrnl
| EatCrnlNop.

(** The parser's state, its current field (reversed), the fields of the
    current line (reversed) and the lines read so far (reversed). *)
Record tokenizer := mkTok {
  tstate : tok_state;
  tfield : list ascii;
  tfields : list string;
  tlines : list (list string)
}.

Definition with_state (s : tok_state) (t : tokenizer) : tokenizer :=
  mkTok s (tfield t) (tfields t) (tlines t).

(** [PUSH_CHAR] *)
Definition push_char (c : ascii) (t : tokenizer) : tokenizer :=
  mkTok (tstate t) (c :: tfield t) (tfields t) (tlines t).

(** [END_FIELD] *)
Definition end_field (t : tokenizer) : tokenizer :=
  mkTok (tstate t) [] (String.string_of_list_ascii (rev (tfield t)) :: tfields t) (tlines t).

(** [END_LINE]: the line is stored, the next one starts. *)
Definition end_line (t : tokenizer) : tokenizer :=
  mkTok StartRecord (tfield t) [] (rev (tfields t) :: tlines t).

(** [case START_FIELD] *)
Definition start_field (t : tokenizer) (c : ascii) : tokenizer :=
  if (c =? lf)%char then end_line (end_field t)
  else if (c =? cr)%char then with_state EatCrnl (end_field t)
  else if (c =? quote)%char then with_state InQuotedField t
  else if (c =? comma)%char then with_state StartField (end_field t)
  else with_state InField (push_char c t).

(** [case IN_FIELD]: a quote inside an unquoted field is kept. *)
Definition in_field (t : tokenizer) (c : ascii) : tokenizer :=
  if (c =? lf)%char then end_line (end_field t)
  else if (c =? cr)%char then with_state EatCrnl (end_field t)
  else if (c =? comma)%char then with_state StartField (end_field t)
  else push_char c t.

(** [case START_RECORD] with [skip_blank_lines=True]: an empty line is
    skipped, a line starting with a space or a tab may be blank. *)
Definition start_record (t : tokenizer) (c : ascii) : tokenizer :=
  if (c =? lf)%char then t
  else if (c =? cr)%char then with_state EatCrnlNop t
  else if is_ws c then with_state (WhitespaceLine [c]) t
  else start_field t c.

(** One iteration of [tokenize_bytes]. *)
Definition tok_step (t : tokenizer) (c : ascii) : tokenizer :=
  match tstate t with
  | StartRecord => start_record t c
  | WhitespaceLine p =>
      if (c =? lf)%char then with_state StartRecord t
      else if (c =? cr)%char then with_state EatCrnlNop t
      else if is_ws c then with_state (WhitespaceLine (p ++ [c])) t
      else in_field (with_state InField (foldl (fun t c => push_char c t) t p)) c
  | StartField => start_field t c
  | InField => in_field t c
  | InQuotedField => if (c =? quote)%char then with_state QuoteInQuotedField t else push_char c t
  | QuoteInQuotedField =>
      if (c =? quote)%char then with_state InQuotedField (push_char c t)
      else if (c =? comma)%char then with_state StartField (end_field t)
      else if (c =? lf)%char then end_line (end_field t)
      else if (c =? cr)%char then with_state EatCrnl (end_field t)
      else with_state InField (push_char c t)
  | EatCrnl =>
      if (c =? lf)%char then end_line t
      else if (c =? comma)%char then with_state StartField (end_field (end_line t))
      else start_record (end_line t) c
  | EatCrnlNop =>
      if (c =? lf)%char then with_state StartRecord t
      else if (c =? comma)%char then with_state StartRecord t
      else start_record (with_state StartRecord t) c
  end.

(** The errors of the tokenizer. *)
Inductive tok_error :=
| EOFInString.   (* "EOF inside string starting at row ..." *)

(** [parser_handle_eof] *)
Definition tok_finish (t : tokenizer) : tok_error + list (list string) :=
  match tstate t with
  | StartRecord | WhitespaceLine _ | EatCrnlNop => inr (rev (tlines t))
  | InQuotedField => inl EOFInString
  | StartField | InField | QuoteInQuotedField => inr (rev (tlines (end_line (end_field t))))
  | EatCrnl => inr (rev (tlines (end_line t)))
  end.

Definition tok_init : tokenizer := mkTok StartRecord [] [] [].

Definition tokenize (s : string) : tok_error + list (list string) :=
  tok_finish (foldl tok_step tok_init (String.list_ascii_of_string s)).

(** ** Writing rows *)

(** The characters that make the writer quote a field, as in
    [csv.writer]'s [QUOTE_MINIMAL]. *)
Definition special (c : ascii) : bool :=
  (c =? comma)%char || (c =? quote)%char || (c =? lf)%char || (c =? cr)%char.

Definition quote_field (f : list ascii) : list ascii :=
  quote :: mjoin (map (fun c => if (c =? quote)%char then [quote; quote] else [c]) f) ++ [quote].

Definition render_field (f : string) : list ascii :=
  let l := String.list_ascii_of_string f in
  if existsb special l then quote_field l else l.

(** Fields joined by commas. *)
Fixpoint join_fields (fs : list (list ascii)) : list ascii :=
  match fs with
  | [] => []
  | [f] => f
  | f :: fs' => f ++ comma :: join_fields fs'
  end.

(** A row is its fields joined by commas and a newline; a row of one
    field of spaces only (or empty) is quoted, or it would read as a
    blank line ([csv.writer] quotes it only when it is empty). *)
Definition render_row (r : list string) : list ascii :=
  match r with
  | [f] => if forallb is_ws (String.list_ascii_of_string f)
           then quote_field (String.list_ascii_of_string f) else render_field f
  | _ => join_fields (map render_field r)
  end ++ [lf].

Definition render_csv (rows : list (list string)) : string :=
  String.string_of_list_ascii (mjoin (map render_row rows)).

(** ** Reading back what is written *)

Definition escape (l : list ascii) : list ascii :=
  mjoin (map (fun c => if (c =? quote)%char then [quote; quote] else [c]) l).

Lemma escape_cons (c : ascii) (cs : list ascii) :
  escape (c :: cs) = (if (c =? quote)%char then [quote; quote] else [c]) ++ escape cs.
Proof. reflexivity. Qed.

(** The line so far with the field [f] ended. *)
Definition field_done (f : string) (t : tokenizer) : tokenizer :=
  mkTok (tstate t) [] (f :: tfields t) (tlines t).

Lemma special_false (c : ascii) : special c = false ->
  (c =? comma)%char = false /\ (c =? quote)%char = false /\ (c =? lf)%char = false /\ (c =? cr)%char = false.
Proof. unfold special. rewrite !orb_false_iff. naive_solver. Qed.

Lemma ws_special (c : ascii) : is_ws c = true -> special c = false.
Proof. unfold is_ws, special. by destruct c as [[] [] [] [] [] [] [] []]. Qed.

Lemma ws_not_lf_cr (c : ascii) : is_ws c = true -> (c =? lf)%char = false /\ (c =? cr)%char = false.
Proof. intros H%ws_special%special_false. naive_solver. Qed.

Lemma foldl_push_char (p : list ascii) (t : tokenizer) :
  foldl (fun t c => push_char c t) t p = mkTok (tstate t) (rev p ++ tfield t) (tfields t) (tlines t).
Proof.
  revert t. induction p as [|c p IH]; intros t; [by destruct t|].
  cbn [foldl]. rewrite IH. simpl. by rewrite <- app_assoc.
Qed.

(** Characters that are not special extend an unquoted field. *)
Lemma run_in_field (cs : list ascii) (t : tokenizer) :
  tstate t = InField -> Forall (fun c => special c = false) cs ->
  foldl tok_step t cs = mkTok InField (rev cs ++ tfield t) (tfields t) (tlines t).
Proof.
  intros Hs Hcs. revert t Hs. induction Hcs as [|c cs Hc _ IH]; intros t Hs; [by destruct t; simpl in *; subst|].
  apply special_false in Hc as (H1 & H2 & H3 & H4).
  cbn [foldl]. unfold tok_step at 2. rewrite Hs. unfold in_field. rewrite H1, H3, H4.
  rewrite IH by done. simpl. by rewrite <- app_assoc.
Qed.

(** The escaped body of a quoted field. *)
Lemma run_quoted_body (cs : list ascii) (t : tokenizer) :
  tstate t = InQuotedField ->
  foldl tok_step t (escape cs) = mkTok InQuotedField (rev cs ++ tfield t) (tfields t) (tlines t).
Proof.
  revert t. induction cs as [|c cs IH]; intros t Hs; [by destruct t; simpl in *; subst|].
  rewrite escape_cons, foldl_app.
  destruct (c =? quote)%char eqn:Hq.
  - apply Ascii.eqb_eq in Hq. subst c. cbn [foldl]. unfold tok_step at 2 3. rewrite Hs. simpl.
    rewrite IH by done. simpl. by rewrite <- app_assoc.
  - cbn [foldl]. unfold tok_step at 2. rewrite Hs, Hq. rewrite IH by done. simpl. by rewrite <- app_assoc.
Qed.

Lemma string_of_rev_rev (f : string) :
  String.string_of_list_ascii (rev (rev (String.list_ascii_of_string f) ++ [])) = f.
Proof. by rewrite app_nil_r, rev_involutive, String.string_of_list_ascii_of_string. Qed.

(** The separator after a field: a comma starts the next field, a
    newline ends the line. *)
Definition after_sep (sep : ascii) (t : tokenizer) : tokenizer :=
  if (sep =? comma)%char then with_state StartField t else end_line t.

(** A quoted field and its separator, read from the start of a field. *)
Lemma run_quoted (l : list ascii) (sep : ascii) (t : tokenizer) :
  tstate t = StartField -> tfield t = [] -> sep = comma \/ sep = lf ->
  foldl tok_step t (quote_field l ++ [sep]) = after_sep sep (field_done (String.string_of_list_ascii l) t).
Proof.
  intros Hs Hf Hsep. destruct t as [st fl fs ls]; simpl in Hs, Hf; subst.
  unfold quote_field. fold (escape l). cbn [app foldl]. rewrite !foldl_app.
  cbn [foldl tok_step tstate start_field]. simpl.
  rewrite run_quoted_body by done. cbn [foldl tok_step tstate]. simpl.
  destruct Hsep as [-> | ->]; unfold tok_step, with_state, end_field, end_line, after_sep, field_done; cbn;
    by rewrite app_nil_r, rev_involutive.
Qed.

(** A written field and its separator, read from the start of a field. *)
Lemma run_field (f : string) (sep : ascii) (t : tokenizer) :
  tstate t = StartField -> tfield t = [] -> sep = comma \/ sep = lf ->
  foldl tok_step t (render_field f ++ [sep]) = after_sep sep (field_done f t).
Proof.
  intros Hs Hf Hsep. destruct t as [st fl fs ls]; simpl in Hs, Hf; subst.
  unfold render_field. set (l := String.list_ascii_of_string f).
  destruct (existsb special l) eqn:Hsp.
  - rewrite run_quoted by auto. subst l. by rewrite String.string_of_list_ascii_of_string.
  - assert (Hl : Forall (fun c => special c = false) l).
    { apply Forall_forall. intros c Hc%list_elem_of_In. destruct (special c) eqn:E; [|done].
      exfalso. apply not_true_iff_false in Hsp. apply Hsp, existsb_exists. eauto. }
    destruct l as [|c cs] eqn:El.
    + destruct Hsep as [-> | ->]; simpl; unfold after_sep, field_done, end_field, end_line; simpl;
        rewrite <- (String.string_of_list_ascii_of_string f); fold l; by rewrite El.
    + apply Forall_cons in Hl as [Hc Hcs]. pose proof (special_false c Hc) as (H1 & H2 & H3 & H4).
      cbn [app foldl]. unfold tok_step at 2. simpl. unfold start_field. rewrite H1, H2, H3, H4.
      rewrite foldl_app, (run_in_field cs) by done. simpl.
      destruct Hsep as [-> | ->]; simpl; unfold after_sep, field_done, end_field, end_line; simpl;
        rewrite <- (String.string_of_list_ascii_of_string f); fold l; rewrite El;
        unfold tok_step, in_field, with_state, end_field, end_line; cbn;
        by rewrite rev_app_distr, rev_involutive.
Qed.

(** A line read from [START_FIELD] until its newline. *)
Lemma run_fields (r : list string) (t : tokenizer) :
  r <> [] -> tstate t = StartField -> tfield t = [] ->
  foldl tok_step t (join_fields (map render_field r) ++ [lf]) =
  end_line (mkTok StartField [] (rev r ++ tfields t) (tlines t)).
Proof.
  revert t. induction r as [|f [|f2 r] IH]; intros t Hr Hs Hf; [done| |].
  - cbn [map join_fields]. rewrite run_field by auto. by destruct t; simpl in *; subst.
  - cbn [map join_fields]. fold (join_fields (map render_field (f2 :: r))).
    rewrite <- app_assoc, <- app_comm_cons.
    change (comma :: ?l) with ([comma] ++ l). rewrite app_assoc, foldl_app, run_field by auto.
    unfold after_sep. simpl. rewrite IH by done. destruct t; simpl in *; subst.
    by rewrite <- !app_assoc.
Qed.

(** [START_FIELD] does not look at the state it is entered in. *)
Lemma start_field_with_state (s : tok_state) (t : tokenizer) (c : ascii) :
  start_field (with_state s t) c = start_field t c.
Proof. unfold start_field. by repeat case_match. Qed.

Lemma run_ws_line (p q : list ascii) (t : tokenizer) :
  Forall (fun c => is_ws c = true) p ->
  foldl tok_step (with_state (WhitespaceLine q) t) p = with_state (WhitespaceLine (q ++ p)) t.
Proof.
  intros Hp. revert q. induction Hp as [|c p Hc _ IH]; intros q; [by rewrite app_nil_r|].
  destruct (ws_not_lf_cr c Hc) as [H1 H2]. cbn [foldl]. unfold tok_step at 2. simpl.
  rewrite H1, H2, Hc. change (with_state (WhitespaceLine (q ++ [c])) (with_state (WhitespaceLine q) t))
    with (with_state (WhitespaceLine (q ++ [c])) t). rewrite IH. by rewrite <- app_assoc.
Qed.

(** The input from the start of a line reaches a character other than a
    space, a tab or a line end. *)
Definition line_start_ok (s : list ascii) : Prop :=
  exists p c rest, s = p ++ c :: rest /\ Forall (fun c => is_ws c = true) p /\
    is_ws c = false /\ (c =? lf)%char = false /\ (c =? cr)%char = false.

(** Such a line is read as if it started at [START_FIELD]: the spaces
    [WHITESPACE_LINE] held back are read again. *)
Lemma run_start_record (s : list ascii) (t : tokenizer) :
  tstate t = StartRecord -> tfield t = [] -> line_start_ok s ->
  foldl tok_step t s = foldl tok_step (with_state StartField t) s.
Proof.
  intros Hs Hf (p & c & rest & -> & Hp & Hw & Hlf & Hcr).
  destruct p as [|p0 p].
  - cbn [app foldl]. f_equal. unfold tok_step. rewrite Hs. simpl.
    unfold start_record. rewrite Hlf, Hcr, Hw. by rewrite start_field_with_state.
  - apply Forall_cons in Hp as [Hp0 Hp]. destruct (ws_not_lf_cr p0 Hp0) as [H1 H2].
    destruct (special_false p0 (ws_special p0 Hp0)) as (G1 & G2 & G3 & G4).
    assert (E1 : tok_step t p0 = with_state (WhitespaceLine [p0]) t)
      by (unfold tok_step; rewrite Hs; unfold start_record; by rewrite H1, H2, Hp0).
    assert (E2 : tok_step (with_state StartField t) p0 = mkTok InField [p0] (tfields t) (tlines t))
      by (unfold tok_step; simpl; unfold start_field; rewrite G1, G2, G3, G4;
          destruct t; simpl in *; by subst).
    cbn [app foldl]. rewrite !foldl_app, E1, E2, run_ws_line by done.
    rewrite (run_in_field p) by (done || (eapply Forall_impl; [exact Hp|]; intros; by apply ws_special)).
    cbn [foldl]. f_equal. unfold tok_step. simpl. rewrite Hlf, Hcr, Hw, foldl_push_char.
    destruct t; simpl in *; by subst.
Qed.

Lemma ws_split (l : list ascii) :
  Forall (fun c => is_ws c = true) l \/
  exists p c rest, l = p ++ c :: rest /\ Forall (fun c => is_ws c = true) p /\ is_ws c = false.
Proof.
  induction l as [|c l [IH|(p & d & rest & -> & Hp & Hd)]]; [by left| |].
  - destruct (is_ws c) eqn:Hc; [by left; constructor|right]. exists [], c, l. auto.
  - destruct (is_ws c) eqn:Hc; right; [exists (c :: p), d, rest | exists [], c, (p ++ d :: rest)]; auto.
Qed.

Lemma line_start_quote (s : list ascii) : line_start_ok (quote :: s).
Proof. exists [], quote, s. auto. Qed.

Lemma line_start_ok_app (l s : list ascii) : line_start_ok l -> line_start_ok (l ++ s).
Proof.
  intros (p & c & rest & -> & H). exists p, c, (rest ++ s). split; [|done]. by rewrite <- app_assoc.
Qed.

Lemma line_start_plain (l s : list ascii) :
  Forall (fun c => special c = false) l -> ~ Forall (fun c => is_ws c = true) l ->
  line_start_ok (l ++ s).
Proof.
  intros Hl Hnw. apply line_start_ok_app.
  destruct (ws_split l) as [|(p & c & rest & -> & Hp & Hc)]; [done|].
  apply Forall_app in Hl as [_ (Hsc & _)%Forall_cons].
  destruct (special_false c Hsc) as (_ & _ & H3 & H4). by exists p, c, rest.
Qed.

Lemma line_start_ws_comma (l s : list ascii) :
  Forall (fun c => is_ws c = true) l -> line_start_ok (l ++ comma :: s).
Proof. intros Hl. by exists l, comma, s. Qed.

Lemma render_field_cases (f : string) :
  (exists s, render_field f = quote :: s) \/
  (render_field f = String.list_ascii_of_string f /\
   Forall (fun c => special c = false) (String.list_ascii_of_string f)).
Proof.
  unfold render_field. destruct (existsb special _) eqn:E; [left; by eexists|right; split; [done|]].
  apply Forall_forall. intros c Hc%list_elem_of_In. destruct (special c) eqn:Ec; [|done].
  exfalso. apply not_true_iff_false in E. apply E, existsb_exists. eauto.
Qed.

Lemma forallb_ws (l : list ascii) : forallb is_ws l = true <-> Forall (fun c => is_ws c = true) l.
Proof. rewrite forallb_forall, Forall_forall. setoid_rewrite list_elem_of_In. done. Qed.

(** Every written row starts a line the tokenizer reads from a field. *)
Lemma render_row_start (r : list string) : r <> [] -> line_start_ok (render_row r).
Proof.
  intros Hr. destruct r as [|f [|f2 r]]; [done| |].
  - unfold render_row. destruct (forallb is_ws _) eqn:Hw.
    + apply line_start_quote.
    + destruct (render_field_cases f) as [[s' ->]|[-> Hsp]]; [apply line_start_quote|].
      apply line_start_plain; [done|]. rewrite <- forallb_ws. congruence.
  - unfold render_row. cbn [map join_fields]. rewrite <- app_assoc.
    destruct (render_field_cases f) as [[s' ->]|[-> Hsp]]; [apply line_start_quote|].
    destruct (forallb is_ws (String.list_ascii_of_string f)) eqn:Hw.
    + apply line_start_ws_comma, forallb_ws, Hw.
    + apply line_start_plain; [done|]. rewrite <- forallb_ws. congruence.
Qed.

(** A written row read from the start of a line. *)
Lemma run_row (r : list string) (t : tokenizer) :
  r <> [] -> tstate t = StartRecord -> tfield t = [] -> tfields t = [] ->
  foldl tok_step t (render_row r) = mkTok StartRecord [] [] (r :: tlines t).
Proof.
  intros Hr Hs Hf Hfs. rewrite run_start_record by auto using render_row_start.
  assert (Hend : end_line (mkTok StartField [] (rev r ++ tfields t) (tlines t)) =
                 mkTok StartRecord [] [] (r :: tlines t))
    by (unfold end_line; simpl; by rewrite Hfs, app_nil_r, rev_involutive).
  destruct r as [|f [|f2 r]]; [done| |].
  - unfold render_row. destruct (forallb is_ws _) eqn:Hw.
    + rewrite run_quoted by (simpl; auto). rewrite String.string_of_list_ascii_of_string.
      rewrite <- Hend. unfold after_sep, field_done. by destruct t; simpl in *; subst.
    + change (render_field f) with (join_fields (map render_field [f])).
      rewrite run_fields by (simpl; auto). done.
  - unfold render_row. rewrite run_fields by (simpl; auto). done.
Qed.

(** A blank line, or a line of spaces and tabs only, is skipped: the
    tokenizer is back at [START_RECORD] with nothing read. *)
Lemma skip_blank_line (p : list ascii) (t : tokenizer) :
  tstate t = StartRecord -> Forall (fun c => is_ws c = true) p -> foldl tok_step t (p ++ [lf]) = t.
Proof.
  intros Hs Hp. destruct t as [st f fs ls]; simpl in Hs; subst st.
  destruct Hp as [|c p Hc Hp].
  - reflexivity.
  - destruct (ws_not_lf_cr c Hc) as [H1 H2]. cbn [app foldl]. unfold tok_step at 2. simpl.
    unfold start_record. rewrite H1, H2, Hc. rewrite foldl_app, run_ws_line by done. reflexivity.
Qed.

Lemma skip_blank_lines (lines : list (list ascii)) (t : tokenizer) :
  tstate t = StartRecord -> Forall (Forall (fun c => is_ws c = true)) lines ->
  foldl tok_step t (mjoin (map (fun l => l ++ [lf]) lines)) = t.
Proof.
  intros Hs. induction 1 as [|l lines Hl _ IH]; [done|].
  change (mjoin (map (fun l => l ++ [lf]) (l :: lines)))
    with ((l ++ [lf]) ++ mjoin (map (fun l => l ++ [lf]) lines)).
  rewrite foldl_app, skip_blank_line by done. exact IH.
Qed.

Lemma tokenize_render_rows (rows : list (list string)) :
  Forall (fun r => r <> []) rows -> tokenize (render_csv rows) = inr rows.
Proof.
  intros Hrows. unfold tokenize, render_csv. rewrite String.list_ascii_of_string_of_list_ascii.
  assert (H : forall ls, foldl tok_step (mkTok StartRecord [] [] ls) (mjoin (map render_row rows)) =
                         mkTok StartRecord [] [] (rev rows ++ ls)).
  { induction Hrows as [|r rows Hr _ IH]; intros ls; [done|].
    change (mjoin (map render_row (r :: rows))) with (render_row r ++ mjoin (map render_row rows)).
    rewrite foldl_app, run_row, IH by done. simpl. by rewrite <- app_assoc. }
  unfold tok_init. rewrite H. cbn [tok_finish tstate tlines]. by rewrite app_nil_r, rev_involutive.
Qed.

(** C35: [pd.read_csv]'s tokenizer reads back every list of non-empty
    rows that [render_csv] writes with minimal quoting: fields with a
    comma, a quote or a line break are quoted with doubled quotes, and
    a row of one blank field is quoted so that it is not skipped as a
    blank line. *)
Theorem tokenize_render (rows : list (list string)) :
  Forall (fun r => r <> []) rows -> tokenize (render_csv rows) = inr rows.
Proof. apply tokenize_render_rows. Qed.

(** ** Examples *)

Example tokenize_quoted :
  tokenize (String.string_of_list_ascii
              (["a"; ","; "b"; lf; quote; "x"; ","; "y"; quote; ","; quote; quote; quote; quote; lf]%char)) =
  inr [["a"; "b"]; ["x,y"; String quote EmptyString]].
Proof. reflexivity. Qed.

(** After a [\r] line end, a comma ends the line and an empty first
    field of the next one ([END_LINE_AND_FIELD_STATE(START_FIELD)]). *)
Example tokenize_cr_comma :
  tokenize (String.string_of_list_ascii (["a"; cr; ","; "b"; lf]%char)) = inr [["a"]; [""; "b"]].
Proof. reflexivity. Qed.

Lemma tokenize_render_witness :
  Forall (fun r => r <> []) [["a"; "b,c"]; [" "]; [String quote "x"]] /\
  tokenize (render_csv [["a"; "b,c"]; [" "]; [String quote "x"]]) = inr [["a"; "b,c"]; [" "]; [String quote "x"]].
Proof.
  assert (H : Forall (fun r => r <> []) [["a"; "b,c"]; [" "]; [String quote "x"]])
    by (repeat constructor; discriminate).
  split; [exact H|exact (tokenize_render _ H)].
Defined.
