(* ===== verification/Frame.v ===== *)
(** * The customer frame and the index-label interface

    The rows of the DataFrame [df] of [teleco_app.py].  [customer] holds
    the CSV columns the script reads.  [row] adds the columns that
    [load_data] (lines 14-16) and the heatmap panel (line 155) assign.
    Every cell is an [option]: [None] is pandas' NaN, an empty CSV cell or
    an unmapped value.

    [IndexKey] is what pandas needs of an index label: a decidable
    equality (for hashing and alignment) and a total order (for the sort
    of a union index).  The aggregation files are generic over it.  The
    [string] and [Z] instances are the label types of the script's columns. *)

From S2P Require Import Prelude.
From stdpp Require Import strings.

(** ** Rows *)

(** The CSV columns read by the script (line 13). *)
Record customer := mkCustomer {
  customerID : option string;
  gender : option string;
  CitizensStatus : option Z;
  tenure : option Z;
  Contract : option string;
  TechSupport : option string;
  InternetService : option string;
  PaymentMethod : option string;
  MonthlyCharges : option Q;
  TotalCharges : option Q;
  Churn : option string
}.

(** A row of [df] after derivation: the CSV columns and the derived ones. *)
Record row := mkRow {
  raw : customer;
  ChurnBinary : option Z;
  ChargeRange : option string;
  TotalChargeRange : option string
}.

(** [df['Churn'] == 'Yes']: the mask of the churned subset (NaN compares
    unequal). *)
Definition is_yes (c : option string) : bool :=
  match c with Some s => bool_decide (s = "Yes"%string) | None => false end.

(** [df[df['Churn'] == 'Yes']] *)
Definition churned_rows (df : list row) : list row :=
  List.filter (fun r => is_yes (Churn (raw r))) df.

(** [df[df['Churn'] == 'No']] *)
Definition not_churned_rows (df : list row) : list row :=
  List.filter (fun r => bool_decide (Churn (raw r) = Some "No"%string)) df.

(** ** Index labels *)

(** The interface of an index label: decidable equality and a decidable
    total order. *)
Class IndexKey (K : Type) := {
  key_eq_dec :: EqDecision K;
  key_le : relation K;
  key_le_dec :: RelDecision key_le;
  key_le_po :: PartialOrder key_le;
  key_le_total :: Total key_le
}.

#[export] Instance string_IndexKey : IndexKey string := {
  key_le := String.le
}.

#[export] Instance Z_IndexKey : IndexKey Z := {
  key_le := Z.le
}.

Section keys.
Context `{IndexKey K}.

Lemma key_le_refl (x : K) : key_le x x.
Proof. apply key_le_po. Qed.

Lemma key_le_trans (x y z : K) : key_le x y -> key_le y z -> key_le x z.
Proof. apply key_le_po. Qed.

Lemma key_le_antisym (x y : K) : key_le x y -> key_le y x -> x = y.
Proof. apply key_le_po. Qed.

#[global] Instance key_le_Transitive : Transitive (@key_le K _).
Proof. intros x y z. apply key_le_trans. Qed.

#[global] Instance key_le_AntiSymm : AntiSymm (=) (@key_le K _).
Proof. intros x y. apply key_le_antisym. Qed.
End keys.
