(* ===== verification/Numeric.v ===== *)
(** * Python floats and numpy rounding

    The values in the script's tables are Python floats: a count after
    alignment, a quotient [churned / total], a product [* 100].  A
    [pyfloat] is a finite value (an exact rational), NaN or an infinity.
    The arithmetic follows IEEE 754 on these three kinds: [0/0] and
    [inf/inf] are NaN, [x/0] is an infinity for [x <> 0], and NaN
    propagates.  Zeros are positive (the operands are counts).

    [rint] is numpy's round-half-to-even.  [round_dec d] is numpy's
    [around(x, d) = rint(x * 10^d) / 10^d], used by [Series.round] and
    [DataFrame.round] (lines 34, 57-91, 127, 160). *)

From S2P Require Import Prelude.

Inductive pyfloat :=
| Fin (q : Q)
| NaN
| Inf (negative : bool).

#[export] Instance pyfloat_inhabited : Inhabited pyfloat := populate NaN.

(** Structural equality of the representations, so that a table can be
    compared cell by cell by computation. *)
#[export] Instance Q_eq_dec : EqDecision Q.
Proof. solve_decision. Defined.

#[export] Instance pyfloat_eq_dec : EqDecision pyfloat.
Proof. solve_decision. Defined.

(** An integer count as a float. *)
Definition of_nat (n : nat) : pyfloat := Fin (inject_Z (Z.of_nat n)).

Definition is_nan (x : pyfloat) : bool :=
  match x with NaN => true | _ => false end.

(** The sign of a nonzero rational, as IEEE's sign bit. *)
Definition q_neg (x : Q) : bool := Qlt_bool x 0.

(** [a / b] *)
Definition fdiv (a b : pyfloat) : pyfloat :=
  match a, b with
  | Fin x, Fin y =>
      if Qeq_bool y 0 then (if Qeq_bool x 0 then NaN else Inf (q_neg x))
      else Fin (x / y)
  | Fin _, Inf _ => Fin 0
  | Inf s, Fin y => Inf (xorb s (q_neg y))
  | _, _ => NaN
  end.

(** [a * b] *)
Definition fmul (a b : pyfloat) : pyfloat :=
  match a, b with
  | Fin x, Fin y => Fin (x * y)
  | Fin x, Inf s | Inf s, Fin x =>
      if Qeq_bool x 0 then NaN else Inf (xorb s (q_neg x))
  | Inf s, Inf t => Inf (xorb s t)
  | _, _ => NaN
  end.


(** ** numpy's rint: round half to even *)

Definition rint (q : Q) : Z :=
  let f := Qfloor q in
  match ((q - inject_Z f) ?= (1 # 2))%Q with
  | Lt => f
  | Gt => (f + 1)%Z
  | Eq => if Z.even f then f else (f + 1)%Z
  end.

(** [10^d] as a positive denominator. *)
Fixpoint pow10 (d : nat) : positive :=
  match d with O => 1%positive | S d' => (10 * pow10 d')%positive end.

(** [numpy.around(q, d)] for [d >= 0]. *)
Definition round_dec (d : nat) (q : Q) : Q :=
  rint (q * inject_Z (Zpos (pow10 d))) # pow10 d.

(** [.round(d)] on one cell: NaN and infinities are left unchanged. *)
Definition fround (d : nat) (x : pyfloat) : pyfloat :=
  match x with Fin q => Fin (round_dec d q) | _ => x end.

(** [a + b] *)
Definition fadd (a b : pyfloat) : pyfloat :=
  match a, b with
  | Fin x, Fin y => Fin (x + y)
  | Fin _, Inf s | Inf s, Fin _ => Inf s
  | Inf s, Inf t => if Bool.eqb s t then Inf s else NaN
  | _, _ => NaN
  end.

(** [s.sum()] with pandas' default [skipna=True]: the NaN cells are
    dropped and the sum of nothing is [0]. *)
Definition fsum (l : list pyfloat) : pyfloat :=
  foldl fadd (Fin 0) (List.filter (fun x => negb (is_nan x)) l).

(** ** Lemmas *)

Lemma inject_Z_plus_eq (a b : Z) : (inject_Z a + inject_Z b)%Q = inject_Z (a + b).
Proof. unfold Qplus, inject_Z; simpl. by rewrite !Z.mul_1_r. Qed.

Lemma fadd_of_nat (m n : nat) : fadd (of_nat m) (of_nat n) = of_nat (m + n).
Proof. unfold of_nat; simpl. by rewrite inject_Z_plus_eq, Nat2Z.inj_add. Qed.

(** The count a cell holds, [0] for NaN. *)
Definition cell_count (x : pyfloat) : nat :=
  match x with Fin q => Z.to_nat (Qnum q) | _ => 0 end.

Lemma cell_count_of_nat (n : nat) : cell_count (of_nat n) = n.
Proof. simpl. apply Nat2Z.id. Qed.

(** Summing cells that are counts or NaN gives the total count. *)
Lemma fsum_cells (l : list pyfloat) :
  Forall (fun x => x = NaN \/ exists n, x = of_nat n) l ->
  fsum l = of_nat (sum_list_with cell_count l).
Proof.
  unfold fsum. change (Fin 0) with (of_nat 0).
  enough (Hk : forall k, Forall (fun x => x = NaN \/ exists n, x = of_nat n) l ->
            foldl fadd (of_nat k) (List.filter (fun x => negb (is_nan x)) l) =
            of_nat (k + sum_list_with cell_count l)) by apply Hk.
  induction l as [|x l IH]; intros k Hl; [by rewrite Nat.add_0_r|].
  apply Forall_cons in Hl as [[-> | [n ->]] Hl]; cbn [List.filter sum_list_with]; simpl (is_nan _);
    cbn [negb foldl]; rewrite ?fadd_of_nat, IH, ?cell_count_of_nat by done; f_equal; simpl; lia.
Qed.

Lemma rint_cases (q : Q) :
  let f := Qfloor q in
  (rint q = f \/ rint q = (f + 1)%Z) /\
  (q - inject_Z f < 1 # 2 -> rint q = f)%Q /\
  (1 # 2 < q - inject_Z f -> rint q = (f + 1)%Z)%Q.
Proof.
  unfold rint. cbv zeta.
  destruct (Qcompare_spec (q - inject_Z (Qfloor q)) (1 # 2)) as [H|H|H];
    [destruct (Z.even (Qfloor q))| |]; repeat split; intros; try lra; auto.
Qed.

Lemma Qfloor_bounds (q : Q) :
  (inject_Z (Qfloor q) <= q /\ q < inject_Z (Qfloor q) + 1)%Q.
Proof.
  split; [apply Qfloor_le|].
  pose proof (Qlt_floor q) as H. rewrite inject_Z_plus in H. exact H.
Qed.

Lemma pow10_pos (d : nat) : (0 < inject_Z (Zpos (pow10 d)))%Q.
Proof. change 0%Q with (inject_Z 0). rewrite <- Zlt_Qlt. lia. Qed.

Lemma round_dec_eq (d : nat) (q : Q) :
  (round_dec d q == inject_Z (rint (q * inject_Z (Zpos (pow10 d)))) / inject_Z (Zpos (pow10 d)))%Q.
Proof.
  unfold round_dec, Qdiv, Qeq. simpl. destruct (rint _); simpl; lia.
Qed.

#[export] Hint Resolve pow10_pos : churn.

Lemma Qfloor_unique (q : Q) (z : Z) :
  (inject_Z z <= q < inject_Z z + 1)%Q -> Qfloor q = z.
Proof.
  intros [H1 H2]. destruct (Qfloor_bounds q) as [F1 F2].
  assert (A : (Qfloor q < z + 1)%Z).
  { rewrite Zlt_Qlt, inject_Z_plus. change (inject_Z 1) with 1%Q. lra. }
  assert (B : (z < Qfloor q + 1)%Z).
  { rewrite Zlt_Qlt, inject_Z_plus. change (inject_Z 1) with 1%Q. lra. }
  lia.
Qed.

(** [rint] is an integer within one half of its argument. *)
Lemma rint_error (q : Q) :
  (inject_Z (rint q) - (1 # 2) <= q <= inject_Z (rint q) + (1 # 2))%Q.
Proof.
  destruct (rint_cases q) as [Hc [Hlt Hgt]]. cbv zeta in *.
  destruct (Qfloor_bounds q) as [F1 F2].
  destruct (Qcompare_spec (q - inject_Z (Qfloor q)) (1 # 2)) as [H|H|H].
  - destruct Hc as [-> | ->]; zq; split; lra.
  - rewrite Hlt by lra. split; lra.
  - rewrite Hgt by lra. zq. split; lra.
Qed.

Lemma rint_Z (z : Z) : rint (inject_Z z) = z.
Proof.
  unfold rint. rewrite Qfloor_Z.
  replace ((inject_Z z - inject_Z z) ?= (1 # 2))%Q with Lt; [done|].
  symmetry. apply (proj1 (Qlt_alt _ _)). lra.
Qed.

(** [rint] depends on the value of its argument, not on its
    representation. *)
#[export] Instance rint_proper : Proper (Qeq ==> eq) rint.
Proof.
  intros q1 q2 E.
  assert (F : Qfloor q1 = Qfloor q2).
  { apply Z.le_antisymm; apply Qfloor_resp_le; rewrite E; apply Qle_refl. }
  unfold rint. rewrite F, E. reflexivity.
Qed.

#[export] Instance round_dec_proper (d : nat) : Proper (Qeq ==> eq) (round_dec d).
Proof. intros q1 q2 E. unfold round_dec. by rewrite E. Qed.

(** numpy's rounding is symmetric: [round(-x) = -round(x)]. *)
Lemma rint_opp (x : Q) : rint (- x) = (- rint x)%Z.
Proof.
  set (f := Qfloor x). pose proof (Qfloor_bounds x) as [F1 F2]. fold f in F1, F2.
  destruct (Qeq_dec x (inject_Z f)) as [Ex|Ex].
  - assert (Ex' : (- x == inject_Z (- f))%Q) by (rewrite inject_Z_opp, Ex; reflexivity).
    by rewrite Ex', Ex, !rint_Z.
  - assert (Hfx : (inject_Z f < x)%Q).
    { apply Qle_lt_or_eq in F1 as [?|E]; [done|]. by symmetry in E. }
    assert (Fn : Qfloor (- x) = (- (f + 1))%Z) by (apply Qfloor_unique; zq; lra).
    unfold rint. rewrite Fn. fold f.
    destruct (Qcompare_spec (x - inject_Z f) (1 # 2)) as [H|H|H];
      destruct (Qcompare_spec (- x - inject_Z (- (f + 1))) (1 # 2)) as [H'|H'|H'];
      zq; try lra; try lia.
    rewrite Z.even_opp, Z.even_add. destruct (Z.even f); simpl; lia.
Qed.

Lemma rint_mono (q1 q2 : Q) : (q1 <= q2)%Q -> (rint q1 <= rint q2)%Z.
Proof.
  intros Hq. pose proof (Qfloor_resp_le _ _ Hq) as Hf.
  destruct (rint_cases q1) as [C1 [L1 G1]], (rint_cases q2) as [C2 [L2 G2]].
  cbv zeta in *.
  destruct (Z.eq_dec (Qfloor q1) (Qfloor q2)) as [E|E]; [|lia].
  destruct (Qcompare_spec (q1 - inject_Z (Qfloor q1)) (1 # 2)) as [H1|H1|H1].
  - destruct (Qcompare_spec (q2 - inject_Z (Qfloor q2)) (1 # 2)) as [H2|H2|H2].
    + unfold rint. rewrite <- E. apply Qeq_alt in H1. rewrite E in H1 |- *.
      apply Qeq_alt in H2. rewrite H1, H2. lia.
    + rewrite E in H1. lra.
    + rewrite (G2 H2). lia.
  - rewrite (L1 H1). lia.
  - rewrite E in H1. rewrite (G1 ltac:(rewrite E; lra)), (G2 ltac:(lra)). lia.
Qed.

(** [rint] rounds a tie to the even neighbour, as numpy does:
    2.5 rounds to 2 and 3.5 to 4, not half up. *)
Lemma rint_half_even (z : Z) :
  rint (inject_Z z + (1 # 2)) = if Z.even z then z else (z + 1)%Z.
Proof.
  assert (F : Qfloor (inject_Z z + (1 # 2)) = z) by (apply Qfloor_unique; lra).
  unfold rint. rewrite F.
  replace ((inject_Z z + (1 # 2) - inject_Z z) ?= (1 # 2))%Q with Eq; [done|].
  symmetry. apply (proj1 (Qeq_alt _ _)). lra.
Qed.

(** The error of [round_dec d] is at most half a unit of the last
    kept place: [|round(q, d) - q| * 10^d <= 1/2]. *)
Lemma round_dec_error (d : nat) (q : Q) :
  (- (1 # 2) <= (round_dec d q - q) * inject_Z (Zpos (pow10 d)) <= 1 # 2)%Q.
Proof.
  pose proof (pow10_pos d) as P.
  set (p := inject_Z (Zpos (pow10 d))) in *.
  pose proof (rint_error (q * p)) as [E1 E2].
  assert (Eq : ((round_dec d q - q) * p == inject_Z (rint (q * p)) - q * p)%Q).
  { rewrite round_dec_eq. fold p. field. lra. }
  rewrite Eq. split; lra.
Qed.

Lemma round_dec_mono (d : nat) (q1 q2 : Q) :
  (q1 <= q2)%Q -> (round_dec d q1 <= round_dec d q2)%Q.
Proof.
  intros H. unfold round_dec, Qle. simpl.
  apply Z.mul_le_mono_pos_r; [lia|].
  apply rint_mono. apply Qmult_le_compat_r; [done|].
  apply Qlt_le_weak, pow10_pos.
Qed.

Lemma round_dec_Z (d : nat) (z : Z) : (round_dec d (inject_Z z) == inject_Z z)%Q.
Proof.
  unfold round_dec. rewrite <- inject_Z_mult, rint_Z.
  unfold Qeq. simpl. lia.
Qed.

Lemma round_dec_within (d : nat) (a b : Z) (q : Q) :
  (inject_Z a <= q <= inject_Z b)%Q ->
  (inject_Z a <= round_dec d q <= inject_Z b)%Q.
Proof.
  intros [Ha Hb]. split.
  - rewrite <- (round_dec_Z d a). by apply round_dec_mono.
  - rewrite <- (round_dec_Z d b). by apply round_dec_mono.
Qed.

(** Rounding keeps a value that lies between two integers between
    them: a percentage in [0, 100] stays in [0, 100] after [.round(d)]. *)
Lemma round_dec_bounds (d : nat) (a b : Z) (q : Q) :
  (inject_Z a <= q <= inject_Z b)%Q ->
  (inject_Z a <= round_dec d q <= inject_Z b)%Q.
Proof. apply round_dec_within. Qed.

Lemma round_dec_bounds_witness :
  (inject_Z 0 <= 100 # 3 <= inject_Z 100)%Q /\
  (inject_Z 0 <= round_dec 2 (100 # 3) <= inject_Z 100)%Q.
Proof.
  assert (H : (inject_Z 0 <= 100 # 3 <= inject_Z 100)%Q) by (split; vm_compute; discriminate).
  split; [exact H|]. exact (round_dec_bounds 2 0 100 _ H).
Defined.

(** numpy's [round(0.125, 2)] is 0.12 and [round(0.375, 2)] is 0.38 on the
    exact values: ties go to even. *)
Example round_dec_ties :
  round_dec 2 (1 # 8) = (12 # 100)%Q /\ round_dec 2 (3 # 8) = (38 # 100)%Q.
Proof. split; reflexivity. Qed.
