(* ===== verification/ValueCounts.v ===== *)
(** * [Series.value_counts]

    [value_counts()] (lines 33, 47-49, 55-56, 63-64, 72-73, 80-81, 88-89)
    counts every non-missing value of a column.  pandas builds the
    counts in a hash table that keeps keys in order of first appearance.
    It then sorts them by descending count.  The sort is stable: pandas'
    [nargsort] reverses, sorts ascending and reverses back, so ties keep
    their first-appearance order.  NaN cells are dropped ([dropna=True]).

    [value_counts(sort=False)] on a categorical column (line 124, 126)
    lists every category in category order, with a zero count for a
    category that no row has.

    The abstract specification is [count_of k xs], the number of cells
    equal to [k].  The theorems show that the ordered association list
    that pandas returns implements it. *)

From S2P Require Import Prelude Frame.

Section value_counts.
Context `{IndexKey K}.
Implicit Types (xs : list (option K)) (acc : list (K * nat)).

(** *** The abstract specification *)

(** The number of cells of the column equal to [k]. *)
Definition count_of (k : K) (xs : list (option K)) : nat :=
  count_if (fun o => bool_decide (o = Some k)) xs.

(** The number of non-missing cells. *)
Definition count_present (xs : list (option K)) : nat :=
  count_if (fun o => bool_decide (is_Some o)) xs.

(** *** The hash-table pass *)

(** Add one occurrence of [k] to the table. *)
Fixpoint vc_add (k : K) (acc : list (K * nat)) : list (K * nat) :=
  match acc with
  | [] => [(k, 1)]
  | (k', n) :: t => if decide (k = k') then (k', S n) :: t else (k', n) :: vc_add k t
  end.

Definition vc_step (acc : list (K * nat)) (o : option K) : list (K * nat) :=
  match o with Some k => vc_add k acc | None => acc end.

(** The counts in first-appearance order. *)
Definition count_values (xs : list (option K)) : list (K * nat) :=
  fold_left vc_step xs [].

(** *** The stable sort by descending count *)

(** Insert [x] before the first entry whose count is at most [x]'s. *)
Fixpoint insert_desc (x : K * nat) (l : list (K * nat)) : list (K * nat) :=
  match l with
  | [] => [x]
  | y :: t => if decide (y.2 <= x.2) then x :: y :: t else y :: insert_desc x t
  end.

Definition sort_desc (l : list (K * nat)) : list (K * nat) :=
  foldr insert_desc [] l.

(** [s.value_counts()] *)
Definition value_counts (xs : list (option K)) : list (K * nat) :=
  sort_desc (count_values xs).

(** [s.value_counts(sort=False)] on a categorical column with
    categories [cats]. *)
Definition value_counts_categorical (cats : list K) (xs : list (option K)) : list (K * nat) :=
  map (fun c => (c, count_of c xs)) cats.

(** The cell holds one of the categories. *)
Definition in_categories (cats : list K) (o : option K) : bool :=
  match o with Some k => bool_decide (k ∈ cats) | None => false end.

(** The values of [l] not in [seen], in order of first appearance. *)
Fixpoint first_appearance_from (seen : list K) (l : list K) : list K :=
  match l with
  | [] => []
  | k :: t =>
      if decide (k ∈ seen) then first_appearance_from seen t
      else k :: first_appearance_from (seen ++ [k]) t
  end.

Definition first_appearance (xs : list (option K)) : list K :=
  first_appearance_from [] (omap id xs).

(** *** The hash-table pass *)

Lemma vc_add_keys k acc :
  (vc_add k acc).*1 = if decide (k ∈ acc.*1) then acc.*1 else acc.*1 ++ [k].
Proof.
  induction acc as [|[k' n] acc IH]; [done|]. cbn [vc_add].
  destruct (decide (k = k')) as [<-|Hk]; rewrite !fmap_cons; cbn [fst].
  - rewrite decide_True; [done|]. set_solver.
  - rewrite IH. destruct (decide (k ∈ acc.*1)).
    + rewrite decide_True; [done|]. set_solver.
    + rewrite decide_False; [done|]. set_solver.
Qed.

Lemma vc_add_assoc (j k : K) acc :
  lookup_key j (vc_add k acc) =
  if decide (j = k) then Some (S (default 0 (lookup_key k acc))) else lookup_key j acc.
Proof.
  induction acc as [|[k' n] acc IH]; cbn [vc_add].
  - simpl. by destruct (decide (j = k)).
  - destruct (decide (k = k')) as [<-|Hk]; cbn [lookup_key].
    + rewrite (decide_True (P := k = k)); [|done]. simpl. by destruct (decide (j = k)).
    + rewrite IH. rewrite (decide_False _ _ Hk).
      destruct (decide (j = k')), (decide (j = k)); subst; congruence.
Qed.

Lemma vc_add_sum k acc :
  sum_list_with snd (vc_add k acc) = S (sum_list_with snd acc).
Proof.
  induction acc as [|[k' n] acc IH]; simpl; [done|].
  case_decide; simpl; lia.
Qed.

Lemma vc_add_pos k acc :
  Forall (fun p => 0 < p.2) acc -> Forall (fun p => 0 < p.2) (vc_add k acc).
Proof.
  induction acc as [|[k' n] acc IH]; simpl; [constructor; simpl; auto with lia|].
  intros [Hn Hacc]%Forall_cons. case_decide; constructor; simpl in *; auto with lia.
Qed.

Lemma vc_add_NoDup k acc : NoDup acc.*1 -> NoDup (vc_add k acc).*1.
Proof.
  rewrite vc_add_keys. case_decide; [done|]. intros Hnd.
  apply NoDup_app. split_and!; [done| |apply NoDup_singleton]. set_solver.
Qed.

Lemma count_of_cons k o xs :
  count_of k (o :: xs) = (if bool_decide (o = Some k) then 1 else 0) + count_of k xs.
Proof. unfold count_of. by rewrite count_if_cons. Qed.

Lemma count_of_nonzero k xs : count_of k xs <> 0 <-> Some k ∈ xs.
Proof.
  split.
  - intros Hc. destruct (decide (Some k ∈ xs)) as [|Hn]; [done|]. exfalso. apply Hc.
    apply count_if_false. intros o Ho. apply bool_decide_eq_false. by intros ->.
  - intros Hin. unfold count_of.
    assert (0 < count_if (fun o => bool_decide (o = Some k)) xs); [|lia].
    apply (count_if_pos _ _ (Some k) Hin). by apply bool_decide_eq_true_2.
Qed.

Lemma fold_vc_assoc k xs acc :
  default 0 (lookup_key k (fold_left vc_step xs acc)) = default 0 (lookup_key k acc) + count_of k xs.
Proof.
  revert acc. induction xs as [|o xs IH]; intros acc; simpl; [done|].
  rewrite IH, count_of_cons. destruct o as [k'|]; simpl; [|done].
  rewrite vc_add_assoc. destruct (decide (k = k')) as [->|Hk].
  - rewrite bool_decide_eq_true_2 by done. simpl. lia.
  - rewrite bool_decide_eq_false_2 by congruence. lia.
Qed.

Lemma fold_vc_pos xs acc :
  Forall (fun p => 0 < p.2) acc -> Forall (fun p => 0 < p.2) (fold_left vc_step xs acc).
Proof.
  revert acc. induction xs as [|[k|] xs IH]; intros acc Hacc; simpl; auto using vc_add_pos.
Qed.

Lemma fold_vc_NoDup xs acc : NoDup acc.*1 -> NoDup (fold_left vc_step xs acc).*1.
Proof.
  revert acc. induction xs as [|[k|] xs IH]; intros acc Hacc; simpl; auto using vc_add_NoDup.
Qed.

Lemma fold_vc_sum xs acc :
  sum_list_with snd (fold_left vc_step xs acc) = sum_list_with snd acc + count_present xs.
Proof.
  revert acc. induction xs as [|o xs IH]; intros acc; simpl; [unfold count_present; rewrite count_if_nil; lia|].
  rewrite IH. unfold count_present. rewrite count_if_cons.
  destruct o as [k|]; simpl; [rewrite vc_add_sum|]; simpl; lia.
Qed.

Lemma fold_vc_keys xs acc :
  (fold_left vc_step xs acc).*1 = acc.*1 ++ first_appearance_from acc.*1 (omap id xs).
Proof.
  revert acc. induction xs as [|[k|] xs IH]; intros acc; simpl.
  - by rewrite app_nil_r.
  - rewrite IH, vc_add_keys. destruct (decide (k ∈ acc.*1)); [done|].
    by rewrite <- app_assoc.
  - apply IH.
Qed.

Lemma count_values_assoc k xs :
  lookup_key k (count_values xs) =
  if decide (count_of k xs = 0) then None else Some (count_of k xs).
Proof.
  pose proof (fold_vc_assoc k xs []) as Hc. simpl in Hc.
  pose proof (fold_vc_pos xs [] (Forall_nil_2 _)) as Hp.
  unfold count_values. destruct (lookup_key k (fold_left vc_step xs [])) as [n|] eqn:E;
    simpl in Hc; subst.
  - apply lookup_key_Some_in in E. rewrite Forall_forall in Hp. specialize (Hp _ E).
    simpl in Hp. rewrite decide_False by lia. done.
  - by rewrite decide_True.
Qed.

(** *** The sort *)

(** The order [value_counts] sorts by: descending count. *)
Definition desc_count (a b : K * nat) : Prop := b.2 <= a.2.

Lemma insert_desc_perm x l : insert_desc x l ≡ₚ x :: l.
Proof.
  induction l as [|y l IH]; simpl; [done|]. case_decide; [done|].
  rewrite IH. apply perm_swap.
Qed.

Lemma sort_desc_perm l : sort_desc l ≡ₚ l.
Proof. induction l as [|x l IH]; simpl; [done|]. by rewrite insert_desc_perm, IH. Qed.

Lemma insert_desc_sorted x l : Sorted desc_count l -> Sorted desc_count (insert_desc x l).
Proof.
  induction l as [|y l IH]; simpl; intros Hs; [repeat constructor|].
  case_decide as Hyx.
  - constructor; [done|]. constructor. unfold desc_count. lia.
  - apply Sorted_inv in Hs as [Hs Hhd]. constructor; [by apply IH|].
    destruct l as [|z l]; simpl; [constructor; unfold desc_count; lia|].
    case_decide; constructor; unfold desc_count in *; [lia|]. by inversion Hhd.
Qed.

Lemma sort_desc_sorted l : Sorted desc_count (sort_desc l).
Proof. induction l as [|x l IH]; simpl; [constructor|]. by apply insert_desc_sorted. Qed.

Lemma insert_desc_filter n x l :
  List.filter (fun p => Nat.eqb p.2 n) (insert_desc x l) =
  List.filter (fun p => Nat.eqb p.2 n) (x :: l).
Proof.
  induction l as [|y l IH]; simpl; [done|]. case_decide as Hyx; [done|].
  simpl. rewrite IH. simpl.
  destruct (Nat.eqb_spec x.2 n), (Nat.eqb_spec y.2 n); simpl; try done; lia.
Qed.

Lemma sort_desc_filter n l :
  List.filter (fun p => Nat.eqb p.2 n) (sort_desc l) = List.filter (fun p => Nat.eqb p.2 n) l.
Proof.
  induction l as [|x l IH]; simpl; [done|]. rewrite insert_desc_filter. simpl.
  by rewrite IH.
Qed.
End value_counts.

Section value_counts_theorems.
Context `{IndexKey K}.
Implicit Types (xs : list (option K)).

Lemma count_values_NoDup xs : NoDup (count_values xs).*1.
Proof. apply fold_vc_NoDup. constructor. Qed.

Lemma value_counts_perm xs : value_counts xs ≡ₚ count_values xs.
Proof. apply sort_desc_perm. Qed.

Lemma first_appearance_keys xs : first_appearance xs = (count_values xs).*1.
Proof. unfold count_values, first_appearance. by rewrite fold_vc_keys. Qed.

Lemma first_appearance_NoDup xs : NoDup (first_appearance xs).
Proof. rewrite first_appearance_keys. apply count_values_NoDup. Qed.

Lemma first_appearance_elem xs (k : K) : k ∈ first_appearance xs <-> Some k ∈ xs.
Proof.
  rewrite first_appearance_keys, <- lookup_key_is_Some, count_values_assoc, <- count_of_nonzero.
  case_decide; split; (by intros []) || eauto.
Qed.

Lemma value_counts_assoc xs (k : K) :
  lookup_key k (value_counts xs) =
  if decide (count_of k xs = 0) then None else Some (count_of k xs).
Proof.
  unfold value_counts.
  rewrite <- (lookup_key_Permutation k (count_values xs)); [apply count_values_assoc| |].
  - apply count_values_NoDup.
  - symmetry. apply sort_desc_perm.
Qed.

Lemma value_counts_NoDup xs : NoDup (value_counts xs).*1.
Proof. rewrite value_counts_perm. apply count_values_NoDup. Qed.

Lemma value_counts_elem xs (k : K) : k ∈ (value_counts xs).*1 <-> Some k ∈ xs.
Proof.
  rewrite <- lookup_key_is_Some, value_counts_assoc, <- count_of_nonzero.
  case_decide; split; (by intros []) || eauto.
Qed.

(** C2: The counts [value_counts] returns are the abstract count: a value
    that occurs in the column is a key whose count is its number of
    occurrences, and a value that does not occur is not a key.  The
    ordered list refines the function [count_of]. *)
Theorem value_counts_lookup xs (k : K) :
  lookup_key k (value_counts xs) =
  if decide (count_of k xs = 0) then None else Some (count_of k xs).
Proof. apply value_counts_assoc. Qed.

(** The keys of [value_counts] are distinct and are exactly the
    values present in the column (NaN is never a key). *)
Theorem value_counts_keys xs :
  NoDup (value_counts xs).*1 /\ (forall k, k ∈ (value_counts xs).*1 <-> Some k ∈ xs).
Proof. split; [apply value_counts_NoDup|apply value_counts_elem]. Qed.

(** The counts of [value_counts] sum to the number of non-missing
    cells: every present value is counted once, and NaN cells are the
    only ones left out. *)
Theorem value_counts_sum xs :
  sum_list_with snd (value_counts xs) = count_present xs.
Proof.
  rewrite value_counts_perm. unfold count_values. rewrite fold_vc_sum. done.
Qed.

(** C25: [value_counts] is sorted by descending count, and the sort is
    stable: the entries with the same count keep the order they have in
    the hash-table pass. *)
Theorem value_counts_sorted_stable xs :
  Sorted desc_count (value_counts xs) /\
  forall n, List.filter (fun p => Nat.eqb p.2 n) (value_counts xs) =
            List.filter (fun p => Nat.eqb p.2 n) (count_values xs).
Proof. split; [apply sort_desc_sorted|intros n; apply sort_desc_filter]. Qed.

(** The hash-table pass lists the values in their order of first
    appearance in the column, which fixes the order of ties in
    [value_counts]. *)
Theorem count_values_first_appearance xs :
  (count_values xs).*1 = first_appearance xs.
Proof. unfold count_values, first_appearance. by rewrite fold_vc_keys. Qed.
End value_counts_theorems.

Section categorical.
Context `{IndexKey K}.
Implicit Types (xs : list (option K)) (cats : list K).

Lemma value_counts_categorical_keys cats xs :
  (value_counts_categorical cats xs).*1 = cats.
Proof. induction cats as [|c cats IH]; simpl; [done|]. by f_equal. Qed.

Lemma value_counts_categorical_assoc cats xs c :
  c ∈ cats -> lookup_key c (value_counts_categorical cats xs) = Some (count_of c xs).
Proof.
  induction cats as [|c' cats IH]; simpl; [set_solver|]. intros Hin.
  destruct (decide (c = c')) as [->|Hc]; [done|]. apply IH. set_solver.
Qed.

(** Counting by key over distinct categories: the per-category counts
    of the rows satisfying [p] add up to the rows satisfying [p] whose
    key is one of the categories. *)
Lemma sum_count_if_in_categories {A} (key : A -> option K) (p : A -> bool) cats (l : list A) :
  NoDup cats ->
  sum_list_with (fun c => count_if (fun x => p x && bool_decide (key x = Some c)) l) cats =
  count_if (fun x => p x && in_categories cats (key x)) l.
Proof.
  induction cats as [|c cats IH]; simpl; intros Hnd.
  - symmetry. apply count_if_false. intros x _. destruct (key x); simpl; by rewrite andb_false_r.
  - apply NoDup_cons in Hnd as [Hc Hnd]. rewrite IH by done.
    rewrite <- count_if_orb_disjoint.
    + apply count_if_ext. intros x _. destruct (p x), (key x) as [k|]; simpl; try done.
      apply eq_bool_prop_intro. rewrite orb_True, !bool_decide_spec, elem_of_cons.
      naive_solver.
    + intros x. destruct (p x), (key x) as [k|]; simpl; try done. rewrite bool_decide_eq_true.
      intros [= ->]. by apply bool_decide_eq_false_2.
Qed.

Lemma value_counts_categorical_sum cats xs :
  NoDup cats ->
  sum_list_with snd (value_counts_categorical cats xs) = count_if (in_categories cats) xs.
Proof.
  intros Hnd. rewrite <- (count_if_ext (fun o => true && in_categories cats (id o))) by done.
  rewrite <- sum_count_if_in_categories by done.
  induction cats as [|c cats IH]; simpl; [done|]. inversion Hnd. by rewrite IH.
Qed.

(** On a categorical column, [value_counts(sort=False)] lists every
    category once, in category order, even a category that no row has.
    Each count is that category's number of cells, and when the
    categories are distinct the counts add up to the number of cells
    that hold a category. *)
Theorem value_counts_categorical_spec cats xs :
  NoDup cats ->
  (value_counts_categorical cats xs).*1 = cats /\
  (forall c, c ∈ cats -> lookup_key c (value_counts_categorical cats xs) = Some (count_of c xs)) /\
  sum_list_with snd (value_counts_categorical cats xs) = count_if (in_categories cats) xs.
Proof.
  intros Hnd. split_and!.
  - apply value_counts_categorical_keys.
  - intros c. apply value_counts_categorical_assoc.
  - by apply value_counts_categorical_sum.
Qed.
End categorical.

(** ** Examples *)

From stdpp Require Import strings.

(** Counts sort by descending count; NaN is dropped. *)
Example value_counts_example :
  value_counts [Some "No"; Some "Yes"; None; Some "No"; Some "Maybe"; Some "Yes"; Some "Yes"]%string
  = [("Yes", 3); ("No", 2); ("Maybe", 1)]%string.
Proof. reflexivity. Qed.

(** A tie keeps the order of first appearance. *)
Example value_counts_tie :
  value_counts [Some "Male"; Some "Female"; Some "Female"; Some "Male"]%string
  = [("Male", 2); ("Female", 2)]%string.
Proof. reflexivity. Qed.

Lemma value_counts_categorical_spec_witness :
  NoDup ["0-20"; "21-40"]%string /\
  sum_list_with snd (value_counts_categorical ["0-20"; "21-40"]%string
                       [Some "21-40"; None; Some "0-20"; Some "21-40"; Some "41-60"]%string) =
  count_if (in_categories ["0-20"; "21-40"]%string)
           [Some "21-40"; None; Some "0-20"; Some "21-40"; Some "41-60"]%string.
Proof.
  assert (Hnd : NoDup ["0-20"; "21-40"]%string) by (apply (bool_decide_unpack _); reflexivity).
  split; [exact Hnd|]. exact (proj2 (proj2 (value_counts_categorical_spec _ _ Hnd))).
Defined.
