(* ===== verification/Series.v ===== *)
(** * Labelled Series, index alignment and the DataFrame constructor

    A Series with a unique index is an association list from labels to
    values, in index order.  The script combines Series in three ways.

    - Arithmetic [a / b] (lines 57, 65, 74, 82, 90, 127).  pandas first
      aligns the operands.  When [a.index.equals(b.index)] (the same
      labels in the same order) it operates element-wise.  Otherwise it
      takes the outer join of the two indexes: [Index.union] with
      [sort=None], which sorts the union of two comparable indexes.  A
      label missing on one side gives NaN.
    - Scalar arithmetic [* 100] and [.round(2)]: element-wise.
    - [pd.DataFrame({name: series, ...})] (lines 33-35, 50, 58, 66, 75, 83,
      91, 128).  The row index is [union_indexes] of the columns' indexes.
      When all indexes are equal it is the first index, otherwise the
      sorted unique union.  Each column is reindexed to it, NaN where a
      label is missing. *)

From S2P Require Import Prelude Frame Numeric.
From stdpp Require Import strings.

Section series.
Context `{IndexKey K}.

(** *** Sorting labels *)

Fixpoint insert_key (k : K) (l : list K) : list K :=
  match l with
  | [] => [k]
  | k' :: t => if decide (key_le k k') then k :: k' :: t else k' :: insert_key k t
  end.

(** [Index.sort_values()] *)
Definition sort_keys (l : list K) : list K := foldr insert_key [] l.

(** *** Alignment *)

(** The labels of [i1], then those of [i2] that [i1] lacks. *)
Definition union_keys (i1 i2 : list K) : list K :=
  i1 ++ List.filter (fun k => bool_decide (k ∉ i1)) i2.

(** The index of [a op b]: [a.index] when the indexes are equal,
    otherwise the sorted union. *)
Definition join_index (i1 i2 : list K) : list K :=
  if decide (i1 = i2) then i1 else sort_keys (union_keys i1 i2).

(** [union_indexes] of the DataFrame constructor (sort=True). *)
Definition union_indexes (idxs : list (list K)) : list K :=
  match idxs with
  | [] => []
  | i :: rest =>
      if decide (Forall (fun j => j = i) rest) then i
      else sort_keys (foldl union_keys i rest)
  end.

(** [s[k]] after reindexing: NaN when [k] is not a label of [s]. *)
Definition value_at (s : list (K * pyfloat)) (k : K) : pyfloat := default NaN (lookup_key k s).

(** *** Element-wise operations *)

(** An integer Series (a [value_counts] result) as floats. *)
Definition series_of_counts (s : list (K * nat)) : list (K * pyfloat) :=
  map (fun p => (p.1, of_nat p.2)) s.

(** [a / b] *)
Definition series_div (a b : list (K * pyfloat)) : list (K * pyfloat) :=
  map (fun k => (k, fdiv (value_at a k) (value_at b k))) (join_index a.*1 b.*1).

(** [s * c] for a scalar [c]. *)
Definition series_scale (s : list (K * pyfloat)) (c : Q) : list (K * pyfloat) :=
  map (fun p => (p.1, fmul p.2 (Fin c))) s.

(** [s.round(d)] *)
Definition series_round (d : nat) (s : list (K * pyfloat)) : list (K * pyfloat) :=
  map (fun p => (p.1, fround d p.2)) s.

(** *** Tables *)

(** A displayed DataFrame: column names, and for each row its label and
    its cells in column order. *)
Record table := mkTable {
  tcolumns : list string;
  trows : list (K * list pyfloat)
}.

(** [pd.DataFrame({name: series, ...})] *)
Definition dataframe_of (cols : list (string * list (K * pyfloat))) : table :=
  let idx := union_indexes (map (fun c => c.2.*1) cols) in
  mkTable (map fst cols) (map (fun k => (k, map (fun c => value_at c.2 k) cols)) idx).

(** The shape of a displayed DataFrame: its row labels are distinct and
    every row has one cell per column. *)
Definition table_wf (t : table) : Prop :=
  NoDup (trows t).*1 /\ Forall (fun r => length r.2 = length (tcolumns t)) (trows t).

#[global] Instance table_wf_dec (t : table) : Decision (table_wf t).
Proof. unfold table_wf. apply _. Defined.
End series.

Arguments table K : clear implicits.

Section series_lemmas.
Context `{IndexKey K}.
Implicit Types (l i : list K) (s a b : list (K * pyfloat)).

(** *** Sorting labels *)

Lemma insert_key_perm (k : K) l : insert_key k l ≡ₚ k :: l.
Proof.
  induction l as [|k' l IH]; simpl; [done|]. case_decide; [done|].
  rewrite IH. apply perm_swap.
Qed.

Lemma sort_keys_perm l : sort_keys l ≡ₚ l.
Proof. induction l as [|k l IH]; simpl; [done|]. by rewrite insert_key_perm, IH. Qed.

Lemma insert_key_sorted (k : K) l : Sorted key_le l -> Sorted key_le (insert_key k l).
Proof.
  induction l as [|k' l IH]; simpl; intros Hs; [repeat constructor|].
  destruct (decide (key_le k k')) as [Hle|Hnle]; cbv iota.
  - constructor; [done|by constructor].
  - assert (key_le k' k) by (destruct (total key_le k k'); [contradiction|done]).
    apply Sorted_inv in Hs as [Hs Hhd]. constructor; [by apply IH|].
    destruct l as [|k'' l]; simpl; [by constructor|].
    case_decide; constructor; [done|]. by inversion Hhd.
Qed.

Lemma sort_keys_sorted l : Sorted key_le (sort_keys l).
Proof. induction l as [|k l IH]; simpl; [constructor|]. by apply insert_key_sorted. Qed.

Lemma sort_keys_elem l (k : K) : k ∈ sort_keys l <-> k ∈ l.
Proof. by rewrite sort_keys_perm. Qed.

Lemma sort_keys_NoDup l : NoDup l -> NoDup (sort_keys l).
Proof. by rewrite sort_keys_perm. Qed.

(** Two permutations of the same labels sort to the same index. *)
Lemma sort_keys_perm_eq l1 l2 : l1 ≡ₚ l2 -> sort_keys l1 = sort_keys l2.
Proof.
  intros Hp. apply (Sorted_unique key_le); [apply sort_keys_sorted..|].
  by rewrite !sort_keys_perm.
Qed.

(** *** Union and join *)

Lemma union_keys_elem (i1 i2 : list K) (k : K) : k ∈ union_keys i1 i2 <-> k ∈ i1 \/ k ∈ i2.
Proof.
  unfold union_keys. rewrite elem_of_app, elem_of_List_filter, bool_decide_eq_true.
  destruct (decide (k ∈ i1)); naive_solver.
Qed.

Lemma union_keys_NoDup (i1 i2 : list K) : NoDup i1 -> NoDup i2 -> NoDup (union_keys i1 i2).
Proof.
  intros H1 H2. apply NoDup_app. split_and!; [done| |].
  - intros k Hk. rewrite elem_of_List_filter, bool_decide_eq_true. naive_solver.
  - by apply NoDup_List_filter.
Qed.

Lemma union_keys_sub (i1 i2 : list K) : (forall k, k ∈ i2 -> k ∈ i1) -> union_keys i1 i2 = i1.
Proof.
  intros Hs. unfold union_keys. rewrite List_filter_nil; [apply app_nil_r|].
  intros k Hk. apply bool_decide_eq_false_2. naive_solver.
Qed.

Lemma join_index_elem (i1 i2 : list K) (k : K) : k ∈ join_index i1 i2 <-> k ∈ i1 \/ k ∈ i2.
Proof.
  unfold join_index. case_decide as E; [subst; naive_solver|].
  by rewrite sort_keys_elem, union_keys_elem.
Qed.

Lemma join_index_NoDup (i1 i2 : list K) : NoDup i1 -> NoDup i2 -> NoDup (join_index i1 i2).
Proof.
  intros. unfold join_index. case_decide; [done|].
  by apply sort_keys_NoDup, union_keys_NoDup.
Qed.

(** When the second index has no new label, the join is the first index
    or, if the order differs, the first index sorted. *)
Lemma join_index_sub (i1 i2 : list K) :
  (forall k, k ∈ i2 -> k ∈ i1) ->
  join_index i1 i2 = if decide (i1 = i2) then i1 else sort_keys i1.
Proof. intros Hs. unfold join_index. by rewrite union_keys_sub. Qed.

(** When the first index has no label the second lacks, the join is the
    first index or, if the two differ, the second index sorted. *)
Lemma join_index_sub_r (i1 i2 : list K) :
  NoDup i1 -> NoDup i2 -> (forall k, k ∈ i1 -> k ∈ i2) ->
  join_index i1 i2 = if decide (i1 = i2) then i1 else sort_keys i2.
Proof.
  intros H1 H2 Hs. unfold join_index. case_decide; [done|].
  apply sort_keys_perm_eq. apply NoDup_Permutation; [by apply union_keys_NoDup|done|].
  intros k. rewrite union_keys_elem. naive_solver.
Qed.

Lemma foldl_union_keys_sub i rest :
  Forall (fun j => forall k, k ∈ j -> k ∈ i) rest -> foldl union_keys i rest = i.
Proof.
  induction rest as [|j rest IH]; simpl; [done|]. intros [Hj Hrest]%Forall_cons.
  rewrite union_keys_sub by done. by apply IH.
Qed.

(** When no column has a label the first lacks, the DataFrame's index is
    the first column's index or, if some column orders it differently,
    that index sorted. *)
Lemma union_indexes_sub i rest :
  Forall (fun j => forall k, k ∈ j -> k ∈ i) rest ->
  union_indexes (i :: rest) = if decide (Forall (fun j => j = i) rest) then i else sort_keys i.
Proof. intros Hs. simpl. by rewrite foldl_union_keys_sub. Qed.

(** *** Element-wise operations *)

Lemma series_div_index a b : (series_div a b).*1 = join_index a.*1 b.*1.
Proof. apply (fmap_fst_map_fn (fun j => fdiv (value_at a j) (value_at b j))). Qed.

Lemma series_div_lookup a b (k : K) :
  lookup_key k (series_div a b) =
  if decide (k ∈ join_index a.*1 b.*1) then Some (fdiv (value_at a k) (value_at b k)) else None.
Proof. apply (lookup_key_map_fn (fun j => fdiv (value_at a j) (value_at b j))). Qed.

Lemma series_scale_index s c : (series_scale s c).*1 = s.*1.
Proof. apply (fmap_fst_map_snd (fun x => fmul x (Fin c))). Qed.

Lemma series_scale_lookup s c (k : K) :
  lookup_key k (series_scale s c) = (fun x => fmul x (Fin c)) <$> lookup_key k s.
Proof. apply (lookup_key_map_snd (fun x => fmul x (Fin c))). Qed.

Lemma series_round_index d s : (series_round d s).*1 = s.*1.
Proof. apply (fmap_fst_map_snd (fround d)). Qed.

Lemma series_round_lookup d s (k : K) :
  lookup_key k (series_round d s) = fround d <$> lookup_key k s.
Proof. apply (lookup_key_map_snd (fround d)). Qed.

Lemma series_of_counts_index (c : list (K * nat)) : (series_of_counts c).*1 = c.*1.
Proof. apply (fmap_fst_map_snd of_nat). Qed.

Lemma series_of_counts_lookup (c : list (K * nat)) (k : K) :
  lookup_key k (series_of_counts c) = of_nat <$> lookup_key k c.
Proof. apply (lookup_key_map_snd of_nat). Qed.

Lemma dataframe_of_rows cols :
  trows (dataframe_of cols) =
  map (fun k => (k, map (fun c => value_at c.2 k) cols)) (union_indexes (map (fun c => c.2.*1) cols)).
Proof. reflexivity. Qed.
(** A row of a DataFrame whose columns have no label the first column
    lacks: its label is a label of the first column, and its cells are
    the columns' values at that label. *)
Lemma dataframe_of_row (name : string) (s0 : list (K * pyfloat))
      (rest : list (string * list (K * pyfloat))) (k : K) (cells : list pyfloat) :
  Forall (fun c => forall j, j ∈ c.2.*1 -> j ∈ s0.*1) rest ->
  (k, cells) ∈ trows (dataframe_of ((name, s0) :: rest)) ->
  k ∈ s0.*1 /\ cells = value_at s0 k :: map (fun c => value_at c.2 k) rest.
Proof.
  intros Hsub. rewrite dataframe_of_rows, elem_of_map_pair.
  cbn [map snd]. rewrite union_indexes_sub.
  - intros [Hk ->]. split; [|done]. case_decide; [done|]. by apply sort_keys_elem.
  - apply Forall_forall. intros j [c [-> Hc]]%list_elem_of_fmap.
    rewrite Forall_forall in Hsub. by apply Hsub.
Qed.

(** *** The shape of a DataFrame *)

Lemma foldl_union_keys_NoDup i rest :
  NoDup i -> Forall NoDup rest -> NoDup (foldl union_keys i rest).
Proof.
  revert i. induction rest as [|j rest IH]; intros i Hi Hr; simpl; [done|].
  apply Forall_cons in Hr as [Hj Hr]. apply IH; [by apply union_keys_NoDup|done].
Qed.

Lemma union_indexes_NoDup (idxs : list (list K)) : Forall NoDup idxs -> NoDup (union_indexes idxs).
Proof.
  destruct idxs as [|i rest]; [constructor|]. intros [Hi Hr]%Forall_cons. simpl.
  case_decide; [done|]. apply sort_keys_NoDup, foldl_union_keys_NoDup; done.
Qed.

(** A DataFrame built from Series with distinct labels is well formed. *)
Lemma dataframe_of_wf cols : Forall (fun c => NoDup c.2.*1) cols -> table_wf (dataframe_of cols).
Proof.
  intros Hc. split; simpl.
  - rewrite (fmap_fst_map_fn (fun k => map (fun c => value_at c.2 k) cols)).
    apply union_indexes_NoDup. apply Forall_map. exact Hc.
  - apply Forall_map, Forall_forall. intros k _. simpl. by rewrite !length_map.
Qed.

Lemma series_div_NoDup a b : NoDup a.*1 -> NoDup b.*1 -> NoDup (series_div a b).*1.
Proof. intros. rewrite series_div_index. by apply join_index_NoDup. Qed.

End series_lemmas.
