(* ===== verification/Cut.v ===== *)
(** * Derived columns: [pd.cut] and the churn map

    [pd.cut(x, bins, labels)] (lines 15-16 and 155) with pandas' defaults
    [right=True] and [include_lowest=False].  pandas validates the bins
    and labels.  It then computes [ids = bins.searchsorted(x, side='left')],
    the number of edges strictly below [x].  A value with [ids = 0] (at or
    below the first edge), with [ids = len(bins)] (above the last edge) or
    NaN gets no bin.  Otherwise it gets [labels[ids - 1]], the label of
    the interval [(bins[ids-1], bins[ids]]].

    The script's two binnings:
    - [ChargeRange] (lines 15-16): edges [0, 20, ..., 120] and labels
      ["0-20", "21-40", ..., "101-120"];
    - [TotalChargeRange] (lines 152-155): edges [range(0, 9500, 500)],
      that is [0, 500, ..., 9000], and labels [f"{i}-{i+step}"] for the
      edges but the last: 18 labels.

    [ChurnBinary] (line 14) is [df['Churn'].map({'No': 0, 'Yes': 1})]:
    any other value, and NaN, becomes NaN. *)

From S2P Require Import Prelude Frame.
From stdpp Require Import strings.
From Stdlib Require Import DecimalString DecimalN.

(** ** [pd.cut] *)

(** The [ValueError]s [pd.cut] raises on its arguments. *)
Inductive cut_error :=
| BinsNotIncreasing      (** "bins must increase monotonically." *)
| BinEdgesNotUnique      (** "Bin edges must be unique" *)
| LabelsNotUnique        (** "labels must be unique if ordered=True" *)
| LabelsLengthMismatch.  (** "Bin labels must be one fewer than the number of bin edges" *)

(** [f] holds of every two adjacent edges. *)
Fixpoint adjacent (f : Q -> Q -> bool) (l : list Q) : bool :=
  match l with
  | a :: ((b :: _) as t) => f a b && adjacent f t
  | _ => true
  end.

(** [bins.is_monotonic_increasing] (non-strict). *)
Definition monotonic_increasing (bins : list Q) : bool := adjacent Qle_bool bins.

(** Strictly increasing edges: monotonic and without duplicates. *)
Definition strictly_increasing (bins : list Q) : bool := adjacent Qlt_bool bins.

(** The checks of [pd.cut] and [_bins_to_cuts], in pandas' order. *)
Definition cut_validate (bins : list Q) (labels : list string) : option cut_error :=
  if negb (monotonic_increasing bins) then Some BinsNotIncreasing
  else if negb (strictly_increasing bins) && negb (Nat.eqb (length bins) 2) then Some BinEdgesNotUnique
  else if negb (bool_decide (NoDup labels)) then Some LabelsNotUnique
  else if negb (Nat.eqb (length labels) (length bins - 1)) then Some LabelsLengthMismatch
  else None.

(** [bins.searchsorted(x, side='left')] on sorted edges: the number of
    edges strictly below [x]. *)
Definition searchsorted_left (bins : list Q) (x : Q) : nat :=
  count_if (fun e => Qlt_bool e x) bins.

(** The bin code of one cell: [ids - 1], or no bin. *)
Definition cut_code (bins : list Q) (x : option Q) : option nat :=
  match x with
  | None => None
  | Some v =>
      let i := searchsorted_left bins v in
      if Nat.eqb i 0 || Nat.eqb i (length bins) then None else Some (i - 1)
  end.

(** [pd.cut(xs, bins, labels=labels)]: the labels of the cells, or the
    error pandas raises. *)
Definition cut (bins : list Q) (labels : list string) (xs : list (option Q))
  : cut_error + list (option string) :=
  match cut_validate bins labels with
  | Some e => inl e
  | None => inr (map (fun x => c ← cut_code bins x; labels !! c) xs)
  end.

(** The reference: the index of the right-closed interval [(lo, hi]] of
    adjacent edges that holds [x]. *)
Fixpoint find_bin (bins : list Q) (x : Q) : option nat :=
  match bins with
  | lo :: ((hi :: _) as t) =>
      if Qlt_bool lo x && Qle_bool x hi then Some 0 else S <$> find_bin t x
  | _ => None
  end.

(** ** The script's bins *)

Definition inject_nat (n : nat) : Q := inject_Z (Z.of_nat n).

(** Line 15: [bins=[0, 20, 40, 60, 80, 100, 120]] *)
Definition charge_bins : list Q := map inject_nat [0; 20; 40; 60; 80; 100; 120].

(** Line 16 *)
Definition charge_labels : list string :=
  ["0-20"; "21-40"; "41-60"; "61-80"; "81-100"; "101-120"].

(** Python's [str] of a non-negative integer: its decimal digits. *)
Definition str_of_N (n : N) : string := NilEmpty.string_of_uint (N.to_uint n).

(** Line 152: [step = 500] *)
Definition step : N := 500.

(** Line 153: [bins = list(range(0, 9500, step))] *)
Definition total_bins_N : list N := map (fun i => N.of_nat i * step)%N (seq 0 19).

Definition total_bins : list Q := map (fun n => inject_Z (Z.of_N n)) total_bins_N.

(** Line 154: [labels = [f"{i}-{i+step}" for i in bins[:-1]]] *)
Definition total_labels : list string :=
  map (fun i => str_of_N i +:+ "-" +:+ str_of_N (i + step)) (removelast total_bins_N).

(** ** The derived columns *)

(** Line 14: [df['Churn'].map({'No': 0, 'Yes': 1})] *)
Definition churn_binary (c : option string) : option Z :=
  match c with
  | Some s => if bool_decide (s = "No") then Some 0%Z
              else if bool_decide (s = "Yes") then Some 1%Z else None
  | None => None
  end.

(** The label of one cell under a validated binning. *)
Definition cut_cell (bins : list Q) (labels : list string) (x : option Q) : option string :=
  c ← cut_code bins x; labels !! c.

(** Lines 13-16: the row of [df] that [load_data] builds from a CSV row.
    [TotalChargeRange] does not exist yet. *)
Definition load_row (c : customer) : row :=
  {| raw := c;
     ChurnBinary := churn_binary (Churn c);
     ChargeRange := cut_cell charge_bins charge_labels (MonthlyCharges c);
     TotalChargeRange := None |}.

(** Lines 11-17: [load_data] after [pd.read_csv]. *)
Definition load_data (csv : list customer) : list row := map load_row csv.

(** Line 155: [df['TotalChargeRange'] = pd.cut(df['TotalCharges'], ...)] *)
Definition assign_total_charge_range (r : row) : row :=
  {| raw := raw r;
     ChurnBinary := ChurnBinary r;
     ChargeRange := ChargeRange r;
     TotalChargeRange := cut_cell total_bins total_labels (TotalCharges (raw r)) |}.

(** ** Lemmas *)

Lemma strictly_increasing_cons (lo : Q) (t : list Q) :
  strictly_increasing (lo :: t) = true ->
  strictly_increasing t = true /\ Forall (fun e => (lo < e)%Q) t.
Proof.
  unfold strictly_increasing. revert lo.
  induction t as [|hi t IH]; intros lo; [intros _; split; [done|constructor]|].
  cbn [adjacent]. rewrite andb_true_iff. intros [Hlt Ht]. qbool.
  destruct (IH hi Ht) as [_ Hall]. split; [done|]. constructor; [done|].
  eapply Forall_impl; [exact Hall|]. simpl. intros e He. lra.
Qed.

Lemma searchsorted_left_cons (e : Q) (bins : list Q) (x : Q) :
  searchsorted_left (e :: bins) x = (if Qlt_bool e x then 1 else 0) + searchsorted_left bins x.
Proof. unfold searchsorted_left. by rewrite count_if_cons. Qed.

Lemma searchsorted_left_zero (bins : list Q) (x : Q) :
  Forall (fun e => (x <= e)%Q) bins -> searchsorted_left bins x = 0.
Proof.
  intros Hall. apply count_if_false. intros e He. rewrite Forall_forall in Hall.
  specialize (Hall e He). qbool. lra.
Qed.

Lemma searchsorted_left_all (bins : list Q) (x : Q) :
  Forall (fun e => (e < x)%Q) bins -> searchsorted_left bins x = length bins.
Proof.
  induction bins as [|e bins IH]; [done|]. intros [He Hall]%Forall_cons.
  rewrite searchsorted_left_cons, IH by done. case_q; simpl; [done|lra].
Qed.

Lemma searchsorted_left_mono (bins : list Q) (x y : Q) :
  (x <= y)%Q -> searchsorted_left bins x <= searchsorted_left bins y.
Proof. intros Hxy. apply count_if_impl. intros e He. qbool. lra. Qed.

Lemma cut_code_Some (bins : list Q) (x : Q) :
  cut_code bins (Some x) =
  let i := searchsorted_left bins x in
  if Nat.eqb i 0 || Nat.eqb i (length bins) then None else Some (i - 1).
Proof. reflexivity. Qed.

(** One step of the reference on edges [lo :: hi :: t]. *)
Lemma cut_code_step (lo hi : Q) (t : list Q) (x : Q) :
  strictly_increasing (lo :: hi :: t) = true ->
  cut_code (lo :: hi :: t) (Some x) =
  if Qlt_bool lo x && Qle_bool x hi then Some 0 else S <$> cut_code (hi :: t) (Some x).
Proof.
  intros Hinc. apply strictly_increasing_cons in Hinc as [Hinc' Hall].
  apply strictly_increasing_cons in Hinc' as [_ Hall'].
  apply Forall_cons in Hall as [Hlohi _].
  rewrite !cut_code_Some. cbv zeta. rewrite searchsorted_left_cons.
  destruct (Qlt_bool lo x) eqn:Elo, (Qle_bool x hi) eqn:Ehi; simpl; qbool.
  - rewrite (searchsorted_left_zero (hi :: t)); [done|].
    constructor; [done|]. eapply Forall_impl; [exact Hall'|]. simpl. intros. lra.
  - rewrite searchsorted_left_cons.
    destruct (Qlt_bool hi x) eqn:E; qbool; [|lra]. simpl.
    destruct (Nat.eqb_spec (searchsorted_left t x) (length t)); simpl; [done|].
    rewrite Nat.sub_0_r. done.
  - rewrite (searchsorted_left_zero (hi :: t)); [done|].
    constructor; [lra|]. eapply Forall_impl; [exact Hall'|]. simpl. intros. lra.
  - lra.
Qed.

Lemma strictly_increasing_lookup (lo : Q) (t : list Q) (j : nat) (e : Q) :
  strictly_increasing (lo :: t) = true -> t !! j = Some e -> (lo < e)%Q.
Proof.
  intros Hinc Hj. apply strictly_increasing_cons in Hinc as [_ Hall].
  rewrite Forall_lookup in Hall. eauto.
Qed.

Lemma cut_cell_code (bins : list Q) (labels : list string) (x : option Q) :
  cut_cell bins labels x = (c ← cut_code bins x; labels !! c).
Proof. reflexivity. Qed.

Lemma find_bin_cons2 (lo hi : Q) (t : list Q) (x : Q) :
  find_bin (lo :: hi :: t) x =
  if Qlt_bool lo x && Qle_bool x hi then Some 0 else S <$> find_bin (hi :: t) x.
Proof. reflexivity. Qed.

Lemma find_bin_interval (bins : list Q) (x : Q) (i : nat) :
  find_bin bins x = Some i ->
  exists lo hi, bins !! i = Some lo /\ bins !! S i = Some hi /\ (lo < x <= hi)%Q.
Proof.
  revert i. induction bins as [|lo [|hi t] IH]; intros i; try done.
  rewrite find_bin_cons2. destruct (Qlt_bool lo x && Qle_bool x hi) eqn:E.
  - intros [= <-]. apply andb_true_iff in E as [E1 E2]. qbool. exists lo, hi. done.
  - destruct (find_bin (hi :: t) x) as [j|] eqn:Ej; simpl; [|by intros]. intros [= <-].
    destruct (IH j eq_refl) as (lo' & hi' & ? & ? & ?). exists lo', hi'. done.
Qed.

Lemma find_bin_complete (bins : list Q) (x : Q) (i : nat) (lo hi : Q) :
  strictly_increasing bins = true ->
  bins !! i = Some lo -> bins !! S i = Some hi -> (lo < x <= hi)%Q ->
  find_bin bins x = Some i.
Proof.
  revert i. induction bins as [|b0 [|b1 t] IH]; intros i Hinc Hlo Hhi Hx;
    [done|destruct i; done|].
  rewrite find_bin_cons2. pose proof (strictly_increasing_cons _ _ Hinc) as [Hinc' _].
  destruct i as [|i].
  - simpl in Hlo, Hhi. simplify_eq. case_q; simpl; done || lra.
  - assert (Hb1 : (b1 <= lo)%Q).
    { destruct i as [|i]; simpl in Hlo; [simplify_eq; lra|].
      apply Qlt_le_weak. apply (strictly_increasing_lookup b1 t i); done. }
    destruct (Qlt_bool b0 x && Qle_bool x b1) eqn:E.
    + apply andb_true_iff in E as [_ E]. qbool. lra.
    + by rewrite (IH i Hinc' Hlo Hhi Hx).
Qed.

Lemma cut_code_find_bin_eq (bins : list Q) (x : Q) :
  strictly_increasing bins = true -> cut_code bins (Some x) = find_bin bins x.
Proof.
  induction bins as [|lo [|hi t] IH]; intros Hinc; [done| |].
  - rewrite cut_code_Some. cbv zeta. rewrite searchsorted_left_cons. simpl.
    by destruct (Qlt_bool lo x).
  - rewrite cut_code_step, find_bin_cons2 by done. rewrite IH; [done|].
    exact (proj1 (strictly_increasing_cons _ _ Hinc)).
Qed.

(** On strictly increasing edges, the [searchsorted] computation of
    [pd.cut] agrees with the right-closed interval reference: a value gets
    the index of the interval [(lo, hi]] that holds it, and no bin when no
    interval does. *)
Theorem cut_code_find_bin (bins : list Q) (x : Q) :
  strictly_increasing bins = true -> cut_code bins (Some x) = find_bin bins x.
Proof. apply cut_code_find_bin_eq. Qed.

Lemma cut_code_find_bin_witness :
  strictly_increasing charge_bins = true /\ cut_code charge_bins (Some 20%Q) = Some 0.
Proof.
  assert (H : strictly_increasing charge_bins = true) by reflexivity.
  split; [exact H|]. rewrite (cut_code_find_bin charge_bins 20 H). reflexivity.
Defined.

(** C6: Under edges and labels that [pd.cut] accepts, a value gets label
    [l] exactly when [l] is the label of an interval [(lo, hi]] of
    adjacent edges that holds the value; every other value gets no bin. *)
Theorem cut_cell_spec (bins : list Q) (labels : list string) (x : Q) (l : string) :
  cut_validate bins labels = None -> strictly_increasing bins = true ->
  cut_cell bins labels (Some x) = Some l <->
  exists i lo hi, labels !! i = Some l /\ bins !! i = Some lo /\ bins !! S i = Some hi /\
                  (lo < x <= hi)%Q.
Proof.
  intros _ Hinc. rewrite cut_cell_code, cut_code_find_bin_eq by done. split.
  - destruct (find_bin bins x) as [i|] eqn:E; simpl; [|done]. intros Hl.
    destruct (find_bin_interval _ _ _ E) as (lo & hi & ? & ? & ?). by exists i, lo, hi.
  - intros (i & lo & hi & Hl & Hlo & Hhi & Hx).
    by rewrite (find_bin_complete bins x i lo hi).
Qed.

Lemma cut_cell_spec_witness :
  cut_validate charge_bins charge_labels = None /\ strictly_increasing charge_bins = true /\
  cut_cell charge_bins charge_labels (Some 25%Q) = Some "21-40".
Proof.
  assert (Hv : cut_validate charge_bins charge_labels = None) by reflexivity.
  assert (Hi : strictly_increasing charge_bins = true) by reflexivity.
  split; [exact Hv|]. split; [exact Hi|].
  apply (cut_cell_spec charge_bins charge_labels 25 "21-40" Hv Hi).
  exists 1, 20%Q, 40%Q. split_and!; try reflexivity. vm_compute. discriminate.
Defined.

(** Binning is monotone: of two binned values, the larger one never
    gets an earlier bin. *)
Theorem cut_code_mono (bins : list Q) (x y : Q) (i j : nat) :
  cut_code bins (Some x) = Some i -> cut_code bins (Some y) = Some j -> (x <= y)%Q -> i <= j.
Proof.
  rewrite !cut_code_Some. cbv zeta. intros Hx Hy Hxy.
  pose proof (searchsorted_left_mono bins x y Hxy) as Hm.
  repeat case_match; simplify_eq. lia.
Qed.

Lemma cut_code_mono_witness :
  cut_code charge_bins (Some 15%Q) = Some 0 /\ cut_code charge_bins (Some 95%Q) = Some 4 /\
  (15 <= 95)%Q /\ 0 <= 4.
Proof.
  assert (H1 : cut_code charge_bins (Some 15%Q) = Some 0) by reflexivity.
  assert (H2 : cut_code charge_bins (Some 95%Q) = Some 4) by reflexivity.
  assert (H3 : (15 <= 95)%Q) by (vm_compute; discriminate).
  split_and!; [exact H1|exact H2|exact H3|exact (cut_code_mono _ _ _ _ _ H1 H2 H3)].
Defined.

(** [pd.cut] accepts its arguments exactly when the edges are
    monotonic, free of duplicates (pandas lets two equal edges through),
    and the labels are distinct and one fewer than the edges.  Otherwise it
    raises the first failing check's error. *)
Theorem cut_validate_spec (bins : list Q) (labels : list string) :
  cut_validate bins labels = None <->
  monotonic_increasing bins = true /\
  (strictly_increasing bins = true \/ length bins = 2) /\
  NoDup labels /\ length labels = length bins - 1.
Proof.
  unfold cut_validate.
  destruct (monotonic_increasing bins), (strictly_increasing bins), (Nat.eqb_spec (length bins) 2),
    (bool_decide_reflect (NoDup labels)), (Nat.eqb_spec (length labels) (length bins - 1));
    simpl; split; intros; try done; naive_solver.
Qed.

(** The script's two binnings pass pandas' checks, so [load_data]
    and the heatmap panel never raise on them.  There are 18 total-charge
    labels, the last "8500-9000". *)
Theorem script_binnings_valid :
  cut_validate charge_bins charge_labels = None /\
  cut_validate total_bins total_labels = None /\
  length total_labels = 18 /\ last total_labels = Some "8500-9000".
Proof. split_and!; reflexivity. Qed.

Lemma cut_code_out_of_range (bins : list Q) (x : Q) :
  Forall (fun e => (x <= e)%Q) bins \/ Forall (fun e => (e < x)%Q) bins ->
  cut_code bins (Some x) = None.
Proof.
  rewrite cut_code_Some. cbv zeta.
  intros [H|H]; [rewrite searchsorted_left_zero|rewrite searchsorted_left_all]; try done;
    rewrite ?Nat.eqb_refl, ?orb_true_r; done.
Qed.

Lemma Forall_of_forallb {A} (P : A -> Prop) (g : A -> bool) (l : list A) :
  (forall a, g a = true -> P a) -> forallb g l = true -> Forall P l.
Proof.
  intros Hg Hl. apply Forall_forall. intros e He. apply Hg.
  rewrite forallb_forall in Hl. apply Hl. by apply list_elem_of_In.
Qed.

(** The edges of a binning lie in [[lo, hi]]: a value outside gets no bin. *)
Lemma cut_cell_outside (bins : list Q) (labels : list string) (lo hi x : Q) :
  forallb (fun e => Qle_bool lo e && Qle_bool e hi) bins = true ->
  (x <= lo \/ hi < x)%Q -> cut_cell bins labels (Some x) = None.
Proof.
  intros Hb Hx. rewrite cut_cell_code, cut_code_out_of_range; [done|].
  destruct Hx as [Hx|Hx]; [left|right]; (eapply Forall_of_forallb; [|exact Hb]);
    intros a [Ha1 Ha2]%andb_true_iff; qbool; lra.
Qed.

(** C27: The [ChargeRange] buckets are right-closed: a charge of exactly
    20 is in "0-20", 20.5 is in "21-40", 120 is in "101-120", and a charge
    of 0 or above 120 gets no bucket.  The spec's worked example holds:
    15 is in "0-20" and 25 in "21-40". *)
Theorem charge_range_boundaries :
  cut_cell charge_bins charge_labels (Some 0%Q) = None /\
  cut_cell charge_bins charge_labels (Some 15%Q) = Some "0-20" /\
  cut_cell charge_bins charge_labels (Some 20%Q) = Some "0-20" /\
  cut_cell charge_bins charge_labels (Some (41 # 2)%Q) = Some "21-40" /\
  cut_cell charge_bins charge_labels (Some 25%Q) = Some "21-40" /\
  cut_cell charge_bins charge_labels (Some 120%Q) = Some "101-120" /\
  (forall x, (x <= 0)%Q \/ (120 < x)%Q -> cut_cell charge_bins charge_labels (Some x) = None).
Proof.
  split_and!; try reflexivity.
  intros x Hx. apply (cut_cell_outside _ _ 0 120); [reflexivity|done].
Qed.

(** [TotalChargeRange] has 18 buckets, not 19: the edges stop at
    9000.  A total charge above 9000, or of 0 or less, gets no bucket
    (NaN) and drops out of the heatmap. *)
Theorem total_charge_range_out_of_range (x : Q) :
  (x <= 0 \/ 9000 < x)%Q -> cut_cell total_bins total_labels (Some x) = None.
Proof.
  intros Hx. apply (cut_cell_outside _ _ 0 9000); [reflexivity|done].
Qed.

Lemma total_charge_range_out_of_range_witness :
  (9500 <= 0 \/ 9000 < 9500)%Q /\ cut_cell total_bins total_labels (Some 9500%Q) = None.
Proof.
  assert (H : (9500 <= 0 \/ 9000 < 9500)%Q) by (right; reflexivity).
  split; [exact H|]. exact (total_charge_range_out_of_range 9500 H).
Defined.

(** [ChurnBinary] maps "Yes" to 1 and "No" to 0.  Any other value,
    and a missing one, silently becomes NaN: there is no error and no
    "Unknown" bucket. *)
Theorem churn_binary_spec (c : option string) :
  (churn_binary c = Some 1%Z <-> c = Some "Yes") /\
  (churn_binary c = Some 0%Z <-> c = Some "No") /\
  (churn_binary c = None <-> c <> Some "Yes" /\ c <> Some "No").
Proof.
  destruct c as [s|]; simpl; [|naive_solver].
  repeat case_bool_decide; subst; split_and!; split; intros; simplify_eq; naive_solver.
Qed.
