(* ===== verification/Tables.v ===== *)
(** * The dashboard's tables

    Each table of [teleco_app.py] as the composition of the pandas
    operations of [ValueCounts] and [Series]:
    - the churn distribution (lines 32-35): counts and rounded shares of
      [Churn];
    - the gender table (lines 47-50): counts, churned and not churned;
    - the five churn-by-category tables (lines 55-91), one generic
      [churn_table] instantiated at [CitizensStatus], [Contract],
      [TechSupport], [InternetService] and [PaymentMethod];
    - the [ChargeRange] summary (lines 124-129) on the categorical column
      built by [pd.cut]. *)

From S2P Require Import Prelude Frame Numeric ValueCounts Series Cut.
From stdpp Require Import strings.

Section churn_tables.
Context `{IndexKey K}.
Implicit Types (dim : customer -> option K) (df : list row).

(** [df[col]]: the cells of one column. *)
Definition column dim df : list (option K) := map (fun r => dim (raw r)) df.

(** [df[col].value_counts()] *)
Definition group_total dim df : list (K * nat) := value_counts (column dim df).

(** [df[df['Churn'] == 'Yes'][col].value_counts()] *)
Definition group_churned dim df : list (K * nat) :=
  value_counts (column dim (churned_rows df)).

(** [(churned / total * 100).round(2)] *)
Definition group_percent dim df : list (K * pyfloat) :=
  series_round 2 (series_scale (series_div (series_of_counts (group_churned dim df))
                                           (series_of_counts (group_total dim df))) 100).

(** [pd.DataFrame({'Total': total, 'Churned': churned, 'Percentage%': percent})] *)
Definition churn_table dim df : table K :=
  dataframe_of [("Total", series_of_counts (group_total dim df));
                ("Churned", series_of_counts (group_churned dim df));
                ("Percentage%", group_percent dim df)].

(** [value_counts(normalize=True)]: each count over their sum. *)
Definition normalize (s : list (K * nat)) : list (K * pyfloat) :=
  let n := sum_list_with snd s in
  map (fun p => (p.1, fdiv (of_nat p.2) (of_nat n))) s.
End churn_tables.

(** Lines 55-58 *)
Definition citizenship_table : list row -> table Z := churn_table CitizensStatus.
(** Lines 63-66 *)
Definition contract_table : list row -> table string := churn_table Contract.
(** Lines 72-75 *)
Definition tech_table : list row -> table string := churn_table TechSupport.
(** Lines 80-83 *)
Definition internet_table : list row -> table string := churn_table InternetService.
(** Lines 88-91 *)
Definition pay_table : list row -> table string := churn_table PaymentMethod.

(** Lines 47-50 *)
Definition gender_table (df : list row) : table string :=
  dataframe_of [("Count", series_of_counts (value_counts (column gender df)));
                ("Churned", series_of_counts (value_counts (column gender (churned_rows df))));
                ("Not Churned", series_of_counts (value_counts (column gender (not_churned_rows df))))].

(** Lines 32-35 *)
Definition churn_summary (df : list row) : table string :=
  let counts := value_counts (column Churn df) in
  dataframe_of [("Count", series_of_counts counts);
                ("Percentage", series_round 2 (series_scale (normalize counts) 100))].

(** Lines 124-127: the [ChargeRange] counts, churned counts and
    percentages, each in category order. *)
Definition range_count (df : list row) : list (string * nat) :=
  value_counts_categorical charge_labels (map ChargeRange df).

Definition range_churned (df : list row) : list (string * nat) :=
  value_counts_categorical charge_labels (map ChargeRange (churned_rows df)).

Definition range_percent (df : list row) : list (string * pyfloat) :=
  series_round 2 (series_scale (series_div (series_of_counts (range_churned df))
                                           (series_of_counts (range_count df))) 100).

(** Lines 128-129: the table with its [Range] column (the categories,
    placed by position) and the index replaced by [1..n].  A row is its
    position, its range and its cells [count], [Churned], [percentage%]. *)
Definition ChargeRange_summary (df : list row) : list (nat * string * list pyfloat) :=
  let t := dataframe_of [("count", series_of_counts (range_count df));
                         ("Churned", series_of_counts (range_churned df));
                         ("percentage%", range_percent df)] in
  let ranges := (range_count df).*1 in
  zip_with (fun i p => (i, p.1, p.2.2)) (seq 1 (length (trows t))) (zip ranges (trows t)).

(** ** Sample frames *)

(** A CSV row with the columns the examples use. *)
Definition sample_customer (g ct : string) (mc : Q) (ch : string) : customer :=
  {| customerID := None; gender := Some g; CitizensStatus := Some 0%Z; tenure := None;
     Contract := Some ct; TechSupport := None; InternetService := None;
     PaymentMethod := None; MonthlyCharges := Some mc; TotalCharges := None;
     Churn := Some ch |}.

(** The worked example of the spec: three churned customers paying 25 a
    month and seven retained customers paying 15. *)
Definition spec_example_df : list row :=
  load_data (repeat (sample_customer "Male" "One year" 25 "Yes") 3 ++
             repeat (sample_customer "Female" "Month-to-month" 15 "No") 7).

(** ** Lemmas *)


Lemma of_nat_nonzero (n : nat) : 0 < n -> Qeq_bool (inject_Z (Z.of_nat n)) 0 = false.
Proof.
  intros Hn. apply not_true_iff_false. intros E%Qeq_bool_iff.
  unfold Qeq in E. simpl in E. lia.
Qed.

(** A count over a positive total, scaled to a percentage and rounded:
    what the float pipeline [(c / t * 100).round(2)] computes. *)
Lemma percent_pipeline (c t : nat) (d : nat) :
  0 < t ->
  fround d (fmul (fdiv (of_nat c) (of_nat t)) (Fin 100)) =
  Fin (round_dec d (inject_Z (Z.of_nat c) / inject_Z (Z.of_nat t) * 100)).
Proof. intros Ht. unfold of_nat, fdiv. by rewrite of_nat_nonzero. Qed.

Lemma percent_pipeline_nan (t : nat) (d : nat) :
  fround d (fmul (fdiv NaN (of_nat t)) (Fin 100)) = NaN.
Proof. reflexivity. Qed.

(** A percentage [c / t * 100] of a part [c <= t] is in [0, 100]. *)
Lemma percent_bounds (c t : nat) :
  0 < t -> c <= t ->
  (0 <= inject_Z (Z.of_nat c) / inject_Z (Z.of_nat t) * 100 <= 100)%Q.
Proof.
  intros Ht Hct.
  assert (Tpos : (0 < inject_Z (Z.of_nat t))%Q).
  { change 0%Q with (inject_Z 0). rewrite <- Zlt_Qlt. lia. }
  pose proof (Q_of_nat_le c t Hct) as Hle. pose proof (Q_of_nat_nonneg c).
  assert (H1 : (0 <= inject_Z (Z.of_nat c) / inject_Z (Z.of_nat t))%Q).
  { apply Qle_shift_div_l; [done|]. lra. }
  assert (H2 : (inject_Z (Z.of_nat c) / inject_Z (Z.of_nat t) <= 1)%Q).
  { apply Qle_shift_div_r; [done|]. lra. }
  split; lra.
Qed.

Lemma value_at_counts `{IndexKey K} (s : list (K * nat)) (k : K) (n : nat) :
  lookup_key k s = Some n -> value_at (series_of_counts s) k = of_nat n.
Proof. intros E. unfold value_at. by rewrite series_of_counts_lookup, E. Qed.

Lemma value_at_counts_None `{IndexKey K} (s : list (K * nat)) (k : K) :
  lookup_key k s = None -> value_at (series_of_counts s) k = NaN.
Proof. intros E. unfold value_at. by rewrite series_of_counts_lookup, E. Qed.

Lemma count_of_map {A} `{IndexKey K} (g : A -> option K) (l : list A) (k : K) :
  count_of k (map g l) = count_if (fun r => bool_decide (g r = Some k)) l.
Proof.
  induction l as [|r rs IH]; [done|]. cbn [map]. by rewrite count_of_cons, count_if_cons, IH.
Qed.

Lemma count_of_map_filter {A} `{IndexKey K} (g : A -> option K) (f : A -> bool) (l : list A) (k : K) :
  count_of k (map g (List.filter f l)) = count_if (fun r => f r && bool_decide (g r = Some k)) l.
Proof.
  induction l as [|r rs IH]; [done|]. rewrite count_if_cons. cbn [List.filter].
  destruct (f r); cbn [map andb]; rewrite ?count_of_cons, IH; done.
Qed.

Lemma count_of_map_filter_le {A} `{IndexKey K} (g : A -> option K) (f : A -> bool) (l : list A) (k : K) :
  count_of k (map g (List.filter f l)) <= count_of k (map g l).
Proof.
  rewrite count_of_map_filter, count_of_map. apply count_if_impl.
  intros r. rewrite andb_true_iff. naive_solver.
Qed.

Lemma value_at_value_counts `{IndexKey K} (xs : list (option K)) (k : K) :
  value_at (series_of_counts (value_counts xs)) k =
  if decide (count_of k xs = 0) then NaN else of_nat (count_of k xs).
Proof. unfold value_at. rewrite series_of_counts_lookup, value_counts_assoc. by case_decide. Qed.

Lemma value_counts_key `{IndexKey K} (xs : list (option K)) (k : K) :
  k ∈ (value_counts xs).*1 <-> count_of k xs <> 0.
Proof. rewrite value_counts_elem. symmetry. apply count_of_nonzero. Qed.

Section churn_table_lemmas.
Context `{IndexKey K}.
Variables (dim : customer -> option K) (df : list row).

(** The number of rows of group [k], and of churned rows of group [k]. *)
Let t (k : K) : nat := count_of k (column dim df).
Let c (k : K) : nat := count_of k (column dim (churned_rows df)).

Lemma count_of_column_filter (f : row -> bool) (k : K) :
  count_of k (column dim (List.filter f df)) =
  count_if (fun r => f r && bool_decide (dim (raw r) = Some k)) df.
Proof. apply count_of_map_filter. Qed.

Lemma count_of_column (k : K) :
  count_of k (column dim df) = count_if (fun r => bool_decide (dim (raw r) = Some k)) df.
Proof. apply count_of_map. Qed.

Lemma filtered_le_total (f : row -> bool) (k : K) :
  count_of k (column dim (List.filter f df)) <= t k.
Proof. apply count_of_map_filter_le. Qed.

Lemma churned_le_total (k : K) : c k <= t k.
Proof. apply filtered_le_total. Qed.

Lemma group_total_lookup (k : K) :
  lookup_key k (group_total dim df) = if decide (t k = 0) then None else Some (t k).
Proof. apply value_counts_assoc. Qed.

Lemma group_churned_lookup (k : K) :
  lookup_key k (group_churned dim df) = if decide (c k = 0) then None else Some (c k).
Proof. apply value_counts_assoc. Qed.

(** A group of a filtered frame is a group of the frame. *)
Lemma filtered_sub (f : row -> bool) (k : K) :
  k ∈ (value_counts (column dim (List.filter f df))).*1 -> k ∈ (group_total dim df).*1.
Proof.
  unfold group_total. rewrite !value_counts_key. pose proof (filtered_le_total f k).
  unfold t in *. lia.
Qed.

Lemma group_churned_sub (k : K) :
  k ∈ (group_churned dim df).*1 -> k ∈ (group_total dim df).*1.
Proof. apply filtered_sub. Qed.

Lemma group_percent_index :
  (group_percent dim df).*1 =
  join_index (group_churned dim df).*1 (group_total dim df).*1.
Proof.
  unfold group_percent. rewrite series_round_index, series_scale_index, series_div_index.
  by rewrite !series_of_counts_index.
Qed.

Lemma group_percent_lookup (k : K) :
  k ∈ (group_total dim df).*1 ->
  lookup_key k (group_percent dim df) =
  Some (if decide (c k = 0) then NaN
        else Fin (round_dec 2 (inject_Z (Z.of_nat (c k)) / inject_Z (Z.of_nat (t k)) * 100))).
Proof.
  intros Hk. unfold group_percent.
  rewrite series_round_lookup, series_scale_lookup, series_div_lookup.
  rewrite decide_True; [|rewrite join_index_elem, !series_of_counts_index; by right].
  simpl. apply lookup_key_is_Some in Hk. rewrite group_total_lookup in Hk.
  destruct (decide (t k = 0)) as [Ht|Ht]; [by destruct Hk|].
  rewrite (value_at_counts (group_total dim df) k (t k)) by (by rewrite group_total_lookup, decide_False).
  destruct (decide (c k = 0)) as [Hc|Hc].
  - rewrite (value_at_counts_None (group_churned dim df) k) by (by rewrite group_churned_lookup, decide_True). done.
  - rewrite (value_at_counts (group_churned dim df) k (c k)) by (by rewrite group_churned_lookup, decide_False).
    f_equal. apply percent_pipeline. lia.
Qed.

(** The row index of the table: the total's labels, sorted when the
    churned counts rank the groups differently. *)
Lemma churn_table_index :
  (trows (churn_table dim df)).*1 =
  if decide ((group_churned dim df).*1 = (group_total dim df).*1)
  then (group_total dim df).*1 else sort_keys (group_total dim df).*1.
Proof.
  unfold churn_table. rewrite dataframe_of_rows, fmap_fst_map_fn. cbn [map snd].
  rewrite !series_of_counts_index, group_percent_index.
  assert (Hnd : NoDup (group_total dim df).*1) by apply value_counts_NoDup.
  assert (Hnd' : NoDup (group_churned dim df).*1) by apply value_counts_NoDup.
  rewrite join_index_sub_r by (done || apply group_churned_sub).
  rewrite union_indexes_sub.
  2:{ repeat constructor; intros k Hk; [by apply group_churned_sub|].
      case_decide; [by apply group_churned_sub|]. by apply sort_keys_elem. }
  destruct (decide ((group_churned dim df).*1 = (group_total dim df).*1)) as [E|E].
  - rewrite decide_True; [done|]. rewrite E. repeat constructor.
  - rewrite decide_False; [done|]. intros Hall. apply Forall_cons in Hall as [Hall _]. congruence.
Qed.

Lemma churn_table_key (k : K) (cells : list pyfloat) :
  (k, cells) ∈ trows (churn_table dim df) -> k ∈ (group_total dim df).*1.
Proof.
  intros Hin.
  assert (Hk : k ∈ (trows (churn_table dim df)).*1).
  { apply list_elem_of_fmap. by exists (k, cells). }
  rewrite churn_table_index in Hk. case_decide; [done|]. by apply sort_keys_elem.
Qed.

Lemma churn_table_cells (k : K) (cells : list pyfloat) :
  (k, cells) ∈ trows (churn_table dim df) ->
  cells = [value_at (series_of_counts (group_total dim df)) k;
           value_at (series_of_counts (group_churned dim df)) k;
           value_at (group_percent dim df) k].
Proof. unfold churn_table. rewrite dataframe_of_rows, elem_of_map_pair. naive_solver. Qed.

Lemma churn_table_row_cells (k : K) (cells : list pyfloat) :
  (k, cells) ∈ trows (churn_table dim df) ->
  0 < t k /\ c k <= t k /\
  cells = [of_nat (t k);
           if decide (c k = 0) then NaN else of_nat (c k);
           if decide (c k = 0) then NaN
           else Fin (round_dec 2 (inject_Z (Z.of_nat (c k)) / inject_Z (Z.of_nat (t k)) * 100))].
Proof.
  intros Hin. pose proof (churn_table_key _ _ Hin) as Hk.
  rewrite (churn_table_cells _ _ Hin).
  assert (Ht : t k <> 0) by (by apply value_counts_key).
  split_and!; [lia|apply churned_le_total|].
  unfold value_at at 3. rewrite group_percent_lookup by done. simpl.
  unfold group_total, group_churned. rewrite !value_at_value_counts. fold (t k) (c k).
  by rewrite decide_False.
Qed.

(** C1: Each row of a churn-by-category table is one group [k] of the
    column.  Its [Total] is the group's size [t > 0] and its [Churned]
    is the number [c <= t] of its churned customers.  Its [Percentage%]
    is [round(c / t * 100, 2)].  When the group has no churner, pandas'
    alignment leaves both [Churned] and [Percentage%] NaN, not 0.  The
    code divides and rounds in float64; for a group of at most 100
    customers its double is this value ([Binary64.group_percent_b64]),
    while above that the two can part (23 of 160 shows 14.37, not 14.38). *)
Theorem churn_table_rows (k : K) (cells : list pyfloat) :
  (k, cells) ∈ trows (churn_table dim df) -> t k <= 100 ->
  0 < t k /\ c k <= t k /\
  cells = [of_nat (t k);
           if decide (c k = 0) then NaN else of_nat (c k);
           if decide (c k = 0) then NaN
           else Fin (round_dec 2 (inject_Z (Z.of_nat (c k)) / inject_Z (Z.of_nat (t k)) * 100))].
Proof. intros Hin _. by apply churn_table_row_cells. Qed.

(** A [Percentage%] cell is NaN or a number between 0 and 100;
    it is never infinite (no group has a zero total). *)
Theorem churn_table_percent_bounds (k : K) (cells : list pyfloat) :
  (k, cells) ∈ trows (churn_table dim df) ->
  exists tot ch pct, cells = [tot; ch; pct] /\
    (pct = NaN \/ exists p, pct = Fin p /\ (0 <= p <= 100)%Q).
Proof.
  intros Hin. destruct (churn_table_row_cells k cells Hin) as (Ht & Hct & ->).
  eexists _, _, _. split; [reflexivity|]. case_decide; [by left|right].
  eexists; split; [reflexivity|].
  apply (round_dec_within 2 0 100). by apply percent_bounds; [lia|].
Qed.

(** C4: The rows of a churn-by-category table are the groups present in
    the column, each once.  They are in descending-total order only when
    the churned counts rank the groups the same way; otherwise pandas'
    index alignment puts them in sorted label order. *)
Theorem churn_table_order :
  NoDup (trows (churn_table dim df)).*1 /\
  (forall k, k ∈ (trows (churn_table dim df)).*1 <-> Some k ∈ column dim df) /\
  (trows (churn_table dim df)).*1 =
    if decide ((group_churned dim df).*1 = (group_total dim df).*1)
    then (group_total dim df).*1 else sort_keys (group_total dim df).*1.
Proof.
  pose proof (value_counts_NoDup (column dim df)) as Hnd.
  pose proof (value_counts_elem (column dim df)) as Hel.
  rewrite churn_table_index. split_and!; [| |done].
  - case_decide; [done|]. by apply sort_keys_NoDup.
  - intros k. case_decide; [apply Hel|]. rewrite sort_keys_elem. apply Hel.
Qed.
End churn_table_lemmas.

Lemma churn_table_rows_witness :
  ("One year", [of_nat 3; of_nat 3; Fin (10000 # 100)]) ∈ trows (contract_table spec_example_df) /\
  0 < count_of "One year" (column Contract spec_example_df) /\
  count_of "One year" (column Contract spec_example_df) <= 100 /\
  count_of "One year" (column Contract (churned_rows spec_example_df)) <=
    count_of "One year" (column Contract spec_example_df).
Proof.
  assert (Hin : ("One year", [of_nat 3; of_nat 3; Fin (10000 # 100)])
                  ∈ trows (contract_table spec_example_df))
    by (apply (bool_decide_unpack _); vm_compute; reflexivity).
  assert (Ht : count_of "One year" (column Contract spec_example_df) <= 100) by (vm_compute; lia).
  split; [exact Hin|].
  destruct (churn_table_rows Contract spec_example_df _ _ Hin Ht) as (H1 & H2 & _). by split_and!.
Defined.

Lemma churn_table_percent_bounds_witness :
  ("Month-to-month", [of_nat 7; NaN; NaN]) ∈ trows (contract_table spec_example_df) /\
  exists tot ch pct, [of_nat 7; NaN; NaN] = [tot; ch; pct] /\
    (pct = NaN \/ exists p, pct = Fin p /\ (0 <= p <= 100)%Q).
Proof.
  assert (Hin : ("Month-to-month", [of_nat 7; NaN; NaN]) ∈ trows (contract_table spec_example_df))
    by (apply (bool_decide_unpack _); vm_compute; reflexivity).
  split; [exact Hin|]. exact (churn_table_percent_bounds Contract spec_example_df _ _ Hin).
Defined.

(** Each row of the gender table is one gender [k].  [Count] is its
    size, and [Churned] and [Not Churned] are its "Yes" and "No" counts,
    NaN when zero.  The two add up to [Count] less the customers whose
    [Churn] is neither "Yes" nor "No". *)
Theorem gender_table_rows (df : list row) (k : string) (cells : list pyfloat) :
  (k, cells) ∈ trows (gender_table df) ->
  let n := count_of k (column gender df) in
  let y := count_of k (column gender (churned_rows df)) in
  let m := count_of k (column gender (not_churned_rows df)) in
  cells = [of_nat n; if decide (y = 0) then NaN else of_nat y;
           if decide (m = 0) then NaN else of_nat m] /\
  y + m + count_if (fun r => bool_decide (gender (raw r) = Some k) &&
                             negb (is_yes (Churn (raw r))) &&
                             negb (bool_decide (Churn (raw r) = Some "No"))) df = n.
Proof.
  intros Hin. apply dataframe_of_row in Hin as [Hk ->].
  2:{ repeat constructor; intros j; cbn [snd]; rewrite !series_of_counts_index; apply filtered_sub. }
  rewrite series_of_counts_index in Hk. cbn [map snd].
  rewrite !value_at_value_counts. rewrite value_counts_key in Hk. split.
  - by rewrite decide_False.
  - unfold churned_rows, not_churned_rows, column.
    rewrite !count_of_map_filter, count_of_map.
    rewrite (count_if_split (fun r => bool_decide (gender (raw r) = Some k)) (fun r => is_yes (Churn (raw r)))).
    rewrite (count_if_split (fun r => bool_decide (gender (raw r) = Some k) && negb (is_yes (Churn (raw r))))
                            (fun r => bool_decide (Churn (raw r) = Some "No"))).
    assert (E1 : forall p q : row -> bool, count_if (fun r => p r && q r) df = count_if (fun r => q r && p r) df)
      by (intros p q; apply count_if_ext; intros r _; apply andb_comm).
    rewrite (E1 _ (fun r => is_yes (Churn (raw r)))).
    rewrite (count_if_ext (fun r => bool_decide (gender (raw r) = Some k) && negb (is_yes (Churn (raw r))) &&
                                    bool_decide (Churn (raw r) = Some "No"))
                          (fun r => bool_decide (Churn (raw r) = Some "No") && bool_decide (gender (raw r) = Some k))).
    + rewrite Nat.add_assoc. reflexivity.
    + intros r _. destruct (Churn (raw r)) as [ch|]; simpl; repeat case_bool_decide; simplify_eq; done.
Qed.

Lemma gender_table_rows_witness :
  ("Male", [of_nat 3; of_nat 3; NaN]) ∈ trows (gender_table spec_example_df) /\
  count_of "Male" (column gender (churned_rows spec_example_df)) +
  count_of "Male" (column gender (not_churned_rows spec_example_df)) +
  count_if (fun r => bool_decide (gender (raw r) = Some "Male") &&
                     negb (is_yes (Churn (raw r))) &&
                     negb (bool_decide (Churn (raw r) = Some "No"))) spec_example_df =
  count_of "Male" (column gender spec_example_df).
Proof.
  assert (Hin : ("Male", [of_nat 3; of_nat 3; NaN]) ∈ trows (gender_table spec_example_df))
    by (apply (bool_decide_unpack _); vm_compute; reflexivity).
  split; [exact Hin|]. exact (proj2 (gender_table_rows _ _ _ Hin)).
Defined.

(** ** The [ChargeRange] summary *)

Lemma range_count_index (df : list row) : (range_count df).*1 = charge_labels.
Proof. apply value_counts_categorical_keys. Qed.

Lemma range_churned_index (df : list row) : (range_churned df).*1 = charge_labels.
Proof. apply value_counts_categorical_keys. Qed.

Lemma range_percent_index (df : list row) : (range_percent df).*1 = charge_labels.
Proof.
  unfold range_percent. rewrite series_round_index, series_scale_index, series_div_index.
  rewrite !series_of_counts_index, range_count_index, range_churned_index.
  unfold join_index. by rewrite decide_True.
Qed.

Lemma ChargeRange_summary_eq (df : list row) :
  ChargeRange_summary df =
  zip_with (fun i k => (i, k, [value_at (series_of_counts (range_count df)) k;
                               value_at (series_of_counts (range_churned df)) k;
                               value_at (range_percent df) k]))
           (seq 1 (length charge_labels)) charge_labels.
Proof.
  unfold ChargeRange_summary. rewrite dataframe_of_rows. cbn [map snd].
  rewrite !series_of_counts_index, range_percent_index, range_count_index, range_churned_index.
  unfold union_indexes. rewrite decide_True by (repeat constructor). reflexivity.
Qed.

Lemma range_value_at_count (df : list row) (k : string) :
  k ∈ charge_labels ->
  value_at (series_of_counts (range_count df)) k = of_nat (count_of k (map ChargeRange df)).
Proof.
  intros Hk. apply value_at_counts. by apply value_counts_categorical_assoc.
Qed.

Lemma range_value_at_churned (df : list row) (k : string) :
  k ∈ charge_labels ->
  value_at (series_of_counts (range_churned df)) k =
  of_nat (count_of k (map ChargeRange (churned_rows df))).
Proof.
  intros Hk. apply value_at_counts. by apply value_counts_categorical_assoc.
Qed.

Lemma range_value_at_percent (df : list row) (k : string) :
  k ∈ charge_labels ->
  let n := count_of k (map ChargeRange df) in
  let ch := count_of k (map ChargeRange (churned_rows df)) in
  value_at (range_percent df) k =
  if decide (n = 0) then NaN
  else Fin (round_dec 2 (inject_Z (Z.of_nat ch) / inject_Z (Z.of_nat n) * 100)).
Proof.
  intros Hk n ch. unfold value_at, range_percent.
  rewrite series_round_lookup, series_scale_lookup, series_div_lookup.
  rewrite decide_True; [|rewrite join_index_elem, series_of_counts_index, range_churned_index; by left].
  rewrite range_value_at_count, range_value_at_churned by done. simpl. fold n ch.
  assert (Hle : ch <= n) by apply count_of_map_filter_le.
  destruct (decide (n = 0)) as [Hn|Hn].
  - assert (ch = 0) as -> by lia. rewrite Hn. reflexivity.
  - apply percent_pipeline. lia.
Qed.

(** C5: The [ChargeRange] summary has one row per bucket: six rows at
    positions 1 to 6, in bucket order, even for a bucket no customer is
    in.  A row's [count] is the bucket's size [n] and [Churned] is its
    churned customers [ch <= n]; zero counts are 0, not NaN.  Its
    [percentage%] is [round(ch / n * 100, 2)], and NaN exactly for an
    empty bucket: on a bucket of at most 100 customers, where the code's
    float64 division and rounding give this value. *)
Theorem ChargeRange_summary_spec (df : list row) :
  map (fun r => (r.1.1, r.1.2)) (ChargeRange_summary df) = zip (seq 1 6) charge_labels /\
  forall i rng cells, (i, rng, cells) ∈ ChargeRange_summary df ->
    let n := count_of rng (map ChargeRange df) in
    let ch := count_of rng (map ChargeRange (churned_rows df)) in
    n <= 100 ->
    ch <= n /\
    cells = [of_nat n; of_nat ch;
             if decide (n = 0) then NaN
             else Fin (round_dec 2 (inject_Z (Z.of_nat ch) / inject_Z (Z.of_nat n) * 100))].
Proof.
  rewrite ChargeRange_summary_eq. split; [reflexivity|].
  intros i rng cells Hin n ch _.
  assert (Hk : rng ∈ charge_labels /\
               cells = [value_at (series_of_counts (range_count df)) rng;
                        value_at (series_of_counts (range_churned df)) rng;
                        value_at (range_percent df) rng]).
  { rewrite list_elem_of_In in Hin. simpl in Hin.
    repeat destruct Hin as [Hin|Hin]; simplify_eq; split; try set_solver; done. }
  destruct Hk as [Hk ->]. split; [apply count_of_map_filter_le|].
  by rewrite range_value_at_count, range_value_at_churned, range_value_at_percent.
Qed.

(** The spec's worked example, on the frame that [load_data] builds
    from it (three churned customers at 25, seven retained at 15).  In
    the [ChargeRange] summary, bucket "0-20" has count 7, churned 0 and
    0.0%, bucket "21-40" has 3, 3 and 100.0%, and every other bucket has
    NaN%.  The contract table on the same frame shows the other policy:
    "Month-to-month" has no churner, so its [Churned] and [Percentage%]
    are NaN, not 0. *)
Theorem spec_example_tables :
  ChargeRange_summary spec_example_df =
    [(1, "0-20", [of_nat 7; of_nat 0; Fin (0 # 100)]);
     (2, "21-40", [of_nat 3; of_nat 3; Fin (10000 # 100)]);
     (3, "41-60", [of_nat 0; of_nat 0; NaN]);
     (4, "61-80", [of_nat 0; of_nat 0; NaN]);
     (5, "81-100", [of_nat 0; of_nat 0; NaN]);
     (6, "101-120", [of_nat 0; of_nat 0; NaN])] /\
  trows (contract_table spec_example_df) =
    [("Month-to-month", [of_nat 7; NaN; NaN]);
     ("One year", [of_nat 3; of_nat 3; Fin (10000 # 100)])].
Proof. split; vm_compute; reflexivity. Qed.

(** ** The shape of the tables *)

Section table_shapes.
Context `{IndexKey K}.
Implicit Types (dim : customer -> option K) (df : list row).

Lemma counts_NoDup (xs : list (option K)) : NoDup (series_of_counts (value_counts xs)).*1.
Proof. rewrite series_of_counts_index. apply value_counts_NoDup. Qed.

Lemma group_percent_NoDup dim df : NoDup (group_percent dim df).*1.
Proof.
  unfold group_percent. rewrite series_round_index, series_scale_index.
  apply series_div_NoDup; apply counts_NoDup.
Qed.

Lemma churn_table_wf dim df : table_wf (churn_table dim df).
Proof.
  apply dataframe_of_wf. repeat constructor; simpl; [apply counts_NoDup..|apply group_percent_NoDup].
Qed.

Lemma normalize_index (c : list (K * nat)) : (normalize c).*1 = c.*1.
Proof. unfold normalize. apply (fmap_fst_map_snd (fun p => fdiv (of_nat p) (of_nat (sum_list_with snd c)))). Qed.
End table_shapes.

Lemma gender_table_wf df : table_wf (gender_table df).
Proof. apply dataframe_of_wf. repeat constructor; simpl; apply counts_NoDup. Qed.

Lemma churn_summary_wf df : table_wf (churn_summary df).
Proof.
  apply dataframe_of_wf. repeat constructor; simpl; [apply counts_NoDup|].
  rewrite series_round_index, series_scale_index, normalize_index. apply value_counts_NoDup.
Qed.

Lemma range_counts_NoDup (f : list row -> list row) df :
  NoDup (series_of_counts (value_counts_categorical charge_labels (map ChargeRange (f df)))).*1.
Proof.
  rewrite series_of_counts_index, value_counts_categorical_keys.
  apply (bool_decide_unpack _). vm_compute. reflexivity.
Qed.

(** Every row of the [ChargeRange] summary has its three cells. *)
Lemma ChargeRange_summary_shape df : Forall (fun r => length r.2 = 3) (ChargeRange_summary df).
Proof.
  unfold ChargeRange_summary. cbv zeta.
  assert (Ht : table_wf (dataframe_of [("count", series_of_counts (range_count df));
                                        ("Churned", series_of_counts (range_churned df));
                                        ("percentage%", range_percent df)])).
  { apply dataframe_of_wf. constructor; [|constructor; [|constructor; [|constructor]]]; cbn [snd].
    - apply (range_counts_NoDup id df).
    - apply (range_counts_NoDup churned_rows df).
    - unfold range_percent. rewrite series_round_index, series_scale_index.
      apply series_div_NoDup; [apply (range_counts_NoDup churned_rows df)|apply (range_counts_NoDup id df)]. }
  apply (Forall_zip_with_r _ (fun p => length p.2.2 = 3)); [done|].
  destruct Ht as [_ Hrows]. apply (Forall_zip_r (fun r => length r.2 = 3)). exact Hrows.
Qed.
