(* ===== verification/Pivot.v ===== *)
(** * The heatmap cross-tabulation (lines 152-170)

    [df.pivot_table(index='TotalChargeRange', columns='Contract', values=v,
    aggfunc=f, observed=True)] groups the rows by the two keys.  Rows with
    a missing key are dropped ([dropna]).  It keeps the observed
    combinations only and unstacks the columns.  So the row labels are
    the observed [TotalChargeRange] categories in category order.  The
    column labels are the observed [Contract] values, sorted.  A
    combination with no row is NaN.
    - line 157: [values='customerID', aggfunc='count'], the non-null ids;
    - line 158: [values='Churn', aggfunc=lambda x: (x == 'Yes').mean()],
      then [* 100];
    - lines 159-160: the churn columns are renamed ["{col} Churn %"], the two
      grids are concatenated side by side (same index) and [.round(1)];
    - lines 162-163: the columns whose name contains ["Churn"] are kept and
      renamed back with [.replace(' Churn %', '')].  The heatmap shows that
      grid (line 166). *)

From S2P Require Import Prelude PyString Frame Numeric ValueCounts Series Cut Tables.
From stdpp Require Import strings.

(** ** [pivot_table] *)

Section pivot.
Context `{IndexKey R} `{IndexKey C}.
Variables (rkey : row -> option R) (ckey : row -> option C).

(** The rows of cell [(i, j)]. *)
Definition cell_rows (df : list row) (i : R) (j : C) : list row :=
  List.filter (fun r => bool_decide (rkey r = Some i) && bool_decide (ckey r = Some j)) df.

(** The rows [groupby] keeps: both keys present. *)
Definition keyed_rows (df : list row) : list row :=
  List.filter (fun r => bool_decide (is_Some (rkey r)) && bool_decide (is_Some (ckey r))) df.

(** [observed=True] on the categorical index: the categories that some
    kept row has, in category order. *)
Definition pivot_index (cats : list R) (df : list row) : list R :=
  List.filter (fun i => existsb (fun r => bool_decide (rkey r = Some i) &&
                                          bool_decide (is_Some (ckey r))) df) cats.

(** The unstacked columns: the observed column keys, sorted. *)
Definition pivot_columns (df : list row) : list C :=
  sort_keys (first_appearance (map ckey (keyed_rows df))).

(** [pivot_table(..., aggfunc=agg, observed=True)]: a row per observed
    category, a cell per observed column key, NaN for an empty
    combination. *)
Definition pivot_cell (agg : list row -> pyfloat) (df : list row) (i : R) (j : C) : pyfloat :=
  match cell_rows df i j with
  | [] => NaN
  | g => agg g
  end.

Definition pivot (agg : list row -> pyfloat) (cats : list R) (df : list row)
  : list (R * list pyfloat) :=
  map (fun i => (i, map (pivot_cell agg df i) (pivot_columns df))) (pivot_index cats df).
End pivot.

(** ** The script's two grids *)

(** The row has a [customerID] ([count] skips NaN). *)
Definition has_customerID (r : row) : bool := bool_decide (is_Some (customerID (raw r))).

(** [aggfunc='count'] on [customerID]: the non-null ids of the cell. *)
Definition agg_count_id (g : list row) : pyfloat := of_nat (count_if has_customerID g).

(** [aggfunc=lambda x: (x == 'Yes').mean()] on [Churn]: the share of the
    cell's rows whose [Churn] is "Yes" (NaN compares unequal). *)
Definition agg_churn_mean (g : list row) : pyfloat :=
  fdiv (of_nat (count_if (fun r => is_yes (Churn (raw r))) g)) (of_nat (length g)).

Definition contract_key (r : row) : option string := Contract (raw r).

(** Line 157 *)
Definition count_grid (df : list row) : list (string * list pyfloat) :=
  pivot TotalChargeRange contract_key agg_count_id total_labels df.

(** Line 158: the churn grid, times 100. *)
Definition churn_grid (df : list row) : list (string * list pyfloat) :=
  map (fun p => (p.1, map (fun x => fmul x (Fin 100)) p.2))
      (pivot TotalChargeRange contract_key agg_churn_mean total_labels df).

(** Lines 158-159: the column names of the two grids. *)
Definition grid_columns (df : list row) : list string :=
  pivot_columns TotalChargeRange contract_key df.

Definition churn_columns (df : list row) : list string :=
  map (fun c => c +:+ " Churn %") (grid_columns df).

(** Line 160: [pd.concat([count_table, churn_table], axis=1).round(1)].
    The two grids have the same index, so the rows line up. *)
Definition final_table (df : list row) : list (string * list pyfloat) :=
  zip_with (fun a b => (a.1, map (fround 1) (a.2 ++ b.2))) (count_grid df) (churn_grid df).

Definition final_columns (df : list row) : list string :=
  grid_columns df ++ churn_columns df.

(** Line 162: the selected names, [[col for col in final_table.columns
    if 'Churn' in col]]. *)
Definition churn_names (df : list row) : list string :=
  List.filter (py_contains "Churn") (final_columns df).

(** The positions of the columns named [nm]: with duplicate labels,
    selecting [df[[nm]]] yields every one of them. *)
Definition positions_of (cols : list string) (nm : string) : list nat :=
  List.filter (fun n => bool_decide (cols !! n = Some nm)) (seq 0 (length cols)).

(** Line 162: the columns [final_table[names]] selects, in order. *)
Definition churn_positions (df : list row) : list nat :=
  mjoin (map (positions_of (final_columns df)) (churn_names df)).

(** Line 162: [churn_pct], the selected columns of [final_table]. *)
Definition churn_pct (df : list row) : list (string * list pyfloat) :=
  map (fun p => (p.1, omap (fun n => p.2 !! n) (churn_positions df))) (final_table df).

(** Line 163: the selected columns, renamed. *)
Definition churn_pct_columns (df : list row) : list string :=
  map (py_replace " Churn %" "") (omap (fun n => final_columns df !! n) (churn_positions df)).

(** Line 155 and the frame of the heatmap panel: [df] with the
    [TotalChargeRange] column assigned. *)
Definition heatmap_frame (df : list row) : list row :=
  map assign_total_charge_range df.

(** ** The shape of a pivot *)

Section pivot_lemmas.
Context `{IndexKey R} `{IndexKey C}.
Variables (rkey : row -> option R) (ckey : row -> option C).
Implicit Types (df : list row) (cats : list R).

Lemma pivot_index_elem cats df i :
  i ∈ pivot_index rkey ckey cats df <->
  i ∈ cats /\ exists r, r ∈ df /\ rkey r = Some i /\ is_Some (ckey r).
Proof.
  unfold pivot_index. rewrite elem_of_List_filter, existsb_elem_of.
  setoid_rewrite andb_true_iff. setoid_rewrite bool_decide_eq_true. naive_solver.
Qed.

Lemma pivot_index_sublist cats df : pivot_index rkey ckey cats df `sublist_of` cats.
Proof. apply List_filter_sublist. Qed.

Lemma pivot_index_NoDup cats df : NoDup cats -> NoDup (pivot_index rkey ckey cats df).
Proof. apply NoDup_List_filter. Qed.

Lemma pivot_columns_elem df j :
  j ∈ pivot_columns rkey ckey df <-> exists r, r ∈ df /\ is_Some (rkey r) /\ ckey r = Some j.
Proof.
  unfold pivot_columns. rewrite sort_keys_elem, first_appearance_elem, elem_of_List_map.
  unfold keyed_rows. setoid_rewrite elem_of_List_filter.
  setoid_rewrite andb_true_iff. setoid_rewrite bool_decide_eq_true. naive_solver.
Qed.

Lemma pivot_columns_NoDup df : NoDup (pivot_columns rkey ckey df).
Proof. apply sort_keys_NoDup, first_appearance_NoDup. Qed.

Lemma pivot_columns_sorted df : Sorted key_le (pivot_columns rkey ckey df).
Proof. apply sort_keys_sorted. Qed.

Lemma pivot_keys agg cats df : (pivot rkey ckey agg cats df).*1 = pivot_index rkey ckey cats df.
Proof. apply fmap_fst_map_fn. Qed.

Lemma pivot_row agg cats df i cells :
  (i, cells) ∈ pivot rkey ckey agg cats df <->
  i ∈ pivot_index rkey ckey cats df /\
  cells = map (pivot_cell rkey ckey agg df i) (pivot_columns rkey ckey df).
Proof. unfold pivot. rewrite elem_of_List_map. naive_solver. Qed.

Lemma cell_rows_elem df i j r :
  r ∈ cell_rows rkey ckey df i j <-> r ∈ df /\ rkey r = Some i /\ ckey r = Some j.
Proof.
  unfold cell_rows. rewrite elem_of_List_filter, andb_true_iff, !bool_decide_eq_true.
  naive_solver.
Qed.

(** A cell is NaN exactly when no row falls in it. *)
Lemma pivot_cell_cases agg df i j :
  (cell_rows rkey ckey df i j = [] /\ pivot_cell rkey ckey agg df i j = NaN) \/
  (cell_rows rkey ckey df i j <> [] /\
   pivot_cell rkey ckey agg df i j = agg (cell_rows rkey ckey df i j)).
Proof. unfold pivot_cell. destruct (cell_rows rkey ckey df i j); [left|right]; done. Qed.

(** Every row of the index has at least one row of [df] under some
    column. *)
Lemma pivot_index_cell cats df i :
  i ∈ pivot_index rkey ckey cats df ->
  exists j, j ∈ pivot_columns rkey ckey df /\ cell_rows rkey ckey df i j <> [].
Proof.
  rewrite pivot_index_elem. intros [_ (r & Hr & Hi & [j Hj])]. exists j. split.
  - apply pivot_columns_elem. exists r. rewrite Hi. eauto.
  - intros Hnil. assert (Hin : r ∈ cell_rows rkey ckey df i j) by (by apply cell_rows_elem).
    rewrite Hnil in Hin. set_solver.
Qed.

(** Counting over the grid: the rows satisfying [p], cell by cell, add
    up to the rows satisfying [p] whose row key is a category and whose
    column key is present. *)
Lemma pivot_total_count (p : row -> bool) cats df :
  NoDup cats ->
  sum_list_with (fun i => sum_list_with (fun j => count_if p (cell_rows rkey ckey df i j))
                                        (pivot_columns rkey ckey df))
                (pivot_index rkey ckey cats df) =
  count_if (fun r => p r && in_categories cats (rkey r) && bool_decide (is_Some (ckey r))) df.
Proof.
  intros Hnd. set (cols := pivot_columns rkey ckey df). set (I := pivot_index rkey ckey cats df).
  rewrite (sum_list_with_ext _ (fun i => count_if (fun r => (p r && in_categories cols (ckey r))
                                              && bool_decide (rkey r = Some i)) df)).
  2:{ intros i _. transitivity (count_if (fun r => (p r && bool_decide (rkey r = Some i))
                                                   && in_categories cols (ckey r)) df).
      - rewrite <- sum_count_if_in_categories by apply pivot_columns_NoDup.
        apply sum_list_with_ext. intros j _. unfold cell_rows. rewrite count_if_filter.
        apply count_if_ext. intros r _.
        by destruct (p r), (bool_decide (rkey r = Some i)), (bool_decide (ckey r = Some j)).
      - apply count_if_ext. intros r _.
        by destruct (p r), (bool_decide (rkey r = Some i)), (in_categories cols (ckey r)). }
  rewrite sum_count_if_in_categories by (by apply pivot_index_NoDup).
  apply count_if_ext. intros r Hr. destruct (p r); simpl; [|done].
  destruct (ckey r) as [j|] eqn:Ej, (rkey r) as [i|] eqn:Ei; simpl;
    rewrite ?andb_false_r, ?andb_true_r; try done.
  rewrite (bool_decide_eq_true_2 (j ∈ cols)); simpl.
  - apply bool_decide_ext. subst I. rewrite pivot_index_elem. split; [naive_solver|].
    intros Hi. split; [done|]. exists r. rewrite Ej. eauto.
  - apply pivot_columns_elem. exists r. rewrite Ei. eauto.
Qed.
End pivot_lemmas.

(** ** Column names *)

(** The positions of the names of [l2] in [l1 ++ l2], when the names are
    distinct, are those of [l2]. *)
Lemma positions_of_suffix (l1 l2 : list string) :
  NoDup (l1 ++ l2) -> mjoin (map (positions_of (l1 ++ l2)) l2) = seq (length l1) (length l2).
Proof.
  revert l1. induction l2 as [|x l2 IH]; intros l1 Hnd; [done|]. simpl.
  assert (Hx : positions_of (l1 ++ x :: l2) x = [length l1]).
  { apply List_filter_seq_unique; [rewrite length_app; simpl; lia|]. intros m.
    rewrite bool_decide_eq_true. split; [|intros ->; by rewrite list_lookup_middle].
    intros Hm. eapply NoDup_lookup; [exact Hnd|exact Hm|by rewrite list_lookup_middle]. }
  rewrite Hx. simpl. f_equal.
  replace (l1 ++ x :: l2) with ((l1 ++ [x]) ++ l2) in * by by rewrite <- app_assoc.
  rewrite IH by done. rewrite length_app. simpl. f_equal. lia.
Qed.

(** [" Churn %"] has no border: appended to a name without "Churn", it
    does not occur before its own position. *)
Lemma churn_suffix_border (s : string) :
  s <> "" -> py_contains "Churn" s = false ->
  py_startswith " Churn %" (s +:+ " Churn %") = false.
Proof.
  intros Hne Hc. destruct s as [|a s]; [done|]. clear Hne.
  rewrite string_app_cons, py_startswith_cons. split_char.
  rewrite py_contains_cons in Hc. apply orb_false_iff in Hc as [_ Hc].
  destruct s as [|b s]; [reflexivity|].
  rewrite py_contains_cons in Hc. apply orb_false_iff in Hc as [Hs _].
  rewrite string_app_cons, py_startswith_cons. split_char.
  do 4 (destruct s as [|? s]; [reflexivity|]; rewrite string_app_cons, py_startswith_cons; split_char).
  simpl in Hs. discriminate.
Qed.

Lemma py_replace_fuel_churn_suffix (c : string) (fuel : nat) :
  py_contains "Churn" c = false -> String.length (c +:+ " Churn %") <= fuel ->
  py_replace_fuel fuel " Churn %" "" (c +:+ " Churn %") = c.
Proof.
  revert fuel. induction c as [|a c IH]; intros fuel Hc Hlen.
  - destruct fuel as [|f]; [simpl in Hlen; lia|]. simpl. by destruct f.
  - destruct fuel as [|f]; [simpl in Hlen; lia|].
    rewrite string_app_cons, py_replace_fuel_cons, <- string_app_cons, churn_suffix_border by done.
    rewrite IH; [done| |].
    + rewrite py_contains_cons in Hc. by apply orb_false_iff in Hc as [_ Hc].
    + rewrite string_app_cons in Hlen. simpl in Hlen. lia.
Qed.

(** Line 163 undoes line 159 on a name without "Churn". *)
Lemma py_replace_churn_suffix (c : string) :
  py_contains "Churn" c = false -> py_replace " Churn %" "" (c +:+ " Churn %") = c.
Proof. intros Hc. by apply py_replace_fuel_churn_suffix. Qed.

(** ** The heatmap *)

Local Abbreviation heat_index df := (pivot_index TotalChargeRange contract_key total_labels df).
Local Abbreviation count_cell df i j := (pivot_cell TotalChargeRange contract_key agg_count_id df i j).
Local Abbreviation churn_cell df i j :=
  (fmul (pivot_cell TotalChargeRange contract_key agg_churn_mean df i j) (Fin 100)).

Lemma count_grid_eq df :
  count_grid df = map (fun i => (i, map (fun j => count_cell df i j) (grid_columns df))) (heat_index df).
Proof. reflexivity. Qed.

Lemma churn_grid_eq df :
  churn_grid df = map (fun i => (i, map (fun j => churn_cell df i j) (grid_columns df))) (heat_index df).
Proof. unfold churn_grid, pivot. rewrite map_map. apply map_ext. intros i. simpl. by rewrite map_map. Qed.

Lemma final_table_eq df :
  final_table df =
  map (fun i => (i, map (fround 1) (map (fun j => count_cell df i j) (grid_columns df) ++
                                     map (fun j => churn_cell df i j) (grid_columns df))))
      (heat_index df).
Proof. unfold final_table. rewrite count_grid_eq, churn_grid_eq, zip_with_map_same. reflexivity. Qed.

#[local] Instance churn_suffix_inj : Inj (=) (=) (fun c => c +:+ " Churn %").
Proof. intros c1 c2. apply string_app_inj_r. Qed.

Lemma churn_name_contains (c : string) : py_contains "Churn" (c +:+ " Churn %") = true.
Proof. by apply py_contains_app_r. Qed.

Section plain_labels.
Variable df : list row.
(** No contract label contains "Churn". *)
Hypothesis Hplain : Forall (fun c => py_contains "Churn" c = false) (grid_columns df).

Lemma churn_names_eq : churn_names df = churn_columns df.
Proof.
  unfold churn_names, final_columns. rewrite List.filter_app, List_filter_nil.
  - apply List_filter_all. intros x (c & -> & _)%elem_of_List_map. apply churn_name_contains.
  - intros c Hc. rewrite Forall_forall in Hplain. by apply Hplain.
Qed.

Lemma final_columns_NoDup : NoDup (final_columns df).
Proof.
  unfold final_columns, churn_columns. apply NoDup_app. split_and!.
  - apply pivot_columns_NoDup.
  - intros c Hc (c' & -> & _)%elem_of_List_map. rewrite Forall_forall in Hplain.
    specialize (Hplain _ Hc). by rewrite churn_name_contains in Hplain.
  - apply NoDup_fmap_2; [apply _|apply pivot_columns_NoDup].
Qed.

Lemma churn_positions_eq :
  churn_positions df = seq (length (grid_columns df)) (length (grid_columns df)).
Proof.
  unfold churn_positions. rewrite churn_names_eq. pose proof final_columns_NoDup as Hnd.
  unfold final_columns in *. rewrite positions_of_suffix by done.
  unfold churn_columns. by rewrite length_map.
Qed.

Lemma churn_pct_eq :
  churn_pct df =
  map (fun i => (i, map (fun j => fround 1 (churn_cell df i j)) (grid_columns df))) (heat_index df).
Proof.
  unfold churn_pct. rewrite churn_positions_eq, final_table_eq, map_map. apply map_ext. intros i.
  cbn [fst snd]. f_equal. rewrite map_app.
  pose proof (omap_lookup_seq_app (map (fround 1) (map (fun j => count_cell df i j) (grid_columns df)))
                                  (map (fround 1) (map (fun j => churn_cell df i j) (grid_columns df)))) as E.
  rewrite !length_map in E. by rewrite E, map_map.
Qed.

Lemma churn_pct_columns_eq : churn_pct_columns df = grid_columns df.
Proof.
  unfold churn_pct_columns. rewrite churn_positions_eq.
  pose proof (omap_lookup_seq_app (grid_columns df) (churn_columns df)) as E.
  unfold churn_columns in E at 2. rewrite length_map in E. unfold final_columns. rewrite E.
  unfold churn_columns. rewrite map_map. rewrite <- (map_id (grid_columns df)) at 2.
  apply map_ext_in. intros c Hc%list_elem_of_In. apply py_replace_churn_suffix.
  rewrite Forall_forall in Hplain. by apply Hplain.
Qed.
End plain_labels.

Lemma total_labels_NoDup : NoDup total_labels.
Proof. apply (bool_decide_unpack _). vm_compute. exact I. Qed.

Lemma count_cell_cases df i j :
  count_cell df i j = NaN \/ exists n, count_cell df i j = of_nat n.
Proof. unfold pivot_cell. destruct (cell_rows _ _ df i j); [left|right]; eauto. Qed.

Lemma count_cell_count df i j :
  cell_count (count_cell df i j) = count_if has_customerID (cell_rows TotalChargeRange contract_key df i j).
Proof.
  unfold pivot_cell. destruct (cell_rows _ _ df i j) eqn:E; [done|].
  rewrite <- E. apply cell_count_of_nat.
Qed.

(** ** Examples *)

(** A customer of the heatmap examples, with its total charges. *)
Definition heat_customer (id : option string) (ct : string) (tc : Q) (ch : string) : customer :=
  {| customerID := id; gender := None; CitizensStatus := None; tenure := None;
     Contract := Some ct; TechSupport := None; InternetService := None;
     PaymentMethod := None; MonthlyCharges := None; TotalCharges := Some tc;
     Churn := Some ch |}.

Definition heatmap_example_df : list row :=
  heatmap_frame (load_data
    [heat_customer (Some "1") "One year" 100 "Yes";
     heat_customer (Some "2") "Month-to-month" 700 "No";
     heat_customer (Some "3") "Month-to-month" 600 "Yes";
     heat_customer None "One year" 30 "No"]).

(** ** Properties *)

(** C7: The count grid and the churn grid of the heatmap share their
    rows and columns, so line 160 can join them side by side.  The rows
    are the observed [TotalChargeRange] buckets, in bucket order, those
    with a row that has a contract.  The columns are the observed
    contracts, distinct and sorted, and every row has one cell per
    column. *)
Theorem heatmap_grids_aligned df :
  (count_grid df).*1 = (churn_grid df).*1 /\
  (count_grid df).*1 `sublist_of` total_labels /\
  (forall i, i ∈ (count_grid df).*1 <->
             i ∈ total_labels /\
             exists r, r ∈ df /\ TotalChargeRange r = Some i /\ is_Some (Contract (raw r))) /\
  Forall (fun p => length p.2 = length (grid_columns df)) (count_grid df ++ churn_grid df) /\
  NoDup (grid_columns df) /\ Sorted String.le (grid_columns df).
Proof.
  rewrite count_grid_eq, churn_grid_eq, !fmap_fst_map_fn. split_and!.
  - done.
  - apply pivot_index_sublist.
  - intros i. apply pivot_index_elem.
  - apply Forall_app. split; apply Forall_forall; intros p (i & -> & _)%elem_of_List_map;
      simpl; by rewrite length_map.
  - apply pivot_columns_NoDup.
  - exact (pivot_columns_sorted TotalChargeRange contract_key df).
Qed.

(** C24: A cell of the count grid is NaN when no row falls in it; the spec
    asks for a count of 0 there.  Otherwise it is the number of the
    cell's rows that have a [customerID]. *)
Theorem count_grid_cells df i cells k x :
  (i, cells) ∈ count_grid df -> cells !! k = Some x ->
  exists j, grid_columns df !! k = Some j /\
    ((cell_rows TotalChargeRange contract_key df i j = [] /\ x = NaN) \/
     (cell_rows TotalChargeRange contract_key df i j <> [] /\
      x = of_nat (count_if has_customerID (cell_rows TotalChargeRange contract_key df i j)))).
Proof.
  rewrite count_grid_eq. intros (i' & [= <- ->] & _)%elem_of_List_map (j & Hj & ->)%lookup_map_Some.
  exists j. split; [done|]. unfold pivot_cell.
  destruct (cell_rows _ _ df i j); [by left|by right].
Qed.

(** C8: The cells of the count grid, NaN skipped, add up to the number of
    rows that have a [customerID], a bucket and a contract: no row is
    counted twice or lost. *)
Theorem count_grid_total df :
  fsum (mjoin (map snd (count_grid df))) =
  of_nat (count_if (fun r => has_customerID r && in_categories total_labels (TotalChargeRange r) &&
                             bool_decide (is_Some (Contract (raw r)))) df).
Proof.
  rewrite count_grid_eq, map_map, fsum_cells.
  - f_equal. rewrite sum_list_with_join, sum_list_with_map.
    rewrite <- (pivot_total_count TotalChargeRange contract_key has_customerID)
      by apply total_labels_NoDup.
    apply sum_list_with_ext. intros i _. cbn [snd]. rewrite sum_list_with_map.
    apply sum_list_with_ext. intros j _. apply count_cell_count.
  - apply Forall_forall. intros x (l & Hx & (i & -> & _)%elem_of_List_map)%list_elem_of_join.
    apply elem_of_List_map in Hx as (j & -> & _). apply count_cell_cases.
Qed.

(** The value of a heatmap cell: NaN for an empty cell, otherwise the
    rounded churn percentage of its rows. *)
Lemma heatmap_cell_value df i cells k x :
  Forall (fun c => py_contains "Churn" c = false) (grid_columns df) ->
  (i, cells) ∈ churn_pct df -> cells !! k = Some x ->
  exists j, grid_columns df !! k = Some j /\
    let g := cell_rows TotalChargeRange contract_key df i j in
    (g = [] /\ x = NaN) \/
    (g <> [] /\
     x = Fin (round_dec 1 (inject_Z (Z.of_nat (count_if (fun r => is_yes (Churn (raw r))) g)) /
                           inject_Z (Z.of_nat (length g)) * 100))).
Proof.
  intros Hplain. rewrite churn_pct_eq by done.
  intros (i' & [= <- ->] & _)%elem_of_List_map (j & Hj & ->)%lookup_map_Some.
  exists j. split; [done|]. cbv zeta. unfold pivot_cell.
  destruct (cell_rows _ _ df i j) as [|r g] eqn:E; [by left|right].
  rewrite <- E. assert (Hn : 0 < length (cell_rows TotalChargeRange contract_key df i j))
    by (rewrite E; simpl; lia).
  split; [by rewrite E|]. unfold agg_churn_mean. by rewrite percent_pipeline.
Qed.

(** C3: Each cell of the heatmap is NaN when no row falls in it.
    Otherwise it is the share of the cell's rows with [Churn] "Yes",
    times 100, rounded half to even to one decimal, and it lies in
    [0, 100].  This holds when no contract label contains "Churn", so
    that line 162 selects exactly the churn columns, and for a cell of at
    most 79 rows, where the code's float64 mean, product and [.round(1)]
    give this value ([Binary64.heatmap_cell_b64]; 23 churned of 80 shows
    28.7, not 28.8). *)
Theorem heatmap_cells df i cells k x :
  Forall (fun c => py_contains "Churn" c = false) (grid_columns df) ->
  (i, cells) ∈ churn_pct df -> cells !! k = Some x ->
  exists j, grid_columns df !! k = Some j /\
    let g := cell_rows TotalChargeRange contract_key df i j in
    length g <= 79 ->
    (g = [] /\ x = NaN) \/
    (g <> [] /\
     x = Fin (round_dec 1 (inject_Z (Z.of_nat (count_if (fun r => is_yes (Churn (raw r))) g)) /
                           inject_Z (Z.of_nat (length g)) * 100)) /\
     (0 <= round_dec 1 (inject_Z (Z.of_nat (count_if (fun r => is_yes (Churn (raw r))) g)) /
                        inject_Z (Z.of_nat (length g)) * 100) <= 100)%Q).
Proof.
  intros Hplain Hi Hk. destruct (heatmap_cell_value df i cells k x Hplain Hi Hk) as (j & Hj & Hv).
  exists j. split; [done|]. cbv zeta in *. intros _. destruct Hv as [Hv|(Hg & ->)]; [by left|right].
  split; [done|split; [done|]]. apply (round_dec_within 1 0 100).
  apply percent_bounds; [destruct (cell_rows _ _ df i j); simpl; [done|lia]|apply count_if_le_length].
Qed.

(** The heatmap's columns are the contract labels, in sorted order:
    line 163 undoes the renaming of line 159 when no label contains
    "Churn". *)
Theorem heatmap_columns df :
  Forall (fun c => py_contains "Churn" c = false) (grid_columns df) ->
  churn_pct_columns df = grid_columns df /\
  (churn_pct df).*1 = (count_grid df).*1.
Proof.
  intros Hplain. split; [by apply churn_pct_columns_eq|].
  rewrite churn_pct_eq, count_grid_eq by done. by rewrite !fmap_fst_map_fn.
Qed.

(** A frame in which no row has both a bucket and a contract gives an
    empty heatmap, with no row and no column.  The spec expects a 3 x 19
    grid of zero counts. *)
(** C28: Line 162 selects the columns whose name contains "Churn".  A
    contract label that contains it, anywhere, has its count column (one
    of the first [length (grid_columns df)] columns of [final_table],
    those of [count_table]) selected into [churn_pct] as well: the heatmap
    then draws a count as a churn percentage. *)
Theorem heatmap_selects_count_column df j :
  j ∈ grid_columns df -> py_contains "Churn" j = true ->
  exists n, n < length (grid_columns df) /\ final_columns df !! n = Some j /\ n ∈ churn_positions df.
Proof.
  intros Hj Hc. apply list_elem_of_lookup in Hj as [n Hn].
  assert (Hl : n < length (grid_columns df)) by (by eapply lookup_lt_Some).
  assert (Hf : final_columns df !! n = Some j) by (unfold final_columns; by rewrite lookup_app_l).
  exists n. split_and!; [done|done|].
  unfold churn_positions. apply list_elem_of_join. exists (positions_of (final_columns df) j).
  split.
  - unfold positions_of. apply list_elem_of_In, filter_In. split; [|by apply bool_decide_eq_true_2].
    apply in_seq. pose proof (lookup_lt_Some _ _ _ Hf). lia.
  - apply list_elem_of_fmap. exists j. split; [done|].
    unfold churn_names. apply list_elem_of_In, filter_In. split; [|done].
    apply list_elem_of_In. by eapply list_elem_of_lookup_2.
Qed.

Theorem heatmap_empty df :
  (forall r, r ∈ df -> TotalChargeRange r = None \/ Contract (raw r) = None) ->
  count_grid df = [] /\ churn_pct df = [] /\ grid_columns df = [].
Proof.
  intros Hnone.
  assert (Hi : heat_index df = []).
  { apply List_filter_nil. intros i _. apply not_true_iff_false. rewrite existsb_elem_of.
    intros (r & Hr & Hb%andb_true_iff). rewrite !bool_decide_eq_true in Hb.
    destruct Hb as [Hb [c Hc]]. unfold contract_key in Hc.
    destruct (Hnone r Hr) as [E|E]; congruence. }
  split_and!.
  - by rewrite count_grid_eq, Hi.
  - unfold churn_pct, final_table. by rewrite count_grid_eq, Hi.
  - apply elem_of_nil_inv. intros j (r & Hr & [b Hb] & Hc)%pivot_columns_elem.
    unfold contract_key in Hc. destruct (Hnone r Hr) as [E|E]; congruence.
Qed.

(** ** Witnesses and examples *)

Lemma heatmap_example_count_grid :
  count_grid heatmap_example_df = [("0-500", [NaN; of_nat 1]); ("500-1000", [of_nat 2; NaN])].
Proof. by vm_compute. Qed.

Lemma heatmap_example_churn_pct :
  churn_pct heatmap_example_df = [("0-500", [NaN; Fin (500 # 10)]); ("500-1000", [Fin (500 # 10); NaN])].
Proof. by vm_compute. Qed.

Lemma heatmap_example_plain :
  Forall (fun c => py_contains "Churn" c = false) (grid_columns heatmap_example_df).
Proof. vm_compute. repeat constructor. Qed.

Lemma count_grid_cells_witness :
  ("0-500", [NaN; of_nat 1]) ∈ count_grid heatmap_example_df /\ [NaN; of_nat 1] !! 0 = Some NaN /\
  exists j, grid_columns heatmap_example_df !! 0 = Some j /\
    ((cell_rows TotalChargeRange contract_key heatmap_example_df "0-500" j = [] /\ NaN = NaN) \/
     (cell_rows TotalChargeRange contract_key heatmap_example_df "0-500" j <> [] /\
      NaN = of_nat (count_if has_customerID
                      (cell_rows TotalChargeRange contract_key heatmap_example_df "0-500" j)))).
Proof.
  assert (Hin : ("0-500", [NaN; of_nat 1]) ∈ count_grid heatmap_example_df)
    by (rewrite heatmap_example_count_grid; constructor).
  split; [exact Hin|]. split; [reflexivity|].
  exact (count_grid_cells heatmap_example_df "0-500" [NaN; of_nat 1] 0 NaN Hin eq_refl).
Defined.

Lemma heatmap_cells_witness :
  Forall (fun c => py_contains "Churn" c = false) (grid_columns heatmap_example_df) /\
  ("0-500", [NaN; Fin (500 # 10)]) ∈ churn_pct heatmap_example_df /\
  [NaN; Fin (500 # 10)] !! 1 = Some (Fin (500 # 10)) /\
  exists j, grid_columns heatmap_example_df !! 1 = Some j /\
    let g := cell_rows TotalChargeRange contract_key heatmap_example_df "0-500" j in
    length g <= 79 ->
    (g = [] /\ Fin (500 # 10) = NaN) \/
    (g <> [] /\
     Fin (500 # 10) = Fin (round_dec 1 (inject_Z (Z.of_nat (count_if (fun r => is_yes (Churn (raw r))) g)) /
                                        inject_Z (Z.of_nat (length g)) * 100)) /\
     (0 <= round_dec 1 (inject_Z (Z.of_nat (count_if (fun r => is_yes (Churn (raw r))) g)) /
                        inject_Z (Z.of_nat (length g)) * 100) <= 100)%Q).
Proof.
  assert (Hin : ("0-500", [NaN; Fin (500 # 10)]) ∈ churn_pct heatmap_example_df)
    by (rewrite heatmap_example_churn_pct; constructor).
  split; [exact heatmap_example_plain|]. split; [exact Hin|]. split; [reflexivity|].
  exact (heatmap_cells heatmap_example_df "0-500" _ 1 (Fin (500 # 10)) heatmap_example_plain Hin eq_refl).
Defined.

Lemma heatmap_columns_witness :
  Forall (fun c => py_contains "Churn" c = false) (grid_columns heatmap_example_df) /\
  churn_pct_columns heatmap_example_df = grid_columns heatmap_example_df /\
  (churn_pct heatmap_example_df).*1 = (count_grid heatmap_example_df).*1.
Proof.
  split; [exact heatmap_example_plain|]. exact (heatmap_columns heatmap_example_df heatmap_example_plain).
Defined.

(** A customer whose total charges are 0 falls in no bucket. *)
Definition heatmap_unbucketed_df : list row :=
  heatmap_frame (load_data [heat_customer (Some "1") "One year" 0 "No"]).

Lemma heatmap_empty_witness :
  (forall r, r ∈ heatmap_unbucketed_df -> TotalChargeRange r = None \/ Contract (raw r) = None) /\
  count_grid heatmap_unbucketed_df = [] /\ churn_pct heatmap_unbucketed_df = [] /\
  grid_columns heatmap_unbucketed_df = [].
Proof.
  assert (H : forall r, r ∈ heatmap_unbucketed_df ->
              TotalChargeRange r = None \/ Contract (raw r) = None).
  { intros r Hr. vm_compute in Hr. apply list_elem_of_singleton in Hr. subst r. left. reflexivity. }
  split; [exact H|]. exact (heatmap_empty heatmap_unbucketed_df H).
Defined.

(** A contract label that contains "Churn" is selected by line 162
    with its count column as well: the heatmap shows the label twice and
    draws the count as a churn percentage. *)
Example heatmap_contract_named_churn :
  let df := heatmap_frame (load_data [heat_customer (Some "1") "Churn guard" 100 "Yes";
                                      heat_customer (Some "2") "One year" 100 "No"]) in
  churn_pct_columns df = ["Churn guard"; "Churn guard"; "One year"] /\
  churn_pct df = [("0-500", [Fin (10 # 10); Fin (1000 # 10); Fin (0 # 10)])].
Proof. split; by vm_compute. Qed.

Lemma heatmap_selects_count_column_witness :
  let df := heatmap_frame (load_data [heat_customer (Some "1") "Churn guard" 100 "Yes";
                                      heat_customer (Some "2") "One year" 100 "No"]) in
  "Churn guard" ∈ grid_columns df /\ py_contains "Churn" "Churn guard" = true /\
  exists n, n < length (grid_columns df) /\ final_columns df !! n = Some "Churn guard" /\ n ∈ churn_positions df.
Proof.
  cbv zeta.
  assert (H1 : "Churn guard" ∈ grid_columns (heatmap_frame (load_data [heat_customer (Some "1") "Churn guard" 100 "Yes";
                                      heat_customer (Some "2") "One year" 100 "No"])))
    by (apply (bool_decide_unpack _); vm_compute; reflexivity).
  assert (H2 : py_contains "Churn" "Churn guard" = true) by reflexivity.
  split_and!; [exact H1|exact H2|]. exact (heatmap_selects_count_column _ _ H1 H2).
Defined.
