(* ===== verification/Describe.v ===== *)
(** * Descriptive statistics (lines 24-26, 40 and 176-179)

    The numeric reductions the script calls on a column, with pandas'
    default [skipna=True]: [Series.mean], [min], [max], the sample
    variance behind [std] ([ddof=1]), and [quantile] with numpy's
    [linear] interpolation.  [describe()] (line 40) puts them in one
    table per column.  The metrics of lines 25-26 are means, and the
    summary of lines 176-179 is a [min] and a [max].

    A column is a list of [option Q]: [None] is NaN.  [describe] prints
    [std], the square root of the sample variance.  The square root
    leaves the rationals, so the model keeps the variance and the
    [describe] record holds it in place of [std]. *)

From S2P Require Import Prelude Frame Numeric Series Cut Tables.
From stdpp Require Import sorting strings.

(** ** Reductions *)

#[export] Instance Qle_RelDecision : RelDecision Qle.
Proof.
  intros x y. destruct (Qle_bool x y) eqn:E.
  - left. by apply Qle_bool_iff.
  - right. intros H%Qle_bool_iff. congruence.
Defined.

(** The values of a column, NaN dropped ([skipna=True]). *)
Definition present (xs : list (option Q)) : list Q := omap id xs.

(** The sum of the values, left to right. *)
Definition sum_q (vs : list Q) : Q := foldr Qplus 0%Q vs.

Definition qmin (a b : Q) : Q := if Qle_bool a b then a else b.
Definition qmax (a b : Q) : Q := if Qle_bool a b then b else a.

(** [s.mean()]: NaN when no value is present. *)
Definition smean (xs : list (option Q)) : pyfloat :=
  match present xs with
  | [] => NaN
  | vs => Fin (sum_q vs / inject_Z (Z.of_nat (length vs)))%Q
  end.

(** [s.min()] and [s.max()]: NaN when no value is present. *)
Definition smin (xs : list (option Q)) : pyfloat :=
  match present xs with [] => NaN | v :: vs => Fin (foldl qmin v vs) end.

Definition smax (xs : list (option Q)) : pyfloat :=
  match present xs with [] => NaN | v :: vs => Fin (foldl qmax v vs) end.

(** [s.var()] with [ddof=1], the square of [s.std()]: NaN below two
    values. *)
Definition svar (xs : list (option Q)) : pyfloat :=
  match present xs with
  | [] | [_] => NaN
  | vs =>
      let n := inject_Z (Z.of_nat (length vs)) in
      let m := (sum_q vs / n)%Q in
      Fin (sum_q (map (fun v => (v - m) * (v - m))%Q vs) / (n - 1))%Q
  end.

(** numpy's [linear] quantile of sorted values: the virtual index
    [(n - 1) * p] is split into its floor [lo] and its fraction, and the
    result interpolates between the values at [lo] and [lo + 1]. *)
Definition quantile_sorted (p : Q) (vs : list Q) : pyfloat :=
  match vs with
  | [] => NaN
  | v0 :: _ =>
      let pos := (p * inject_Z (Z.of_nat (length vs - 1)))%Q in
      let lo := Z.to_nat (Qfloor pos) in
      let frac := (pos - inject_Z (Qfloor pos))%Q in
      let a := nth lo vs v0 in
      let b := nth (S lo) vs a in
      Fin (a + (b - a) * frac)%Q
  end.

(** [s.quantile(p)] for [0 <= p <= 1]. *)
Definition squantile (p : Q) (xs : list (option Q)) : pyfloat :=
  quantile_sorted p (merge_sort Qle (present xs)).

(** ** [describe()] *)

(** One column of [describe()]; [d_var] stands for the [std] row (see
    the file header). *)
Record describe_col := mkDescribe {
  d_count : nat;
  d_mean : pyfloat;
  d_var : pyfloat;
  d_min : pyfloat;
  d_q25 : pyfloat;
  d_q50 : pyfloat;
  d_q75 : pyfloat;
  d_max : pyfloat
}.

Definition describe_column (xs : list (option Q)) : describe_col :=
  {| d_count := length (present xs);
     d_mean := smean xs;
     d_var := svar xs;
     d_min := smin xs;
     d_q25 := squantile (1 # 4) xs;
     d_q50 := squantile (1 # 2) xs;
     d_q75 := squantile (3 # 4) xs;
     d_max := smax xs |}.

(** An integer column as floats. *)
Definition z_column (f : customer -> option Z) (df : list row) : list (option Q) :=
  map (fun r => inject_Z <$> f (raw r)) df.

Definition q_column (f : customer -> option Q) (df : list row) : list (option Q) :=
  map (fun r => f (raw r)) df.

(** Line 40: [df[['CitizensStatus', 'tenure', 'MonthlyCharges',
    'TotalCharges']].describe()]. *)
Definition describe_table (df : list row) : list (string * describe_col) :=
  [("CitizensStatus", describe_column (z_column CitizensStatus df));
   ("tenure", describe_column (z_column tenure df));
   ("MonthlyCharges", describe_column (q_column MonthlyCharges df));
   ("TotalCharges", describe_column (q_column TotalCharges df))].

(** ** Metrics and the [TotalCharges] summary *)

(** Line 24: [len(df)]. *)
Definition total_customers (df : list row) : nat := length df.

(** Line 25: [df['ChurnBinary'].mean() * 100]. *)
Definition churn_rate (df : list row) : pyfloat :=
  fmul (smean (map (fun r => inject_Z <$> ChurnBinary r) df)) (Fin 100).

(** Line 26: [df['MonthlyCharges'].mean()]. *)
Definition avg_monthly_charges (df : list row) : pyfloat :=
  smean (q_column MonthlyCharges df).

(** Lines 176-179: the [Statistic] / [TotalCharges] table. *)
Definition total_charge_summary (df : list row) : list (string * pyfloat) :=
  [("Minimum", smin (q_column TotalCharges df));
   ("Maximum", smax (q_column TotalCharges df))].

(** ** Lemmas on sorted values *)

#[export] Instance Qle_Transitive : Transitive Qle.
Proof. intros x y z. apply Qle_trans. Qed.

#[export] Instance Qle_Total : Total Qle.
Proof. intros x y. destruct (Qlt_le_dec x y); [left; lra|by right]. Qed.

Lemma sorted_nth_le (vs : list Q) (d : Q) (i j : nat) :
  Sorted Qle vs -> i <= j -> j < length vs -> (nth i vs d <= nth j vs d)%Q.
Proof.
  intros Hs%Sorted_StronglySorted; [|apply _]. revert i j.
  induction Hs as [|x vs Hs IH Hx]; intros i j Hij Hj; simpl in *; [lia|].
  destruct i as [|i], j as [|j]; [lra|..|lia|apply IH; lia].
  rewrite Forall_forall in Hx. apply Hx, list_elem_of_In, nth_In. lia.
Qed.

Lemma sorted_first_le (vs : list Q) (d x : Q) :
  Sorted Qle vs -> x ∈ vs -> (nth 0 vs d <= x)%Q.
Proof.
  intros Hs Hx. apply list_elem_of_lookup in Hx as [i Hi].
  rewrite <- (nth_lookup_Some vs i d x Hi). apply sorted_nth_le; [done|lia|].
  by apply lookup_lt_Some in Hi.
Qed.

Lemma sorted_last_ge (vs : list Q) (d x : Q) :
  Sorted Qle vs -> x ∈ vs -> (x <= nth (length vs - 1) vs d)%Q.
Proof.
  intros Hs Hx. apply list_elem_of_lookup in Hx as [i Hi].
  pose proof (lookup_lt_Some _ _ _ Hi).
  rewrite <- (nth_lookup_Some vs i d x Hi). apply sorted_nth_le; [done|lia|lia].
Qed.

Lemma nth_elem_of (vs : list Q) (d : Q) (i : nat) : i < length vs -> nth i vs d ∈ vs.
Proof. intros Hi. apply list_elem_of_In, nth_In, Hi. Qed.

Lemma qmin_spec (v w : Q) : (qmin v w <= v)%Q /\ (qmin v w <= w)%Q /\ (qmin v w = v \/ qmin v w = w).
Proof.
  unfold qmin. destruct (Qle_bool v w) eqn:E; [apply Qle_bool_iff in E|apply Qle_bool_false in E];
    split_and!; try lra; auto.
Qed.

Lemma qmax_spec (v w : Q) : (v <= qmax v w)%Q /\ (w <= qmax v w)%Q /\ (qmax v w = v \/ qmax v w = w).
Proof.
  unfold qmax. destruct (Qle_bool v w) eqn:E; [apply Qle_bool_iff in E|apply Qle_bool_false in E];
    split_and!; try lra; auto.
Qed.

(** [foldl qmin] is a lower bound that is attained. *)
Lemma foldl_qmin_spec (v : Q) (vs : list Q) :
  foldl qmin v vs ∈ v :: vs /\ forall x, x ∈ v :: vs -> (foldl qmin v vs <= x)%Q.
Proof.
  revert v. induction vs as [|w vs IH]; intros v; simpl.
  - split; [set_solver|]. intros x ->%list_elem_of_singleton. lra.
  - destruct (IH (qmin v w)) as [Hin Hle]. destruct (qmin_spec v w) as (Hv & Hw & Hvw). split.
    + apply elem_of_cons in Hin as [->|Hin]; [destruct Hvw as [->| ->]|]; set_solver.
    + intros x [->|[->|Hx]%elem_of_cons]%elem_of_cons.
      * apply (Qle_trans _ (qmin v w)); [apply Hle; set_solver|exact Hv].
      * apply (Qle_trans _ (qmin v w)); [apply Hle; set_solver|exact Hw].
      * apply Hle. set_solver.
Qed.

Lemma foldl_qmax_spec (v : Q) (vs : list Q) :
  foldl qmax v vs ∈ v :: vs /\ forall x, x ∈ v :: vs -> (x <= foldl qmax v vs)%Q.
Proof.
  revert v. induction vs as [|w vs IH]; intros v; simpl.
  - split; [set_solver|]. intros x ->%list_elem_of_singleton. lra.
  - destruct (IH (qmax v w)) as [Hin Hle]. destruct (qmax_spec v w) as (Hv & Hw & Hvw). split.
    + apply elem_of_cons in Hin as [->|Hin]; [destruct Hvw as [->| ->]|]; set_solver.
    + intros x [->|[->|Hx]%elem_of_cons]%elem_of_cons.
      * apply (Qle_trans _ (qmax v w)); [exact Hv|apply Hle; set_solver].
      * apply (Qle_trans _ (qmax v w)); [exact Hw|apply Hle; set_solver].
      * apply Hle. set_solver.
Qed.

(** ** Interpolation *)

Section interpolation.
Variables (ws : list Q) (v0 : Q).
Hypothesis Hsorted : Sorted Qle ws.

(** The value numpy reads at virtual index [pos]. *)
Definition interp_at (pos : Q) : Q :=
  let lo := Z.to_nat (Qfloor pos) in
  let a := nth lo ws v0 in
  (a + (nth (S lo) ws a - a) * (pos - inject_Z (Qfloor pos)))%Q.

Lemma floor_index (pos : Q) (m : nat) :
  (0 <= pos <= inject_Z (Z.of_nat m))%Q ->
  Z.to_nat (Qfloor pos) <= m /\ inject_Z (Z.of_nat (Z.to_nat (Qfloor pos))) = inject_Z (Qfloor pos).
Proof.
  intros [H0 Hm].
  pose proof (Qfloor_resp_le _ _ H0) as F0. pose proof (Qfloor_resp_le _ _ Hm) as Fm.
  rewrite Qfloor_Z in Fm. change (Qfloor 0) with 0%Z in F0.
  split; [lia|]. by rewrite Z2Nat.id by lia.
Qed.

Lemma nth_succ_ge (lo : nat) :
  lo < length ws -> (nth lo ws v0 <= nth (S lo) ws (nth lo ws v0))%Q.
Proof.
  intros Hlo. destruct (decide (S lo < length ws)).
  - rewrite (nth_indep ws (nth lo ws v0) v0) by done. apply sorted_nth_le; [done|lia|done].
  - rewrite (nth_overflow ws (nth lo ws v0) (n := S lo)) by lia. lra.
Qed.

(** The interpolated value lies between the two values it reads. *)
Lemma interp_at_between (pos : Q) :
  (0 <= pos <= inject_Z (Z.of_nat (length ws - 1)))%Q -> ws <> [] ->
  let lo := Z.to_nat (Qfloor pos) in
  (nth lo ws v0 <= interp_at pos <= nth (S lo) ws (nth lo ws v0))%Q.
Proof.
  intros Hpos Hne. destruct (floor_index _ _ Hpos) as [Hlo _].
  assert (Hn : length ws <> 0) by (by intros ?%length_zero_iff_nil).
  pose proof (Qfloor_bounds pos) as [F1 F2]. cbv zeta. unfold interp_at.
  set (lo := Z.to_nat (Qfloor pos)) in *.
  pose proof (nth_succ_ge lo ltac:(lia)) as Hab.
  set (a := nth lo ws v0) in *. set (b := nth (S lo) ws a) in *.
  assert (Hf : (0 <= pos - inject_Z (Qfloor pos) <= 1)%Q) by lra.
  split.
  - assert (0 <= (b - a) * (pos - inject_Z (Qfloor pos)))%Q; [|lra].
    apply Qmult_le_0_compat; lra.
  - assert ((b - a) * (pos - inject_Z (Qfloor pos)) <= (b - a) * 1)%Q; [|lra].
    apply Qmult_le_compat_nonneg; lra.
Qed.
(** The interpolation is monotone in the virtual index. *)
Lemma interp_at_mono (pos1 pos2 : Q) :
  (0 <= pos1)%Q -> (pos1 <= pos2)%Q -> (pos2 <= inject_Z (Z.of_nat (length ws - 1)))%Q ->
  ws <> [] -> (interp_at pos1 <= interp_at pos2)%Q.
Proof.
  intros H1 H12 H2 Hne.
  assert (Hp1 : (0 <= pos1 <= inject_Z (Z.of_nat (length ws - 1)))%Q) by lra.
  assert (Hp2 : (0 <= pos2 <= inject_Z (Z.of_nat (length ws - 1)))%Q) by lra.
  assert (Hn : length ws <> 0) by (by intros ?%length_zero_iff_nil).
  pose proof (interp_at_between pos1 Hp1 Hne) as B1.
  pose proof (interp_at_between pos2 Hp2 Hne) as B2. cbv zeta in B1, B2.
  destruct (floor_index _ _ Hp1) as [L1 _]. destruct (floor_index _ _ Hp2) as [L2 _].
  pose proof (Qfloor_resp_le _ _ H12) as F.
  pose proof (Qfloor_resp_le _ _ H1) as F0. change (Qfloor 0) with 0%Z in F0.
  pose proof (Qfloor_bounds pos1). pose proof (Qfloor_bounds pos2).
  destruct (decide (Qfloor pos1 = Qfloor pos2)) as [Heq|Hlt].
  - unfold interp_at. rewrite Heq in *.
    set (lo := Z.to_nat (Qfloor pos2)) in *. set (a := nth lo ws v0). set (b := nth (S lo) ws a).
    assert (a <= b)%Q by (apply nth_succ_ge; lia).
    assert ((b - a) * (pos1 - inject_Z (Qfloor pos2)) <= (b - a) * (pos2 - inject_Z (Qfloor pos2)))%Q;
      [apply Qmult_le_compat_nonneg; lra|lra].
  - assert (Hlo : Z.to_nat (Qfloor pos1) < Z.to_nat (Qfloor pos2)) by lia.
    apply (Qle_trans _ _ _ (proj2 B1)). refine (Qle_trans _ _ _ _ (proj1 B2)).
    rewrite (nth_indep ws (nth (Z.to_nat (Qfloor pos1)) ws v0) v0) by lia.
    apply sorted_nth_le; [done|lia|lia].
Qed.
End interpolation.

(** The interpolation depends on the value of the index, not on its
    representation. *)
#[export] Instance interp_at_proper (ws : list Q) (v0 : Q) : Proper (Qeq ==> Qeq) (interp_at ws v0).
Proof.
  intros p1 p2 E.
  assert (F : Qfloor p1 = Qfloor p2).
  { apply Z.le_antisymm; apply Qfloor_resp_le; rewrite E; apply Qle_refl. }
  unfold interp_at. rewrite F, E. reflexivity.
Qed.

Lemma interp_at_first (ws : list Q) (v0 : Q) : (interp_at ws v0 0 == nth 0 ws v0)%Q.
Proof.
  unfold interp_at. change (Qfloor 0) with 0%Z. change (Z.to_nat 0) with 0.
  change (inject_Z 0) with 0%Q. ring.
Qed.

Lemma interp_at_last (ws : list Q) (v0 : Q) (m : nat) :
  (interp_at ws v0 (inject_Z (Z.of_nat m)) == nth m ws v0)%Q.
Proof. unfold interp_at. rewrite Qfloor_Z, Nat2Z.id. ring. Qed.

Lemma quantile_sorted_interp (p : Q) (ws : list Q) (v0 : Q) :
  ws <> [] ->
  quantile_sorted p ws = Fin (interp_at ws (hd v0 ws) (p * inject_Z (Z.of_nat (length ws - 1)))).
Proof. by destruct ws. Qed.

(** Quantiles of sorted values grow with [p]. *)
Lemma quantile_sorted_mono (ws : list Q) (p1 p2 : Q) :
  Sorted Qle ws -> ws <> [] -> (0 <= p1)%Q -> (p1 <= p2)%Q -> (p2 <= 1)%Q ->
  exists a b, quantile_sorted p1 ws = Fin a /\ quantile_sorted p2 ws = Fin b /\ (a <= b)%Q.
Proof.
  intros Hs Hne H1 H12 H2. rewrite !(quantile_sorted_interp _ ws 0%Q) by done.
  do 2 eexists. split_and!; [done|done|].
  set (m := inject_Z (Z.of_nat (length ws - 1))).
  assert (0 <= m)%Q by (unfold m; change 0%Q with (inject_Z 0); rewrite <- Zle_Qle; lia).
  apply interp_at_mono; [done|nra|nra| |done]. fold m. nra.
Qed.

Lemma Qsquare_nonneg (x : Q) : (0 <= x * x)%Q.
Proof. nra. Qed.

Lemma sum_q_cons (v : Q) (vs : list Q) : sum_q (v :: vs) = (v + sum_q vs)%Q.
Proof. reflexivity. Qed.

Lemma sum_q_nonneg (vs : list Q) : (forall x, x ∈ vs -> 0 <= x)%Q -> (0 <= sum_q vs)%Q.
Proof.
  induction vs as [|v vs IH]; intros Hv; [apply Qle_refl|]. rewrite sum_q_cons.
  assert (0 <= v)%Q by (apply Hv; set_solver). assert (0 <= sum_q vs)%Q by (apply IH; set_solver).
  lra.
Qed.

(** A sum of values in [[lo, hi]] is in [[n * lo, n * hi]]. *)
Lemma sum_q_bounds (lo hi : Q) (vs : list Q) :
  (forall x, x ∈ vs -> lo <= x <= hi)%Q ->
  (inject_Z (Z.of_nat (length vs)) * lo <= sum_q vs <= inject_Z (Z.of_nat (length vs)) * hi)%Q.
Proof.
  induction vs as [|v vs IH]; intros Hb.
  { simpl. change (inject_Z 0) with 0%Q. split; rewrite Qmult_0_l; lra. }
  cbn [length]. rewrite sum_q_cons, Nat2Z.inj_succ, <- Z.add_1_r, inject_Z_plus.
  assert (Hv : (lo <= v <= hi)%Q) by (apply Hb; set_solver).
  assert (IH' : (inject_Z (Z.of_nat (length vs)) * lo <= sum_q vs <= inject_Z (Z.of_nat (length vs)) * hi)%Q)
    by (apply IH; intros x Hx; apply Hb; set_solver).
  change (inject_Z 1) with 1%Q. split; nra.
Qed.

(** ** A column's statistics *)

Section column.
Variable xs : list (option Q).

Lemma sorted_values : Sorted Qle (merge_sort Qle (present xs)).
Proof. apply Sorted_merge_sort. apply _. Qed.

Lemma sorted_values_elem (x : Q) : x ∈ merge_sort Qle (present xs) <-> x ∈ present xs.
Proof. by rewrite merge_sort_Permutation. Qed.

Lemma sorted_values_length : length (merge_sort Qle (present xs)) = length (present xs).
Proof. by rewrite merge_sort_Permutation. Qed.

Lemma sorted_values_nil : present xs <> [] -> merge_sort Qle (present xs) <> [].
Proof. intros Hne E. apply Hne, length_zero_iff_nil. by rewrite <- sorted_values_length, E. Qed.

Lemma smin_spec :
  present xs <> [] ->
  exists mn, smin xs = Fin mn /\ mn ∈ present xs /\ forall x, x ∈ present xs -> (mn <= x)%Q.
Proof.
  unfold smin. destruct (present xs) as [|v vs]; [done|]. intros _.
  destruct (foldl_qmin_spec v vs) as [Hin Hle]. eauto.
Qed.

Lemma smax_spec :
  present xs <> [] ->
  exists mx, smax xs = Fin mx /\ mx ∈ present xs /\ forall x, x ∈ present xs -> (x <= mx)%Q.
Proof.
  unfold smax. destruct (present xs) as [|v vs]; [done|]. intros _.
  destruct (foldl_qmax_spec v vs) as [Hin Hle]. eauto.
Qed.

(** The virtual index of [p] over the present values. *)
Local Definition vindex (p : Q) : Q := (p * inject_Z (Z.of_nat (length (present xs) - 1)))%Q.

Lemma vindex_range (p : Q) :
  (0 <= p <= 1)%Q -> (0 <= vindex p <= inject_Z (Z.of_nat (length (present xs) - 1)))%Q.
Proof.
  intros Hp. unfold vindex. set (m := inject_Z (Z.of_nat (length (present xs) - 1))).
  assert (0 <= m)%Q by (unfold m; change 0%Q with (inject_Z 0); rewrite <- Zle_Qle; lia).
  split; nra.
Qed.

Lemma squantile_interp (p : Q) :
  present xs <> [] ->
  squantile p xs = Fin (interp_at (merge_sort Qle (present xs)) (hd 0%Q (merge_sort Qle (present xs)))
                                  (vindex p)).
Proof.
  intros Hne. unfold squantile, vindex. rewrite (quantile_sorted_interp _ _ 0%Q) by (by apply sorted_values_nil).
  by rewrite sorted_values_length.
Qed.
Lemma vindex_mono (p1 p2 : Q) : (p1 <= p2)%Q -> (vindex p1 <= vindex p2)%Q.
Proof.
  intros Hp. unfold vindex. set (m := inject_Z (Z.of_nat (length (present xs) - 1))).
  assert (0 <= m)%Q by (unfold m; change 0%Q with (inject_Z 0); rewrite <- Zle_Qle; lia).
  nra.
Qed.

Lemma squantile_mono (p1 p2 : Q) :
  present xs <> [] -> (0 <= p1)%Q -> (p1 <= p2)%Q -> (p2 <= 1)%Q ->
  exists a b, squantile p1 xs = Fin a /\ squantile p2 xs = Fin b /\ (a <= b)%Q.
Proof.
  intros Hne H1 H12 H2. rewrite !squantile_interp by done. do 2 eexists. split_and!; [done|done|].
  pose proof (vindex_range p1 ltac:(lra)). pose proof (vindex_range p2 ltac:(lra)).
  apply interp_at_mono; [apply sorted_values|lra|by apply vindex_mono| |by apply sorted_values_nil].
  rewrite sorted_values_length. lra.
Qed.

Lemma squantile_between (p : Q) :
  present xs <> [] -> (0 <= p <= 1)%Q ->
  exists q, squantile p xs = Fin q /\
    (forall mn, smin xs = Fin mn -> mn <= q)%Q /\ (forall mx, smax xs = Fin mx -> q <= mx)%Q.
Proof.
  intros Hne Hp. rewrite squantile_interp by done. eexists. split; [done|].
  set (ws := merge_sort Qle (present xs)). set (v0 := hd 0%Q ws).
  pose proof sorted_values as Hs. pose proof (sorted_values_nil Hne) as Hws.
  pose proof (vindex_range p Hp) as Hr.
  assert (Hn : length ws <> 0) by (by intros ?%length_zero_iff_nil).
  assert (Hlen : length ws = length (present xs)) by apply sorted_values_length.
  destruct (smin_spec Hne) as (mn & Hmn & _ & Hmn_le).
  destruct (smax_spec Hne) as (mx & Hmx & _ & Hmx_ge).
  split; [intros mn' E; rewrite Hmn in E; injection E as <-|intros mx' E; rewrite Hmx in E; injection E as <-].
  - apply (Qle_trans _ (nth 0 ws v0)); [apply Hmn_le, sorted_values_elem, nth_elem_of; unfold ws in *; lia|].
    rewrite <- interp_at_first. apply interp_at_mono; [done|lra|lra| |done]. rewrite Hlen. lra.
  - apply (Qle_trans _ (nth (length ws - 1) ws v0)); [|apply Hmx_ge, sorted_values_elem, nth_elem_of; unfold ws in *; lia].
    rewrite <- interp_at_last. apply interp_at_mono; [done|lra| |lra|done]. rewrite Hlen. lra.
Qed.
End column.

(** ** Properties *)

(** C10: In [describe()], a column with at least one value has
    [min <= 25% <= 50% <= 75% <= max]: the quartiles are numpy's
    linear interpolation between sorted values. *)
Theorem describe_column_ordered xs :
  present xs <> [] ->
  exists mn q1 q2 q3 mx,
    d_min (describe_column xs) = Fin mn /\ d_q25 (describe_column xs) = Fin q1 /\
    d_q50 (describe_column xs) = Fin q2 /\ d_q75 (describe_column xs) = Fin q3 /\
    d_max (describe_column xs) = Fin mx /\
    (mn <= q1 /\ q1 <= q2 /\ q2 <= q3 /\ q3 <= mx)%Q.
Proof.
  intros Hne. cbn [d_min d_q25 d_q50 d_q75 d_max describe_column].
  destruct (smin_spec xs Hne) as (mn & Hmn & _). destruct (smax_spec xs Hne) as (mx & Hmx & _).
  destruct (squantile_between xs (1 # 4) Hne ltac:(split; discriminate)) as (q1 & E1 & L1 & _).
  destruct (squantile_between xs (3 # 4) Hne ltac:(split; discriminate)) as (q3 & E3 & _ & U3).
  destruct (squantile_mono xs (1 # 4) (1 # 2) Hne ltac:(discriminate) ltac:(discriminate) ltac:(discriminate))
    as (a & q2 & Ea & E2 & L12).
  destruct (squantile_mono xs (1 # 2) (3 # 4) Hne ltac:(discriminate) ltac:(discriminate) ltac:(discriminate))
    as (b & c & Eb & Ec & L23).
  rewrite E1 in Ea. rewrite E2 in Eb. rewrite E3 in Ec. simplify_eq.
  exists mn, a, b, c, mx. split_and!; auto.
Qed.

(** The 0% and 100% quantiles of a column with a value are its [min]
    and [max]. *)
Theorem quantile_endpoints xs :
  present xs <> [] ->
  exists q0 q1 mn mx, squantile 0 xs = Fin q0 /\ squantile 1 xs = Fin q1 /\
    smin xs = Fin mn /\ smax xs = Fin mx /\ (q0 == mn)%Q /\ (q1 == mx)%Q.
Proof.
  intros Hne. set (ws := merge_sort Qle (present xs)).
  destruct (squantile_between xs 0 Hne ltac:(split; discriminate)) as (q0 & E0 & L0 & _).
  destruct (squantile_between xs 1 Hne ltac:(split; discriminate)) as (q1 & E1 & _ & U1).
  destruct (smin_spec xs Hne) as (mn & Hmn & Hin_mn & _). destruct (smax_spec xs Hne) as (mx & Hmx & Hin_mx & _).
  exists q0, q1, mn, mx. split_and!; try done; apply Qle_antisym; auto.
  - rewrite squantile_interp in E0 by done. injection E0 as <-.
    unfold vindex. rewrite Qmult_0_l, interp_at_first.
    apply sorted_first_le; [apply sorted_values|by apply sorted_values_elem].
  - rewrite squantile_interp in E1 by done. injection E1 as <-.
    unfold vindex. rewrite Qmult_1_l, <- sorted_values_length, interp_at_last.
    apply sorted_last_ge; [apply sorted_values|by apply sorted_values_elem].
Qed.

(** The mean of a column with a value lies between its [min] and its
    [max]. *)
Theorem smean_between xs :
  present xs <> [] ->
  exists mn m mx, smin xs = Fin mn /\ smean xs = Fin m /\ smax xs = Fin mx /\ (mn <= m <= mx)%Q.
Proof.
  intros Hne. destruct (smin_spec xs Hne) as (mn & Hmn & _ & Hlo).
  destruct (smax_spec xs Hne) as (mx & Hmx & _ & Hhi).
  pose proof (sum_q_bounds mn mx (present xs) (fun x Hx => conj (Hlo x Hx) (Hhi x Hx))) as [B1 B2].
  assert (Hn : (0 < inject_Z (Z.of_nat (length (present xs))))%Q).
  { change 0%Q with (inject_Z 0). rewrite <- Zlt_Qlt.
    destruct (present xs); [done|cbn [length]; lia]. }
  unfold smean. destruct (present xs) as [|v vs]; [done|].
  eexists mn, _, mx. split_and!; [done|reflexivity|done| |].
  - apply Qle_shift_div_l; [done|]. by rewrite Qmult_comm.
  - apply Qle_shift_div_r; [done|]. by rewrite Qmult_comm.
Qed.

(** The variance behind [std] is NaN for fewer than two values;
    otherwise it is a number [>= 0]. *)
Theorem svar_spec xs :
  (length (present xs) < 2 -> svar xs = NaN) /\
  (2 <= length (present xs) -> exists v, svar xs = Fin v /\ (0 <= v)%Q).
Proof.
  unfold svar. destruct (present xs) as [|a [|b vs]] eqn:E; split; intros H;
    cbn [length] in H; try (done || lia).
  eexists. split; [reflexivity|]. cbv zeta.
  assert (Hn : (1 < inject_Z (Z.of_nat (length (a :: b :: vs))))%Q)
    by (change 1%Q with (inject_Z 1); rewrite <- Zlt_Qlt; cbn [length]; lia).
  apply Qle_shift_div_l; [lra|]. rewrite Qmult_0_l.
  apply sum_q_nonneg. intros x (v & -> & _)%elem_of_List_map. apply Qsquare_nonneg.
Qed.

(** ** The metrics and the summary *)

Lemma present_cons_Some (x : Q) (xs : list (option Q)) : present (Some x :: xs) = x :: present xs.
Proof. reflexivity. Qed.

Lemma present_cons_None (xs : list (option Q)) : present (None :: xs) = present xs.
Proof. reflexivity. Qed.

Lemma churn_binary_cases (o : option string) :
  (churn_binary o = Some 1%Z /\ is_yes o = true) \/
  (churn_binary o = Some 0%Z /\ is_yes o = false) \/
  (churn_binary o = None /\ is_yes o = false).
Proof.
  unfold churn_binary, is_yes. destruct o as [s|]; [|by right; right].
  destruct (decide (s = "No")) as [->|HN]; [by right; left|].
  rewrite (bool_decide_eq_false_2 (s = "No")) by done.
  destruct (decide (s = "Yes")) as [->|HY]; [by left|].
  rewrite !(bool_decide_eq_false_2 (s = "Yes")) by done. by right; right.
Qed.

(** The [ChurnBinary] values of a loaded frame: one per row whose [Churn]
    is "Yes" or "No", summing to the number of "Yes". *)
Lemma churn_values (csv : list customer) :
  length (present (map (fun r => inject_Z <$> ChurnBinary r) (load_data csv))) =
    count_if (fun c => bool_decide (is_Some (churn_binary (Churn c)))) csv /\
  (sum_q (present (map (fun r => inject_Z <$> ChurnBinary r) (load_data csv))) ==
    inject_Z (Z.of_nat (count_if (fun c => is_yes (Churn c)) csv)))%Q.
Proof.
  induction csv as [|c csv [IHl IHs]]; [split; reflexivity|].
  rewrite !count_if_cons. unfold load_data. cbn [map]. fold (load_data csv).
  change (ChurnBinary (load_row c)) with (churn_binary (Churn c)).
  destruct (churn_binary_cases (Churn c)) as [[-> ->]|[[-> ->]|[-> ->]]];
    cbn [fmap option_fmap option_map]; rewrite ?present_cons_Some, ?present_cons_None, ?sum_q_cons;
    rewrite ?bool_decide_eq_true_2 by eauto; rewrite ?bool_decide_eq_false_2 by (by intros []);
    (split; [cbn [length]; lia|]); rewrite ?IHs, ?Nat2Z.inj_add, ?inject_Z_plus; try done;
    change (inject_Z 1) with 1%Q; change (inject_Z 0) with 0%Q; simpl; ring.
Qed.

Lemma churn_rate_value (csv : list customer) :
  let yes := count_if (fun c => is_yes (Churn c)) csv in
  let mapped := count_if (fun c => bool_decide (is_Some (churn_binary (Churn c)))) csv in
  (mapped = 0 /\ churn_rate (load_data csv) = NaN) \/
  (0 < mapped /\ exists q, churn_rate (load_data csv) = Fin q /\
     (q == inject_Z (Z.of_nat yes) / inject_Z (Z.of_nat mapped) * 100)%Q).
Proof.
  cbv zeta. destruct (churn_values csv) as [Hl Hs]. unfold churn_rate, smean.
  destruct (present (map (fun r => inject_Z <$> ChurnBinary r) (load_data csv))) as [|v vs].
  - left. split; [by rewrite <- Hl|done].
  - right. rewrite <- Hl. split; [cbn [length]; lia|]. eexists. split; [reflexivity|].
    by rewrite Hs.
Qed.

(** C11: The [TotalCharges] summary of lines 176-179 holds two NaN when the
    column has no value.  Otherwise its [Minimum] and [Maximum] are values
    of the column, and every value lies between them. *)
Theorem total_charge_summary_spec df :
  let tc := present (q_column TotalCharges df) in
  (tc = [] /\ total_charge_summary df = [("Minimum", NaN); ("Maximum", NaN)]) \/
  (exists mn mx, total_charge_summary df = [("Minimum", Fin mn); ("Maximum", Fin mx)] /\
     mn ∈ tc /\ mx ∈ tc /\ forall x, x ∈ tc -> (mn <= x <= mx)%Q).
Proof.
  cbv zeta. destruct (decide (present (q_column TotalCharges df) = [])) as [E|Hne].
  - left. split; [done|]. unfold total_charge_summary, smin, smax. by rewrite E.
  - right. destruct (smin_spec _ Hne) as (mn & Hmn & Hin_mn & Hlo).
    destruct (smax_spec _ Hne) as (mx & Hmx & Hin_mx & Hhi).
    exists mn, mx. unfold total_charge_summary. rewrite Hmn, Hmx. split_and!; auto.
Qed.

(** ** Examples and witnesses *)

(** pandas' [describe()] of [1, 2, 3, 4] and a NaN: count 4, mean 2.5,
    std^2 5/3, quartiles 1.75, 2.5, 3.25. *)
Example describe_example :
  let c := describe_column [Some 4; Some 1; None; Some 3; Some 2]%Q in
  d_count c = 4 /\ d_mean c = Fin (10 # 4) /\ d_var c = Fin (327680 # 196608) /\
  d_min c = Fin 1 /\ d_q25 c = Fin (7 # 4) /\ d_q50 c = Fin (5 # 2) /\ d_q75 c = Fin (13 # 4) /\
  d_max c = Fin 4.
Proof. vm_compute. repeat split. Qed.

Definition describe_example_column : list (option Q) := [Some 4; Some 1; None; Some 3; Some 2]%Q.

Lemma describe_example_present : present describe_example_column <> [].
Proof. by vm_compute. Qed.

Lemma describe_column_ordered_witness :
  present describe_example_column <> [] /\
  exists mn q1 q2 q3 mx,
    d_min (describe_column describe_example_column) = Fin mn /\
    d_q25 (describe_column describe_example_column) = Fin q1 /\
    d_q50 (describe_column describe_example_column) = Fin q2 /\
    d_q75 (describe_column describe_example_column) = Fin q3 /\
    d_max (describe_column describe_example_column) = Fin mx /\
    (mn <= q1 /\ q1 <= q2 /\ q2 <= q3 /\ q3 <= mx)%Q.
Proof.
  split; [exact describe_example_present|].
  exact (describe_column_ordered describe_example_column describe_example_present).
Defined.

Lemma quantile_endpoints_witness :
  present describe_example_column <> [] /\
  exists q0 q1 mn mx, squantile 0 describe_example_column = Fin q0 /\
    squantile 1 describe_example_column = Fin q1 /\
    smin describe_example_column = Fin mn /\ smax describe_example_column = Fin mx /\
    (q0 == mn)%Q /\ (q1 == mx)%Q.
Proof.
  split; [exact describe_example_present|].
  exact (quantile_endpoints describe_example_column describe_example_present).
Defined.

Lemma smean_between_witness :
  present describe_example_column <> [] /\
  exists mn m mx, smin describe_example_column = Fin mn /\ smean describe_example_column = Fin m /\
    smax describe_example_column = Fin mx /\ (mn <= m <= mx)%Q.
Proof.
  split; [exact describe_example_present|].
  exact (smean_between describe_example_column describe_example_present).
Defined.

(** A frame with one "Yes", one "No" and one "Unknown" churn value. *)
Definition unmapped_churn_df : list row :=
  load_data [sample_customer "F" "One year" 10 "Yes";
             sample_customer "F" "One year" 10 "No";
             sample_customer "F" "One year" 10 "Unknown"].

(** With a [Churn] value other than "Yes" or "No", the "Churn Rate"
    metric (line 25) and the churn distribution table (lines 32-35)
    disagree: one "Yes", one "No" and one "Unknown" give a rate of 50%
    while the table shows 33.33% for "Yes". *)
Example churn_rate_disagrees_with_summary :
  churn_rate unmapped_churn_df = Fin (100 # 2) /\
  lookup_key "Yes" (trows (churn_summary unmapped_churn_df)) = Some [of_nat 1; Fin (3333 # 100)].
Proof. split; by vm_compute. Qed.
