(* ===== verification/Format.v ===== *)
(** * String formatting (lines 24-26 and 154)

    The strings the page shows for numbers:
    - [f"{len(df):,}"] (line 24), an integer with a comma every three
      digits;
    - [f"{x:.2f}"] (lines 25-26), a float with two decimals, rounded half
      to even on the exact value; NaN prints as [nan];
    - [f"{i}-{i+step}"] (line 154), the [TotalChargeRange] labels.
    Each format comes with a parser and a round-trip theorem: the printed
    string determines the number. *)

From S2P Require Import Prelude Frame Numeric Cut Tables Describe.
From stdpp Require Import strings.
From Stdlib Require Import Ascii DecimalString DecimalN Qabs.

(** ** Digits *)

(** The characters [string_of_uint] produces. *)
Definition is_digit (c : Ascii.ascii) : bool :=
  bool_decide (c ∈ ["0"; "1"; "2"; "3"; "4"; "5"; "6"; "7"; "8"; "9"]%char).

(** [int(s)] on a string of digits. *)
Definition parse_N (s : string) : option N := N.of_uint <$> NilEmpty.uint_of_string s.

(** The decimal digits of [n], most significant first. *)
Definition digits (n : N) : list Ascii.ascii := String.list_ascii_of_string (str_of_N n).

(** ** [f"{n:,}"] *)

(** Walking the digits from the least significant one, a comma before
    every fourth, seventh, ... digit. *)
Fixpoint group_rev (k : nat) (ds : list Ascii.ascii) : list Ascii.ascii :=
  match ds with
  | [] => []
  | d :: t => if Nat.eqb k 3 then ","%char :: d :: group_rev 1 t else d :: group_rev (S k) t
  end.

Definition format_thousands (n : N) : string :=
  String.string_of_list_ascii (rev (group_rev 0 (rev (digits n)))).

(** The inverse: drop the commas and read the digits. *)
Definition strip_commas (s : string) : string :=
  String.string_of_list_ascii
    (List.filter (fun c => negb (bool_decide (c = ","%char))) (String.list_ascii_of_string s)).

Definition parse_thousands (s : string) : option N := parse_N (strip_commas s).

(** Line 24: the "Total Customers" metric. *)
Definition metric_total_customers (df : list row) : string :=
  format_thousands (N.of_nat (total_customers df)).

(** ** Range labels *)

(** [s.split(sep, 1)]: the text before the first [sep] and the rest. *)
Fixpoint split_on (sep : Ascii.ascii) (s : string) : string * option string :=
  match s with
  | EmptyString => (EmptyString, None)
  | String c t =>
      if bool_decide (c = sep) then (EmptyString, Some t)
      else let '(a, b) := split_on sep t in (String c a, b)
  end.

(** The bounds a label [f"{lo}-{hi}"] names. *)
Definition parse_label (s : string) : option (N * N) :=
  match split_on "-" s with
  | (a, Some b) => lo ← parse_N a; hi ← parse_N b; Some (lo, hi)
  | _ => None
  end.

(** ** [f"{x:.{d}f}"] *)

(** Left padding with zeros to [d] characters. *)
Definition pad_zeros (d : nat) (s : string) : string :=
  String.string_of_list_ascii (repeat "0"%char (d - String.length s)) +:+ s.

(** The decimals of [f"{x:.{d}f}"]: none, and no point, when [d = 0]. *)
Definition frac_part (d : nat) (b : N) : string :=
  match d with
  | O => ""
  | S _ => "." +:+ pad_zeros d (str_of_N b)
  end.

(** [f"{x:.{d}f}"]: the sign, then [|x|] rounded half to even to [d]
    decimals, its integer part, and a point and [d] digits when [d >= 1]. *)
Definition format_fixed (d : nat) (x : pyfloat) : string :=
  match x with
  | NaN => "nan"
  | Inf neg => if neg then "-inf" else "inf"
  | Fin q =>
      let r := Z.to_N (rint (Qabs q * inject_Z (Zpos (pow10 d)))) in
      (if Qlt_bool q 0 then "-" else "") +:+
      str_of_N (r / Npos (pow10 d)) +:+ frac_part d (r mod Npos (pow10 d))
  end.

(** Line 25: the "Churn Rate" metric. *)
Definition metric_churn_rate (df : list row) : string :=
  format_fixed 2 (churn_rate df) +:+ "%".

(** Line 26: the "Avg. Monthly Charges" metric. *)
Definition metric_avg_monthly_charges (df : list row) : string :=
  "$" +:+ format_fixed 2 (avg_monthly_charges df).

(** The number a string [-?digits.digits] with [d] decimals denotes. *)
Definition parse_fixed (d : nat) (s : string) : option Q :=
  let '(neg, body) :=
    match s with
    | String c t => if bool_decide (c = "-"%char) then (true, t) else (false, s)
    | EmptyString => (false, s)
    end in
  match d with
  | O => ip ← parse_N body; Some (if neg then (- inject_Z (Z.of_N ip))%Q else inject_Z (Z.of_N ip))
  | S _ =>
      match split_on "." body with
      | (a, Some b) =>
          ip ← parse_N a; fp ← parse_N b;
          let v := (inject_Z (Z.of_N ip) + inject_Z (Z.of_N fp) / inject_Z (Zpos (pow10 d)))%Q in
          Some (if neg then (- v)%Q else v)
      | _ => None
      end
  end.

(** ** Lemmas *)

Lemma string_of_uint_digits (u : Decimal.uint) :
  Forall (fun c => is_digit c = true) (String.list_ascii_of_string (NilEmpty.string_of_uint u)).
Proof. induction u; simpl; by constructor. Qed.

Lemma digits_is_digit (n : N) : Forall (fun c => is_digit c = true) (digits n).
Proof. apply string_of_uint_digits. Qed.

(** A digit is neither a separator nor a sign nor a point. *)
Lemma digit_not_sep (c : Ascii.ascii) :
  is_digit c = true -> c <> ","%char /\ c <> "-"%char /\ c <> "."%char.
Proof.
  unfold is_digit. rewrite bool_decide_eq_true.
  repeat (intros [->|?]%elem_of_cons; [split_and!; discriminate|]). set_solver.
Qed.

Lemma parse_N_str_of_N (n : N) : parse_N (str_of_N n) = Some n.
Proof. unfold parse_N, str_of_N. rewrite NilEmpty.usu. simpl. by rewrite Unsigned.of_to. Qed.

Lemma group_rev_filter (k : nat) (ds : list Ascii.ascii) :
  List.filter (fun c => negb (bool_decide (c = ","%char))) (group_rev k ds) =
  List.filter (fun c => negb (bool_decide (c = ","%char))) ds.
Proof.
  revert k. induction ds as [|d ds IH]; intros k; [done|]. simpl.
  destruct (Nat.eqb k 3); simpl; by rewrite IH.
Qed.

Lemma List_filter_rev {A} (f : A -> bool) (l : list A) :
  List.filter f (rev l) = rev (List.filter f l).
Proof.
  induction l as [|x l IH]; [done|]. simpl. rewrite List.filter_app, IH. simpl.
  destruct (f x); simpl; [done|by rewrite app_nil_r].
Qed.

Lemma split_on_app (sep : Ascii.ascii) (s1 s2 : string) :
  Forall (fun c => c <> sep) (String.list_ascii_of_string s1) ->
  split_on sep (s1 +:+ String sep s2) = (s1, Some s2).
Proof.
  induction s1 as [|c s1 IH]; intros Hs; simpl in Hs |- *; [by rewrite bool_decide_eq_true_2|].
  apply Forall_cons in Hs as [Hc Hs]. rewrite bool_decide_eq_false_2 by done. by rewrite IH.
Qed.

(** Leading zeros do not change the number read. *)
Lemma parse_N_zeros (k : nat) (s : string) :
  is_Some (NilEmpty.uint_of_string s) ->
  parse_N (String.string_of_list_ascii (repeat "0"%char k) +:+ s) = parse_N s.
Proof.
  intros [u Hu]. unfold parse_N. induction k as [|k IH]; [done|]. simpl.
  destruct (NilEmpty.uint_of_string (String.string_of_list_ascii (repeat "0"%char k) +:+ s)) eqn:E;
    simpl in *; [done|by rewrite Hu in IH].
Qed.

Lemma str_of_N_uint (n : N) : is_Some (NilEmpty.uint_of_string (str_of_N n)).
Proof. unfold str_of_N. rewrite NilEmpty.usu. eauto. Qed.

(** [str_of_N n] starts with a digit. *)
Lemma str_of_N_head (n : N) : exists c t, str_of_N n = String c t /\ is_digit c = true.
Proof.
  unfold str_of_N. destruct (N.to_uint n) as [| u | u | u | u | u | u | u | u | u | u] eqn:E;
    try by (do 2 eexists; split; [reflexivity|]).
  exfalso. pose proof (Unsigned.of_to n) as H. rewrite E in H. simpl in H. subst n. discriminate E.
Qed.

Lemma digits_not (sep : Ascii.ascii) (n : N) :
  sep = ","%char \/ sep = "-"%char \/ sep = "."%char ->
  Forall (fun c => c <> sep) (String.list_ascii_of_string (str_of_N n)).
Proof.
  intros Hsep. eapply Forall_impl; [apply (digits_is_digit n)|]. intros c Hc%digit_not_sep.
  naive_solver.
Qed.

(** The parsed value of the fixed-point string, before the sign. *)
Lemma string_app_nil_r (s : string) : s +:+ "" = s.
Proof. induction s as [|c s IH]; [done|]. change (String c s +:+ "") with (String c (s +:+ "")). by rewrite IH. Qed.

Lemma parse_fixed_body (d : nat) (neg : bool) (a b : N) :
  (d = O -> b = 0%N) ->
  exists v, parse_fixed d ((if neg then "-" else "") +:+ str_of_N a +:+ frac_part d b) = Some v /\
    (v == let v := (inject_Z (Z.of_N a) + inject_Z (Z.of_N b) / inject_Z (Zpos (pow10 d)))%Q in
          if neg then (- v)%Q else v)%Q.
Proof.
  intros Hb0. unfold parse_fixed.
  destruct d as [|d'].
  - rewrite (Hb0 eq_refl). cbn [frac_part]. rewrite !string_app_nil_r.
    destruct neg.
    + change ("-" +:+ ?x) with (String "-"%char x). cbv beta iota.
      rewrite bool_decide_eq_true_2 by done. cbv beta iota. rewrite parse_N_str_of_N.
      eexists. split; [reflexivity|]. simpl. field.
    + destruct (str_of_N_head a) as (c & t & Ea & Hc). change ("" +:+ ?x) with x. rewrite Ea.
      cbv beta iota. rewrite bool_decide_eq_false_2 by (apply digit_not_sep, Hc). cbv beta iota.
      rewrite <- Ea, parse_N_str_of_N. eexists. split; [reflexivity|]. simpl. field.
  - cbn [frac_part].
    assert (Hsplit : split_on "." (str_of_N a +:+ "." +:+ pad_zeros (S d') (str_of_N b)) =
                     (str_of_N a, Some (pad_zeros (S d') (str_of_N b)))).
    { change ("." +:+ pad_zeros (S d') (str_of_N b)) with (String "." (pad_zeros (S d') (str_of_N b))).
      apply split_on_app, digits_not. auto. }
    assert (Hb : parse_N (pad_zeros (S d') (str_of_N b)) = Some b).
    { unfold pad_zeros. rewrite parse_N_zeros by apply str_of_N_uint. apply parse_N_str_of_N. }
    destruct neg.
    + change ("-" +:+ ?x) with (String "-"%char x). cbv beta iota.
      rewrite bool_decide_eq_true_2 by done. cbv beta iota. rewrite Hsplit.
      rewrite parse_N_str_of_N, Hb. by eexists.
    + destruct (str_of_N_head a) as (c & t & Ea & Hc). change ("" +:+ ?x) with x. rewrite Ea.
      change (String c t +:+ ?x) with (String c (t +:+ x)). cbv beta iota.
      rewrite bool_decide_eq_false_2 by (apply digit_not_sep, Hc). cbv beta iota.
      change (String c (t +:+ ?x)) with (String c t +:+ x). rewrite <- Ea, Hsplit.
      rewrite parse_N_str_of_N, Hb. by eexists.
Qed.

Lemma parse_format_thousands (n : N) : parse_thousands (format_thousands n) = Some n.
Proof.
  unfold parse_thousands, strip_commas, format_thousands.
  rewrite String.list_ascii_of_string_of_list_ascii, List_filter_rev, group_rev_filter,
    <- List_filter_rev, rev_involutive, List_filter_all.
  - unfold digits. rewrite String.string_of_list_ascii_of_string. apply parse_N_str_of_N.
  - intros c Hc. pose proof (digits_is_digit n) as Hd. rewrite Forall_forall in Hd.
    apply negb_true_iff, bool_decide_eq_false_2, digit_not_sep, Hd, Hc.
Qed.

Lemma parse_format_label (lo hi : N) :
  parse_label (str_of_N lo +:+ "-" +:+ str_of_N hi) = Some (lo, hi).
Proof.
  unfold parse_label. change ("-" +:+ str_of_N hi) with (String "-" (str_of_N hi)).
  rewrite (split_on_app "-").
  - by rewrite !parse_N_str_of_N.
  - eapply Forall_impl; [apply (digits_is_digit lo)|]. intros c Hc%digit_not_sep. tauto.
Qed.

Lemma parse_format_fixed (d : nat) (q : Q) :
  exists v, parse_fixed d (format_fixed d (Fin q)) = Some v /\ (v == round_dec d q)%Q.
Proof.
  unfold format_fixed. set (p := Zpos (pow10 d)). set (R := rint (q * inject_Z p)).
  set (r := Z.to_N (rint (Qabs q * inject_Z p))).
  destruct (parse_fixed_body d (Qlt_bool q 0) (r / Npos (pow10 d)) (r mod Npos (pow10 d))) as (v & -> & Ev).
  { intros ->. apply N.mod_1_r. }
  eexists. split; [reflexivity|]. rewrite Ev. cbv zeta.
  assert (Hp : (0 < inject_Z p)%Q) by apply pow10_pos.
  assert (Habs : rint (Qabs q * inject_Z p) = if Qlt_bool q 0 then (- R)%Z else R).
  { destruct (Qlt_bool q 0) eqn:E; [apply Qlt_bool_true in E|apply Qlt_bool_false in E].
    - unfold R. rewrite <- rint_opp. apply rint_proper. rewrite Qabs_neg by lra. ring.
    - apply rint_proper. by rewrite Qabs_pos. }
  assert (Hr : Z.of_N r = rint (Qabs q * inject_Z p)).
  { apply Z2N.id. rewrite <- (rint_Z 0). apply rint_mono.
    change (inject_Z 0) with 0%Q. apply Qmult_le_0_compat; [apply Qabs_nonneg|lra]. }
  pose proof (N.div_mod r (Npos (pow10 d)) ltac:(discriminate)) as E%(f_equal Z.of_N).
  rewrite N2Z.inj_add, N2Z.inj_mul, Hr in E. change (Z.of_N (Npos (pow10 d))) with p in E.
  assert (Hv : (inject_Z (Z.of_N (r / Npos (pow10 d))) + inject_Z (Z.of_N (r mod Npos (pow10 d))) / inject_Z p
                == inject_Z (rint (Qabs q * inject_Z p)) / inject_Z p)%Q).
  { rewrite E, inject_Z_plus, inject_Z_mult. field. lra. }
  rewrite round_dec_eq. fold p R.
  destruct (Qlt_bool q 0); rewrite Hv, Habs; [rewrite inject_Z_opp; field; lra|reflexivity].
Qed.

(** ** Properties *)

(** The "Total Customers" string of line 24 determines the count:
    dropping the commas of [f"{n:,}"] and reading the digits gives [n]
    back. *)
Theorem thousands_roundtrip (n : N) : parse_thousands (format_thousands n) = Some n.
Proof. apply parse_format_thousands. Qed.

(** A label [f"{lo}-{hi}"] of line 154 names its bounds: splitting
    at the first dash and reading both sides gives [lo] and [hi].  Every
    [TotalChargeRange] label reads back as its bin. *)
Theorem label_roundtrip (lo hi : N) :
  parse_label (str_of_N lo +:+ "-" +:+ str_of_N hi) = Some (lo, hi) /\
  map parse_label total_labels = map (fun i => Some (i, i + step)%N) (removelast total_bins_N).
Proof.
  split; [apply parse_format_label|]. unfold total_labels. rewrite map_map.
  apply map_ext. intros i. apply parse_format_label.
Qed.

(** C26: The two-decimal strings of lines 25-26 denote numpy's rounding of
    the value: reading back [f"{q:.{d}f}"] gives a number equal to
    [round(q, d)], half to even, for either sign. *)
Theorem fixed_roundtrip (d : nat) (q : Q) :
  exists v, parse_fixed d (format_fixed d (Fin q)) = Some v /\ (v == round_dec d q)%Q.
Proof. apply parse_format_fixed. Qed.

(** The three metric strings of lines 24-26 show what they claim.
    "Total Customers" reads back as the number of rows.  "Churn Rate" is
    ["nan%"] when no [Churn] is "Yes" or "No"; otherwise it reads back as
    [round(100 * #Yes / #(Yes or No), 2)].  "Avg. Monthly Charges" is
    ["$nan"] when no charge is present; otherwise it reads back as the
    rounded mean. *)
Theorem metric_strings (csv : list customer) :
  let df := load_data csv in
  let yes := count_if (fun c => is_yes (Churn c)) csv in
  let mapped := count_if (fun c => bool_decide (is_Some (churn_binary (Churn c)))) csv in
  parse_thousands (metric_total_customers df) = Some (N.of_nat (length csv)) /\
  ((mapped = 0%nat /\ metric_churn_rate df = "nan%") \/
   ((0 < mapped)%nat /\ exists s v, metric_churn_rate df = s +:+ "%" /\ parse_fixed 2 s = Some v /\
      (v == round_dec 2 (inject_Z (Z.of_nat yes) / inject_Z (Z.of_nat mapped) * 100))%Q)) /\
  ((present (q_column MonthlyCharges df) = [] /\ metric_avg_monthly_charges df = "$nan") \/
   (exists m s v, avg_monthly_charges df = Fin m /\ metric_avg_monthly_charges df = "$" +:+ s /\
      parse_fixed 2 s = Some v /\ (v == round_dec 2 m)%Q)).
Proof.
  cbv zeta. split_and!.
  - unfold metric_total_customers, total_customers, load_data. by rewrite length_map, parse_format_thousands.
  - destruct (churn_rate_value csv) as [[H0 HN]|[Hpos (q & Hq & Eq)]]; [left|right].
    + unfold metric_churn_rate. by rewrite HN.
    + split; [done|]. destruct (parse_format_fixed 2 q) as (v & Hv & Ev).
      exists (format_fixed 2 (Fin q)), v. unfold metric_churn_rate. rewrite Hq.
      split_and!; [done|done|]. by rewrite Ev, Eq.
  - unfold metric_avg_monthly_charges, avg_monthly_charges, smean.
    destruct (present (q_column MonthlyCharges (load_data csv))) as [|x xs]; [by left|right].
    set (m := (sum_q (x :: xs) / inject_Z (Z.of_nat (length (x :: xs))))%Q).
    destruct (parse_format_fixed 2 m) as (v & Hv & Ev). by exists m, (format_fixed 2 (Fin m)), v.
Qed.

(** The witness frame of the metrics: the spec's worked example. *)
Example metric_strings_example :
  metric_total_customers (load_data (repeat (sample_customer "Male" "One year" 25 "Yes") 3 ++
                                     repeat (sample_customer "Female" "Month-to-month" 15 "No") 7))
    = "10" /\
  metric_churn_rate (load_data (repeat (sample_customer "Male" "One year" 25 "Yes") 3 ++
                                repeat (sample_customer "Female" "Month-to-month" 15 "No") 7))
    = "30.00%" /\
  metric_avg_monthly_charges (load_data (repeat (sample_customer "Male" "One year" 25 "Yes") 3 ++
                                         repeat (sample_customer "Female" "Month-to-month" 15 "No") 7))
    = "$18.00".
Proof. split_and!; by vm_compute. Qed.
