(* ===== verification/ReadCsv.v ===== *)
(** * From the CSV text to typed columns: [pd.read_csv] (line 13)

    After [Csv.tokenize] has split the file into lines of fields,
    [pd.read_csv] (its C engine, [TextReader] in [parsers.pyx]) turns
    them into a DataFrame:
    - the first line is the header.  An empty name becomes
      ["Unnamed: i"], and a repeated name [x] is renamed [x.1], [x.2],
      ... ([_get_header]);
    - the first data line may have more fields than the header: its
      leading fields then form the index.  A later line with more fields
      than the first data line is pandas' [ParserError] "Expected n
      fields ..., saw m"; a line with fewer is padded with empty fields
      ([end_line] in [tokenizer.c]);
    - an empty file, or one of blank lines only, is [EmptyDataError];
    - a field that is one of pandas' NA strings is NaN;
    - each column is typed by [_convert_tokens] ([infer_column]).  The
      integer passes are skipped when a field has a '.', 'e' or 'E'
      ([column_has_float]).  [_try_int64] ([scan_int64], over
      [str_to_int64]) stops at the first field that is not an integer
      ([ConvInvalid]: try [float64]) or does not fit in 64 signed bits
      ([ConvOverflow]: try [uint64]); an int64 column with an NA field
      becomes [float64].  [_try_uint64] ([scan_uint64], over
      [str_to_uint64] and its [uint_state]) gives [uint64], or [object]
      when a field has a minus sign, overflows 64 bits, or a value above
      [2^63-1] meets an NA field.  [float64] takes NA, the numbers of
      [precise_xstrtod] ([parse_decimal]) and the infinities; [bool]
      takes [True]/[TRUE]/[true] and [False]/[FALSE]/[false] (with an NA
      the column is [object] holding booleans); [object] keeps the
      strings.  A file without data lines has [object] columns only.

    [customers_of] builds the [customer] records the rest of the
    development works on.  A numeric column ([tenure], [MonthlyCharges],
    [TotalCharges]) that pandas reads as [object] is kept as a column of
    missing numbers whose name is recorded in [csv_object]: pandas has
    strings there, and [describe] drops the column and [pd.cut] raises
    [TypeError] on it ([Dashboard]).  Values the records cannot hold (a
    string column read as numbers, an infinite or non-integral number in
    an integer column, booleans in a numeric column) are reported as
    [OutsideModel].

    [parse_decimal] follows [precise_xstrtod] in what it accepts and in
    its digit limits: only the first 17 significant positions of the
    mantissa count, the exponent has at most 17 digits, and an exponent
    above 308 or a value of at least [2^1024] is [ERANGE] (the field does
    not convert).  The value is the rational those digits write, not the
    double nearest to it: the rounding to binary is not modelled. *)

From S2P Require Import Prelude Csv Frame Numeric Cut Format.
From stdpp Require Import gmap strings.
From Stdlib Require Import Ascii.

(** ** Fields *)

(** [STR_NA_VALUES]: the strings [read_csv] reads as NaN by default. *)
Definition na_values : list string :=
  ["-1.#IND"; "1.#QNAN"; "1.#IND"; "-1.#QNAN"; "#N/A N/A"; "#N/A"; "N/A"; "n/a"; "NA"; "<NA>";
   "#NA"; "NULL"; "null"; "NaN"; "-NaN"; "nan"; "-nan"; "None"; ""].

Definition is_na (s : string) : bool := bool_decide (s ∈ na_values).

(** [isspace_ascii]: a space, [\t], [\n], [\v], [\f] or [\r]. *)
Definition is_space (c : ascii) : bool :=
  (c =? " ")%char || (N.leb 9 (N_of_ascii c) && N.leb (N_of_ascii c) 13).

Fixpoint drop_spaces (l : list ascii) : list ascii :=
  match l with c :: l' => if is_space c then drop_spaces l' else l | [] => [] end.

(** Leading and trailing spaces, which both converters skip. *)
Definition strip (l : list ascii) : list ascii := rev (drop_spaces (rev (drop_spaces l))).

(** The longest prefix of digits, and the rest. *)
Fixpoint span_digits (l : list ascii) : list ascii * list ascii :=
  match l with
  | c :: l' => if is_digit c then let '(ds, r) := span_digits l' in (c :: ds, r) else ([], l)
  | [] => ([], [])
  end.

(** An optional sign. *)
Definition take_sign (l : list ascii) : bool * list ascii :=
  match l with
  | c :: l' => if (c =? "-")%char then (true, l') else if (c =? "+")%char then (false, l') else (false, l)
  | [] => (false, [])
  end.

(** The value of a non-empty string of digits. *)
Definition digits_value (ds : list ascii) : Z :=
  match parse_N (String.string_of_list_ascii ds) with Some n => Z.of_N n | None => 0%Z end.

(** The ranges of [int64] and [uint64]. *)
Definition int64_range (z : Z) : bool := Z.leb (- 2 ^ 63)%Z z && Z.ltb z (2 ^ 63)%Z.
Definition uint64_range (z : Z) : bool := Z.leb 0 z && Z.ltb z (2 ^ 64)%Z.

(** The parts of a field [str_to_int64] reads: after leading spaces, the
    sign, the digits, and what follows the digits. *)
Definition int_parts (s : string) : bool * list ascii * list ascii :=
  let '(neg, l) := take_sign (drop_spaces (String.list_ascii_of_string s)) in
  let '(ds, r) := span_digits l in (neg, ds, r).

(** An integer literal of any size: spaces, a sign, at least one digit,
    spaces, and nothing else. *)
Definition parse_int (s : string) : option Z :=
  match int_parts s with
  | (neg, (_ :: _) as ds, r) =>
      match drop_spaces r with
      | [] => Some (if neg then (- digits_value ds)%Z else digits_value ds)
      | _ => None
      end
  | _ => None
  end.

(** The errors of [str_to_int64] and [str_to_uint64] that decide the
    dtype: [ERROR_OVERFLOW], and the others ([ERROR_NO_DIGITS],
    [ERROR_INVALID_CHARS]). *)
Inductive conv_error := ConvInvalid | ConvOverflow.

(** [str_to_int64]: the overflow is found while the digits are read, so
    it wins over characters that follow them. *)
Definition str_to_int64 (s : string) : conv_error + Z :=
  match int_parts s with
  | (neg, (_ :: _) as ds, r) =>
      let v := if neg then (- digits_value ds)%Z else digits_value ds in
      if int64_range v then
        match drop_spaces r with [] => inr v | _ => inl ConvInvalid end
      else inl ConvOverflow
  | _ => inl ConvInvalid
  end.

(** The flags [str_to_uint64] sets ([uint_state] in [tokenizer.h]). *)
Record uint_state := mkUintState { seen_sint : bool; seen_uint : bool; seen_null : bool }.

Definition uint_init : uint_state := mkUintState false false false.

(** [str_to_uint64]: a field that starts with [-] is not read, it only
    sets [seen_sint]; a value above [INT64_MAX] sets [seen_uint]. *)
Definition str_to_uint64 (st : uint_state) (s : string) : conv_error + (uint_state * Z) :=
  match drop_spaces (String.list_ascii_of_string s) with
  | [] => inl ConvInvalid
  | c :: l' =>
      if (c =? "-")%char then inr (mkUintState true (seen_uint st) (seen_null st), 0%Z)
      else
        let '(ds, r) := span_digits (if (c =? "+")%char then l' else c :: l') in
        match ds with
        | [] => inl ConvInvalid
        | _ =>
            let v := digits_value ds in
            if Z.ltb v (2 ^ 64) then
              match drop_spaces r with
              | [] => inr (mkUintState (seen_sint st) (seen_uint st || Z.ltb (2 ^ 63 - 1) v) (seen_null st), v)
              | _ => inl ConvInvalid
              end
            else inl ConvOverflow
        end
  end.

(** [_try_int64]: the fields in order, an NA field giving NaN; the first
    error stops the pass. *)
Fixpoint scan_int64 (cells : list string) : conv_error + list (option Z) :=
  match cells with
  | [] => inr []
  | s :: cs =>
      if is_na s then
        match scan_int64 cs with inl e => inl e | inr zs => inr (None :: zs) end
      else
        match str_to_int64 s with
        | inl e => inl e
        | inr z => match scan_int64 cs with inl e => inl e | inr zs => inr (Some z :: zs) end
        end
  end.

(** [_try_uint64]: an NA field sets [seen_null] and reads as 0. *)
Fixpoint scan_uint64 (st : uint_state) (cells : list string) : conv_error + (uint_state * list Z) :=
  match cells with
  | [] => inr (st, [])
  | s :: cs =>
      if is_na s then
        match scan_uint64 (mkUintState (seen_sint st) (seen_uint st) true) cs with
        | inl e => inl e
        | inr (st', vs) => inr (st', 0%Z :: vs)
        end
      else
        match str_to_uint64 st s with
        | inl e => inl e
        | inr (st1, v) => match scan_uint64 st1 cs with inl e => inl e | inr (st', vs) => inr (st', v :: vs) end
        end
  end.

(** [_column_has_float] on one field: [None] when the field is digits
    only (after spaces and signs) and the next field decides. *)
Fixpoint word_has_float (found : bool) (w : list ascii) : option bool :=
  match w with
  | [] => None
  | c :: w' =>
      if (c =? ".")%char then Some true
      else if negb found && ((c =? " ")%char || (c =? "+")%char || (c =? "-")%char) then word_has_float found w'
      else if negb found && negb (is_digit c) then Some false
      else if negb found then word_has_float true w'
      else if (c =? "e")%char || (c =? "E")%char then Some true
      else if negb (is_digit c) then Some false
      else word_has_float true w'
  end.

(** [_column_has_float]: the first field that is not NA and not digits
    only decides whether the column holds floats; the integer dtypes
    are then not tried. *)
Fixpoint column_has_float (cells : list string) : bool :=
  match cells with
  | [] => false
  | s :: cs =>
      if is_na s then column_has_float cs
      else match word_has_float false (String.list_ascii_of_string s) with
           | Some b => b
           | None => column_has_float cs
           end
  end.

(** [precise_xstrtod]: spaces, a sign, digits with an optional decimal
    point (at least one digit in all), an optional exponent ([e] or [E],
    a sign, at most 17 digits; an [e] without digits is not part of the
    number), spaces, and nothing else.  Only the first 17 digits of the
    mantissa count (leading zeros included): further integer digits
    raise the exponent and further decimals are dropped.  An exponent
    above 308, or a value that overflows, is [ERANGE], and the field is
    not a float.  The value is the decimal [m * 10^k] of those digits;
    its rounding to a double is not modelled, and the overflow is taken
    at [2^1024]. *)
Definition parse_decimal (s : string) : option Q :=
  let '(neg, l) := take_sign (drop_spaces (String.list_ascii_of_string s)) in
  let '(ids, l2) := span_digits l in
  let '(fds, l3) := match l2 with
                    | c :: r => if (c =? ".")%char then span_digits r else ([], l2)
                    | [] => ([], [])
                    end in
  let '(e, rest) := match l3 with
                    | c :: r =>
                        if (c =? "e")%char || (c =? "E")%char then
                          let '(eneg, r1) := take_sign r in
                          let '(eds, r2) := span_digits r1 in
                          match eds with
                          | [] => (0%Z, l3)
                          | _ => let v := digits_value (firstn 17 eds) in
                                 ((if eneg then - v else v)%Z, skipn 17 eds ++ r2)
                          end
                        else (0%Z, l3)
                    | [] => (0%Z, [])
                    end in
  match ids ++ fds, drop_spaces rest with
  | _ :: _, [] =>
      let m := digits_value (firstn 17 (ids ++ fds)) in
      let k := (Z.of_nat (length ids - 17) - Z.of_nat (Nat.min (length fds) (17 - length ids)) + e)%Z in
      let v := if Z.leb 0 k then inject_Z (m * 10 ^ k)%Z else (inject_Z m / inject_Z (10 ^ (- k))%Z)%Q in
      if Z.ltb 308 k || Qle_bool (inject_Z (2 ^ 1024)) v then None
      else Some (if neg then (- v)%Q else v)
  | _, _ => None
  end.

(** The infinities [_try_double] accepts, compared without case. *)
Definition inf_words : list string := ["inf"; "+inf"; "infinity"; "+infinity"].
Definition neg_inf_words : list string := ["-inf"; "-infinity"].

Definition lower (c : ascii) : ascii :=
  let n := N_of_ascii c in if N.leb 65 n && N.leb n 90 then ascii_of_N (n + 32) else c.

Definition lowercase (s : string) : string :=
  String.string_of_list_ascii (map lower (String.list_ascii_of_string s)).

(** A field of a [float64] column. *)
Definition parse_float (s : string) : option pyfloat :=
  match parse_decimal s with
  | Some q => Some (Fin q)
  | None =>
      if bool_decide (lowercase s ∈ inf_words) then Some (Inf false)
      else if bool_decide (lowercase s ∈ neg_inf_words) then Some (Inf true)
      else None
  end.

Definition true_values : list string := ["True"; "TRUE"; "true"].
Definition false_values : list string := ["False"; "FALSE"; "false"].

(** The conversions of one field under the [float64], [bool] and
    [object] dtypes; [None] when the field does not convert. *)
Definition cell_float (s : string) : option pyfloat := if is_na s then Some NaN else parse_float s.

Definition cell_bool (s : string) : option (option bool) :=
  if is_na s then Some None
  else if bool_decide (s ∈ true_values) then Some (Some true)
  else if bool_decide (s ∈ false_values) then Some (Some false)
  else None.

Definition cell_obj (s : string) : option string := if is_na s then None else Some s.

(** ** Columns *)

(** A column of the DataFrame [read_csv] returns. *)
Inductive typed_column :=
| IntCol (zs : list Z)                  (* int64, or uint64 *)
| FloatCol (xs : list pyfloat)          (* float64 *)
| BoolCol (bs : list (option bool))     (* bool, or object with NaN *)
| ObjCol (ss : list (option string)).   (* object *)

(** [_convert_tokens] over [dtype_cast_order]: the integer dtypes unless
    [_column_has_float]; an [int64] column with NaN is upcast to
    [float64]; an [int64] overflow retries as [uint64], where a further
    overflow, a minus sign, or a value above [INT64_MAX] together with a
    NaN leaves the column [object] (the [OverflowError] and [ValueError]
    [_convert_tokens] catches); then [float64], [bool], [object]. *)
Definition infer_column (cells : list string) : typed_column :=
  let objects := ObjCol (map cell_obj cells) in
  let fallback :=
    match mapM cell_float cells with
    | Some xs => FloatCol xs
    | None =>
        match mapM cell_bool cells with
        | Some bs => BoolCol bs
        | None => objects
        end
    end in
  match cells with
  | [] => ObjCol []
  | _ =>
      if column_has_float cells then fallback
      else
        match scan_int64 cells with
        | inr zs =>
            match mapM id zs with
            | Some zs' => IntCol zs'
            | None => FloatCol (map (fun o => match o with Some z => Fin (inject_Z z) | None => NaN end) zs)
            end
        | inl ConvInvalid => fallback
        | inl ConvOverflow =>
            match scan_uint64 uint_init cells with
            | inr (st, vs) =>
                if seen_uint st && (seen_sint st || seen_null st) then objects
                else if seen_sint st then objects
                else IntCol vs
            | inl ConvOverflow => objects
            | inl ConvInvalid => fallback
            end
        end
  end.

(** ** The header *)

(** ["x.k"] *)
Definition mangled (old : string) (k : nat) : string := old +:+ "." +:+ str_of_N (N.of_nat k).

(** The [while cur_count > 0] loop of [_get_header] on the header [hdr]
    as it stands ([this_header]), with the [counts] dict.  The fuel is
    the length of the header plus one, and the loop returns the name it
    has reached when the fuel runs out.  That the fuel is always enough
    is not proved here; on a header of distinct names the loop is not
    entered ([header_names_distinct]). *)
Fixpoint mangle_loop (fuel : nat) (hdr : list string) (counts : gmap string nat)
    (old col : string) (cur : nat) : gmap string nat * string * nat :=
  match cur, fuel with
  | O, _ => (counts, col, O)
  | S _, O => (counts, col, cur)
  | S _, S f =>
      let counts' := <[old := S cur]> counts in
      let col' := mangled old cur in
      let cur' := if bool_decide (col' ∈ hdr) then S cur else default O (counts' !! col') in
      mangle_loop f hdr counts' old col' cur'
  end.

(** One column of the header loop: its name is mangled while it is
    taken, then recorded. *)
Definition dedup_step (st : list string * gmap string nat) (i : nat) : list string * gmap string nat :=
  let '(hdr, counts) := st in
  match hdr !! i with
  | None => st
  | Some col =>
      let '(counts', col', cur) :=
        mangle_loop (S (length hdr)) hdr counts col col (default O (counts !! col)) in
      (<[i := col']> hdr, <[col' := S cur]> counts')
  end.

(** The column names: ["Unnamed: i"] for an empty name, then the
    mangling of repeated names, the named columns first. *)
Definition header_names (fields : list string) : list string :=
  let named := imap (fun i f => if bool_decide (f = "") then "Unnamed: " +:+ str_of_N (N.of_nat i) else f) fields in
  let order := List.filter (fun i => negb (bool_decide (fields !! i = Some ""))) (seq 0 (length fields)) ++
               List.filter (fun i => bool_decide (fields !! i = Some "")) (seq 0 (length fields)) in
  (foldl dedup_step (named, ∅) order).1.

(** ** Lines *)

Inductive read_error :=
| EmptyData                           (* EmptyDataError: No columns to parse from file *)
| UnterminatedQuote                   (* ParserError: EOF inside string *)
| TooManyFields (expected saw : nat). (* ParserError: Expected n fields ..., saw m *)

(** Missing trailing fields are empty. *)
Definition pad (n : nat) (r : list string) : list string := r ++ replicate (n - length r) "".

(** The lines after the first data line have at most [ex] fields. *)
Fixpoint check_rows (ex : nat) (rows : list (list string)) : read_error + list (list string) :=
  match rows with
  | [] => inr []
  | r :: rs =>
      if Nat.ltb ex (length r) then inl (TooManyFields ex (length r))
      else match check_rows ex rs with inl e => inl e | inr rs' => inr (pad ex r :: rs') end
  end.

(** The width of the data lines (the first data line may be wider than
    the header) and the lines padded to it. *)
Definition shape_rows (n : nat) (rows : list (list string)) : read_error + (nat * list (list string)) :=
  match rows with
  | [] => inr (n, [])
  | r1 :: rs =>
      let c1 := Nat.max n (length r1) in
      match check_rows c1 rs with inl e => inl e | inr rs' => inr (c1, pad c1 r1 :: rs') end
  end.

(** [pd.read_csv(text)]: the named columns, in file order. *)
Definition read_csv (text : string) : read_error + list (string * typed_column) :=
  match tokenize text with
  | inl EOFInString => inl UnterminatedQuote
  | inr [] => inl EmptyData
  | inr (hdr :: rows) =>
      match shape_rows (length hdr) rows with
      | inl e => inl e
      | inr (c1, rows') =>
          let idx := c1 - length hdr in
          inr (zip (header_names hdr)
                   (map (fun j => infer_column (map (fun r => nth (idx + j) r "") rows'))
                        (seq 0 (length hdr))))
      end
  end.

(** ** The records *)

(** [telecom_churned_data.csv] as [pd.read_csv] returns it: its column
    names, its records, and the numeric columns it reads as [object]. *)
Record csv_file := mkCsv {
  csv_columns : list string;
  csv_records : list customer;
  csv_object : list string
}.

Definition column_length (c : typed_column) : nat :=
  match c with IntCol l => length l | FloatCol l => length l | BoolCol l => length l | ObjCol l => length l end.

(** A column of strings: [object], or [float64] when every field is NaN. *)
Definition str_cells (c : typed_column) : option (list (option string)) :=
  match c with
  | ObjCol ss => Some ss
  | FloatCol xs => if forallb is_nan xs then Some (map (fun _ => None) xs) else None
  | _ => None
  end.

(** A column of numbers: [int64], or [float64] without infinities. *)
Definition q_cells (c : typed_column) : option (list (option Q)) :=
  match c with
  | IntCol zs => Some (map (fun z => Some (inject_Z z)) zs)
  | FloatCol xs => mapM (fun x => match x with Fin q => Some (Some q) | NaN => Some None | Inf _ => None end) xs
  | _ => None
  end.

(** A column of integers: [int64], or [float64] of integral values. *)
Definition z_cells (c : typed_column) : option (list (option Z)) :=
  match c with
  | IntCol zs => Some (map Some zs)
  | FloatCol xs =>
      mapM (fun x => match x with
                     | Fin q => if Z.eqb (Z.modulo (Qnum q) (Zpos (Qden q))) 0
                                then Some (Some (Z.div (Qnum q) (Zpos (Qden q)))) else None
                     | NaN => Some None
                     | Inf _ => None
                     end) xs
  | _ => None
  end.

(** The fields of a column the records hold, or the name of the column
    when they cannot hold it; an absent column is all NaN. *)
Definition field {A} (conv : typed_column -> option (list (option A))) (cols : list (string * typed_column))
    (n : nat) (name : string) : string + list (option A) :=
  match lookup_key name cols with
  | None => inr (replicate n None)
  | Some c => match conv c with Some v => inr v | None => inl name end
  end.

(** A numeric field, which may also be an [object] column. *)
Definition num_field {A} (conv : typed_column -> option (list (option A))) (cols : list (string * typed_column))
    (n : nat) (name : string) : string + (list (option A) * list string) :=
  match lookup_key name cols with
  | Some (ObjCol _) => inr (replicate n None, [name])
  | _ => match field conv cols n name with inl e => inl e | inr v => inr (v, []) end
  end.

Definition sum_bind {E A B} (m : E + A) (k : A -> E + B) : E + B :=
  match m with inl e => inl e | inr a => k a end.

Local Notation "x <-? m ;; k" := (sum_bind m (fun x => k)) (at level 60, m at next level, right associativity).

(** The records of the frame [read_csv] returns. *)
Definition customers_of (cols : list (string * typed_column)) : string + csv_file :=
  let n := match cols with (_, c) :: _ => column_length c | [] => O end in
  ids <-? field str_cells cols n "customerID" ;;
  gs <-? field str_cells cols n "gender" ;;
  cs <-? field z_cells cols n "CitizensStatus" ;;
  ten <-? num_field z_cells cols n "tenure" ;;
  cts <-? field str_cells cols n "Contract" ;;
  tss <-? field str_cells cols n "TechSupport" ;;
  iss <-? field str_cells cols n "InternetService" ;;
  pms <-? field str_cells cols n "PaymentMethod" ;;
  mcs <-? num_field q_cells cols n "MonthlyCharges" ;;
  tcs <-? num_field q_cells cols n "TotalCharges" ;;
  chs <-? field str_cells cols n "Churn" ;;
  inr (mkCsv (map fst cols)
             (map (fun i => mkCustomer (mjoin (ids !! i)) (mjoin (gs !! i)) (mjoin (cs !! i))
                                       (mjoin (ten.1 !! i)) (mjoin (cts !! i)) (mjoin (tss !! i))
                                       (mjoin (iss !! i)) (mjoin (pms !! i)) (mjoin (mcs.1 !! i))
                                       (mjoin (tcs.1 !! i)) (mjoin (chs !! i)))
                  (seq 0 n))
             (ten.2 ++ mcs.2 ++ tcs.2)).

(** What reading the file gives the script. *)
Inductive load_outcome :=
| Loaded (f : csv_file)
| ReadFailed (e : read_error)
| OutsideModel (c : string).

Definition load_text (text : string) : load_outcome :=
  match read_csv text with
  | inl e => ReadFailed e
  | inr cols => match customers_of cols with inl c => OutsideModel c | inr f => Loaded f end
  end.

(** ** Lemmas *)

(** A field written with a minus sign. *)
Definition minus_sign (s : string) : bool := (int_parts s).1.1.

Lemma digits_value_nonneg ds : (0 <= digits_value ds)%Z.
Proof. unfold digits_value. destruct (parse_N _); lia. Qed.

(** An integer literal is none of pandas' NA strings. *)
Lemma parse_int_not_na s z : parse_int s = Some z -> is_na s = false.
Proof.
  intros Hs. unfold is_na. apply bool_decide_eq_false. intros Hin.
  assert (Hall : forallb (fun n => if parse_int n then false else true) na_values = true) by reflexivity.
  rewrite forallb_forall in Hall. apply list_elem_of_In, Hall in Hin. by rewrite Hs in Hin.
Qed.

Lemma str_to_int64_literal s z :
  parse_int s = Some z -> str_to_int64 s = if int64_range z then inr z else inl ConvOverflow.
Proof.
  unfold parse_int, str_to_int64. destruct (int_parts s) as [[neg [|d ds]] r]; [discriminate|].
  destruct (drop_spaces r); [|discriminate]. intros [= <-]. by destruct (int64_range _).
Qed.

Lemma str_to_int64_parse s z : str_to_int64 s = inr z -> parse_int s = Some z.
Proof.
  unfold parse_int, str_to_int64. destruct (int_parts s) as [[neg [|d ds]] r]; [discriminate|].
  destruct (int64_range _); [|discriminate]. by destruct (drop_spaces r) as [|? ?]; [intros [= <-]|].
Qed.

Lemma str_to_uint64_literal st s z :
  parse_int s = Some z ->
  str_to_uint64 st s =
    if minus_sign s then inr (mkUintState true (seen_uint st) (seen_null st), 0%Z)
    else if uint64_range z then
      inr (mkUintState (seen_sint st) (seen_uint st || Z.ltb (2 ^ 63 - 1) z) (seen_null st), z)
    else inl ConvOverflow.
Proof.
  unfold parse_int, minus_sign, int_parts, str_to_uint64.
  destruct (drop_spaces _) as [|c l']; [discriminate|]. unfold take_sign.
  destruct (Ascii.eqb c "-"%char); [intros _; by destruct (span_digits l')|].
  destruct (Ascii.eqb c "+"%char); cbn [fst];
    destruct (span_digits _) as [[|d ds] r]; try discriminate;
    destruct (drop_spaces r); try discriminate; intros [= <-];
    pose proof (digits_value_nonneg (d :: ds)); unfold uint64_range;
    rewrite (proj2 (Z.leb_le _ _)) by done; simpl; by destruct (Z.ltb _ _).
Qed.

(** What [str_to_uint64] reads is an integer literal, unless it only
    noted a minus sign. *)
Lemma str_to_uint64_sint st s st1 v :
  str_to_uint64 st s = inr (st1, v) ->
  (seen_sint st = true -> seen_sint st1 = true) /\ (seen_sint st1 = true \/ parse_int s = Some v).
Proof.
  unfold str_to_uint64, parse_int, int_parts.
  destruct (drop_spaces _) as [|c l']; [discriminate|]. unfold take_sign.
  destruct (Ascii.eqb c "-"%char); [intros [= <- _]; split; [done|by left]|].
  destruct (Ascii.eqb c "+"%char); cbn [fst snd];
    destruct (span_digits _) as [[|d ds] r]; try discriminate;
    destruct (Z.ltb _ _); try discriminate;
    destruct (drop_spaces r); try discriminate; intros [= <- <-]; split; [done| |done|]; by right.
Qed.


Lemma scan_int64_fields cells zs :
  scan_int64 cells = inr zs -> Forall (fun s => is_na s = true \/ exists z, str_to_int64 s = inr z) cells.
Proof.
  revert zs. induction cells as [|s cs IH]; intros zs; simpl; [constructor|].
  destruct (is_na s) eqn:Hna.
  - destruct (scan_int64 cs) eqn:E; [discriminate|]. intros _. constructor; [by left|eauto].
  - destruct (str_to_int64 s) eqn:Hs; [discriminate|]. destruct (scan_int64 cs) eqn:E; [discriminate|].
    intros _. constructor; [eauto|eauto].
Qed.

(** Once [seen_sint] is set it stays set, and without it every field the
    [uint64] pass read is NA or an integer literal. *)
Lemma scan_uint64_fields st cells st' vs :
  scan_uint64 st cells = inr (st', vs) ->
  (seen_sint st = true -> seen_sint st' = true) /\
  (seen_sint st' = false -> Forall (fun s => is_na s = true \/ exists v, parse_int s = Some v) cells).
Proof.
  revert st vs. induction cells as [|s cs IH]; intros st vs; simpl.
  - intros [= -> _]. split; [done|constructor].
  - destruct (is_na s) eqn:Hna.
    + destruct (scan_uint64 _ cs) as [e|[st1 vs1]] eqn:E; [discriminate|]. intros [= -> _].
      destruct (IH _ _ E) as [Hm Hf]. split; [exact Hm|]. intros H. constructor; [by left|auto].
    + destruct (str_to_uint64 st s) as [e|[st1 v]] eqn:Hs; [discriminate|].
      destruct (scan_uint64 st1 cs) as [e|[st2 vs2]] eqn:E; [discriminate|]. intros [= -> _].
      destruct (IH _ _ E) as [Hm Hf]. destruct (str_to_uint64_sint _ _ _ _ Hs) as [Hk [H1|H1]].
      * split; [auto|]. intros H2. by rewrite (Hm H1) in H2.
      * split; [auto|]. intros H2. constructor; [eauto|auto].
Qed.

(** On a column of integer literals: the [int64] pass. *)
Lemma scan_int64_literals cells zs :
  Forall2 (fun s z => parse_int s = Some z) cells zs ->
  scan_int64 cells = if forallb int64_range zs then inr (map Some zs) else inl ConvOverflow.
Proof.
  induction 1 as [|s z cs zs Hs _ IH]; [done|]. simpl.
  rewrite (parse_int_not_na _ _ Hs), (str_to_int64_literal _ _ Hs).
  destruct (int64_range z); simpl; [|done]. rewrite IH. by destruct (forallb _ _).
Qed.

(** The [uint64] pass on integer literals never finds an invalid field;
    it sets [seen_sint] exactly when a field has a minus sign, and keeps
    [seen_null]. *)
Lemma scan_uint64_literals st cells zs :
  Forall2 (fun s z => parse_int s = Some z) cells zs ->
  scan_uint64 st cells <> inl ConvInvalid /\
  (forall st' vs, scan_uint64 st cells = inr (st', vs) ->
     seen_sint st' = seen_sint st || existsb minus_sign cells /\ seen_null st' = seen_null st /\
     (existsb minus_sign cells = false -> forallb uint64_range zs = true /\ vs = zs)).
Proof.
  intros H. revert st. induction H as [|s z cs zs Hs _ IH]; intros st; simpl.
  { split; [discriminate|]. intros st' vs [= <- <-]. by rewrite orb_false_r. }
  rewrite (parse_int_not_na _ _ Hs), (str_to_uint64_literal st _ _ Hs).
  destruct (minus_sign s) eqn:Hm; [|destruct (uint64_range z) eqn:Hu]; simpl.
  - destruct (IH (mkUintState true (seen_uint st) (seen_null st))) as [IHi IHr].
    destruct (scan_uint64 _ cs) as [e|[st2 vs2]] eqn:E; [done|]. split; [discriminate|].
    intros st' vs [= <- <-]. destruct (IHr _ _ eq_refl) as (H1 & H2 & _). simpl in *.
    rewrite orb_true_r. split_and!; [done|done|discriminate].
  - destruct (IH (mkUintState (seen_sint st) (seen_uint st || Z.ltb (2 ^ 63 - 1) z) (seen_null st)))
      as [IHi IHr].
    destruct (scan_uint64 _ cs) as [e|[st2 vs2]] eqn:E; [done|]. split; [discriminate|].
    intros st' vs [= <- <-]. destruct (IHr _ _ eq_refl) as (H1 & H2 & H3). simpl in *.
    split_and!; [done|done|]. intros Hn. destruct (H3 Hn) as [-> ->]. done.
  - split; [discriminate|done].
Qed.

(** An integer literal has no decimal point and no exponent, so
    [_column_has_float] never sees a float in it. *)
Lemma word_has_float_true b w :
  word_has_float b w = Some true -> Exists (fun c => c = "."%char \/ c = "e"%char \/ c = "E"%char) w.
Proof.
  revert b. induction w as [|c w IH]; intros b; simpl; [discriminate|].
  destruct (Ascii.eqb c "."%char) eqn:E1; [intros _; left; left; by apply Ascii.eqb_eq|].
  repeat match goal with |- context [if ?x then _ else _] => destruct x eqn:? end;
    try discriminate; try (intros H; right; by eapply IH).
  intros _. left. right. rewrite orb_true_iff, !Ascii.eqb_eq in *. tauto.
Qed.

Lemma drop_spaces_split l : exists p, l = p ++ drop_spaces l /\ Forall (fun c => is_space c = true) p.
Proof.
  induction l as [|c l [p [Hp Hs]]]; [by exists []|]. simpl.
  destruct (is_space c) eqn:E; [exists (c :: p); simpl; rewrite <- Hp; auto|by exists []].
Qed.

Lemma span_digits_split l ds r : span_digits l = (ds, r) -> l = ds ++ r /\ Forall (fun c => is_digit c = true) ds.
Proof.
  revert ds r. induction l as [|c l IH]; intros ds r; simpl; [intros [= <- <-]; auto|].
  destruct (is_digit c) eqn:E; [|intros [= <- <-]; auto].
  destruct (span_digits l) as [ds' r'] eqn:Es. intros [= <- <-].
  destruct (IH _ _ eq_refl) as [-> Hd]. auto.
Qed.

Lemma take_sign_split l neg l' : take_sign l = (neg, l') -> l = l' \/ l = "-"%char :: l' \/ l = "+"%char :: l'.
Proof.
  unfold take_sign. destruct l as [|c l]; [intros [= _ <-]; auto|].
  destruct (Ascii.eqb c "-"%char) eqn:E1; [apply Ascii.eqb_eq in E1; subst; intros [= _ <-]; auto|].
  destruct (Ascii.eqb c "+"%char) eqn:E2; [apply Ascii.eqb_eq in E2; subst; intros [= _ <-]; auto|].
  intros [= _ <-]. auto.
Qed.

Lemma literal_chars s z :
  parse_int s = Some z ->
  Forall (fun c => is_space c = true \/ c = "-"%char \/ c = "+"%char \/ is_digit c = true)
         (String.list_ascii_of_string s).
Proof.
  unfold parse_int, int_parts. destruct (drop_spaces_split (String.list_ascii_of_string s)) as (p & Hp & Hsp).
  destruct (take_sign (drop_spaces _)) as [neg l] eqn:Et. destruct (span_digits l) as [ds r] eqn:Ed.
  destruct ds as [|a ds]; [discriminate|]. destruct (drop_spaces_split r) as (q & Hq & Hsq).
  destruct (drop_spaces r) eqn:Er; [|discriminate]. intros _. rewrite app_nil_r in Hq. subst r.
  apply span_digits_split in Ed as [-> Hd]. rewrite Hp.
  apply Forall_app; split; [eapply Forall_impl; [exact Hsp|]; auto|].
  assert (Hl : Forall (fun c => is_space c = true \/ c = "-"%char \/ c = "+"%char \/ is_digit c = true)
                     ((a :: ds) ++ q)).
  { apply Forall_app; split; [eapply Forall_impl; [exact Hd|]|eapply Forall_impl; [exact Hsq|]]; auto. }
  apply take_sign_split in Et as [->|[->| ->]]; [exact Hl|constructor; auto..].
Qed.

Lemma column_has_float_literals cells zs :
  Forall2 (fun s z => parse_int s = Some z) cells zs -> column_has_float cells = false.
Proof.
  induction 1 as [|s z cs zs Hs _ IH]; [done|]. simpl. rewrite (parse_int_not_na _ _ Hs).
  destruct (word_has_float false _) as [[]|] eqn:Ew; [|done|done]. exfalso.
  apply word_has_float_true in Ew. apply literal_chars in Hs.
  rewrite Exists_exists in Ew. destruct Ew as (c & Hin & Hc). rewrite Forall_forall in Hs.
  destruct (Hs c Hin) as [Hk|[Hk|[Hk|Hk]]]; destruct Hc as [->|[->| ->]]; revert Hk; vm_compute; discriminate.
Qed.

(** Without a minus sign and within [uint64], the [uint64] pass reads
    every field. *)
Lemma scan_uint64_ok st cells zs :
  Forall2 (fun s z => parse_int s = Some z) cells zs ->
  existsb minus_sign cells = false -> forallb uint64_range zs = true ->
  exists st', scan_uint64 st cells = inr (st', zs).
Proof.
  intros H. revert st. induction H as [|s z cs zs Hs _ IH]; intros st; simpl; [eauto|].
  rewrite (parse_int_not_na _ _ Hs), (str_to_uint64_literal st _ _ Hs).
  intros [-> Hm]%orb_false_iff [-> Hr]%andb_true_iff.
  simpl. edestruct IH as [st' ->]; [exact Hm|exact Hr|]. eauto.
Qed.

Lemma mapM_id_Some (zs : list Z) : mapM id (map Some zs) = Some zs.
Proof. induction zs as [|z zs IH]; [done|]. simpl. by rewrite IH. Qed.

(** With distinct names, the [counts] dict holds only the names already
    taken, so each column keeps its name. *)
Lemma dedup_fold_distinct hdr m :
  NoDup hdr -> forall k counts, k + m = length hdr ->
  (forall x, x ∉ take k hdr -> counts !! x = None) ->
  (foldl dedup_step (hdr, counts) (seq k m)).1 = hdr.
Proof.
  intros Hnd. induction m as [|m IH]; intros k counts Hk Hc; [done|].
  destruct (lookup_lt_is_Some_2 hdr k) as [col Hcol]; [lia|].
  assert (Hnew : col ∉ take k hdr).
  { intros (j & Hj)%list_elem_of_lookup. apply lookup_take_Some in Hj as [Hj Hjk].
    pose proof (NoDup_lookup _ _ _ _ Hnd Hj Hcol). lia. }
  cbn [seq foldl]. unfold dedup_step. rewrite Hcol, (Hc col Hnew). cbn [default mangle_loop].
  rewrite list_insert_id by done. apply IH; [lia|].
  intros x Hx. rewrite (take_S_r _ _ _ Hcol) in Hx. rewrite lookup_insert_ne by set_solver. apply Hc. set_solver.
Qed.

(** A header of distinct non-empty names is kept as it is. *)
Lemma header_names_distinct hdr : NoDup hdr -> "" ∉ hdr -> header_names hdr = hdr.
Proof.
  intros Hnd He. assert (Hne : forall i, hdr !! i <> Some "").
  { intros i Hi. apply He. by eapply list_elem_of_lookup_2. }
  unfold header_names.
  replace (imap _ hdr) with hdr.
  2: { symmetry. apply list_eq. intros i. rewrite list_lookup_imap.
       destruct (hdr !! i) eqn:E; simpl; [|done]. rewrite bool_decide_false; [done|].
       intros ->. by apply (Hne i). }
  rewrite (List_filter_all _ (seq 0 (length hdr))), (List_filter_nil _ (seq 0 (length hdr))), app_nil_r.
  - apply (dedup_fold_distinct hdr (length hdr) Hnd 0); [lia|]. intros x _. apply lookup_empty.
  - intros i _. by apply bool_decide_eq_false.
  - intros i _. by rewrite bool_decide_false.
Qed.

Lemma check_rows_uniform n rows : Forall (fun r => length r = n) rows -> check_rows n rows = inr rows.
Proof.
  induction 1 as [|r rs Hr _ IH]; [done|]. simpl. rewrite IH, Hr, Nat.ltb_irrefl.
  unfold pad. by rewrite Hr, Nat.sub_diag, app_nil_r.
Qed.

(** Lines of the header's width are kept as they are, without an index. *)
Lemma shape_rows_uniform n rows :
  Forall (fun r => length r = n) rows -> shape_rows n rows = inr (n, rows).
Proof.
  destruct rows as [|r rs]; [done|]. intros [Hr Hrs]%Forall_cons. simpl.
  rewrite Hr, Nat.max_id, check_rows_uniform by done. unfold pad. by rewrite Hr, Nat.sub_diag, app_nil_r.
Qed.

(** ** Properties *)

(** C33: A field that is neither an integer literal, nor a number, nor
    NA, nor a boolean literal makes the whole column [object], whatever
    the other fields hold: every pass that could type the column needs
    that field to convert.  A blank field [" "] is such a field, so one
    blank cell turns a numeric column into [object]. *)
Theorem infer_column_object cells :
  Exists (fun s => parse_int s = None /\ cell_float s = None /\ cell_bool s = None) cells ->
  exists ss, infer_column cells = ObjCol ss.
Proof.
  intros Hex. destruct cells as [|c cs]; [inversion Hex|].
  assert (Hna : Exists (fun s => parse_int s = None /\ is_na s = false) (c :: cs)).
  { eapply Exists_impl; [exact Hex|]. intros s (Hi & Hf & _). split; [done|].
    unfold cell_float in Hf. by destruct (is_na s). }
  assert (Hf : mapM cell_float (c :: cs) = None).
  { apply mapM_None. eapply Exists_impl; [exact Hex|]. naive_solver. }
  assert (Hb : mapM cell_bool (c :: cs) = None).
  { apply mapM_None. eapply Exists_impl; [exact Hex|]. naive_solver. }
  unfold infer_column. rewrite Hf, Hb.
  destruct (column_has_float _); [eauto|].
  destruct (scan_int64 (c :: cs)) as [[]|zs] eqn:Hi; [eauto| |].
  - destruct (scan_uint64 uint_init (c :: cs)) as [[]|[st vs]] eqn:Hu; [eauto|eauto|].
    destruct (seen_uint st && _); [eauto|]. destruct (seen_sint st) eqn:Hs; [eauto|].
    exfalso. apply scan_uint64_fields in Hu as [_ Hall]. specialize (Hall Hs).
    rewrite Exists_exists in Hna. destruct Hna as (s & Hin & Hp & Hn). rewrite Forall_forall in Hall.
    destruct (Hall s Hin) as [H|[v Hv]]; congruence.
  - exfalso. apply scan_int64_fields in Hi.
    rewrite Exists_exists in Hna. destruct Hna as (s & Hin & Hp & Hn). rewrite Forall_forall in Hi.
    destruct (Hi s Hin) as [H|[z Hz%str_to_int64_parse]]; congruence.
Qed.

Lemma infer_column_object_witness :
  Exists (fun s => parse_int s = None /\ cell_float s = None /\ cell_bool s = None) ["29.85"; " "] /\
  infer_column ["29.85"; " "] = ObjCol [Some "29.85"; Some " "].
Proof.
  assert (H : Exists (fun s => parse_int s = None /\ cell_float s = None /\ cell_bool s = None) ["29.85"; " "])
    by (right; left; vm_compute; auto).
  split; [exact H|]. destruct (infer_column_object _ H) as [ss Hss]. rewrite Hss.
  revert Hss. vm_compute. congruence.
Defined.

(** C34: The dtype of a column of integer literals, as pandas' C parser
    gives it: [int64] when every value fits in 64 signed bits;
    otherwise [uint64] when every value fits in 64 unsigned bits and no
    field has a minus sign; otherwise [object], the strings as read (an
    [OverflowError] or a [ValueError] of [_try_uint64]). *)
Theorem infer_column_ints cells zs :
  cells <> [] -> Forall2 (fun s z => parse_int s = Some z) cells zs ->
  infer_column cells =
    if forallb int64_range zs then IntCol zs
    else if forallb uint64_range zs && negb (existsb minus_sign cells) then IntCol zs
    else ObjCol (map Some cells).
Proof.
  intros Hne H. destruct cells as [|c cs]; [done|]. unfold infer_column.
  rewrite (column_has_float_literals _ _ H), (scan_int64_literals _ _ H).
  destruct (forallb int64_range zs); [by rewrite mapM_id_Some|].
  assert (Hobj : map cell_obj (c :: cs) = map Some (c :: cs)).
  { clear Hne. induction H as [|s z cs' zs' Hs _ IH]; [done|]. simpl.
    unfold cell_obj at 1. rewrite (parse_int_not_na _ _ Hs). by f_equal. }
  rewrite Hobj. destruct (scan_uint64_literals uint_init _ _ H) as [Hinv Hres].
  destruct (scan_uint64 uint_init (c :: cs)) as [[]|[st vs]] eqn:Hu; [done| |].
  - destruct (existsb minus_sign (c :: cs)) eqn:Hm; [by rewrite andb_false_r|].
    destruct (forallb uint64_range zs) eqn:Hr; [|done]. exfalso.
    destruct (scan_uint64_ok uint_init _ _ H Hm Hr) as [st' Hst]. congruence.
  - destruct (Hres _ _ eq_refl) as (Hs & Hn & Hz). cbn [seen_sint seen_null uint_init orb] in Hs, Hn.
    rewrite Hs, Hn, orb_false_r.
    destruct (existsb minus_sign (c :: cs)) eqn:Hm; cbn [negb].
    + rewrite andb_false_r, andb_true_r. by destruct (seen_uint st).
    + destruct (Hz eq_refl) as [-> ->]. rewrite !andb_false_r, andb_true_r. done.
Qed.

Lemma infer_column_ints_witness :
  ["-1"; "9223372036854775808"] <> [] /\
  Forall2 (fun s z => parse_int s = Some z) ["-1"; "9223372036854775808"] [(-1)%Z; 9223372036854775808%Z] /\
  infer_column ["-1"; "9223372036854775808"] = ObjCol [Some "-1"; Some "9223372036854775808"].
Proof.
  assert (H1 : ["-1"; "9223372036854775808"] <> []) by discriminate.
  assert (H2 : Forall2 (fun s z => parse_int s = Some z) ["-1"; "9223372036854775808"]
                       [(-1)%Z; 9223372036854775808%Z])
    by (repeat constructor; vm_compute; reflexivity).
  split_and!; [exact H1|exact H2|]. rewrite (infer_column_ints _ _ H1 H2). vm_compute. reflexivity.
Defined.



(** C32: Writing a table with [render_csv] and reading it back with
    [pd.read_csv] gives its columns under their names, in order, each
    typed by [infer_column] from its fields: a header of distinct
    non-empty names survives the renaming, no index column appears, and
    quoting keeps commas, quotes and line breaks inside fields. *)
Theorem read_csv_render hdr rows :
  hdr <> [] -> NoDup hdr -> "" ∉ hdr -> Forall (fun r => length r = length hdr) rows ->
  read_csv (render_csv (hdr :: rows)) =
    inr (zip hdr (map (fun j => infer_column (map (fun r => nth j r "") rows)) (seq 0 (length hdr)))).
Proof.
  intros Hh Hnd He Hrows. unfold read_csv.
  rewrite tokenize_render_rows.
  2: { constructor; [done|]. eapply Forall_impl; [exact Hrows|]. intros r Hr ->. by destruct hdr. }
  rewrite shape_rows_uniform, Nat.sub_diag, header_names_distinct by done. reflexivity.
Qed.

Lemma read_csv_render_witness :
  ["id"; "note"] <> [] /\ NoDup ["id"; "note"] /\ "" ∉ ["id"; "note"] /\
  Forall (fun r => length r = length ["id"; "note"]) [["7590"; "a, b"]; ["x"; String quote "q"]] /\
  read_csv (render_csv [["id"; "note"]; ["7590"; "a, b"]; ["x"; String quote "q"]]) =
    inr [("id", ObjCol [Some "7590"; Some "x"]); ("note", ObjCol [Some "a, b"; Some (String quote "q")])].
Proof.
  assert (H1 : ["id"; "note"] <> []) by discriminate.
  assert (H2 : NoDup ["id"; "note"]) by (apply (bool_decide_unpack _); vm_compute; reflexivity).
  assert (H3 : "" ∉ ["id"; "note"]) by (apply (bool_decide_unpack _); vm_compute; reflexivity).
  assert (H4 : Forall (fun r => length r = length ["id"; "note"]) [["7590"; "a, b"]; ["x"; String quote "q"]])
    by (repeat constructor).
  split_and!; [exact H1|exact H2|exact H3|exact H4|].
  rewrite (read_csv_render _ _ H1 H2 H3 H4). reflexivity.
Defined.

(** The first data line may carry an index: with one field more than
    the header, its first field is the index and the columns shift. *)
Example read_csv_implicit_index :
  read_csv ("a,b" +:+ String lf ("0,1,2" +:+ String lf ("1,3,x" +:+ String lf EmptyString))) =
    inr [("a", IntCol [1%Z; 3%Z]); ("b", ObjCol [Some "2"; Some "x"])].
Proof. vm_compute. reflexivity. Qed.

(** A line wider than the first data line is a [ParserError]. *)
Example read_csv_too_many_fields :
  read_csv ("a,b" +:+ String lf ("0,1" +:+ String lf ("1,2,3" +:+ String lf EmptyString))) =
    inl (TooManyFields 2 3).
Proof. vm_compute. reflexivity. Qed.

(** C37: A file of blank lines and lines of spaces and tabs only has no
    header: [pd.read_csv] raises [EmptyDataError] ("No columns to parse
    from file"), which the loader reports as a failed read. *)
Theorem read_csv_blank_lines (lines : list (list ascii)) :
  Forall (Forall (fun c => is_ws c = true)) lines ->
  read_csv (String.string_of_list_ascii (mjoin (map (fun l => l ++ [lf]) lines))) = inl EmptyData.
Proof.
  intros Hl. unfold read_csv, tokenize. rewrite String.list_ascii_of_string_of_list_ascii.
  unfold tok_init. by rewrite skip_blank_lines.
Qed.

Lemma read_csv_blank_lines_witness :
  Forall (Forall (fun c => is_ws c = true)) [[]; [" "; tab]; [" "]]%char /\
  read_csv (String.string_of_list_ascii (mjoin (map (fun l => l ++ [lf]) [[]; [" "; tab]; [" "]]%char))) =
    inl EmptyData.
Proof.
  assert (H : Forall (Forall (fun c => is_ws c = true)) [[]; [" "; tab]; [" "]]%char)
    by (repeat constructor).
  split; [exact H|exact (read_csv_blank_lines _ H)].
Defined.
