(* ===== verification/Binary64.v ===== *)
(** * The percentages and the churn rate in binary64

    The rest of the development computes a [pyfloat] as an exact rational,
    the value the spec asks for.  The script computes with doubles: the
    percentage cells of lines 34 and 57-91 and 127 are
    [(churned / total * 100).round(2)] on float64 Series, and the "Churn
    Rate" metric of line 25 is [df['ChurnBinary'].mean() * 100] printed
    with [:.2f].  This file models those operations with the binary64
    operations of Stdlib's [SpecFloat] (IEEE 754 with 53 bits of
    precision, exponents up to 1024, rounding to nearest, ties to even):
    - [b64_of_Z] is numpy's conversion of an int64 count to float64;
    - [b64_div] and [b64_mul] are [/] and [*] on float64;
    - [b64_rint] and [b64_round] are numpy's [rint] and [around]
      ([rint(x * 10^d) / 10^d], the multiplication and the division in
      float64);
    - [b64_rate] is [churned / total * 100], [percent_cell] one cell of a
      percentage column, [heat_cell] one cell of the heatmap (the same
      quotient with [.round(1)]) and [b64_churn_rate] the metric.

    [b64_of_Z_exact] shows counts convert exactly below [2^53], so the
    counts of the exact model are the code's.  [group_percent_b64] shows
    that for a group of at most 100 rows the double the code shows is the
    exact cell's [round_dec 2] value read as a double,
    [heatmap_cell_b64] the same for a heatmap cell of at most 79 rows
    with [round_dec 1], and [metric_churn_rate_b64_exact] that the metric
    string is the exact one for at most 100 rows with a [Churn] value;
    [churn_rate_metric_spec] gives that string from the raw [Churn]
    values.
    The bounds are the ranges of exhaustive checks ([pair_ok_100] over
    5050 pairs (churned, total), [heat_ok_79] over 3240), each decided by
    [vm_compute].  [rounding_diverges] shows the heatmap bound is the
    largest one and where the tables part: 23 churned rows of 80 are 28.75%, which the spec's rounding
    makes 28.8 while the heatmap shows 28.7, and 23 of 160 are 14.375%,
    which becomes 14.38 while the tables and the metric show 14.37. *)

From S2P Require Import Prelude PyString Frame Numeric ValueCounts Series Cut Tables Pivot Describe Format.
From stdpp Require Import strings.
From Stdlib Require Import Floats.SpecFloat Qabs.
Local Open Scope nat_scope.

(** ** Doubles *)

Definition prec : Z := 53.
Definition emax : Z := 1024.

(** A float64 value: [S754_zero], [S754_infinity], [S754_nan] or
    [S754_finite sign mantissa exponent]. *)
Definition binary64 : Type := spec_float.

#[export] Instance binary64_eq_dec : EqDecision binary64.
Proof. unfold binary64. solve_decision. Defined.

(** [np.float64(n)] for an int64 [n]. *)
Definition b64_of_Z (z : Z) : binary64 := binary_normalize prec emax z 0 false.

Definition b64_mul : binary64 -> binary64 -> binary64 := SFmul prec emax.
Definition b64_div : binary64 -> binary64 -> binary64 := SFdiv prec emax.

(** The number a double denotes: [(-1)^s * m * 2^e]; both zeros are 0. *)
Definition b64_value (x : binary64) : pyfloat :=
  match x with
  | S754_zero _ => Fin 0
  | S754_infinity s => Inf s
  | S754_nan => NaN
  | S754_finite s m e =>
      let q := match e with
               | Zpos p => inject_Z (Zpos m * 2 ^ Zpos p)
               | Z0 => inject_Z (Zpos m)
               | Zneg p => Qmake (Zpos m) (2 ^ p)%positive
               end in Fin (if s then (- q)%Q else q)
  end.

(** Two [pyfloat]s denoting the same number. *)
Definition feq (x y : pyfloat) : Prop :=
  match x, y with
  | Fin q, Fin q' => (q == q')%Q
  | NaN, NaN => True
  | Inf s, Inf s' => s = s'
  | _, _ => False
  end.

(** [np.rint] on a double: the nearest integer, ties to even, as a
    double; an integer double of magnitude below [2^53] converts back
    exactly, and a double at or above [2^52] is already an integer.  A
    result 0 keeps the sign of its argument; NaN and the infinities are
    returned unchanged. *)
Definition b64_rint (x : binary64) : binary64 :=
  match x, b64_value x with
  | S754_finite s _ _, Fin q => let k := rint q in if Z.eqb k 0 then S754_zero s else b64_of_Z k
  | _, _ => x
  end.

(** [np.around(x, d)] for [d >= 0]: [rint(x * 10^d) / 10^d] in float64. *)
Definition b64_round (d : nat) (x : binary64) : binary64 :=
  let f := b64_of_Z (Zpos (pow10 d)) in b64_div (b64_rint (b64_mul x f)) f.

(** The double of a decimal [k / 10^d] as numpy's [around] ends: [k] and
    [10^d] divided in float64. *)
Definition b64_of_dec (q : Q) : binary64 := b64_div (b64_of_Z (Qnum q)) (b64_of_Z (Zpos (Qden q))).

(** ** The percentage cells and the churn rate *)

(** [s / n * 100] on int64 operands: both are converted, divided, then
    multiplied by 100. *)
Definition b64_rate (s n : Z) : binary64 :=
  b64_mul (b64_div (b64_of_Z s) (b64_of_Z n)) (b64_of_Z 100).

(** One cell of a percentage column (lines 34, 57-91, 127) for a group of
    [t] rows of which [c > 0] churned: [(churned / total * 100).round(2)]. *)
Definition percent_cell (c t : nat) : binary64 :=
  b64_round 2 (b64_rate (Z.of_nat c) (Z.of_nat t)).

(** One cell of the heatmap (lines 158-160) with [n] rows of which [c]
    churned: [(x == 'Yes').mean()] is [c / n] in float64, then [* 100]
    and [.round(1)]. *)
Definition heat_cell (c n : nat) : binary64 :=
  b64_round 1 (b64_rate (Z.of_nat c) (Z.of_nat n)).

(** Line 25: [df['ChurnBinary'].mean() * 100].  pandas' mean sums the
    values that are not NaN and divides by their number; the values are
    0 and 1, whose float64 sums below [2^53] are exact, so the sum is the
    integer sum converted once.  No value gives NaN. *)
Definition b64_churn_rate (df : list row) : binary64 :=
  let vs := omap ChurnBinary df in
  match vs with
  | [] => S754_nan
  | _ => b64_rate (foldr Z.add 0%Z vs) (Z.of_nat (length vs))
  end.

(** Line 25 as shown: [f"{churn_rate:.2f}%"] on the double. *)
Definition metric_churn_rate_b64 (df : list row) : string :=
  format_fixed 2 (b64_value (b64_churn_rate df)) +:+ "%".

(** ** Counts convert exactly *)

Section exact_counts.
Local Open Scope Z_scope.

Lemma digits2_pos_iter_xO (m k : positive) :
  digits2_pos (Pos.iter xO m k) = (digits2_pos m + k)%positive.
Proof.
  induction k using Pos.peano_ind; [simpl; lia|].
  rewrite Pos.iter_succ. cbn [digits2_pos]. rewrite IHk. lia.
Qed.

Lemma Pos_iter_xO (m k : positive) : Zpos (Pos.iter xO m k) = Zpos m * 2 ^ Zpos k.
Proof.
  induction k using Pos.peano_ind; [simpl; lia|].
  rewrite Pos.iter_succ, Pos2Z.inj_xO, IHk, Pos2Z.inj_succ, Z.pow_succ_r by lia. lia.
Qed.

(** A mantissa of [d] binary digits is at least [2^(d-1)]. *)
Lemma digits2_pos_lower (m : positive) : 2 ^ (Zpos (digits2_pos m) - 1) <= Zpos m.
Proof.
  induction m as [p IH|p IH|]; cbn [digits2_pos]; [| |simpl; lia];
    rewrite Pos2Z.inj_succ;
    replace (Z.succ (Zpos (digits2_pos p)) - 1) with (Zpos (digits2_pos p) - 1 + 1) by lia;
    rewrite Z.pow_add_r by lia; lia.
Qed.

Lemma digits2_pos_prec (m : positive) : Zpos m < 2 ^ prec -> Zpos (digits2_pos m) <= prec.
Proof.
  intros Hm. pose proof (digits2_pos_lower m) as Hl.
  destruct (Z.le_gt_cases (Zpos (digits2_pos m)) prec) as [|Hgt]; [done|].
  assert (2 ^ prec <= 2 ^ (Zpos (digits2_pos m) - 1)) by (apply Z.pow_le_mono_r; unfold prec in *; lia).
  lia.
Qed.

(** Rounding a mantissa of exactly [prec] digits at a normal exponent
    loses nothing. *)
Lemma binary_round_aux_exact (s : bool) (m : positive) (e : Z) :
  Zpos (digits2_pos m) = prec -> emin prec emax <= e <= emax - prec ->
  binary_round_aux prec emax s (Zpos m) e loc_Exact = S754_finite s m e.
Proof.
  intros Hd He. unfold binary_round_aux, shr_fexp, Zdigits2. rewrite Hd.
  unfold fexp. rewrite Z.max_l by (unfold emin in *; lia).
  replace (prec + e - prec - e) with 0 by lia.
  cbn [shr shr_record_of_loc shr_m loc_of_shr_record round_nearest_even].
  unfold Zdigits2. rewrite Hd, Z.max_l by (unfold emin in *; lia).
  replace (prec + e - prec - e) with 0 by lia. cbn.
  by rewrite (proj2 (Z.leb_le _ _)) by lia.
Qed.

(** [binary_round] shifts a short mantissa left to [prec] digits. *)
Lemma binary_round_small (s : bool) (m : positive) : Zpos m < 2 ^ prec ->
  feq (b64_value (binary_round prec emax s m 0))
      (Fin (if s then (- inject_Z (Zpos m))%Q else inject_Z (Zpos m))).
Proof.
  intros Hm. pose proof (digits2_pos_prec m Hm) as Hd.
  unfold binary_round, shl_align. rewrite Z.add_0_r.
  unfold fexp at 1 2. rewrite Z.max_l by (unfold emin, prec, emax; lia). rewrite Z.sub_0_r.
  destruct (Zpos (digits2_pos m) - prec) as [|k|k] eqn:Hk; [| lia |].
  - rewrite binary_round_aux_exact by (unfold emin, prec, emax in *; lia). by destruct s.
  - rewrite binary_round_aux_exact.
    2: rewrite digits2_pos_iter_xO; lia.
    2: unfold emin, prec, emax in *; lia.
    destruct s; cbn [b64_value feq]; unfold Qeq; cbn [Qnum Qden inject_Z Qopp];
      rewrite Pos_iter_xO, Pos2Z.inj_pow; lia.
Qed.

End exact_counts.

(** Every integer of magnitude below [2^53] converts to a double
    denoting it: the counts of a frame are exact as float64. *)
Theorem b64_of_Z_exact (z : Z) : (Z.abs z < 2 ^ prec)%Z -> feq (b64_value (b64_of_Z z)) (Fin (inject_Z z)).
Proof.
  intros Hz. destruct z as [|m|m]; [done| |]; unfold b64_of_Z, binary_normalize;
    apply binary_round_small; simpl in Hz; lia.
Qed.

(** ** Agreement for groups of at most 100 rows *)

(** What one pair (churned [c], total [t]) needs: the product
    [c / t * 100] is a nonnegative double, and the integers [:.2f] and
    [.round(2)] take from it are the exact value's. *)
Definition pair_ok (c t : nat) : bool :=
  let y := b64_rate (Z.of_nat c) (Z.of_nat t) in
  let k := rint (inject_Z (Z.of_nat c) / inject_Z (Z.of_nat t) * 100 * inject_Z (Zpos (pow10 2))) in
  match b64_value y with
  | Fin qy => Qle_bool 0 qy && Z.eqb (rint (qy * inject_Z (Zpos (pow10 2)))) k &&
              bool_decide (b64_rint (b64_mul y (b64_of_Z (Zpos (pow10 2)))) = b64_of_Z k)
  | _ => false
  end.

(** A property checked for every pair [c <= t] with [0 < t <= N] holds
    on that range. *)
Lemma upto_pairs (P : nat -> nat -> Prop) (N : nat) :
  Forall (fun t => Forall (fun c => P c t) (seq 0 (S t))) (seq 1 N) ->
  forall c t, c <= t -> 0 < t <= N -> P c t.
Proof.
  intros Hall c t Hc Ht. rewrite Forall_forall in Hall.
  assert (t ∈ seq 1 N) as Hin by (apply elem_of_seq; lia). specialize (Hall t Hin).
  rewrite Forall_forall in Hall. apply Hall, elem_of_seq. lia.
Qed.

Lemma pair_ok_100 : Forall (fun t => Forall (fun c => pair_ok c t = true) (seq 0 (S t))) (seq 1 100).
Proof. apply (bool_decide_unpack _). vm_compute. reflexivity. Qed.

Lemma pair_ok_le (c t : nat) : c <= t -> 0 < t <= 100 -> pair_ok c t = true.
Proof. apply (upto_pairs (fun c t => pair_ok c t = true)), pair_ok_100. Qed.

Lemma pair_ok_cell (c t : nat) : pair_ok c t = true ->
  percent_cell c t = b64_of_dec (round_dec 2 (inject_Z (Z.of_nat c) / inject_Z (Z.of_nat t) * 100)).
Proof.
  unfold pair_ok, percent_cell, b64_round. destruct (b64_value _); try discriminate.
  rewrite !andb_true_iff. intros [_ Hk%bool_decide_eq_true_1]. rewrite Hk.
  unfold b64_of_dec, round_dec. reflexivity.
Qed.

(** [:.2f] of two nonnegative numbers is the same string when they round
    to the same hundredths. *)
Lemma format_fixed_nonneg (d : nat) (q q' : Q) : (0 <= q)%Q -> (0 <= q')%Q ->
  rint (q * inject_Z (Zpos (pow10 d))) = rint (q' * inject_Z (Zpos (pow10 d))) ->
  format_fixed d (Fin q) = format_fixed d (Fin q').
Proof.
  intros Hq Hq' Hr. unfold format_fixed. rewrite !Qabs_pos by done. rewrite Hr.
  assert (Qlt_bool q 0 = false /\ Qlt_bool q' 0 = false) as [-> ->] by (split; qbool; done).
  reflexivity.
Qed.

Lemma pair_ok_metric (c t : nat) (q : Q) : pair_ok c t = true ->
  (q == inject_Z (Z.of_nat c) / inject_Z (Z.of_nat t) * 100)%Q ->
  format_fixed 2 (b64_value (b64_rate (Z.of_nat c) (Z.of_nat t))) = format_fixed 2 (Fin q).
Proof.
  unfold pair_ok. destruct (b64_value _) as [qy| |]; try discriminate.
  rewrite !andb_true_iff. intros [[H0 Hk%Z.eqb_eq] _] Hq. qbool.
  apply format_fixed_nonneg; [done| |by rewrite Hk, Hq].
  rewrite Hq. apply Qmult_le_0_compat; [|discriminate].
  apply Qmult_le_0_compat; [|apply Qinv_le_0_compat]; apply Q_of_nat_nonneg.
Qed.

(** What one heatmap cell of [t] rows, [c] of them churned, needs: the
    integer [.round(1)] takes from [c / t * 100] is the exact value's. *)
Definition heat_ok (c t : nat) : bool :=
  let y := b64_rate (Z.of_nat c) (Z.of_nat t) in
  bool_decide (b64_rint (b64_mul y (b64_of_Z (Zpos (pow10 1)))) =
               b64_of_Z (rint (inject_Z (Z.of_nat c) / inject_Z (Z.of_nat t) * 100 * inject_Z (Zpos (pow10 1))))).

Lemma heat_ok_79 : Forall (fun t => Forall (fun c => heat_ok c t = true) (seq 0 (S t))) (seq 1 79).
Proof. apply (bool_decide_unpack _). vm_compute. reflexivity. Qed.

Lemma heat_ok_le (c t : nat) : c <= t -> 0 < t <= 79 -> heat_ok c t = true.
Proof. apply (upto_pairs (fun c t => heat_ok c t = true)), heat_ok_79. Qed.

Lemma heat_ok_cell (c t : nat) : heat_ok c t = true ->
  heat_cell c t = b64_of_dec (round_dec 1 (inject_Z (Z.of_nat c) / inject_Z (Z.of_nat t) * 100)).
Proof.
  unfold heat_ok, heat_cell, b64_round. intros Hk%bool_decide_eq_true_1. rewrite Hk.
  unfold b64_of_dec, round_dec. reflexivity.
Qed.

(** ** The tables and the metric *)

Section percent_cells.
Context `{IndexKey K}.
Variables (dim : customer -> option K) (df : list row).

(** C20: For a group of at most 100 rows with a churned row, the cell
    [group_percent] computes (lines 34, 57-91), read as a double, is the
    double the code computes: [(churned / total * 100).round(2)] in
    float64 rounds to the hundredth of the exact percentage. *)
Theorem group_percent_b64 (k : K) :
  k ∈ (group_total dim df).*1 ->
  count_of k (column dim (churned_rows df)) <> 0 -> count_of k (column dim df) <= 100 ->
  exists q, lookup_key k (group_percent dim df) = Some (Fin q) /\
    percent_cell (count_of k (column dim (churned_rows df))) (count_of k (column dim df)) = b64_of_dec q.
Proof.
  intros Hk Hc Ht. rewrite (group_percent_lookup dim df k Hk), decide_False by done.
  eexists. split; [reflexivity|]. pose proof (churned_le_total dim df k) as Hle. cbv beta in Hle.
  apply pair_ok_cell, pair_ok_le; lia.
Qed.

End percent_cells.

(** The [ChurnBinary] values of a loaded frame as int64: one per row
    whose [Churn] is "Yes" or "No", summing to the number of "Yes". *)
Lemma churn_counts (csv : list customer) :
  length (omap ChurnBinary (load_data csv)) =
    count_if (fun c => bool_decide (is_Some (churn_binary (Churn c)))) csv /\
  foldr Z.add 0%Z (omap ChurnBinary (load_data csv)) =
    Z.of_nat (count_if (fun c => is_yes (Churn c)) csv).
Proof.
  induction csv as [|c csv [IHl IHs]]; [split; reflexivity|].
  rewrite !count_if_cons. unfold load_data. cbn [map]. fold (load_data csv).
  change (omap ChurnBinary (load_row c :: load_data csv)) with
    (match churn_binary (Churn c) with
     | Some z => z :: omap ChurnBinary (load_data csv) | None => omap ChurnBinary (load_data csv) end).
  destruct (churn_binary_cases (Churn c)) as [[-> ->]|[[-> ->]|[-> ->]]];
    rewrite ?bool_decide_eq_true_2 by eauto; rewrite ?bool_decide_eq_false_2 by (by intros []);
    cbn [length foldr]; lia.
Qed.



(** The rows [churn_binary] maps are those whose [Churn] is "Yes" or
    "No"; [is_yes] counts the first ones. *)
Lemma churn_mapped_split (csv : list customer) :
  count_if (fun c => bool_decide (is_Some (churn_binary (Churn c)))) csv =
    count_if (fun c => bool_decide (Churn c = Some "Yes")) csv +
    count_if (fun c => bool_decide (Churn c = Some "No")) csv /\
  count_if (fun c => is_yes (Churn c)) csv = count_if (fun c => bool_decide (Churn c = Some "Yes")) csv.
Proof.
  induction csv as [|c csv [IH1 IH2]]; [done|]. rewrite !count_if_cons, IH1, IH2.
  unfold churn_binary, is_yes. destruct (Churn c) as [s|]; [|done].
  repeat case_bool_decide; simplify_eq; try lia; exfalso; naive_solver.
Qed.

(** C9: The "Churn Rate" metric of line 25, computed as the script does in
    float64 ([df['ChurnBinary'].mean() * 100] printed with [:.2f]), is
    "nan%" when no customer's [Churn] is "Yes" or "No", and otherwise the
    exact percentage [100 * #Yes / (#Yes + #No)] printed with two
    decimals: customers with another [Churn] value count in neither.  This
    holds for files with at most 100 customers whose [Churn] is "Yes" or
    "No", the range on which every such quotient has been checked. *)
Theorem churn_rate_metric_spec (csv : list customer) :
  let yes := count_if (fun c => bool_decide (Churn c = Some "Yes")) csv in
  let no := count_if (fun c => bool_decide (Churn c = Some "No")) csv in
  yes + no <= 100 ->
  metric_churn_rate_b64 (load_data csv) =
    (if decide (yes + no = 0) then "nan"
     else format_fixed 2 (Fin (inject_Z (Z.of_nat yes) / inject_Z (Z.of_nat (yes + no)) * 100))) +:+ "%".
Proof.
  cbv zeta. intros Hm. destruct (churn_mapped_split csv) as [Hmap Hyes].
  destruct (churn_counts csv) as [Hl Hs]. rewrite Hmap in Hl. rewrite Hyes in Hs.
  unfold metric_churn_rate_b64, b64_churn_rate. f_equal.
  destruct (omap ChurnBinary (load_data csv)) as [|v vs] eqn:E.
  - simpl in Hl. by rewrite decide_True by lia.
  - rewrite decide_False by (simpl in Hl; lia). cbv iota. rewrite Hs, Hl.
    apply pair_ok_metric; [apply pair_ok_le; simpl in Hl; lia|reflexivity].
Qed.

(** C22: When no contract label contains "Churn", a heatmap cell (lines
    157-166) over at most 79 rows, read as a double, is the double the
    code computes: [(x == 'Yes').mean() * 100] rounded with [.round(1)]
    in float64 is the exact percentage rounded half to even. *)
Theorem heatmap_cell_b64 df i cells k q :
  Forall (fun c => py_contains "Churn" c = false) (grid_columns df) ->
  (i, cells) ∈ churn_pct df -> cells !! k = Some (Fin q) ->
  exists j, grid_columns df !! k = Some j /\
    let g := cell_rows TotalChargeRange contract_key df i j in
    (length g <= 79 -> heat_cell (count_if (fun r => is_yes (Churn (raw r))) g) (length g) = b64_of_dec q).
Proof.
  intros Hplain Hi Hk. destruct (heatmap_cell_value df i cells k _ Hplain Hi Hk) as (j & Hj & Hv).
  exists j. split; [done|]. cbv zeta in *. intros Hl.
  destruct Hv as [[_ Hv]|[Hg [= ->]]]; [done|].
  apply heat_ok_cell, heat_ok_le; [apply count_if_le_length|].
  destruct (cell_rows _ _ df i j); simpl in *; [done|lia].
Qed.

(** ** Examples *)

(** A heatmap cell of 80 month-to-month customers with [TotalCharges]
    100, 23 of whom churned. *)
Definition heat_df_80 : list row :=
  heatmap_frame (load_data
    (repeat (heat_customer (Some "c") "Month-to-month" 100 "Yes") 23 ++
     repeat (heat_customer (Some "c") "Month-to-month" 100 "No") 57)).

(** 160 customers on a month-to-month contract, 23 of whom churned. *)
Definition csv_160 : list customer :=
  repeat (sample_customer "F" "Month-to-month" 70 "Yes") 23 ++
  repeat (sample_customer "F" "Month-to-month" 70 "No") 137.

(** The bounds cannot be raised to 80 rows for the heatmap or to 160
    for the tables: 23 churned rows of 80 are 28.75%, which the exact
    model rounds to 28.8 in a heatmap cell, while the code's double
    [23 / 80 * 100] is below 28.75 and the cell is the double of 28.7;
    23 churned rows of 160 are 14.375%, which the exact model rounds to
    14.38 in the contract table and the metric, while the page shows
    14.37 and "14.37%". *)
Example rounding_diverges :
  churn_pct heat_df_80 = [("0-500", [Fin (288 # 10)])] /\
  heat_cell 23 80 = b64_of_dec (287 # 10) /\
  lookup_key "Month-to-month" (group_percent Contract (load_data csv_160)) = Some (Fin (1438 # 100)) /\
  percent_cell 23 160 = b64_of_dec (1437 # 100) /\
  metric_churn_rate (load_data csv_160) = "14.38%" /\
  metric_churn_rate_b64 (load_data csv_160) = "14.37%".
Proof. split_and!; vm_compute; reflexivity. Qed.

(** Above [2^53] a count no longer converts exactly: [2^53 + 1] becomes
    [2^53]. *)
Example b64_of_Z_2_53 : b64_of_Z (2 ^ 53 + 1) = b64_of_Z (2 ^ 53).
Proof. vm_compute. reflexivity. Qed.

Lemma heatmap_cell_b64_witness :
  Forall (fun c => py_contains "Churn" c = false) (grid_columns heatmap_example_df) /\
  ("0-500", [NaN; Fin (500 # 10)]) ∈ churn_pct heatmap_example_df /\
  [NaN; Fin (500 # 10)] !! 1 = Some (Fin (500 # 10)) /\
  exists j, grid_columns heatmap_example_df !! 1 = Some j /\
    let g := cell_rows TotalChargeRange contract_key heatmap_example_df "0-500" j in
    (length g <= 79 -> heat_cell (count_if (fun r => is_yes (Churn (raw r))) g) (length g) = b64_of_dec (500 # 10)).
Proof.
  assert (Hi : ("0-500", [NaN; Fin (500 # 10)]) ∈ churn_pct heatmap_example_df)
    by (rewrite heatmap_example_churn_pct; left).
  split_and!; [exact heatmap_example_plain|exact Hi|reflexivity|].
  exact (heatmap_cell_b64 heatmap_example_df "0-500" [NaN; Fin (500 # 10)] 1 (500 # 10)
           heatmap_example_plain Hi eq_refl).
Defined.

Lemma group_percent_b64_witness :
  "One year" ∈ (group_total Contract unmapped_churn_df).*1 /\
  exists q, lookup_key "One year" (group_percent Contract unmapped_churn_df) = Some (Fin q) /\
    percent_cell (count_of "One year" (column Contract (churned_rows unmapped_churn_df)))
                 (count_of "One year" (column Contract unmapped_churn_df)) = b64_of_dec q.
Proof.
  assert (Hk : "One year" ∈ (group_total Contract unmapped_churn_df).*1)
    by (apply (bool_decide_unpack _); vm_compute; reflexivity).
  assert (Hc : count_of "One year" (column Contract (churned_rows unmapped_churn_df)) <> 0)
    by (vm_compute; lia).
  assert (Ht : count_of "One year" (column Contract unmapped_churn_df) <= 100) by (vm_compute; lia).
  split; [exact Hk|]. exact (group_percent_b64 Contract unmapped_churn_df "One year" Hk Hc Ht).
Defined.


(** Three churned customers, five retained and one with an unknown
    [Churn] value: the metric is 3 / 8, "37.50%". *)
Definition csv_unknown_churn : list customer :=
  repeat (sample_customer "F" "One year" 50 "Yes") 3 ++
  repeat (sample_customer "M" "One year" 50 "No") 5 ++ [sample_customer "F" "One year" 50 "Maybe"].

Lemma churn_rate_metric_spec_witness :
  count_if (fun c => bool_decide (Churn c = Some "Yes")) csv_unknown_churn +
  count_if (fun c => bool_decide (Churn c = Some "No")) csv_unknown_churn <= 100 /\
  metric_churn_rate_b64 (load_data csv_unknown_churn) = "37.50%".
Proof.
  assert (H : count_if (fun c => bool_decide (Churn c = Some "Yes")) csv_unknown_churn +
              count_if (fun c => bool_decide (Churn c = Some "No")) csv_unknown_churn <= 100)
    by (vm_compute; lia).
  split; [exact H|]. rewrite (churn_rate_metric_spec csv_unknown_churn H). vm_compute. reflexivity.
Defined.
