(* ===== verification/Charts.v ===== *)
(** * The data of the charts (lines 94-117, 134 and 144)

    The seaborn calls draw numbers that pandas computes.  This file
    models those numbers, not the drawing.
    - [sns.countplot(data=df, x=X, hue='Churn')] draws, for each level of
      [X] and each level of [Churn], a bar whose height is the number of
      rows with both values.  seaborn's [categorical_order] fixes the
      levels.  A categorical column gives its categories, all of them.  A
      numeric column gives its distinct values, sorted.  Any other column
      gives its distinct values in order of appearance.  Nulls are
      dropped.  A combination without rows has height 0.
    - [sns.boxplot(x='Churn', y='MonthlyCharges')] draws, per [Churn]
      level, matplotlib's [boxplot_stats] of the charges with
      [whis=1.5]: the quartiles (numpy's linear percentiles), the
      whiskers at the most extreme values within 1.5 IQR of the box, and
      the outliers beyond them.
    - [sns.regplot(x='MonthlyCharges', y='ChurnBinary', ci=None)] drops
      the rows where a value is missing and fits a line with
      [np.linalg.pinv]: the least-squares line, of least norm when the
      charges do not vary. *)

From S2P Require Import Prelude Frame Numeric ValueCounts Series Cut Tables Describe.
From stdpp Require Import sorting strings.

(** ** Countplots *)

Section countplot.
Context `{IndexKey X} `{IndexKey Hu}.
Variables (xkey : row -> option X) (hkey : row -> option Hu).

(** [categorical_order] of a column that is not categorical and not
    numeric: [pd.Series(v).unique()] without nulls. *)
Definition appearance_order (df : list row) (key : row -> option X) : list X :=
  first_appearance (map key df).

(** The height of the bar of [x] and [h]. *)
Definition bar_height (df : list row) (x : X) (h : Hu) : nat :=
  count_if (fun r => bool_decide (xkey r = Some x) && bool_decide (hkey r = Some h)) df.

(** The bars of a countplot: per [x] level, per [hue] level, the count. *)
Definition countplot (xlevels : list X) (hlevels : list Hu) (df : list row) : list (X * list (Hu * nat)) :=
  map (fun x => (x, map (fun h => (h, bar_height df x h)) hlevels)) xlevels.
End countplot.

(** [categorical_order] of a numeric column: its distinct values,
    sorted. *)
Definition numeric_order (df : list row) (key : row -> option Z) : list Z :=
  sort_keys (first_appearance (map key df)).

Definition churn_key (r : row) : option string := Churn (raw r).

(** The [Churn] levels of the hue: order of appearance. *)
Definition churn_levels (df : list row) : list string := appearance_order df churn_key.

(** Line 99: [x='Churn', hue='Churn']. *)
Definition churn_countplot (df : list row) : list (string * list (string * nat)) :=
  countplot churn_key churn_key (churn_levels df) (churn_levels df) df.

(** Line 102: [x='CitizensStatus'], a numeric column. *)
Definition citizenship_countplot (df : list row) : list (Z * list (string * nat)) :=
  let key := fun r => CitizensStatus (raw r) in
  countplot key churn_key (numeric_order df key) (churn_levels df) df.

(** Lines 105, 108, 111: [x='Contract'], ['TechSupport'],
    ['InternetService']. *)
Definition category_countplot (f : customer -> option string) (df : list row)
  : list (string * list (string * nat)) :=
  let key := fun r => f (raw r) in
  countplot key churn_key (appearance_order df key) (churn_levels df) df.

Definition contract_countplot := category_countplot Contract.
Definition tech_countplot := category_countplot TechSupport.
Definition internet_countplot := category_countplot InternetService.

(** Line 134: [x='ChargeRange'], a categorical column: all six
    categories. *)
Definition charge_range_countplot (df : list row) : list (string * list (string * nat)) :=
  countplot ChargeRange churn_key charge_labels (churn_levels df) df.

(** ** The boxplot *)

Record box_stats := mkBox {
  b_q1 : Q; b_med : Q; b_q3 : Q;
  b_whislo : Q; b_whishi : Q;
  b_fliers : list Q
}.

(** matplotlib's [boxplot_stats] of non-empty data with [whis=1.5]. *)
Definition boxplot_stats (vs : list Q) : option box_stats :=
  let ws := merge_sort Qle vs in
  match quantile_sorted (1 # 4) ws, quantile_sorted (1 # 2) ws, quantile_sorted (3 # 4) ws with
  | Fin q1, Fin med, Fin q3 =>
      let iqr := (q3 - q1)%Q in
      let loval := (q1 - (3 # 2) * iqr)%Q in
      let hival := (q3 + (3 # 2) * iqr)%Q in
      let wisklo := List.filter (fun v => Qle_bool loval v) vs in
      let wiskhi := List.filter (fun v => Qle_bool v hival) vs in
      let whislo := match wisklo with
                    | [] => q1
                    | w :: t => let m := foldl qmin w t in if Qlt_bool q1 m then q1 else m
                    end in
      let whishi := match wiskhi with
                    | [] => q3
                    | w :: t => let m := foldl qmax w t in if Qlt_bool m q3 then q3 else m
                    end in
      Some {| b_q1 := q1; b_med := med; b_q3 := q3; b_whislo := whislo; b_whishi := whishi;
              b_fliers := List.filter (fun v => Qlt_bool v whislo) vs ++
                          List.filter (fun v => Qlt_bool whishi v) vs |}
  | _, _, _ => None
  end.

(** Line 114: one box per [Churn] level, over the present charges of the
    level's rows. *)
Definition charges_boxplot (df : list row) : list (string * option box_stats) :=
  map (fun h => (h, boxplot_stats (present (map (fun r => MonthlyCharges (raw r))
                                              (List.filter (fun r => bool_decide (churn_key r = Some h)) df)))))
      (churn_levels df).

(** ** The regression line *)

(** The rows where both values are present. *)
Definition paired (xs : list (option Q)) (ys : list (option Q)) : list (Q * Q) :=
  omap (fun p => match p with (Some x, Some y) => Some (x, y) | _ => None end) (zip xs ys).

(** The coefficients of seaborn's [fit_fast] for [order=1]:
    [np.linalg.pinv(X).dot(y)] with the design matrix [X = [1, x]],
    returned as (slope, intercept).  [pinv] gives the least-squares
    solution of least norm: the usual line when the x values vary, the
    line [(my / (1 + mx^2)) * (1 + mx * x)] when they are all [mx], and
    the zero line without points. *)
Definition ols (pts : list (Q * Q)) : Q * Q :=
  match pts with
  | [] => (0, 0)%Q
  | _ :: _ =>
      let n := inject_Z (Z.of_nat (length pts)) in
      let mx := (sum_q (map fst pts) / n)%Q in
      let my := (sum_q (map snd pts) / n)%Q in
      let sxx := sum_q (map (fun p => (p.1 - mx) * (p.1 - mx))%Q pts) in
      let sxy := sum_q (map (fun p => (p.1 - mx) * (p.2 - my))%Q pts) in
      if Qeq_bool sxx 0 then
        let d := (1 + mx * mx)%Q in ((my * mx / d)%Q, (my / d)%Q)
      else let slope := (sxy / sxx)%Q in (slope, (my - slope * mx)%Q)
  end.

(** Line 144: the line of [regplot(x='MonthlyCharges', y='ChurnBinary')]. *)
Definition churn_regression (df : list row) : Q * Q :=
  ols (paired (map (fun r => MonthlyCharges (raw r)) df)
              (map (fun r => inject_Z <$> ChurnBinary r) df)).

(** ** Countplot lemmas *)

Section countplot_lemmas.
Context `{IndexKey X} `{IndexKey Hu}.
Variables (xkey : row -> option X) (hkey : row -> option Hu).

Lemma countplot_keys xl hl df : (countplot xkey hkey xl hl df).*1 = xl.
Proof. apply fmap_fst_map_fn. Qed.

Lemma countplot_row xl hl df x bars :
  (x, bars) ∈ countplot xkey hkey xl hl df <->
  x ∈ xl /\ bars = map (fun h => (h, bar_height xkey hkey df x h)) hl.
Proof. unfold countplot. rewrite elem_of_List_map. naive_solver. Qed.

(** The bars add up to the rows whose two values are levels. *)
Lemma countplot_sum xl hl df :
  NoDup xl -> NoDup hl ->
  sum_list_with (fun p => sum_list_with snd p.2) (countplot xkey hkey xl hl df) =
  count_if (fun r => in_categories xl (xkey r) && in_categories hl (hkey r)) df.
Proof.
  intros Hx Hh. unfold countplot. rewrite sum_list_with_map. cbn [snd].
  rewrite (sum_list_with_ext _ (fun x => count_if (fun r => in_categories hl (hkey r) &&
                                                  bool_decide (xkey r = Some x)) df)).
  - rewrite sum_count_if_in_categories by done. apply count_if_ext. intros r _.
    apply andb_comm.
  - intros x _. rewrite sum_list_with_map. cbn [snd]. unfold bar_height.
    rewrite sum_count_if_in_categories by done. apply count_if_ext. intros r _. apply andb_comm.
Qed.

(** On its own levels of appearance, a key is a level exactly when it is
    present. *)
Lemma in_appearance_order (key : row -> option X) df r :
  r ∈ df -> in_categories (appearance_order df key) (key r) = bool_decide (is_Some (key r)).
Proof.
  intros Hr. unfold appearance_order, in_categories. destruct (key r) as [k|] eqn:E; [|done].
  rewrite !bool_decide_eq_true_2; [done|eauto|].
  rewrite first_appearance_elem, <- E. apply elem_of_List_map. eauto.
Qed.
End countplot_lemmas.

(** ** Countplot properties *)

(** C15: A countplot of a string column (lines 105-111) has one group per
    value present in the column, in order of appearance, and one bar
    per [Churn] level.  Each bar is the number of rows with that value
    and that [Churn], and the bars add up to the rows where both are
    present. *)
Theorem category_countplot_spec (f : customer -> option string) df :
  (category_countplot f df).*1 = first_appearance (map (fun r => f (raw r)) df) /\
  (forall x bars, (x, bars) ∈ category_countplot f df ->
     bars.*1 = churn_levels df /\
     forall h n, (h, n) ∈ bars ->
       n = count_if (fun r => bool_decide (f (raw r) = Some x) && bool_decide (Churn (raw r) = Some h)) df) /\
  sum_list_with (fun p => sum_list_with snd p.2) (category_countplot f df) =
    count_if (fun r => bool_decide (is_Some (f (raw r))) && bool_decide (is_Some (Churn (raw r)))) df.
Proof.
  unfold category_countplot. split_and!.
  - apply countplot_keys.
  - intros x bars [_ ->]%countplot_row. split; [apply fmap_fst_map_fn|].
    intros h n (h' & [= <- ->] & _)%elem_of_List_map. reflexivity.
  - unfold churn_levels. rewrite countplot_sum by (unfold appearance_order; apply first_appearance_NoDup).
    apply count_if_ext. intros r Hr.
    by rewrite (in_appearance_order (fun r => f (raw r)) df r Hr), (in_appearance_order churn_key df r Hr).
Qed.

(** The [ChargeRange] countplot (line 134) lists all six ranges, in
    category order, even the ranges no customer falls in.  Its bars add
    up to the rows whose range is one of the six and whose [Churn] is
    present. *)
Theorem charge_range_countplot_spec df :
  (charge_range_countplot df).*1 = charge_labels /\
  sum_list_with (fun p => sum_list_with snd p.2) (charge_range_countplot df) =
    count_if (fun r => in_categories charge_labels (ChargeRange r) &&
                       bool_decide (is_Some (Churn (raw r)))) df.
Proof.
  split; [apply countplot_keys|]. unfold charge_range_countplot.
  rewrite countplot_sum; [|by apply (bool_decide_unpack _); vm_compute
                         |unfold churn_levels, appearance_order; apply first_appearance_NoDup].
  apply count_if_ext. intros r Hr. unfold churn_levels. by rewrite (in_appearance_order churn_key df r Hr).
Qed.

(** In the plot of line 99 ([x] and [hue] both [Churn]) only the bars
    on the diagonal are drawn: the bar of [x] under hue [x] is the number
    of rows with that [Churn], and every other bar is 0. *)
Theorem churn_countplot_diagonal df x bars h n :
  (x, bars) ∈ churn_countplot df -> (h, n) ∈ bars ->
  n = if decide (x = h) then count_of x (map churn_key df) else 0.
Proof.
  unfold churn_countplot. intros [_ ->]%countplot_row (h' & [= <- ->] & _)%elem_of_List_map.
  unfold bar_height. case_decide as Exh.
  - subst h. rewrite count_of_map. apply count_if_ext. intros r _.
    by destruct (bool_decide (churn_key r = Some x)).
  - apply count_if_false. intros r _. apply andb_false_iff.
    destruct (decide (churn_key r = Some x)); [right|left]; apply bool_decide_eq_false_2; congruence.
Qed.

(** ** Boxplot lemmas *)

Lemma elem_of_foldl_qmin (w : Q) (t : list Q) : foldl qmin w t ∈ w :: t.
Proof. apply foldl_qmin_spec. Qed.

Lemma elem_of_foldl_qmax (w : Q) (t : list Q) : foldl qmax w t ∈ w :: t.
Proof. apply foldl_qmax_spec. Qed.

(** The low whisker: the smallest value not below [loval], or [q1]. *)
Lemma whislo_bounds (q1 loval : Q) (vs : list Q) :
  (loval <= q1)%Q ->
  let wl := match List.filter (fun v => Qle_bool loval v) vs with
            | [] => q1
            | w :: t => let m := foldl qmin w t in if Qlt_bool q1 m then q1 else m
            end in
  (loval <= wl /\ wl <= q1)%Q.
Proof.
  intros Hlo. cbv zeta. destruct (List.filter _ vs) as [|w t] eqn:E; [lra|].
  assert (Hm : foldl qmin w t ∈ List.filter (fun v => Qle_bool loval v) vs)
    by (rewrite E; apply elem_of_foldl_qmin).
  apply elem_of_List_filter in Hm as [_ Hm%Qle_bool_iff].
  destruct (Qlt_bool q1 _) eqn:C; [lra|]. apply Qlt_bool_false in C. lra.
Qed.

(** The high whisker: the largest value not above [hival], or [q3]. *)
Lemma whishi_bounds (q3 hival : Q) (vs : list Q) :
  (q3 <= hival)%Q ->
  let wh := match List.filter (fun v => Qle_bool v hival) vs with
            | [] => q3
            | w :: t => let m := foldl qmax w t in if Qlt_bool m q3 then q3 else m
            end in
  (q3 <= wh /\ wh <= hival)%Q.
Proof.
  intros Hhi. cbv zeta. destruct (List.filter _ vs) as [|w t] eqn:E; [lra|].
  assert (Hm : foldl qmax w t ∈ List.filter (fun v => Qle_bool v hival) vs)
    by (rewrite E; apply elem_of_foldl_qmax).
  apply elem_of_List_filter in Hm as [_ Hm%Qle_bool_iff].
  destruct (Qlt_bool _ q3) eqn:C; [lra|]. apply Qlt_bool_false in C. lra.
Qed.

Lemma merge_sort_nil (vs : list Q) : vs <> [] -> merge_sort Qle vs <> [].
Proof.
  intros Hne E. apply Hne, length_zero_iff_nil.
  by rewrite <- (Permutation_length (merge_sort_Permutation Qle vs)), E.
Qed.

(** ** Boxplot properties *)

(** C16: A box of line 114 is ordered: low whisker <= Q1 <= median <= Q3
    <= high whisker.  The whiskers stay within 1.5 IQR of the box, and the
    outliers are exactly the values beyond the whiskers. *)
Theorem boxplot_stats_spec vs b :
  boxplot_stats vs = Some b ->
  (b_whislo b <= b_q1 b /\ b_q1 b <= b_med b /\ b_med b <= b_q3 b /\ b_q3 b <= b_whishi b)%Q /\
  (b_q1 b - (3 # 2) * (b_q3 b - b_q1 b) <= b_whislo b)%Q /\
  (b_whishi b <= b_q3 b + (3 # 2) * (b_q3 b - b_q1 b))%Q /\
  (forall v, v ∈ b_fliers b <-> v ∈ vs /\ (v < b_whislo b \/ b_whishi b < v)%Q).
Proof.
  intros Hb. destruct (decide (vs = [])) as [->|Hne]; [vm_compute in Hb; discriminate|].
  pose proof (Sorted_merge_sort Qle vs) as Hs. pose proof (merge_sort_nil vs Hne) as Hws.
  destruct (quantile_sorted_mono _ (1 # 4) (1 # 2) Hs Hws ltac:(discriminate) ltac:(discriminate)
              ltac:(discriminate)) as (q1 & med & E1 & E2 & L12).
  destruct (quantile_sorted_mono _ (1 # 2) (3 # 4) Hs Hws ltac:(discriminate) ltac:(discriminate)
              ltac:(discriminate)) as (med' & q3 & E2' & E3 & L23).
  rewrite E2 in E2'. injection E2' as <-.
  unfold boxplot_stats in Hb. rewrite E1, E2, E3 in Hb. cbv beta iota zeta in Hb.
  injection Hb as <-. cbn [b_q1 b_med b_q3 b_whislo b_whishi b_fliers].
  pose proof (whislo_bounds q1 (q1 - (3 # 2) * (q3 - q1)) vs ltac:(lra)) as WL.
  pose proof (whishi_bounds q3 (q3 + (3 # 2) * (q3 - q1)) vs ltac:(lra)) as WH.
  cbv zeta in WL, WH. split_and!; try lra.
  intros v. rewrite elem_of_app, !elem_of_List_filter, !Qlt_bool_true. tauto.
Qed.

Lemma boxplot_stats_None (vs : list Q) : boxplot_stats vs = None <-> vs = [].
Proof.
  split; [|intros ->; reflexivity]. intros Hb. destruct (decide (vs = [])) as [|Hne]; [done|].
  exfalso. pose proof (Sorted_merge_sort Qle vs) as Hs. pose proof (merge_sort_nil vs Hne) as Hws.
  destruct (quantile_sorted_mono _ (1 # 4) (1 # 2) Hs Hws ltac:(discriminate) ltac:(discriminate)
              ltac:(discriminate)) as (q1 & med & E1 & E2 & _).
  destruct (quantile_sorted_mono _ (1 # 2) (3 # 4) Hs Hws ltac:(discriminate) ltac:(discriminate)
              ltac:(discriminate)) as (? & q3 & _ & E3 & _).
  unfold boxplot_stats in Hb. rewrite E1, E2, E3 in Hb. discriminate.
Qed.

Lemma present_map_nil {A} (f : A -> option Q) (l : list A) :
  present (map f l) <> [] <-> exists x, x ∈ l /\ is_Some (f x).
Proof.
  induction l as [|x l IH]; simpl.
  - split; [done|]. intros (? & ?%elem_of_nil & _). done.
  - unfold present in *. cbn [omap list_omap]. destruct (f x) as [q|] eqn:E; simpl.
    + split; [intros _; exists x; rewrite E; split; [set_solver|eauto]|done].
    + rewrite IH. split; intros (y & Hy & Hs); exists y; split; try done; [set_solver|].
      apply elem_of_cons in Hy as [->|Hy]; [rewrite E in Hs; by destruct Hs|done].
Qed.

(** A [Churn] level of line 114 gets a box exactly when some row of
    that level has a [MonthlyCharges] value; otherwise seaborn draws
    nothing for it. *)
Theorem charges_boxplot_some df h bs :
  (h, bs) ∈ charges_boxplot df ->
  (is_Some bs <->
   exists r, r ∈ df /\ Churn (raw r) = Some h /\ is_Some (MonthlyCharges (raw r))).
Proof.
  unfold charges_boxplot. intros (h' & [= <- ->] & _)%elem_of_List_map.
  rewrite <- not_eq_None_Some, boxplot_stats_None, present_map_nil.
  setoid_rewrite elem_of_List_filter. setoid_rewrite bool_decide_eq_true. naive_solver.
Qed.

(** ** Regression lemmas *)

Lemma sum_q_ext_eq {A} (f g : A -> Q) (l : list A) :
  (forall x, x ∈ l -> f x == g x)%Q -> (sum_q (map f l) == sum_q (map g l))%Q.
Proof.
  induction l as [|x l IH]; intros Hfg; [reflexivity|]. cbn [map]. rewrite !sum_q_cons.
  rewrite (Hfg x), IH by set_solver. reflexivity.
Qed.

(** A sum of a quadratic form in the points is a combination of the
    basic sums. *)
Lemma sum_q_poly (pts : list (Q * Q)) (c0 cx cy cxx cxy : Q) :
  (sum_q (map (fun p => c0 + cx * p.1 + cy * p.2 + cxx * (p.1 * p.1) + cxy * (p.1 * p.2)) pts) ==
   c0 * inject_Z (Z.of_nat (length pts)) + cx * sum_q (map fst pts) + cy * sum_q (map snd pts) +
   cxx * sum_q (map (fun p => p.1 * p.1) pts) + cxy * sum_q (map (fun p => p.1 * p.2) pts))%Q.
Proof.
  induction pts as [|[x y] pts IH].
  - cbn. change (inject_Z 0) with 0%Q. ring.
  - cbn [map length]. rewrite !sum_q_cons, IH, Nat2Z.inj_succ, <- Z.add_1_r, inject_Z_plus.
    change (inject_Z 1) with 1%Q. cbn [fst snd]. ring.
Qed.

(** The residual sums of a line [a * x + b] in terms of the basic sums. *)
Lemma residual_sums (pts : list (Q * Q)) (a b : Q) :
  (sum_q (map (fun p => p.2 - (a * p.1 + b)) pts) ==
     sum_q (map snd pts) - a * sum_q (map fst pts) - b * inject_Z (Z.of_nat (length pts)))%Q /\
  (sum_q (map (fun p => p.1 * (p.2 - (a * p.1 + b))) pts) ==
     sum_q (map (fun p => p.1 * p.2) pts) - a * sum_q (map (fun p => p.1 * p.1) pts)
     - b * sum_q (map fst pts))%Q.
Proof.
  split.
  - rewrite (sum_q_ext_eq _ (fun p => (- b) + (- a) * p.1 + 1 * p.2 + 0 * (p.1 * p.1)
                                       + 0 * (p.1 * p.2))%Q) by (intros; ring).
    rewrite sum_q_poly. ring.
  - rewrite (sum_q_ext_eq _ (fun p => 0 + (- b) * p.1 + 0 * p.2 + (- a) * (p.1 * p.1)
                                       + 1 * (p.1 * p.2))%Q) by (intros; ring).
    rewrite sum_q_poly. ring.
Qed.

(** The centred sums in terms of the basic sums. *)
Lemma centered_sums (pts : list (Q * Q)) (mx my : Q) :
  (sum_q (map (fun p => (p.1 - mx) * (p.1 - mx)) pts) ==
     mx * mx * inject_Z (Z.of_nat (length pts)) - 2 * mx * sum_q (map fst pts)
     + sum_q (map (fun p => p.1 * p.1) pts))%Q /\
  (sum_q (map (fun p => (p.1 - mx) * (p.2 - my)) pts) ==
     mx * my * inject_Z (Z.of_nat (length pts)) - my * sum_q (map fst pts)
     - mx * sum_q (map snd pts) + sum_q (map (fun p => p.1 * p.2) pts))%Q.
Proof.
  split.
  - rewrite (sum_q_ext_eq _ (fun p => mx * mx + (- 2 * mx) * p.1 + 0 * p.2 + 1 * (p.1 * p.1)
                                       + 0 * (p.1 * p.2))%Q) by (intros; ring).
    rewrite sum_q_poly. ring.
  - rewrite (sum_q_ext_eq _ (fun p => mx * my + (- my) * p.1 + (- mx) * p.2 + 0 * (p.1 * p.1)
                                       + 1 * (p.1 * p.2))%Q) by (intros; ring).
    rewrite sum_q_poly. ring.
Qed.

(** A sum of squares is zero only when every term is. *)
Lemma sum_q_squares_zero {A} (f : A -> Q) (l : list A) :
  (sum_q (map (fun p => f p * f p) l) == 0)%Q -> forall p, p ∈ l -> (f p == 0)%Q.
Proof.
  induction l as [|x l IH]; intros Hs p Hp; [set_solver|]. cbn [map] in Hs. rewrite sum_q_cons in Hs.
  pose proof (Qsquare_nonneg (f x)).
  assert (0 <= sum_q (map (fun p => f p * f p) l))%Q.
  { apply sum_q_nonneg. intros y (z & -> & _)%elem_of_List_map. apply Qsquare_nonneg. }
  apply elem_of_cons in Hp as [->|Hp].
  - assert (Hx : (f x * f x == 0)%Q) by lra. by destruct (Qmult_integral _ _ Hx).
  - apply IH; [lra|done].
Qed.

Lemma length_nonzero {A} (x : A) (l : list A) : ~ (inject_Z (Z.of_nat (length (x :: l))) == 0)%Q.
Proof. unfold Qeq. cbn. lia. Qed.

(** ** Regression properties *)

(** C17: The line of line 144 is a least-squares line, whatever the
    data: its residuals sum to zero and are orthogonal to the charges
    (the normal equations).  This holds for the least-norm line of
    [pinv] too, when all charges are equal. *)
Theorem ols_normal_equations pts :
  let '(a, b) := ols pts in
  (sum_q (map (fun p => p.2 - (a * p.1 + b)) pts) == 0)%Q /\
  (sum_q (map (fun p => p.1 * (p.2 - (a * p.1 + b))) pts) == 0)%Q.
Proof.
  destruct pts as [|p0 ps]; [simpl; split; reflexivity|].
  pose proof (length_nonzero p0 ps) as Hn. unfold ols. cbv beta iota zeta.
  remember (p0 :: ps) as pts eqn:Ep. clear Ep.
  set (n := inject_Z (Z.of_nat (length pts))) in *.
  set (Sx := sum_q (map fst pts)). set (Sy := sum_q (map snd pts)).
  set (Sxx := sum_q (map (fun p => p.1 * p.1)%Q pts)). set (Sxy := sum_q (map (fun p => p.1 * p.2)%Q pts)).
  set (mx := (Sx / n)%Q). set (my := (Sy / n)%Q).
  destruct (centered_sums pts mx my) as [Exx Exy]. fold n Sx Sy Sxx Sxy in Exx, Exy.
  set (sxx := sum_q (map (fun p => (p.1 - mx) * (p.1 - mx))%Q pts)) in *.
  set (sxy := sum_q (map (fun p => (p.1 - mx) * (p.2 - my))%Q pts)) in *.
  assert (ESx : (Sx == mx * n)%Q) by (unfold mx; field; exact Hn).
  assert (ESy : (Sy == my * n)%Q) by (unfold my; field; exact Hn).
  assert (ESxx : (Sxx == sxx + mx * mx * n)%Q) by (rewrite ESx in Exx; lra).
  assert (ESxy : (Sxy == sxy + mx * my * n)%Q) by (rewrite ESx, ESy in Exy; lra).
  destruct (Qeq_bool sxx 0) eqn:Z0; cbv beta iota.
  - apply Qeq_bool_iff in Z0.
    assert (Hx := sum_q_squares_zero (fun p => p.1 - mx)%Q pts Z0).
    assert (Hsxy : (sxy == 0)%Q).
    { unfold sxy. rewrite (sum_q_ext_eq _ (fun p => 0 + 0 * p.1 + 0 * p.2 + 0 * (p.1 * p.1)
                                                   + 0 * (p.1 * p.2))%Q).
      - rewrite sum_q_poly. ring.
      - intros p Hp. cbn beta. rewrite (Hx p Hp). ring. }
    assert (Hd : ~ (1 + mx * mx == 0)%Q) by (pose proof (Qsquare_nonneg mx); lra).
    destruct (residual_sums pts (my * mx / (1 + mx * mx)) (my / (1 + mx * mx))) as [R1 R2].
    fold n Sx Sy Sxx Sxy in R1, R2. rewrite R1, R2, ESxx, ESxy, Z0, Hsxy, ESx, ESy.
    split; field; exact Hd.
  - assert (Hsxx : ~ (sxx == 0)%Q) by (intros E%Qeq_bool_iff; congruence).
    destruct (residual_sums pts (sxy / sxx) (my - sxy / sxx * mx)) as [R1 R2].
    fold n Sx Sy Sxx Sxy in R1, R2. rewrite R1, R2, ESxx, ESxy, ESx, ESy.
    split; field; exact Hsxx.
Qed.

(** ** Examples *)

(** Four customers paying 10, 20, 30 and 40 a month; the two who pay
    more have churned. *)
Definition charts_example_df : list row :=
  load_data [sample_customer "Male" "One year" 10 "No";
             sample_customer "Female" "One year" 20 "No";
             sample_customer "Male" "Month-to-month" 30 "Yes";
             sample_customer "Female" "Month-to-month" 40 "Yes"].

Lemma churn_countplot_diagonal_witness :
  ("Yes", [("No", 0); ("Yes", 2)]) ∈ churn_countplot charts_example_df /\
  ("Yes", 2) ∈ [("No", 0); ("Yes", 2)] /\
  2 = (if decide ("Yes" = "Yes") then count_of "Yes" (map churn_key charts_example_df) else 0).
Proof.
  assert (Hin : ("Yes", [("No", 0); ("Yes", 2)]) ∈ churn_countplot charts_example_df)
    by (vm_compute; right; left).
  assert (Hb : ("Yes", 2) ∈ [("No", 0); ("Yes", 2)]) by (right; left).
  split; [exact Hin|]. split; [exact Hb|].
  exact (churn_countplot_diagonal charts_example_df "Yes" _ "Yes" 2 Hin Hb).
Defined.

Lemma boxplot_stats_spec_witness :
  exists b, boxplot_stats [10; 20; 30; 40; 100]%Q = Some b /\
  (b_whislo b <= b_q1 b /\ b_q1 b <= b_med b /\ b_med b <= b_q3 b /\ b_q3 b <= b_whishi b)%Q /\
  (b_q1 b - (3 # 2) * (b_q3 b - b_q1 b) <= b_whislo b)%Q /\
  (b_whishi b <= b_q3 b + (3 # 2) * (b_q3 b - b_q1 b))%Q /\
  (forall v, v ∈ b_fliers b <-> v ∈ [10; 20; 30; 40; 100]%Q /\ (v < b_whislo b \/ b_whishi b < v)%Q).
Proof.
  eexists. split; [reflexivity|]. apply boxplot_stats_spec. reflexivity.
Defined.

Lemma charges_boxplot_some_witness :
  ("Yes", boxplot_stats [30; 40]%Q) ∈ charges_boxplot charts_example_df /\
  (is_Some (boxplot_stats [30; 40]%Q) <->
   exists r, r ∈ charts_example_df /\ Churn (raw r) = Some "Yes" /\ is_Some (MonthlyCharges (raw r))).
Proof.
  assert (Hin : ("Yes", boxplot_stats [30; 40]%Q) ∈ charges_boxplot charts_example_df)
    by (vm_compute; right; left).
  split; [exact Hin|]. exact (charges_boxplot_some _ _ _ Hin).
Defined.

(** The "Churn Probability" line of line 144 is not a probability:
    on the example frame it is below 0 at the smallest charge and above 1
    at the largest. *)
Theorem churn_regression_leaves_unit_interval :
  ((churn_regression charts_example_df).1 == 1 # 25)%Q /\
  ((churn_regression charts_example_df).2 == - (1 # 2))%Q /\
  let '(a, b) := churn_regression charts_example_df in
  (a * 10 + b < 0)%Q /\ (1 < a * 40 + b)%Q.
Proof.
  split; [vm_compute; reflexivity|]. split; [vm_compute; reflexivity|].
  vm_compute. split; reflexivity.
Qed.
