(* ===== verification/Page.v ===== *)
(** * The page the script renders

    Each Streamlit call of [teleco_app.py] that sends something to the
    browser is an [element].  A panel of the script is a list of [item]s:
    an element together with the columns of [df] its statements read, in
    the order they read them.  [df['X']] raises [KeyError] on a frame
    without the column [X] (and seaborn raises [ValueError] for a missing
    [x], [y] or [hue]), so the run ([Dashboard]) checks the columns of an
    item before it builds the element.

    An item builds [None] when its call raises on the data:
    [sns.heatmap] raises [ValueError] on an empty grid
    ([heatmap_drawable]).

    [snapshot_page objs df] is the page of a frame with rows [df] and
    object-dtype columns [objs] when nothing goes wrong: the heatmap reads
    the frame with [TotalChargeRange] (line 155), every other panel the
    frame as loaded; [pre_heatmap_page] is the part sent before line 155.
    [describe_numeric] drops the object columns, as [describe()] does.  [element_wf] is the shape a
    displayed table has, and [snapshot_page_wf] shows every table of the
    page has it.

    Strings are byte strings; the emoji of the headings are written in
    UTF-8, as Streamlit sends them.  The layout ([st.columns]) and the
    drawing are not modelled: an element carries the data shown. *)

From S2P Require Import Prelude Frame Numeric ValueCounts Series Cut Tables Pivot Describe Format Charts.
From stdpp Require Import strings.

(** ** Page elements *)

(** What a run sends to the browser, one constructor per kind of call. *)
Inductive element :=
| Title (s : string)                                        (* st.title *)
| Metric (label value : string)                             (* st.metric *)
| Subheader (s : string)                                    (* st.subheader *)
| TableView (t : table string)                              (* st.dataframe *)
| ZTableView (t : table Z)                                  (* st.dataframe, integer index *)
| DescribeView (t : list (string * describe_col))           (* st.dataframe of describe() *)
| RangeSummaryView (t : list (nat * string * list pyfloat)) (* st.dataframe, lines 124-129 *)
| SummaryView (t : list (string * pyfloat))                 (* st.dataframe, lines 176-180 *)
| KeyFactors (churn : list (string * list (string * nat)))
             (citizen : list (Z * list (string * nat)))
             (contract tech internet : list (string * list (string * nat)))
             (box : list (string * option box_stats))      (* st.pyplot(fig), lines 97-118 *)
| RangePlot (bars : list (string * list (string * nat)))    (* st.pyplot(fig_range) *)
| RegPlot (points : list (Q * Q)) (line : Q * Q)            (* st.pyplot(fig2) *)
| HeatmapPlot (cols : list string) (cells : list (string * list pyfloat)) (* st.pyplot(fig3) *)
| Markdown (s : string).                                    (* st.markdown *)

(** An element and the columns its statements read, in reading order.
    The element is built from the names of the object-dtype columns of the
    frame and its rows ([describe()] looks at the dtypes); [None] when
    the call raises on the data it is given. *)
Definition item : Type := list string * (list string -> list row -> option element).

(** Line 40: [DataFrame.describe()] with its default [include=None]
    describes the numeric columns only; an object column (a [TotalCharges]
    with a blank cell, say) is left out of the table without an error. *)
Definition describe_numeric (objs : list string) (df : list row) : list (string * describe_col) :=
  filter (fun p => p.1 ∉ objs) (describe_table df).

(** ** Panels *)

(** Lines 22-26 *)
Definition header_panel : list item :=
  [([], fun _ _ => Some (Title "📊 Telco Customer Churn Dashboard"));
   ([], fun _ df => Some (Metric "Total Customers" (metric_total_customers df)));
   (["ChurnBinary"], fun _ df => Some (Metric "Churn Rate" (metric_churn_rate df)));
   (["MonthlyCharges"], fun _ df => Some (Metric "Avg. Monthly Charges" (metric_avg_monthly_charges df)))].

(** Lines 29-40 *)
Definition distribution_panel : list item :=
  [([], fun _ _ => Some (Subheader "Churn Distribution"));
   (["Churn"], fun _ df => Some (TableView (churn_summary df)));
   ([], fun _ _ => Some (Subheader "Descriptive Statistics"));
   (["CitizensStatus"; "tenure"; "MonthlyCharges"; "TotalCharges"],
    fun objs df => Some (DescribeView (describe_numeric objs df)))].

(** Lines 45-91: the gender table and the five churn-by-category tables. *)
Definition category_panels : list item :=
  [([], fun _ _ => Some (Subheader "📝 Churn by Gender"));
   (["gender"; "Churn"], fun _ df => Some (TableView (gender_table df)));
   ([], fun _ _ => Some (Subheader "📝 Churn by Citizenship"));
   (["CitizensStatus"; "Churn"], fun _ df => Some (ZTableView (citizenship_table df)));
   ([], fun _ _ => Some (Subheader "📝 Churn by Contract"));
   (["Contract"; "Churn"], fun _ df => Some (TableView (contract_table df)));
   ([], fun _ _ => Some (Subheader "📝 Churn by Tech Support"));
   (["TechSupport"; "Churn"], fun _ df => Some (TableView (tech_table df)));
   ([], fun _ _ => Some (Subheader "📝 Churn by Internet Service"));
   (["InternetService"; "Churn"], fun _ df => Some (TableView (internet_table df)));
   ([], fun _ _ => Some (Subheader "📝 Churn by Payment Method"));
   (["PaymentMethod"; "Churn"], fun _ df => Some (TableView (pay_table df)))].

(** Lines 94-118: the figure is sent once all six plots are drawn. *)
Definition key_factors_panel : list item :=
  [([], fun _ _ => Some (Subheader "🔍 Churn Analysis - Key Factors"));
   (["Churn"; "CitizensStatus"; "Contract"; "TechSupport"; "InternetService"; "MonthlyCharges"],
    fun _ df => Some (KeyFactors (churn_countplot df) (citizenship_countplot df) (contract_countplot df)
                         (tech_countplot df) (internet_countplot df) (charges_boxplot df)))].

(** Lines 121-137 *)
Definition range_panel : list item :=
  [([], fun _ _ => Some (Subheader "📝 Churn by Monthly Charge Range"));
   (["ChargeRange"; "Churn"], fun _ df => Some (RangeSummaryView (ChargeRange_summary df)));
   (["ChargeRange"; "Churn"], fun _ df => Some (RangePlot (charge_range_countplot df)))].

(** Lines 142-148: the scatter points and the fitted line. *)
Definition regression_panel : list item :=
  [([], fun _ _ => Some (Subheader "📈 Churn Probability vs. Monthly Charges"));
   (["MonthlyCharges"; "ChurnBinary"],
    fun _ df => Some (RegPlot (paired (map (fun r => MonthlyCharges (raw r)) df)
                              (map (fun r => inject_Z <$> ChurnBinary r) df))
                      (churn_regression df)))].

(** Line 151, before the assignment of line 155. *)
Definition heatmap_heading : list item :=
  [([], fun _ _ => Some (Subheader "🔥 Heatmap: Churn % by TotalCharges & Contract"))].

(** Line 166: [sns.heatmap] takes [np.nanmin] of the grid, which raises
    [ValueError] ("zero-size array to reduction operation fmin which has
    no identity") on a grid with no row or no column. *)
Definition heatmap_drawable (df : list row) : bool :=
  bool_decide (churn_pct df <> [] /\ churn_pct_columns df <> []).

(** Lines 157-171, on the frame after line 155: the pivots read the
    bucket, the contract, the id and [Churn]; line 166 raises on an
    empty grid. *)
Definition heatmap_panel : list item :=
  [(["TotalChargeRange"; "Contract"; "customerID"; "Churn"],
    fun _ df => if heatmap_drawable df then Some (HeatmapPlot (churn_pct_columns df) (churn_pct df)) else None)].

(** Lines 174-180 *)
Definition summary_panel : list item :=
  [([], fun _ _ => Some (Subheader "📝 TotalCharges Summary"));
   (["TotalCharges"], fun _ df => Some (SummaryView (total_charge_summary df)))].

(** Lines 183-184 *)
Definition footer_panel : list item :=
  [([], fun _ _ => Some (Markdown "---")); ([], fun _ _ => Some (Markdown "Built by [Chile Okwuodu] | Â© 2025"))].

(** ** The page of a frame *)

(** The elements of a panel on a frame whose columns are all there. *)
Definition render (items : list item) (objs : list string) (df : list row) : list element :=
  omap (fun it => it.2 objs df) items.

(** The page when every panel reads its own snapshot, as the spec asks:
    only the heatmap reads the bucketed frame. *)
Definition pre_heatmap_page (objs : list string) (df : list row) : list element :=
  render header_panel objs df ++ render distribution_panel objs df ++
  render category_panels objs df ++ render key_factors_panel objs df ++
  render range_panel objs df ++ render regression_panel objs df ++ render heatmap_heading objs df.

Definition snapshot_page (objs : list string) (df : list row) : list element :=
  pre_heatmap_page objs df ++ render heatmap_panel objs (heatmap_frame df) ++
  render summary_panel objs df ++ render footer_panel objs df.

(** The shape a displayed table must have: distinct row labels and one
    cell per column ([table_wf]); the rows of the [ChargeRange] summary
    carry their three cells. *)
Definition element_wf (e : element) : Prop :=
  match e with
  | TableView t => table_wf t
  | ZTableView t => table_wf t
  | RangeSummaryView t => Forall (fun r => length r.2 = 3%nat) t
  | _ => True
  end.

(** ** Lemmas *)

(** Line 155 changes only [TotalChargeRange]: a panel that reads the raw
    columns sees the same frame before and after it. *)
Lemma heatmap_frame_raw (df : list row) : map raw (heatmap_frame df) = map raw df.
Proof. unfold heatmap_frame. rewrite map_map. reflexivity. Qed.

Lemma summary_panel_heatmap_frame (objs : list string) (df : list row) :
  render summary_panel objs (heatmap_frame df) = render summary_panel objs df.
Proof.
  unfold render, summary_panel, total_charge_summary, q_column. simpl.
  by rewrite <- (map_map raw (fun c => TotalCharges c)), heatmap_frame_raw, map_map.
Qed.

Lemma render_wf (items : list item) (objs : list string) (df : list row) :
  Forall (fun it => forall e, it.2 objs df = Some e -> element_wf e) items ->
  Forall element_wf (render items objs df).
Proof.
  induction 1 as [|it its Hit _ IH]; [constructor|]. unfold render. simpl.
  destruct (it.2 objs df) eqn:E; [constructor; eauto|exact IH].
Qed.

Lemma snapshot_page_wf (objs : list string) (df : list row) :
  Forall element_wf (snapshot_page objs df).
Proof.
  unfold snapshot_page, pre_heatmap_page. repeat apply Forall_app_2; apply render_wf; repeat constructor.
  all: cbn [snd]; intros e He; repeat case_match; simplify_eq; cbn [element_wf]; try exact I.
  all: first [apply churn_summary_wf | apply gender_table_wf | apply churn_table_wf
             | apply ChargeRange_summary_shape].
Qed.
