(* ===== verification/Dashboard.v ===== *)
(** * The render pass of the dashboard

    Streamlit runs [teleco_app.py] from top to bottom on every rerun.
    This file models one run as a sequence of statements over explicit
    state.
    - The [global] state outlives a run: the [st.cache_data] entry of
      [load_data] (lines 11-17) and the number of reads of the CSV file.
      The cache holds a serialized copy, so it is a value here, not a
      reference to the frame of a run.
    - The [local] state is the run's own: the frame bound to [df] (line
      19), with its column names, and the page elements sent so far.
    - [script] lists the statements in source order.  [LoadData] is
      line 19, [Emit] a panel of [Page] (its items in order), and
      [AssignTotalChargeRange] is the in-place assignment of line 155.
    A run can raise.  [pd.read_csv] may fail to read the file
    ([LoadError]).  [df['X']] raises [KeyError] when the frame has no
    column [X], and seaborn raises [ValueError] for a missing plotted
    column; both are [MissingColumn X].  [pd.cut] raises [TypeError] on
    a column [read_csv] typed [object] (line 15 on [MonthlyCharges], line
    155 on [TotalCharges]); that is [TypeMismatch X].  [sns.heatmap]
    raises [ValueError] on an empty grid (line 166); that is
    [PlotValueError].  An exception ends the run with
    the elements sent so far.  [st.cache_data] does not cache an
    exception of [load_data], but it caches a frame that loads and then
    lacks a column a later panel reads. *)

From S2P Require Import Prelude Frame Numeric ValueCounts Series Cut Tables Pivot Describe Format Csv ReadCsv Charts Page.
From stdpp Require Import relations strings.

(** ** Frames and files *)

(** [telecom_churned_data.csv] as [pd.read_csv] returns it is a
    [ReadCsv.csv_file]: its column names, its records and the names of
    its [object] columns. *)

(** A DataFrame: its column names, its rows and its [object] columns. *)
Record frame := mkFrame { fcols : list string; frows : list row; fobject : list string }.

(** The exceptions a run can raise. *)
Inductive error :=
| LoadError                      (* pd.read_csv fails to read the file *)
| MissingColumn (c : string)     (* KeyError / ValueError on a missing column *)
| TypeMismatch (c : string)      (* TypeError of pd.cut on an object column *)
| PlotValueError.                (* ValueError of sns.heatmap on an empty grid, line 166 *)

(** The first of the columns [reads] the frame does not have. *)
Definition missing_column (cols reads : list string) : option string :=
  List.find (fun c => bool_decide (c ∉ cols)) reads.

(** [df['X'] = ...] adds [X] at the end, or overwrites an existing [X]. *)
Definition add_column (c : string) (cols : list string) : list string :=
  if decide (c ∈ cols) then cols else cols ++ [c].

(** Lines 14-17 after [pd.read_csv]: line 14 reads [Churn], line 15
    [MonthlyCharges] and bins it, which raises on an [object] column; the
    two derived columns are added. *)
Definition load_frame (f : csv_file) : error + frame :=
  match missing_column (csv_columns f) ["Churn"; "MonthlyCharges"] with
  | Some c => inl (MissingColumn c)
  | None =>
      if decide ("MonthlyCharges" ∈ csv_object f) then inl (TypeMismatch "MonthlyCharges")
      else inr (mkFrame (add_column "ChargeRange" (add_column "ChurnBinary" (csv_columns f)))
                        (load_data (csv_records f)) (csv_object f))
  end.

(** Line 155: reads [TotalCharges] and bins it (raising on an [object]
    column), adds [TotalChargeRange] in place. *)
Definition assign_frame (v : frame) : error + frame :=
  match missing_column (fcols v) ["TotalCharges"] with
  | Some c => inl (MissingColumn c)
  | None =>
      if decide ("TotalCharges" ∈ fobject v) then inl (TypeMismatch "TotalCharges")
      else inr (mkFrame (add_column "TotalChargeRange" (fcols v)) (heatmap_frame (frows v)) (fobject v))
  end.

(** The items of a panel, in order: an item whose columns are there sends
    its element, the first one that reads a missing column raises, and so
    does one whose call raises on the data ([sns.heatmap] on an empty
    grid). *)
Fixpoint emit_items (cols objs : list string) (df : list row) (items : list item)
    (pg : list element) : list element * option error :=
  match items with
  | [] => (pg, None)
  | (rd, f) :: its =>
      match missing_column cols rd with
      | Some c => (pg, Some (MissingColumn c))
      | None =>
          match f objs df with
          | Some e => emit_items cols objs df its (pg ++ [e])
          | None => (pg, Some PlotValueError)
          end
      end
  end.

(** ** The run *)

(** The statements of the script that touch the state. *)
Inductive statement :=
| LoadData                              (* line 19: df = load_data() *)
| Emit (panel : list item)
| AssignTotalChargeRange.               (* line 155 *)

(** The script, in source order. *)
Definition script : list statement :=
  [LoadData; Emit header_panel; Emit distribution_panel; Emit category_panels;
   Emit key_factors_panel; Emit range_panel; Emit regression_panel;
   Emit heatmap_heading; AssignTotalChargeRange; Emit heatmap_panel;
   Emit summary_panel; Emit footer_panel].

(** State that outlives a run: the cache entry of [load_data] and the
    number of times the CSV file was read. *)
Record global := mkGlobal { cache : option frame; reads : nat }.

(** State of one run: the frame bound to [df] and the page so far. *)
Record local := mkLocal { df : frame; page : list element }.

Inductive result :=
| Ok (g : global) (l : local)
| Err (g : global) (l : local) (e : error).

(** One statement.  [csv] is the file, [None] when it cannot be read.  A
    cache hit returns a fresh copy of the cached frame; a miss reads the
    file, runs the body of [load_data] and stores its result. *)
Definition exec_step (csv : option csv_file) (s : statement) (g : global) (l : local) : result :=
  match s with
  | LoadData =>
      match cache g with
      | Some v => Ok g (mkLocal v (page l))
      | None =>
          match csv with
          | None => Err (mkGlobal None (S (reads g))) l LoadError
          | Some f =>
              match load_frame f with
              | inl e => Err (mkGlobal None (S (reads g))) l e
              | inr v => Ok (mkGlobal (Some v) (S (reads g))) (mkLocal v (page l))
              end
          end
      end
  | Emit items =>
      match emit_items (fcols (df l)) (fobject (df l)) (frows (df l)) items (page l) with
      | (pg, None) => Ok g (mkLocal (df l) pg)
      | (pg, Some e) => Err g (mkLocal (df l) pg) e
      end
  | AssignTotalChargeRange =>
      match assign_frame (df l) with
      | inl e => Err g l e
      | inr v => Ok g (mkLocal v (page l))
      end
  end.

(** A sequence of statements; an exception ends the run. *)
Fixpoint run_steps (csv : option csv_file) (ss : list statement) (g : global) (l : local) : result :=
  match ss with
  | [] => Ok g l
  | s :: ss' =>
      match exec_step csv s g l with
      | Ok g' l' => run_steps csv ss' g' l'
      | r => r
      end
  end.

(** One rerun of the script, from an empty page. *)
Definition run_script (csv : option csv_file) (g : global) : result :=
  run_steps csv script g (mkLocal (mkFrame [] [] []) []).

(** The columns of the file that some statement reads. *)
Definition csv_required : list string :=
  ["Churn"; "MonthlyCharges"; "CitizensStatus"; "tenure"; "TotalCharges"; "gender";
   "Contract"; "TechSupport"; "InternetService"; "PaymentMethod"; "customerID"].

(** A frame the script runs on without an exception: it has the file's
    columns the script reads and the two columns [load_data] adds,
    [TotalCharges] is not an [object] column, and the heatmap grid of the
    frame after line 155 has a row and a column. *)
Definition frame_ready (v : frame) : Prop :=
  csv_required ++ ["ChurnBinary"; "ChargeRange"] ⊆ fcols v /\ ("TotalCharges" ∉ fobject v) /\
  (heatmap_drawable (heatmap_frame (frows v)) = true).

(** The frame after line 155. *)
Definition assigned (v : frame) : frame :=
  mkFrame (add_column "TotalChargeRange" (fcols v)) (heatmap_frame (frows v)) (fobject v).

(** What a statement does to the run's own state when [df] is loaded with
    [v] and no column is missing. *)
Definition local_step (v : frame) (l : local) (s : statement) : local :=
  match s with
  | LoadData => mkLocal v (page l)
  | Emit items => mkLocal (df l) (page l ++ render items (fobject (df l)) (frows (df l)))
  | AssignTotalChargeRange => mkLocal (assigned (df l)) (page l)
  end.

(** The global state can serve [v] to [LoadData]: the cache holds [v],
    or it is empty and the file reads and loads as [v]. *)
Definition serves (csv : option csv_file) (v : frame) (g : global) : Prop :=
  cache g = Some v \/ (cache g = None /\ exists f, csv = Some f /\ load_frame f = inr v).

(** Reruns of a session: each one runs the script against the file as it
    is at that moment, and ends with a page or with an exception. *)
Inductive rerun : global -> global -> Prop :=
| rerun_ok csv g g' l : run_script csv g = Ok g' l -> rerun g g'
| rerun_err csv g g' l e : run_script csv g = Err g' l e -> rerun g g'.



(** ** Lemmas *)

(** The columns a statement reads, and the frame bound to [df] after it
    when [LoadData] loads [v]. *)
Definition stmt_reads (s : statement) : list string :=
  match s with
  | LoadData => []
  | Emit items => mjoin (map fst items)
  | AssignTotalChargeRange => ["TotalCharges"]
  end.

Definition stmt_frame (v d : frame) (s : statement) : frame :=
  match s with
  | LoadData => v
  | Emit _ => d
  | AssignTotalChargeRange => assigned d
  end.

(** The calls of the statement do not raise on the data of [d]: each item
    builds its element, and line 155 does not bin an [object] column. *)
Definition stmt_defined (d : frame) (s : statement) : Prop :=
  match s with
  | LoadData => True
  | Emit items => Forall (fun it : item => is_Some (it.2 (fobject d) (frows d))) items
  | AssignTotalChargeRange => "TotalCharges" ∉ fobject d
  end.

(** An item that builds its element on any data, and a statement all of
    whose items do. *)
Definition item_total (it : item) : Prop := forall objs rows, is_Some (it.2 objs rows).

Definition stmt_total (s : statement) : Prop :=
  match s with
  | Emit items => Forall item_total items
  | _ => True
  end.

(** Every statement finds the columns it reads, and its calls succeed. *)
Fixpoint steps_ok (v d : frame) (ss : list statement) : Prop :=
  match ss with
  | [] => True
  | s :: ss' => stmt_reads s ⊆ fcols d /\ stmt_defined d s /\ steps_ok v (stmt_frame v d s) ss'
  end.

(** The exception a statement raises because of the columns [cols] and
    the [object] columns [objs] of the frame. *)
Definition raised_on (cols objs : list string) (e : error) : Prop :=
  match e with
  | LoadError | PlotValueError => False
  | MissingColumn c => c ∉ cols
  | TypeMismatch c => c ∈ objs
  end.

(** The statements before and after line 155. *)
Definition pre_script : list statement :=
  [Emit header_panel; Emit distribution_panel; Emit category_panels; Emit key_factors_panel;
   Emit range_panel; Emit regression_panel; Emit heatmap_heading].

Definition post_script : list statement := [Emit heatmap_panel; Emit summary_panel; Emit footer_panel].

Ltac items_total :=
  repeat (apply Forall_cons_2 || apply Forall_nil_2); intros ??; eexists; reflexivity.

Lemma tail_script : tail script = pre_script ++ AssignTotalChargeRange :: post_script.
Proof. reflexivity. Qed.

Lemma pre_script_total : Forall stmt_total (pre_script ++ [AssignTotalChargeRange]).
Proof. repeat (apply Forall_cons_2 || apply Forall_nil_2); cbn [stmt_total]; try exact I; items_total. Qed.

Lemma Forall_item_total objs rows (items : list item) :
  Forall item_total items -> Forall (fun it : item => is_Some (it.2 objs rows)) items.
Proof. intros H. eapply Forall_impl; [exact H|]. intros it Hit. apply Hit. Qed.

Lemma run_steps_app csv ss1 ss2 g l :
  run_steps csv (ss1 ++ ss2) g l =
  match run_steps csv ss1 g l with Ok g' l' => run_steps csv ss2 g' l' | r => r end.
Proof.
  revert g l. induction ss1 as [|s ss1 IH]; intros g l; [done|]. simpl.
  destruct (exec_step csv s g l); [apply IH|done..].
Qed.

Lemma missing_column_None cols rd : missing_column cols rd = None <-> rd ⊆ cols.
Proof.
  induction rd as [|x rd IH]; simpl; [set_solver|].
  destruct (decide (x ∈ cols)) as [Hx|Hx].
  - rewrite bool_decide_false by tauto. rewrite IH. set_solver.
  - rewrite bool_decide_true by done. split; [discriminate|set_solver].
Qed.

Lemma missing_column_Some cols rd c : missing_column cols rd = Some c -> c ∉ cols.
Proof. intros (_ & Hc)%find_some. by apply bool_decide_eq_true in Hc. Qed.

Lemma add_column_elem x c cols : x ∈ add_column c cols <-> x = c \/ x ∈ cols.
Proof. unfold add_column. case_decide; set_solver. Qed.

Lemma raised_on_mono cols cols' objs objs' e :
  cols' ⊆ cols -> objs ⊆ objs' -> raised_on cols objs e -> raised_on cols' objs' e.
Proof. destruct e; simpl; set_solver. Qed.

Lemma emit_items_ok cols objs df items pg :
  mjoin (map fst items) ⊆ cols -> Forall (fun it : item => is_Some (it.2 objs df)) items ->
  emit_items cols objs df items pg = (pg ++ render items objs df, None).
Proof.
  revert pg. induction items as [|[rd f] items IH]; intros pg Hsub Hd; simpl; [by rewrite app_nil_r|].
  apply Forall_cons in Hd as [[e He] Hd]. simpl in He.
  rewrite (proj2 (missing_column_None cols rd)) by set_solver. rewrite He.
  rewrite IH by set_solver. unfold render. simpl. by rewrite <- app_assoc.
Qed.

Lemma emit_items_none cols objs df items pg pg' :
  emit_items cols objs df items pg = (pg', None) ->
  mjoin (map fst items) ⊆ cols /\ Forall (fun it : item => is_Some (it.2 objs df)) items /\
  pg' = pg ++ render items objs df.
Proof.
  revert pg. induction items as [|[rd f] items IH]; intros pg; simpl.
  - intros [= <-]. split_and!; [set_solver|constructor|by rewrite app_nil_r].
  - destruct (missing_column cols rd) eqn:Hm; [discriminate|].
    destruct (f objs df) as [e|] eqn:Hf; [|discriminate].
    intros (Hs & Hd & ->)%IH. apply missing_column_None in Hm. split_and!; [set_solver| |].
    + constructor; [by exists e|done].
    + unfold render. simpl. by rewrite <- app_assoc.
Qed.

Lemma emit_items_err cols objs df items pg pg' e :
  emit_items cols objs df items pg = (pg', Some e) ->
  pg' `prefix_of` pg ++ render items objs df /\
  ((exists c, e = MissingColumn c /\ c ∉ cols) \/
   (e = PlotValueError /\ Exists (fun it : item => it.2 objs df = None) items)).
Proof.
  revert pg. induction items as [|[rd f] items IH]; intros pg; simpl; [discriminate|].
  destruct (missing_column cols rd) as [c|] eqn:Hm.
  - intros [= <- <-]. split; [by apply prefix_app_r|]. left. eauto using missing_column_Some.
  - unfold render at 1. simpl. destruct (f objs df) as [e'|] eqn:Hf.
    + intros [Hp He]%IH. split; [by rewrite <- app_assoc in Hp|].
      destruct He as [He|[-> Hx]]; [by left|right; split; [done|by apply Exists_cons_tl]].
    + intros [= <- <-]. split; [by apply prefix_app_r|]. right. split; [done|by apply Exists_cons_hd].
Qed.

Lemma assign_frame_ok v :
  "TotalCharges" ∈ fcols v -> "TotalCharges" ∉ fobject v -> assign_frame v = inr (assigned v).
Proof.
  intros Hr Ht. unfold assign_frame. rewrite (proj2 (missing_column_None _ _)) by set_solver.
  by rewrite decide_False.
Qed.

Lemma assign_frame_inv v v' : assign_frame v = inr v' ->
  v' = assigned v /\ "TotalCharges" ∈ fcols v /\ "TotalCharges" ∉ fobject v.
Proof.
  unfold assign_frame. destruct (missing_column _ _) eqn:E; [discriminate|].
  apply missing_column_None in E. case_decide; [discriminate|]. intros [= <-]. set_solver.
Qed.

Lemma assign_frame_err v e : assign_frame v = inl e -> raised_on (fcols v) (fobject v) e.
Proof.
  unfold assign_frame. destruct (missing_column _ _) as [c|] eqn:E.
  - intros [= <-]. simpl. eauto using missing_column_Some.
  - case_decide; [|discriminate]. by intros [= <-].
Qed.

Lemma local_step_df v l s : df (local_step v l s) = stmt_frame v (df l) s.
Proof. by destruct s. Qed.

Lemma exec_step_hit csv v s g l :
  cache g = Some v -> stmt_reads s ⊆ fcols (df l) -> stmt_defined (df l) s ->
  exec_step csv s g l = Ok g (local_step v l s).
Proof.
  intros Hc Hr Ht. destruct s; simpl in *.
  - by rewrite Hc.
  - by rewrite emit_items_ok.
  - rewrite assign_frame_ok; set_solver.
Qed.

Lemma exec_step_hit_ok csv v s g l g' l' :
  cache g = Some v -> exec_step csv s g l = Ok g' l' ->
  g' = g /\ l' = local_step v l s /\ stmt_reads s ⊆ fcols (df l) /\ stmt_defined (df l) s.
Proof.
  intros Hc. destruct s; simpl.
  - rewrite Hc. intros [= <- <-]. split_and!; [done|done|set_solver|done].
  - destruct (emit_items _ _ _ _ _) as [pg [e|]] eqn:E; [discriminate|].
    intros [= <- <-]. apply emit_items_none in E as (? & ? & ->). done.
  - destruct (assign_frame (df l)) eqn:E; [discriminate|].
    apply assign_frame_inv in E as (-> & ? & ?). intros [= <- <-]. split_and!; [done..|set_solver|done].
Qed.

(** A statement whose items are total raises only because of the columns
    or the types of the frame. *)
Lemma exec_step_hit_err csv v s g l g' l' e :
  cache g = Some v -> exec_step csv s g l = Err g' l' e ->
  g' = g /\ df l' = df l /\ page l' `prefix_of` page (local_step v l s) /\
  (stmt_total s -> raised_on (fcols (df l)) (fobject (df l)) e).
Proof.
  intros Hc. destruct s; simpl.
  - by rewrite Hc.
  - destruct (emit_items _ _ _ _ _) as [pg [e'|]] eqn:E; [|discriminate].
    intros [= <- <- <-]. apply emit_items_err in E as [? [(c & -> & ?)|[-> Hx]]]; [done|].
    split_and!; [done..|]. intros Ht. apply Exists_exists in Hx as (it & Hit & Hn).
    rewrite Forall_forall in Ht. destruct (Ht it Hit (fobject (df l)) (frows (df l))) as [x Hx].
    congruence.
  - destruct (assign_frame (df l)) eqn:E; [|discriminate].
    intros [= <- <- <-]. split_and!; [done..|by intros _; apply assign_frame_err].
Qed.

Lemma run_steps_hit csv v ss g l :
  cache g = Some v -> steps_ok v (df l) ss ->
  run_steps csv ss g l = Ok g (foldl (local_step v) l ss).
Proof.
  intros Hc. revert l. induction ss as [|s ss IH]; intros l Hok; [done|].
  destruct Hok as (Hs & Ht & Hok). simpl. rewrite (exec_step_hit _ v) by done. apply IH.
  by rewrite local_step_df.
Qed.

Lemma run_steps_hit_ok csv v ss g l g' l' :
  cache g = Some v -> run_steps csv ss g l = Ok g' l' -> steps_ok v (df l) ss.
Proof.
  intros Hc. revert l. induction ss as [|s ss IH]; intros l; simpl; [done|].
  destruct (exec_step csv s g l) as [g1 l1|] eqn:E; [|discriminate].
  destruct (exec_step_hit_ok _ _ _ _ _ _ _ Hc E) as (-> & -> & Hs & Ht). intros Hr.
  split_and!; [done|done|]. apply IH in Hr. by rewrite local_step_df in Hr.
Qed.

Lemma foldl_local_step_prefix v ss l : page l `prefix_of` page (foldl (local_step v) l ss).
Proof.
  revert l. induction ss as [|s ss IH]; intros l; [done|]. simpl. etrans; [|apply IH].
  destruct s; simpl; [done|by apply prefix_app_r|done].
Qed.

Lemma foldl_local_step_app_prefix v ss1 ss2 l :
  page (foldl (local_step v) l ss1) `prefix_of` page (foldl (local_step v) l (ss1 ++ ss2)).
Proof. rewrite foldl_app. apply foldl_local_step_prefix. Qed.

(** Once [df] holds [v], its columns include those of [v] and its
    [object] columns are those of [v]: a run of total statements raises
    because of them. *)
Lemma run_steps_hit_err csv v ss g l g' l' e :
  cache g = Some v -> fcols v ⊆ fcols (df l) -> fobject (df l) ⊆ fobject v -> Forall stmt_total ss ->
  run_steps csv ss g l = Err g' l' e ->
  g' = g /\ page l' `prefix_of` page (foldl (local_step v) l ss) /\ raised_on (fcols v) (fobject v) e.
Proof.
  intros Hc. revert l. induction ss as [|s ss IH]; intros l Hv Ho Htot; simpl; [discriminate|].
  apply Forall_cons in Htot as [Hts Htot].
  destruct (exec_step csv s g l) as [g1 l1|g1 l1 e1] eqn:E.
  - destruct (exec_step_hit_ok _ _ _ _ _ _ _ Hc E) as (-> & -> & _). apply IH; [|rewrite local_step_df..|done];
      destruct s; simpl; try done.
    intros x Hx. apply add_column_elem. set_solver.
  - intros [= <- <- <-]. destruct (exec_step_hit_err _ _ _ _ _ _ _ _ Hc E) as (-> & _ & Hp & He).
    split_and!; [done| |by apply (raised_on_mono _ _ _ _ _ Hv Ho), He].
    etrans; [exact Hp|]. apply foldl_local_step_prefix.
Qed.

Lemma steps_ok_reads v d ss :
  steps_ok v d ss -> mjoin (map stmt_reads ss) ⊆ fcols d ++ fcols v ++ ["TotalChargeRange"].
Proof.
  revert d. induction ss as [|s ss IH]; intros d; simpl; [set_solver|].
  intros (Hs & _ & Hok%IH). intros x [Hx|Hx]%elem_of_app; [set_solver|].
  apply Hok in Hx. destruct s; simpl in Hx; [set_solver|set_solver|].
  rewrite !elem_of_app, add_column_elem in Hx. set_solver.
Qed.

(** The frame of a successful load: the file's columns and the two
    derived ones. *)
Lemma load_frame_cols f v x :
  load_frame f = inr v -> x ∈ fcols v <-> x ∈ csv_columns f \/ x = "ChurnBinary" \/ x = "ChargeRange".
Proof.
  unfold load_frame. destruct (missing_column _ _); [discriminate|]. case_decide; [discriminate|].
  intros [= <-]. simpl. rewrite !add_column_elem. tauto.
Qed.

Lemma load_frame_objs f v : load_frame f = inr v -> fobject v = csv_object f.
Proof.
  unfold load_frame. destruct (missing_column _ _); [discriminate|]. case_decide; [discriminate|].
  by intros [= <-].
Qed.

Lemma script_pages (v : frame) (l : local) :
  foldl (local_step v) l script = mkLocal (assigned v) (page l ++ snapshot_page (fobject v) (frows v)).
Proof.
  cbn [foldl local_step script df page assigned frows]. rewrite summary_panel_heatmap_frame.
  f_equal. unfold snapshot_page, pre_heatmap_page.
  rewrite !app_assoc. reflexivity.
Qed.

Lemma tail_script_page v :
  page (foldl (local_step v) (mkLocal v []) (tail script)) = snapshot_page (fobject v) (frows v).
Proof.
  change (foldl (local_step v) (mkLocal v []) (tail script))
    with (foldl (local_step v) (mkLocal (mkFrame [] [] []) []) script).
  by rewrite script_pages.
Qed.

Lemma add_column_sub c base cols : base ⊆ cols -> base ++ [c] ⊆ add_column c cols.
Proof. intros Hb x [Hx|Hx]%elem_of_app; apply add_column_elem; set_solver. Qed.

(** The script finds its columns and draws its heatmap on a ready frame. *)
Lemma script_steps_ok v d : frame_ready v -> steps_ok v d script.
Proof.
  unfold frame_ready. intros (Hr & Ho & Hd).
  cbn [steps_ok script stmt_frame stmt_reads stmt_defined assigned fobject frows]. split_and!.
  all: first [exact I | exact Ho | apply list_subseteq_nil
             | etrans; [|exact Hr]; apply (bool_decide_unpack _); vm_compute; reflexivity
             | etrans; [|exact (add_column_sub "TotalChargeRange" _ _ Hr)];
               apply (bool_decide_unpack _); vm_compute; reflexivity
             | apply Forall_item_total; items_total
             | apply Forall_cons_2; [cbn [snd]; rewrite Hd; eexists; reflexivity|apply Forall_nil_2]].
Qed.

Lemma run_steps_miss f v ss g l :
  cache g = None -> load_frame f = inr v ->
  run_steps (Some f) (LoadData :: ss) g l =
  run_steps (Some f) ss (mkGlobal (Some v) (S (reads g))) (mkLocal v (page l)).
Proof. intros Hc Hv. simpl. by rewrite Hc, Hv. Qed.

Lemma run_script_hit csv g v :
  cache g = Some v -> frame_ready v ->
  run_script csv g = Ok g (mkLocal (assigned v) (snapshot_page (fobject v) (frows v))).
Proof.
  intros Hc Hr. unfold run_script. rewrite (run_steps_hit _ v); [|done|by apply script_steps_ok].
  by rewrite script_pages.
Qed.

(** A run that starts with the frame cached leaves the global state as it is. *)
Lemma run_steps_hit_global csv v ss g l :
  cache g = Some v -> match run_steps csv ss g l with Ok g' _ | Err g' _ _ => g' = g end.
Proof.
  intros Hc. revert l. induction ss as [|s ss IH]; intros l; simpl; [done|].
  destruct (exec_step csv s g l) eqn:E.
  - destruct (exec_step_hit_ok _ _ _ _ _ _ _ Hc E) as (-> & _ & _). apply IH.
  - by destruct (exec_step_hit_err _ _ _ _ _ _ _ _ Hc E).
Qed.

Lemma rerun_hit g g' v : rerun g g' -> cache g = Some v -> g' = g.
Proof.
  intros [csv ? ? l Hr|csv ? ? l e Hr] Hc;
    pose proof (run_steps_hit_global csv v script _ (mkLocal (mkFrame [] [] []) []) Hc) as Hg;
    unfold run_script in Hr; by rewrite Hr in Hg.
Qed.

Lemma rtc_rerun_hit g g' v : rtc rerun g g' -> cache g = Some v -> g' = g.
Proof.
  induction 1 as [|g1 g2 g3 H12 _ IH]; intros Hc; [done|].
  pose proof (rerun_hit _ _ v H12 Hc) as ->. by apply IH.
Qed.

(** Every column of the file the script reads is read before line 155
    or by the heatmap. *)
Lemma csv_required_read :
  csv_required ⊆ mjoin (map stmt_reads (pre_script ++ [AssignTotalChargeRange])) ++ mjoin (map fst heatmap_panel).
Proof. apply (bool_decide_unpack _). vm_compute. reflexivity. Qed.

Lemma csv_required_not_derived c :
  c ∈ csv_required -> c <> "TotalChargeRange" /\ c <> "ChurnBinary" /\ c <> "ChargeRange".
Proof.
  intros Hc.
  assert (H : Forall (fun c => c ∉ ["TotalChargeRange"; "ChurnBinary"; "ChargeRange"]) csv_required)
    by (apply (bool_decide_unpack _); vm_compute; reflexivity).
  rewrite Forall_forall in H. specialize (H c Hc). set_solver.
Qed.

Lemma exec_heatmap_missing csv g l c :
  missing_column (fcols (df l)) (mjoin (map fst heatmap_panel)) = Some c ->
  exec_step csv (Emit heatmap_panel) g l = Err g (mkLocal (df l) (page l)) (MissingColumn c).
Proof. intros Hm. simpl in *. by rewrite Hm. Qed.

(** After the load, on a frame that lacks a column the script reads, the
    run raises on a missing column of the frame or on an [object] column
    of it, after a prefix of the snapshot page: either before line 155
    or, at the latest, when the heatmap looks up its columns. *)
Lemma tail_not_ready csv v g c :
  cache g = Some v -> c ∈ csv_required -> c ∉ fcols v ->
  exists l e, run_steps csv (tail script) g (mkLocal v []) = Err g l e /\
    page l `prefix_of` snapshot_page (fobject v) (frows v) /\ raised_on (fcols v) (fobject v) e.
Proof.
  intros Hc Hreq Hnot. rewrite <- tail_script_page.
  replace (tail script) with ((pre_script ++ [AssignTotalChargeRange]) ++ post_script) by reflexivity.
  rewrite run_steps_app.
  destruct (run_steps csv (pre_script ++ _) g (mkLocal v [])) as [g1 l1|g1 l1 e] eqn:Hr.
  - pose proof (run_steps_hit_ok _ v _ _ _ _ _ Hc Hr) as Hok0.
    pose proof (steps_ok_reads _ _ _ Hok0) as Hok.
    rewrite (run_steps_hit _ v _ _ _ Hc Hok0) in Hr. injection Hr as <- <-.
    destruct (csv_required_not_derived c Hreq) as (Ht & _).
    assert (Hh : c ∈ mjoin (map fst heatmap_panel)).
    { apply csv_required_read, elem_of_app in Hreq as [Hin|]; [|done]. apply Hok in Hin. set_solver. }
    set (l1 := foldl (local_step v) (mkLocal v []) (pre_script ++ [AssignTotalChargeRange])).
    assert (Hd : fcols (df l1) = add_column "TotalChargeRange" (fcols v)) by reflexivity.
    destruct (missing_column (fcols (df l1)) (mjoin (map fst heatmap_panel))) as [c'|] eqn:Hm.
    + unfold post_script. cbn [run_steps]. rewrite (exec_heatmap_missing _ _ _ _ Hm).
      apply missing_column_Some in Hm. rewrite Hd, add_column_elem in Hm.
      eexists _, _. split_and!; [reflexivity|apply foldl_local_step_app_prefix|]. simpl. tauto.
    + apply missing_column_None in Hm. exfalso. specialize (Hm c Hh).
      rewrite Hd, add_column_elem in Hm. tauto.
  - apply (run_steps_hit_err _ v) in Hr as (-> & Hp & He); [|done|done|done|apply pre_script_total].
    exists l1, e. split_and!; [done| |done]. etrans; [exact Hp|]. apply foldl_local_step_app_prefix.
Qed.











(** A rerun that ends normally has loaded some frame and rendered its
    snapshot page. *)
Lemma run_script_ok_page csv g g' l :
  run_script csv g = Ok g' l -> exists v, l = mkLocal (assigned v) (snapshot_page (fobject v) (frows v)).
Proof.
  unfold run_script. destruct (cache g) as [v|] eqn:Hc.
  - intros Hr. pose proof (run_steps_hit_ok _ _ _ _ _ _ _ Hc Hr) as Hok.
    rewrite (run_steps_hit _ v) in Hr by done. injection Hr as _ <-.
    exists v. exact (script_pages v (mkLocal (mkFrame [] [] []) [])).
  - destruct csv as [f|]; [|cbn [script run_steps exec_step]; rewrite Hc; discriminate].
    destruct (load_frame f) as [e|v] eqn:Hv; [cbn [script run_steps exec_step]; rewrite Hc, Hv; discriminate|].
    unfold script. rewrite (run_steps_miss f v) by done. intros Hr.
    assert (Hc' : cache (mkGlobal (Some v) (S (reads g))) = Some v) by done.
    pose proof (run_steps_hit_ok _ _ _ _ _ _ _ Hc' Hr) as Hok.
    rewrite (run_steps_hit _ v) in Hr by done. injection Hr as _ <-.
    exists v. exact (script_pages v (mkLocal (mkFrame [] [] []) [])).
Qed.

(** Whatever the cache holds, a rerun that can be served [v] runs the
    rest of the script on [v] with [v] cached. *)
Lemma run_script_serves csv g v :
  serves csv v g ->
  run_script csv g = run_steps csv (tail script)
    (mkGlobal (Some v) (if cache g is Some _ then reads g else S (reads g))) (mkLocal v []).
Proof.
  unfold run_script. change script with (LoadData :: tail script).
  intros [Hc|(Hc & f & -> & Hv)].
  - cbn [run_steps exec_step]. rewrite Hc. destruct g; simpl in *. by subst.
  - rewrite (run_steps_miss f v) by done. by rewrite Hc.
Qed.

(** The panels before line 155 need the columns only, not the types. *)
Lemma run_pre_script csv v g :
  cache g = Some v -> csv_required ++ ["ChurnBinary"; "ChargeRange"] ⊆ fcols v ->
  run_steps csv pre_script g (mkLocal v []) = Ok g (mkLocal v (pre_heatmap_page (fobject v) (frows v))).
Proof.
  intros Hc Hr. rewrite (run_steps_hit _ v); [|done|].
  2: { cbn [steps_ok pre_script stmt_defined stmt_reads stmt_frame df]. split_and!; try exact I.
       all: first [apply Forall_item_total; items_total
                  | etrans; [|exact Hr]; apply (bool_decide_unpack _); vm_compute; reflexivity]. }
  cbn [foldl local_step pre_script df page]. unfold pre_heatmap_page. by rewrite !app_assoc.
Qed.


Lemma exec_heatmap_empty csv g l :
  mjoin (map fst heatmap_panel) ⊆ fcols (df l) -> heatmap_drawable (frows (df l)) = false ->
  exec_step csv (Emit heatmap_panel) g l = Err g (mkLocal (df l) (page l)) PlotValueError.
Proof.
  intros Hs Hd. cbn [exec_step emit_items heatmap_panel snd].
  rewrite (proj2 (missing_column_None _ _)) by (simpl in Hs; set_solver). by rewrite Hd.
Qed.

(** On a frame with the columns and a numeric [TotalCharges] but an empty
    heatmap grid, the run raises at line 166 after the heading. *)
Lemma run_script_empty_heatmap csv g v :
  serves csv v g -> csv_required ++ ["ChurnBinary"; "ChargeRange"] ⊆ fcols v ->
  "TotalCharges" ∉ fobject v -> heatmap_drawable (heatmap_frame (frows v)) = false ->
  run_script csv g =
    Err (mkGlobal (Some v) (if cache g is Some _ then reads g else S (reads g)))
        (mkLocal (assigned v) (pre_heatmap_page (fobject v) (frows v))) PlotValueError.
Proof.
  intros Hg Hr Ho Hd.
  rewrite (run_script_serves _ _ v Hg), tail_script, run_steps_app, run_pre_script by done.
  cbn [run_steps exec_step df page]. rewrite assign_frame_ok by set_solver.
  unfold post_script. cbn [run_steps]. rewrite exec_heatmap_empty; [reflexivity| |exact Hd].
  etrans; [|exact (add_column_sub "TotalChargeRange" _ _ Hr)].
  apply (bool_decide_unpack _); vm_compute; reflexivity.
Qed.

(** ** Properties *)

(** C12: A rerun that can load a ready frame [v] (from the cache, or by
    reading the file on a miss) renders the snapshot page of [v]: the
    in-place assignment of line 155 changes what the heatmap reads and
    nothing else on the page.  Afterwards the cache holds [v], and the
    file was read once more exactly when the cache was empty. *)
Theorem run_script_snapshot csv g v :
  serves csv v g -> frame_ready v ->
  run_script csv g =
    Ok (mkGlobal (Some v) (if cache g is Some _ then reads g else S (reads g)))
       (mkLocal (assigned v) (snapshot_page (fobject v) (frows v))).
Proof.
  intros [Hc|(Hc & f & -> & Hv)] Hr.
  - rewrite (run_script_hit _ _ v Hc Hr). destruct g; simpl in *. by subst.
  - unfold run_script, script. rewrite (run_steps_miss f v) by done.
    rewrite (run_steps_hit _ v); [|done|exact (proj2 (proj2 (script_steps_ok v (mkFrame [] [] []) Hr)))]. rewrite Hc.
    f_equal. exact (script_pages v (mkLocal (mkFrame [] [] []) [])).
Qed.

(** C36: A file whose [MonthlyCharges] column [read_csv] types as
    [object] (one blank or non-numeric cell is enough) stops the rerun
    at line 15 with a [TypeError] of [pd.cut], before anything is
    rendered.  The failed load is not cached and the file was read, so
    every rerun reads it again and fails again.  The spec asks a type
    mismatch to abort one computation, not the whole render. *)
Theorem object_monthly_charges_load_error f g :
  cache g = None -> "Churn" ∈ csv_columns f -> "MonthlyCharges" ∈ csv_columns f ->
  "MonthlyCharges" ∈ csv_object f ->
  run_script (Some f) g =
    Err (mkGlobal None (S (reads g))) (mkLocal (mkFrame [] [] []) []) (TypeMismatch "MonthlyCharges").
Proof.
  intros Hc H1 H2 Ho. unfold run_script. change script with (LoadData :: tail script).
  cbn [run_steps exec_step]. rewrite Hc. unfold load_frame.
  rewrite (proj2 (missing_column_None _ _)) by set_solver. by rewrite decide_True.
Qed.

(** C30: A file that loads with every column the script reads but with
    an [object] [TotalCharges] column (a blank cell is enough) renders
    the page up to the heatmap heading: its descriptive statistics leave
    [TotalCharges] out without an error.  Line 155 then raises
    [TypeMismatch "TotalCharges"], so the heatmap, the [TotalCharges]
    summary and the footer are never sent, while the frame stays cached
    and every later rerun fails the same way. *)
Theorem object_total_charges_aborts csv g v :
  serves csv v g -> csv_required ++ ["ChurnBinary"; "ChargeRange"] ⊆ fcols v ->
  "TotalCharges" ∈ fobject v ->
  run_script csv g =
    Err (mkGlobal (Some v) (if cache g is Some _ then reads g else S (reads g)))
        (mkLocal v (pre_heatmap_page (fobject v) (frows v))) (TypeMismatch "TotalCharges") /\
  DescribeView (describe_numeric (fobject v) (frows v)) ∈ pre_heatmap_page (fobject v) (frows v) /\
  "TotalCharges" ∉ (describe_numeric (fobject v) (frows v)).*1.
Proof.
  intros Hg Hr Ho. split_and!.
  - rewrite (run_script_serves _ _ v Hg), tail_script, run_steps_app, run_pre_script by done.
    cbn [run_steps exec_step]. unfold assign_frame.
    rewrite (proj2 (missing_column_None _ _)) by set_solver. by rewrite decide_True.
  - unfold pre_heatmap_page, render. cbn. set_solver.
  - unfold describe_numeric. intros ([x d] & Hxe & Hx)%list_elem_of_fmap. simpl in Hxe. subst x.
    apply list_elem_of_filter in Hx as [Hx _]. simpl in Hx. contradiction.
Qed.

(** C31: A file that loads with every column the script reads and a
    numeric [TotalCharges], but whose heatmap grid after line 155 has no
    row or no column (every total charge outside the bins (0, 9000] of
    line 153, say), renders the page up to the heatmap heading; then
    [sns.heatmap] at line 166 raises [ValueError] on the empty grid, so
    the heatmap, the [TotalCharges] summary and the footer are never
    sent.  The frame stays cached, and every later rerun, whatever the
    file holds then, fails the same way. *)
Theorem empty_heatmap_aborts csv g v :
  serves csv v g -> csv_required ++ ["ChurnBinary"; "ChargeRange"] ⊆ fcols v ->
  "TotalCharges" ∉ fobject v -> heatmap_drawable (heatmap_frame (frows v)) = false ->
  let g1 := mkGlobal (Some v) (if cache g is Some _ then reads g else S (reads g)) in
  run_script csv g = Err g1 (mkLocal (assigned v) (pre_heatmap_page (fobject v) (frows v))) PlotValueError /\
  forall g' csv', rtc rerun g1 g' ->
    run_script csv' g' = Err g1 (mkLocal (assigned v) (pre_heatmap_page (fobject v) (frows v))) PlotValueError.
Proof.
  intros Hg Hr Ho Hd g1. split; [exact (run_script_empty_heatmap _ _ _ Hg Hr Ho Hd)|].
  intros g' csv' Hs. rewrite (rtc_rerun_hit _ _ v Hs eq_refl).
  exact (run_script_empty_heatmap csv' g1 v (or_introl eq_refl) Hr Ho Hd).
Qed.

(** C29: When the cache is empty and the file cannot be read, the rerun
    stops at line 19 with [LoadError] before anything is rendered.  The
    failed read is counted, and the cache stays empty, so the next rerun
    reads the file again. *)
Theorem run_script_load_error g :
  cache g = None ->
  run_script None g = Err (mkGlobal None (S (reads g))) (mkLocal (mkFrame [] [] []) []) LoadError.
Proof. intros Hc. unfold run_script. cbn [script run_steps exec_step]. by rewrite Hc. Qed.

(** C23: A file that has [Churn] and [MonthlyCharges] but lacks another
    column the script reads loads, and its frame is cached.  The rerun
    then raises on a column the file lacks, after sending a prefix of the
    page, and every later rerun raises too, whatever the file holds then,
    because the cached frame is served again. *)
Theorem missing_column_cached f v g c :
  cache g = None -> load_frame f = inr v -> c ∈ csv_required -> c ∉ csv_columns f ->
  (exists l e, run_script (Some f) g = Err (mkGlobal (Some v) (S (reads g))) l e /\
     page l `prefix_of` snapshot_page (fobject v) (frows v) /\
     raised_on (csv_columns f) (csv_object f) e) /\
  (forall g' csv', rtc rerun (mkGlobal (Some v) (S (reads g))) g' ->
     exists l e, run_script csv' g' = Err (mkGlobal (Some v) (S (reads g))) l e /\
       page l `prefix_of` snapshot_page (fobject v) (frows v)).
Proof.
  intros Hc Hv Hreq Hnot.
  assert (Hnv : c ∉ fcols v).
  { rewrite (load_frame_cols f v c Hv). destruct (csv_required_not_derived c Hreq) as (_ & ? & ?). tauto. }
  assert (Hc' : cache (mkGlobal (Some v) (S (reads g))) = Some v) by done.
  split.
  - unfold run_script, script. rewrite (run_steps_miss f v) by done.
    destruct (tail_not_ready (Some f) v _ c Hc' Hreq Hnv) as (l & e & Hr & Hp & He).
    exists l, e. split_and!; [exact Hr|done|]. revert He. apply raised_on_mono.
    + intros x. rewrite (load_frame_cols f v x Hv). tauto.
    + by rewrite (load_frame_objs f v Hv).
  - intros g' csv' Hg. rewrite (rtc_rerun_hit _ _ v Hg Hc').
    destruct (tail_not_ready csv' v _ c Hc' Hreq Hnv) as (l & e & Hr & Hp & _).
    exists l, e. split; [|done]. unfold run_script. simpl. exact Hr.
Qed.

(** C14: Once a session has cached a ready frame, every later rerun
    shows the page of that frame, whatever the file holds then (even
    when it can no longer be read): [st.cache_data] is keyed on the
    function alone and is never invalidated. *)
Theorem cached_page_ignores_file g g' v csv :
  cache g = Some v -> frame_ready v -> rtc rerun g g' ->
  run_script csv g' = Ok g (mkLocal (assigned v) (snapshot_page (fobject v) (frows v))).
Proof. intros Hc Hr Hg. rewrite (rtc_rerun_hit g g' v Hg Hc). by apply run_script_hit. Qed.



(** C18: Every table a rerun displays is well formed: its row labels
    are distinct and each row has one cell per column, and each row of
    the [ChargeRange] summary has its three cells.  This holds for any
    file content and cache state that let the rerun finish. *)
Theorem rendered_tables_wf csv g g' l :
  run_script csv g = Ok g' l -> Forall element_wf (page l).
Proof. intros Hr. destruct (run_script_ok_page _ _ _ _ Hr) as [v ->]. apply snapshot_page_wf. Qed.

(** Bucketing is idempotent: assigning [TotalChargeRange] to a frame
    that already has it (line 155 run twice on one frame) changes
    nothing. *)
Theorem heatmap_frame_idempotent (df : list row) :
  heatmap_frame (heatmap_frame df) = heatmap_frame df.
Proof. unfold heatmap_frame. rewrite map_map. reflexivity. Qed.

(** ** Examples *)

(** A customer with every column the script reads. *)
Definition dash_customer (id g ct : string) (mc tc : Q) (ch : string) : customer :=
  {| customerID := Some id; gender := Some g; CitizensStatus := Some 0%Z; tenure := Some 10%Z;
     Contract := Some ct; TechSupport := Some "No"; InternetService := Some "DSL";
     PaymentMethod := Some "Electronic check"; MonthlyCharges := Some mc; TotalCharges := Some tc;
     Churn := Some ch |}.

(** The file before and after a customer is added to it, with the
    columns the script reads. *)
Definition csv_v1 : csv_file := mkCsv csv_required [dash_customer "0001" "Male" "One year" 25 250 "Yes"] [].
Definition csv_v2 : csv_file :=
  mkCsv csv_required (csv_records csv_v1 ++ [dash_customer "0002" "Female" "Month-to-month" 15 150 "No"]) [].

(** A file whose one customer has total charges above the last bin edge
    (9000) of line 153: no row of the heatmap grid survives. *)
Definition csv_high_total : csv_file :=
  mkCsv csv_required [dash_customer "0003" "Male" "Two year" 110 9350 "No"] [].

(** The first file without its [gender] column. *)
Definition csv_no_gender : csv_file :=
  mkCsv (List.filter (fun c => bool_decide (c <> "gender")) csv_required) (csv_records csv_v1) [].

(** The frames the files load as. *)
Definition frame_v1 : frame :=
  mkFrame (csv_required ++ ["ChurnBinary"; "ChargeRange"]) (load_data (csv_records csv_v1)) [].
Definition frame_v2 : frame :=
  mkFrame (csv_required ++ ["ChurnBinary"; "ChargeRange"]) (load_data (csv_records csv_v2)) [].
Definition frame_high_total : frame :=
  mkFrame (csv_required ++ ["ChurnBinary"; "ChargeRange"]) (load_data (csv_records csv_high_total)) [].
Definition frame_no_gender : frame :=
  mkFrame (csv_columns csv_no_gender ++ ["ChurnBinary"; "ChargeRange"]) (load_data (csv_records csv_v1)) [].


Lemma frame_v1_ready : frame_ready frame_v1.
Proof. split_and!; [apply (bool_decide_unpack _); vm_compute; reflexivity..|vm_compute; reflexivity]. Qed.

Lemma serves_v1 : serves (Some csv_v1) frame_v1 (mkGlobal None 0).
Proof. right. split; [done|]. exists csv_v1. split; [done|]. vm_compute. reflexivity. Qed.

Lemma run_script_snapshot_witness :
  serves (Some csv_v1) frame_v1 (mkGlobal None 0) /\ frame_ready frame_v1 /\
  run_script (Some csv_v1) (mkGlobal None 0) =
    Ok (mkGlobal (Some frame_v1) 1) (mkLocal (assigned frame_v1) (snapshot_page (fobject frame_v1) (frows frame_v1))).
Proof.
  split_and!; [exact serves_v1|exact frame_v1_ready|].
  exact (run_script_snapshot _ _ _ serves_v1 frame_v1_ready).
Defined.

Lemma empty_heatmap_aborts_witness :
  serves (Some csv_high_total) frame_high_total (mkGlobal None 0) /\
  csv_required ++ ["ChurnBinary"; "ChargeRange"] ⊆ fcols frame_high_total /\
  "TotalCharges" ∉ fobject frame_high_total /\
  heatmap_drawable (heatmap_frame (frows frame_high_total)) = false /\
  run_script (Some csv_high_total) (mkGlobal None 0) =
    Err (mkGlobal (Some frame_high_total) 1)
        (mkLocal (assigned frame_high_total) (pre_heatmap_page (fobject frame_high_total) (frows frame_high_total)))
        PlotValueError.
Proof.
  assert (H1 : serves (Some csv_high_total) frame_high_total (mkGlobal None 0)).
  { right. split; [done|]. exists csv_high_total. split; [done|]. vm_compute. reflexivity. }
  assert (H2 : csv_required ++ ["ChurnBinary"; "ChargeRange"] ⊆ fcols frame_high_total)
    by (apply (bool_decide_unpack _); vm_compute; reflexivity).
  assert (H3 : "TotalCharges" ∉ fobject frame_high_total) by (apply (bool_decide_unpack _); vm_compute; reflexivity).
  assert (H4 : heatmap_drawable (heatmap_frame (frows frame_high_total)) = false) by (vm_compute; reflexivity).
  split_and!; [exact H1|exact H2|exact H3|exact H4|].
  exact (proj1 (empty_heatmap_aborts _ _ _ H1 H2 H3 H4)).
Defined.

Lemma run_script_load_error_witness :
  cache (mkGlobal None 2) = None /\
  run_script None (mkGlobal None 2) = Err (mkGlobal None 3) (mkLocal (mkFrame [] [] []) []) LoadError.
Proof. split; [reflexivity|]. exact (run_script_load_error (mkGlobal None 2) eq_refl). Defined.

Lemma missing_column_cached_witness :
  cache (mkGlobal None 0) = None /\ load_frame csv_no_gender = inr frame_no_gender /\
  "gender" ∈ csv_required /\ "gender" ∉ csv_columns csv_no_gender /\
  forall g' csv', rtc rerun (mkGlobal (Some frame_no_gender) 1) g' ->
     exists l e, run_script csv' g' = Err (mkGlobal (Some frame_no_gender) 1) l e /\
       page l `prefix_of` snapshot_page (fobject frame_no_gender) (frows frame_no_gender).
Proof.
  assert (H1 : load_frame csv_no_gender = inr frame_no_gender) by (vm_compute; reflexivity).
  assert (H2 : "gender" ∈ csv_required) by (apply (bool_decide_unpack _); vm_compute; reflexivity).
  assert (H3 : "gender" ∉ csv_columns csv_no_gender) by (apply (bool_decide_unpack _); vm_compute; reflexivity).
  split_and!; [reflexivity|exact H1|exact H2|exact H3|].
  exact (proj2 (missing_column_cached csv_no_gender frame_no_gender (mkGlobal None 0) "gender" eq_refl H1 H2 H3)).
Defined.

Lemma cached_page_ignores_file_witness :
  cache (mkGlobal (Some frame_v1) 1) = Some frame_v1 /\ frame_ready frame_v1 /\
  rtc rerun (mkGlobal (Some frame_v1) 1) (mkGlobal (Some frame_v1) 1) /\
  run_script (Some csv_v2) (mkGlobal (Some frame_v1) 1) =
    Ok (mkGlobal (Some frame_v1) 1) (mkLocal (assigned frame_v1) (snapshot_page (fobject frame_v1) (frows frame_v1))).
Proof.
  split_and!; [reflexivity|exact frame_v1_ready|apply rtc_refl|].
  exact (cached_page_ignores_file (mkGlobal (Some frame_v1) 1) _ frame_v1 (Some csv_v2) eq_refl
           frame_v1_ready (rtc_refl _ _)).
Defined.




Lemma rendered_tables_wf_witness :
  run_script (Some csv_v2) (mkGlobal None 0) =
    Ok (mkGlobal (Some frame_v2) 1) (mkLocal (assigned frame_v2) (snapshot_page (fobject frame_v2) (frows frame_v2))) /\
  Forall element_wf (snapshot_page (fobject frame_v2) (frows frame_v2)).
Proof.
  assert (H : run_script (Some csv_v2) (mkGlobal None 0) =
                Ok (mkGlobal (Some frame_v2) 1) (mkLocal (assigned frame_v2) (snapshot_page (fobject frame_v2) (frows frame_v2))))
    by (vm_compute; reflexivity).
  split; [exact H|]. exact (rendered_tables_wf _ _ _ _ H).
Defined.

(** The cache goes stale: after a rerun has loaded the one-customer
    file, the file gains a second customer, and the next rerun still
    shows "Total Customers: 1" and does not read the file. *)
Theorem stale_total_customers :
  exists l1 l2,
  run_script (Some csv_v1) (mkGlobal None 0) = Ok (mkGlobal (Some frame_v1) 1) l1 /\
  run_script (Some csv_v2) (mkGlobal (Some frame_v1) 1) = Ok (mkGlobal (Some frame_v1) 1) l2 /\
  Metric "Total Customers" "1" ∈ page l2 /\ length (csv_records csv_v2) = 2%nat.
Proof.
  do 2 eexists. split; [vm_compute; reflexivity|]. split; [vm_compute; reflexivity|].
  split; [vm_compute; right; left|reflexivity].
Qed.

(** Without [gender], the page stops after the subheader of the gender
    table: the header, the distribution panel and that subheader are
    sent, then [KeyError: 'gender'] is raised. *)
Theorem no_gender_page :
  exists l, run_script (Some csv_no_gender) (mkGlobal None 0) =
    Err (mkGlobal (Some frame_no_gender) 1) l (MissingColumn "gender") /\
  length (page l) = 9%nat.
Proof. eexists. split; [vm_compute; reflexivity|reflexivity]. Qed.

(** The first two customers of the Telco data set as text, the second
    with the blank [TotalCharges] of a customer of tenure 0. *)
Definition telco_header : string :=
  "customerID,gender,CitizensStatus,tenure,Contract,TechSupport,InternetService,PaymentMethod,MonthlyCharges,TotalCharges,Churn".

Definition blank_total_text : string :=
  telco_header +:+ String lf (
  "7590-VHVEG,Female,0,1,Month-to-month,No,DSL,Electronic check,29.85,29.85,No" +:+ String lf (
  "4472-LVYGI,Female,0,0,Two year,Yes,DSL,Bank transfer (automatic),52.55, ,No" +:+ String lf EmptyString)).

(** The same customers with a blank [MonthlyCharges] instead. *)
Definition blank_monthly_text : string :=
  telco_header +:+ String lf (
  "7590-VHVEG,Female,0,1,Month-to-month,No,DSL,Electronic check,29.85,29.85,No" +:+ String lf (
  "4472-LVYGI,Female,0,0,Two year,Yes,DSL,Bank transfer (automatic), ,0,No" +:+ String lf EmptyString)).

Definition loaded_file (text : string) : csv_file :=
  match load_text text with Loaded f => f | _ => mkCsv [] [] [] end.

Definition frame_blank_total : frame :=
  match load_frame (loaded_file blank_total_text) with inr v => v | inl _ => mkFrame [] [] [] end.

Lemma object_monthly_charges_load_error_witness :
  load_text blank_monthly_text = Loaded (loaded_file blank_monthly_text) /\
  cache (mkGlobal None 0) = None /\ "Churn" ∈ csv_columns (loaded_file blank_monthly_text) /\
  "MonthlyCharges" ∈ csv_columns (loaded_file blank_monthly_text) /\
  "MonthlyCharges" ∈ csv_object (loaded_file blank_monthly_text) /\
  run_script (Some (loaded_file blank_monthly_text)) (mkGlobal None 0) =
    Err (mkGlobal None 1) (mkLocal (mkFrame [] [] []) []) (TypeMismatch "MonthlyCharges").
Proof.
  assert (H1 : "Churn" ∈ csv_columns (loaded_file blank_monthly_text))
    by (apply (bool_decide_unpack _); vm_compute; reflexivity).
  assert (H2 : "MonthlyCharges" ∈ csv_columns (loaded_file blank_monthly_text))
    by (apply (bool_decide_unpack _); vm_compute; reflexivity).
  assert (H3 : "MonthlyCharges" ∈ csv_object (loaded_file blank_monthly_text))
    by (apply (bool_decide_unpack _); vm_compute; reflexivity).
  split_and!; [vm_compute; reflexivity|reflexivity|exact H1|exact H2|exact H3|].
  exact (object_monthly_charges_load_error _ (mkGlobal None 0) eq_refl H1 H2 H3).
Defined.

Lemma object_total_charges_aborts_witness :
  load_text blank_total_text = Loaded (loaded_file blank_total_text) /\
  serves (Some (loaded_file blank_total_text)) frame_blank_total (mkGlobal None 0) /\
  csv_required ++ ["ChurnBinary"; "ChargeRange"] ⊆ fcols frame_blank_total /\
  "TotalCharges" ∈ fobject frame_blank_total /\
  run_script (Some (loaded_file blank_total_text)) (mkGlobal None 0) =
    Err (mkGlobal (Some frame_blank_total) 1)
        (mkLocal frame_blank_total (pre_heatmap_page (fobject frame_blank_total) (frows frame_blank_total)))
        (TypeMismatch "TotalCharges").
Proof.
  assert (H1 : serves (Some (loaded_file blank_total_text)) frame_blank_total (mkGlobal None 0)).
  { right. split; [done|]. eexists. split; [reflexivity|]. vm_compute. reflexivity. }
  assert (H2 : csv_required ++ ["ChurnBinary"; "ChargeRange"] ⊆ fcols frame_blank_total)
    by (apply (bool_decide_unpack _); vm_compute; reflexivity).
  assert (H3 : "TotalCharges" ∈ fobject frame_blank_total)
    by (apply (bool_decide_unpack _); vm_compute; reflexivity).
  split_and!; [vm_compute; reflexivity|exact H1|exact H2|exact H3|].
  exact (proj1 (object_total_charges_aborts _ _ _ H1 H2 H3)).
Defined.
